(** * The MOST data query engine: DataQueryable and DataAttributeResolver

    A shallow embedding of [modules/@themost/data/queryable.js] (the fluent
    query builder, the nested attribute resolver and the execution pipeline)
    together with the parts of the data model it calls into, followed by the
    properties of the engine that are stated in the specification.

    Conventions.
    - JavaScript values that reach the engine from outside (result rows, hook
      results) are kept as a small untyped [Value] tree; an object is an
      association list in insertion order, because [Object.keys(x)[0]] is
      observable.
    - [this] is passed explicitly: a builder method takes the queryable and
      returns the updated one.
    - Callbacks are turned into results: [callback(err)] is [inl err],
      [callback(null, x)] is [inr x].  Every run also produces the list of
      observable effects it performed (adapter calls, hook emissions, console
      output), so that "the adapter is not called" is a statement about that
      list. *)

From Stdlib Require Import String Ascii List ZArith Bool Lia.
From ExtLib Require Import Structures.Monad.
Import ListNotations.
Import MonadNotation.

Local Open Scope list_scope.
Local Open Scope string_scope.
Local Open Scope monad_scope.

Set Implicit Arguments.
Set Warnings "-register-all".

(* ===================================================================== *)
(** ** JavaScript values *)
(* ===================================================================== *)

Module Js.

Inductive Value : Type :=
| VUndefined
| VNull
| VBool (b : bool)
| VNum (n : Z)
| VStr (s : string)
| VArr (items : list Value)
| VObj (props : list (string * Value)).

(** [if (v)] *)
Definition truthy (v : Value) : bool :=
  match v with
  | VUndefined | VNull => false
  | VBool b => b
  | VNum n => negb (n =? 0)%Z
  | VStr s => negb (s =? "")
  | VArr _ | VObj _ => true
  end.

(** [_.isNil(v)] *)
Definition isNil (v : Value) : bool :=
  match v with
  | VUndefined | VNull => true
  | _ => false
  end.

Fixpoint assoc {A : Type} (k : string) (l : list (string * A)) : option A :=
  match l with
  | [] => None
  | (k', v) :: r => if k' =? k then Some v else assoc k r
  end.

(** Decimal rendering of an array index, as [Object.keys] reports it. *)
Definition digit (n : nat) : ascii := ascii_of_nat (48 + n).

Fixpoint index_key_aux (fuel n : nat) (acc : string) : string :=
  match fuel with
  | O => acc
  | S fuel' =>
      let acc' := String (digit (Nat.modulo n 10)) acc in
      match Nat.div n 10 with
      | O => acc'
      | q => index_key_aux fuel' q acc'
      end
  end.

Definition index_key (n : nat) : string := index_key_aux (S n) n "".

Fixpoint index_keys (i len : nat) : list string :=
  match len with
  | O => []
  | S len' => index_key i :: index_keys (S i) len'
  end.

Fixpoint at_index_key {A : Type} (k : string) (i : nat) (l : list A) : option A :=
  match l with
  | [] => None
  | x :: r => if index_key i =? k then Some x else at_index_key k (S i) r
  end.

Fixpoint chars (s : string) : list string :=
  match s with
  | EmptyString => []
  | String c r => String c "" :: chars r
  end.

(** [Object.keys(v)] for a value that is neither [null] nor [undefined]. *)
Definition keys (v : Value) : list string :=
  match v with
  | VObj props => map fst props
  | VArr items => index_keys 0 (List.length items)
  | VStr s => index_keys 0 (String.length s)
  | _ => []
  end.

(** [v[k]] for a value that is neither [null] nor [undefined]; a missing
    property reads as [undefined]. *)
Definition get (v : Value) (k : string) : Value :=
  match v with
  | VObj props => match assoc k props with Some x => x | None => VUndefined end
  | VArr items => match at_index_key k 0 items with Some x => x | None => VUndefined end
  | VStr s => match at_index_key k 0 (chars s) with Some c => VStr c | None => VUndefined end
  | _ => VUndefined
  end.

(** [obj.hasOwnProperty(k)] on a plain object literal. *)
Definition hasOwn (k : string) (props : list (string * Value)) : bool :=
  match assoc k props with Some _ => true | None => false end.

(** [_.assign(target, source)] on plain objects: keys of [source] overwrite
    in place, new keys are appended. *)
Fixpoint set_prop (k : string) (v : Value) (props : list (string * Value))
  : list (string * Value) :=
  match props with
  | [] => [(k, v)]
  | (k', v') :: r => if k' =? k then (k', v) :: r else (k', v') :: set_prop k v r
  end.

Definition assign (target source : list (string * Value)) : list (string * Value) :=
  fold_left (fun acc kv => set_prop (fst kv) (snd kv) acc) source target.

(** Structural comparison, standing for [===] on primitives. *)
Fixpoint eqb (a b : Value) {struct a} : bool :=
  match a, b with
  | VUndefined, VUndefined => true
  | VNull, VNull => true
  | VBool x, VBool y => Bool.eqb x y
  | VNum x, VNum y => (x =? y)%Z
  | VStr x, VStr y => (x =? y)
  | VArr xs, VArr ys =>
      (fix go (l1 l2 : list Value) : bool :=
         match l1, l2 with
         | [], [] => true
         | x :: r1, y :: r2 => eqb x y && go r1 r2
         | _, _ => false
         end) xs ys
  | VObj xs, VObj ys =>
      (fix go (l1 l2 : list (string * Value)) : bool :=
         match l1, l2 with
         | [], [] => true
         | (k1, x) :: r1, (k2, y) :: r2 => (k1 =? k2) && eqb x y && go r1 r2
         | _, _ => false
         end) xs ys
  | _, _ => false
  end.

(** The first decimal digit of a positive integer, and the number of digits
    that follow it. *)
Fixpoint leading (fuel : nat) (n after : Z) : Z * Z :=
  if (n <? 10)%Z then (n, after)
  else match fuel with
       | O => (n, after)
       | S fuel' => leading fuel' (n / 10)%Z (after + 1)%Z
       end.

(** [parseInt(n)] of a number.  The numbers of this development are the
    integers that the number format holds.  [parseInt] converts its argument
    to a string and reads the digits at its start.  Below [10^21] the string
    is the decimal notation of the integer, and the value is the integer
    itself.  From [10^21] on the string is the exponent notation of the
    shortest decimal that reads back as the same number ([1e+21],
    [1.5e+22]), and the value is its first digit, negated for a negative
    number; that digit is the first digit of the integer, unless the next
    multiple of the power of ten is within half a unit in the last place of
    it (with 53 significant bits; the bound itself counts for an even
    significand), which rounds the first digit up. *)
Definition parseInt (n : Z) : Z :=
  let a := Z.abs n in
  if (a <? 10 ^ 21)%Z then n
  else
    let '(d, after) := leading (Z.to_nat (Z.log2 a)) a 0 in
    let ulp := (2 ^ (Z.log2 a - 52))%Z in
    let next := ((d + 1) * 10 ^ after)%Z in
    let reached := if Z.even (a / ulp)
                   then (2 * next <=? 2 * a + ulp)%Z
                   else (2 * next <? 2 * a + ulp)%Z in
    let digit := if reached then (if (d =? 9)%Z then 1 else d + 1)%Z else d in
    (Z.sgn n * digit)%Z.

End Js.

Export Js.

(** Comparison of optional strings: [a === b] where either side may be
    [undefined]. *)
Definition opt_eqb (a b : option string) : bool :=
  match a, b with
  | None, None => true
  | Some x, Some y => x =? y
  | _, _ => false
  end.

Definition is_some {A : Type} (o : option A) : bool :=
  match o with Some _ => true | None => false end.

(** [a || b] on optional strings, an empty string being falsy. *)
Definition or_else (a : option string) (b : string) : string :=
  match a with
  | Some x => if x =? "" then b else x
  | None => b
  end.

(* ===================================================================== *)
(** ** Query expressions *)
(* ===================================================================== *)

(** The query object model ([qry.fields], [qry.entity], [qry.query]) lives
    in the query package, outside the files of the data layer.  The records
    below hold what the data layer reads and writes on those objects. *)

Module Query.

(** Modelled from the spec: a query field, the result of
    [qry.fields.select(name).from(entity).as(alias)] or of an aggregate
    constructor such as [qry.fields.count(name)]; [qf_fn] is the aggregate
    envelope ([$count], [$max], ...) when there is one. *)
Record QueryField := mkField {
  qf_name : string;
  qf_from : option string;
  qf_as : option string;
  qf_fn : option string
}.

Definition fields_select (name : string) : QueryField :=
  mkField name None None None.

Definition fields_fn (fn name : string) : QueryField :=
  mkField name None None (Some fn).

Definition fields_count : string -> QueryField := fields_fn "count".

Definition from (entity : string) (f : QueryField) : QueryField :=
  mkField (qf_name f) (Some entity) (qf_as f) (qf_fn f).

Definition as_ (alias : string) (f : QueryField) : QueryField :=
  mkField (qf_name f) (qf_from f) (Some alias) (qf_fn f).

(** [f.name()]: the plain field name, [null] for an aggregate envelope. *)
Definition name_of (f : QueryField) : option string :=
  match qf_fn f with
  | Some _ => None
  | None => Some (qf_name f)
  end.

(** The key under which the adapter reports the field in a result row. *)
Definition result_key (f : QueryField) : string :=
  match qf_as f with
  | Some a => a
  | None => qf_name f
  end.

(** Modelled from the spec: a join entity, the result of
    [qry.entity(name).as(alias).left()]. *)
Record QueryEntity := mkEntity {
  ent_name : string;
  ent_as : option string;
  ent_join : option string;
  ent_fields : list QueryField
}.

Definition entity (name : string) : QueryEntity := mkEntity name None None [].

Definition entity_as (alias : string) (e : QueryEntity) : QueryEntity :=
  mkEntity (ent_name e) (Some alias) (ent_join e) (ent_fields e).

Definition left (e : QueryEntity) : QueryEntity :=
  mkEntity (ent_name e) (ent_as e) (Some "left") (ent_fields e).

(** Filter and join predicates.  The comparison methods of the builder only
    forward to the query package, so a predicate is kept as written. *)
Inductive Expr : Type :=
| ExEqual (l r : QueryField)
| ExRaw (v : Value)
| ExAnd (a b : Expr).

(** One element of [$expand]: [{ $entity: ..., $with: ... }]. *)
Record Join := mkJoin {
  j_entity : QueryEntity;
  j_with : option Expr
}.

(** [$expand] of a query expression is absent, a single join object or an
    array of join objects. *)
Inductive Expand : Type :=
| ExpandUndefined
| ExpandOne (j : Join)
| ExpandArray (js : list Join).

(** The join list a query carries, whatever its representation. *)
Definition joins (e : Expand) : list Join :=
  match e with
  | ExpandUndefined => []
  | ExpandOne j => [j]
  | ExpandArray js => js
  end.

Inductive Direction := Asc | Desc.

Record QueryExpression := mkQuery {
  q_entity : string;
  q_select : option (list QueryField);
  q_left : option QueryField;
  q_where : option Expr;
  q_prepared : option Expr;
  q_order : option (list (Direction * QueryField));
  q_group : option (list QueryField);
  q_skip : option Z;
  q_take : option Z;
  q_expand : Expand
}.

(** Modelled from the spec: [qry.query(entity)], an empty query on an
    entity. *)
Definition query (entity : string) : QueryExpression :=
  mkQuery entity None None None None None None None None ExpandUndefined.

Definition set_select (s : option (list QueryField)) (q : QueryExpression) :=
  mkQuery (q_entity q) s (q_left q) (q_where q) (q_prepared q) (q_order q)
          (q_group q) (q_skip q) (q_take q) (q_expand q).

Definition set_left (l : option QueryField) (q : QueryExpression) :=
  mkQuery (q_entity q) (q_select q) l (q_where q) (q_prepared q) (q_order q)
          (q_group q) (q_skip q) (q_take q) (q_expand q).

Definition set_where (w : option Expr) (q : QueryExpression) :=
  mkQuery (q_entity q) (q_select q) (q_left q) w (q_prepared q) (q_order q)
          (q_group q) (q_skip q) (q_take q) (q_expand q).

Definition set_prepared (p : option Expr) (q : QueryExpression) :=
  mkQuery (q_entity q) (q_select q) (q_left q) (q_where q) p (q_order q)
          (q_group q) (q_skip q) (q_take q) (q_expand q).

Definition set_order (o : option (list (Direction * QueryField))) (q : QueryExpression) :=
  mkQuery (q_entity q) (q_select q) (q_left q) (q_where q) (q_prepared q) o
          (q_group q) (q_skip q) (q_take q) (q_expand q).

Definition set_group (g : option (list QueryField)) (q : QueryExpression) :=
  mkQuery (q_entity q) (q_select q) (q_left q) (q_where q) (q_prepared q) (q_order q)
          g (q_skip q) (q_take q) (q_expand q).

Definition set_skip (n : option Z) (q : QueryExpression) :=
  mkQuery (q_entity q) (q_select q) (q_left q) (q_where q) (q_prepared q) (q_order q)
          (q_group q) n (q_take q) (q_expand q).

Definition set_take (n : option Z) (q : QueryExpression) :=
  mkQuery (q_entity q) (q_select q) (q_left q) (q_where q) (q_prepared q) (q_order q)
          (q_group q) (q_skip q) n (q_expand q).

Definition set_expand (e : Expand) (q : QueryExpression) :=
  mkQuery (q_entity q) (q_select q) (q_left q) (q_where q) (q_prepared q) (q_order q)
          (q_group q) (q_skip q) (q_take q) e.

(** Modelled from the spec: [q.select(arr)] replaces the projection list. *)
Definition select (arr : list QueryField) (q : QueryExpression) : QueryExpression :=
  set_select (Some arr) q.

(** Modelled from the spec: [q.take(n)] sets the limit. *)
Definition take (n : Z) (q : QueryExpression) : QueryExpression :=
  set_take (Some n) q.

(** Modelled from the spec: [q.where(field)] opens a predicate on a left
    operand. *)
Definition where_ (f : QueryField) (q : QueryExpression) : QueryExpression :=
  set_left (Some f) q.

(** Modelled from the spec: [q.fields()], the projection list followed by
    the fields that join entities select. *)
Definition fields (q : QueryExpression) : list QueryField :=
  match q_select q with
  | None => []
  | Some fs => (fs ++ flat_map (fun j => ent_fields (j_entity j)) (joins (q_expand q)))%list
  end.

(** Modelled from the spec: [q.hasFields()], whether anything is projected. *)
Definition hasFields (q : QueryExpression) : bool :=
  match fields q with
  | [] => false
  | _ :: _ => true
  end.

(** Modelled from the spec: [q.prepare()] commits the current filter into
    the prepared part of the tree and starts a fresh one. *)
Definition prepare (q : QueryExpression) : QueryExpression :=
  match q_where q with
  | None => q
  | Some w =>
      let p := match q_prepared q with
               | None => w
               | Some p0 => ExAnd p0 w
               end in
      set_where None (set_prepared (Some p) q)
  end.

(** Modelled from the spec: [qry.query(from).select(['*']).join(entity).with(expr)]
    leaves the join object in [$expand] of that temporary query. *)
Definition join_with (e : QueryEntity) (w : Expr) : Join := mkJoin e (Some w).

End Query.

Export Query.

(* ===================================================================== *)
(** ** Models, fields and association mappings *)
(* ===================================================================== *)

Module Model.

(** [DataAssociationMapping].  A property that the definition leaves out
    reads as [undefined], hence the optional fields. *)
Record DataAssociationMapping := mkMapping {
  associationType : option string;
  associationAdapter : option string;
  parentModel : option string;
  parentField : option string;
  childModel : option string;
  childField : option string;
  cascade : option string;
  refersTo : option string;
  map_select : option (list string);
  map_options : option (list (string * Value))
}.

Definition set_refersTo (r : option string) (m : DataAssociationMapping) :=
  mkMapping (associationType m) (associationAdapter m) (parentModel m) (parentField m)
            (childModel m) (childField m) (cascade m) r (map_select m) (map_options m).

(** [DataField]: [many] may be absent, [true] or [false]; the boolean flags
    are absent-or-false versus [true]. *)
Record DataField := mkDataField {
  f_name : string;
  f_property : option string;
  f_type : string;
  f_many : option bool;
  f_expandable : bool;
  f_hidden : bool;
  f_primary : bool;
  f_mapping : option DataAssociationMapping
}.

Record DataViewField := mkViewField {
  vf_name : string;
  vf_property : option string
}.

Record DataModelView := mkView {
  view_name : string;
  view_fields : list DataViewField;
  view_filter : option string;
  view_order : option string;
  view_group : option string
}.

(** [DataModel]: [m_fields] is the model's own definition, [attributes] the
    computed collection (own fields and inherited ones) that the getter
    caches. *)
Record DataModel := mkModel {
  m_name : string;
  m_title : option string;
  m_view : option string;
  m_fields : list DataField;
  attributes : list DataField
}.

(** [get viewAdapter]: [_.isNil(self.view) ? self.name.concat('Data') : self.view] *)
Definition viewAdapter (m : DataModel) : string :=
  match m_view m with
  | None => m_name m ++ "Data"
  | Some v => v
  end.

(** [DataModel.field(name)] for a string argument:
    [attributes.find(x => x.name==name || x.property==name)] *)
Definition field (m : DataModel) (n : string) : option DataField :=
  find (fun x => (f_name x =? n) || opt_eqb (f_property x) (Some n)) (attributes m).

(** [DataModel.field(name)] where the argument may be [undefined]:
    [if (typeof name !== 'string') return null]. *)
Definition field_opt (m : DataModel) (n : option string) : option DataField :=
  match n with
  | None => None
  | Some s => field m s
  end.

(** [get primaryKey]: [self.fields.find(x => x.primary==true)], its name. *)
Definition primaryKey (m : DataModel) : option string :=
  match find f_primary (m_fields m) with
  | Some p => Some (f_name p)
  | None => None
  end.

(** [field.many || (field.mapping && field.mapping.associationType === 'junction')] *)
Definition many_or_junction (f : DataField) : bool :=
  match f_many f with
  | Some true => true
  | _ =>
      match f_mapping f with
      | Some mp => opt_eqb (associationType mp) (Some "junction")
      | None => false
      end
  end.

End Model.

Export Model.

(* ===================================================================== *)
(** ** The queryable *)
(* ===================================================================== *)

(** Options of one expansion: a plain object ([$select], [$top], [$levels],
    ...) or a queryable handed over by [toExpand]; the latter is only passed
    on, so it is kept as an opaque description. *)
Inductive ExpandOptions : Type :=
| OptObject (props : list (string * Value))
| OptQueryable (q : Value).

(** One element of a queryable's [$expand] array. *)
Inductive ExpandEntry : Type :=
| EString (s : string)
| ENamed (n : string) (options : option ExpandOptions)
| EMapping (m : DataAssociationMapping)
| EOther (v : Value).

Record DataQueryable := mkQueryable {
  query : QueryExpression;
  model : DataModel;
  d_view : option DataModelView;
  d_expand : option (list ExpandEntry);
  d_flatten : option bool;
  d_levels : option Z;
  d_asArray : option bool;
  d_silent : option bool
}.

Definition with_query (qe : QueryExpression) (q : DataQueryable) :=
  mkQueryable qe (model q) (d_view q) (d_expand q) (d_flatten q) (d_levels q)
              (d_asArray q) (d_silent q).

Definition with_view (v : option DataModelView) (q : DataQueryable) :=
  mkQueryable (query q) (model q) v (d_expand q) (d_flatten q) (d_levels q)
              (d_asArray q) (d_silent q).

Definition with_expand (e : option (list ExpandEntry)) (q : DataQueryable) :=
  mkQueryable (query q) (model q) (d_view q) e (d_flatten q) (d_levels q)
              (d_asArray q) (d_silent q).

Definition with_flatten (f : option bool) (q : DataQueryable) :=
  mkQueryable (query q) (model q) (d_view q) (d_expand q) f (d_levels q)
              (d_asArray q) (d_silent q).

Definition with_levels (l : option Z) (q : DataQueryable) :=
  mkQueryable (query q) (model q) (d_view q) (d_expand q) (d_flatten q) l
              (d_asArray q) (d_silent q).

Definition with_asArray (a : option bool) (q : DataQueryable) :=
  mkQueryable (query q) (model q) (d_view q) (d_expand q) (d_flatten q) (d_levels q)
              a (d_silent q).

(** [new DataQueryable(model)]; the query is created on first use from the
    model's view adapter. *)
Definition new_queryable (m : DataModel) : DataQueryable :=
  mkQueryable (Query.query (viewAdapter m)) m None None None None None None.

(** [DataQueryable.prototype.clone]: view, silent, levels, flatten, expand
    and the query are copied; [$asArray] is not. *)
Definition clone (q : DataQueryable) : DataQueryable :=
  mkQueryable (query q) (model q) (d_view q) (d_expand q) (d_flatten q) (d_levels q)
              None (d_silent q).

(** [DataQueryable.prototype.skip] *)
Definition skip (n : Z) (q : DataQueryable) : DataQueryable :=
  with_query (set_skip (Some n) (query q)) q.

(** [DataQueryable.prototype.take] without a callback. *)
Definition take (n : Z) (q : DataQueryable) : DataQueryable :=
  with_query (Query.take n (query q)) q.

(** [DataQueryable.prototype.asArray]: a missing argument means [true]. *)
Definition asArray (value : option bool) (q : DataQueryable) : DataQueryable :=
  match value with
  | None => with_asArray (Some true) q
  | Some v => with_asArray (Some v) q
  end.

(** [DataQueryable.prototype.getLevels] *)
Definition getLevels (q : DataQueryable) : Z :=
  match d_levels q with
  | Some n => n
  | None => 1
  end.

(** [DataQueryable.prototype.flatten]: [flatten()] and [flatten(true)]
    delete [$expand] and set [$flatten]; [flatten(false)] deletes [$flatten];
    then [if (this.$flatten) this.$levels = 0]. *)
Definition flatten (value : option bool) (q : DataQueryable) : DataQueryable :=
  let q1 :=
    match value with
    | None | Some true => with_flatten (Some true) (with_expand None q)
    | Some false => with_flatten None q
    end in
  match d_flatten q1 with
  | Some true => with_levels (Some 0%Z) q1
  | _ => q1
  end.

(** [DataQueryable.prototype.levels]: [$levels] is set to 1, and to
    [parseInt(value)] when the argument is a number; an argument that is
    missing or is no number leaves the 1.  Then [$flatten] becomes
    [this.$levels < 1]. *)
Definition levels (value : Value) (q : DataQueryable) : DataQueryable :=
  let l := match value with
           | VNum n => parseInt n
           | _ => 1%Z
           end in
  with_flatten (Some (l <? 1)%Z) (with_levels (Some l) q).

(* ===================================================================== *)
(** ** Errors, effects and the collaborators of the engine *)
(* ===================================================================== *)

(** What a caller can observe instead of a result: an error (thrown, or
    passed as the first argument of a callback), or no call of the callback
    at all. *)
Inductive Error : Type :=
| Thrown (msg : string)
| Stalled.

(** Pure, fallible steps of the builder. *)
Definition Result (A : Type) : Type := (Error + A)%type.

#[export] Instance Monad_Result : Monad Result := {
  ret := fun _ x => inr x;
  bind := fun _ _ c f =>
    match c with
    | inl e => inl e
    | inr x => f x
    end
}.

Definition throw {A : Type} (msg : string) : Result A := inl (Thrown msg).

(** Observable effects of a run, in the order in which they happen: a call
    of the adapter with a query, the emission of an event of the model with
    the query that the event object carries at that moment, a line on the
    console. *)
Inductive Effect : Type :=
| DbExecute (q : QueryExpression)
| Emit (event : string) (q : QueryExpression)
| ConsoleLog (msg : string).

(** A run: the effects performed and the outcome handed to the callback. *)
Definition Run (A : Type) : Type := (list Effect * Result A)%type.

#[export] Instance Monad_Run : Monad Run := {
  ret := fun _ x => ([], inr x);
  bind := fun _ _ c f =>
    match c with
    | (t, inl e) => (t, inl e)
    | (t, inr x) => let '(t', r) := f x in ((t ++ t')%list, r)
    end
}.

Definition effect (e : Effect) : Run unit := ([e], inr tt).

Definition lift {A : Type} (r : Result A) : Run A := ([], r).

Definition outcome {A : Type} (r : Run A) : Result A := snd r.

Definition effects {A : Type} (r : Run A) : list Effect := fst r.

(** The event object of [before.execute] and [after.execute]:
    [{ model, query, type: 'select', emitter, result }].  A listener reads
    and writes the query and the result. *)
Record ExecuteEvent := mkEvent {
  ev_query : QueryExpression;
  ev_result : Value
}.

Definition Listener : Type := ExecuteEvent -> Result ExecuteEvent.

(** The four ways of attaching associated objects to the rows. *)
Inductive Association : Type :=
| AssociatedChilds
| Parents
| Childs
| AssociatedParents.

(** Everything the queryable calls that is not defined in its own file.
    - [regexp_exec pattern s] is [pattern.exec(s)]: the capture groups, the
      whole match first.
    - [context_model] is [context.model(name)].
    - [inferMapping] is [DataModel.inferMapping]; it may throw.
    - [dataviews] is [DataModel.dataviews(name)].
    - [migrate] is [DataModel.migrate], [None] on success.
    - [model_filter] is [DataModel.filter] applied to a view's filter, order and
      group; it yields the query of the resulting queryable.
    - [before_execute] and [after_execute] are the listeners registered on
      the model for these two events.
    - [db_execute] is the adapter's [execute(query, null, callback)].
    - [associate] stands for the extensions [getAssociatedChilds_v1],
      [getParents_v1], [getChilds_v1] and [getAssociatedParents_v1] of the
      mapping: the rows with the associated objects attached, or an error. *)
Record Runtime := mkRuntime {
  regexp_exec : string -> string -> option (list string);
  context_model : string -> option DataModel;
  inferMapping : DataModel -> string -> Result (option DataAssociationMapping);
  dataviews : DataModel -> string -> option DataModelView;
  migrate : DataModel -> option Error;
  model_filter : DataModel -> DataModelView -> Result QueryExpression;
  before_execute : list Listener;
  after_execute : list Listener;
  db_execute : QueryExpression -> Result Value;
  associate : Association -> DataAssociationMapping -> ExpandOptions ->
              DataQueryable -> Value -> Result Value
}.

(** Modelled from the spec: the sequential event emitter.  Listeners run in
    series in registration order, each on the event object as the previous
    one left it; the first error ends the chain and is the result. *)
Fixpoint emit (ls : list Listener) (e : ExecuteEvent) : Result ExecuteEvent :=
  match ls with
  | [] => inr e
  | l :: rest =>
      match l e with
      | inl err => inl err
      | inr e' => emit rest e'
      end
  end.

(* ===================================================================== *)
(** ** Strings *)
(* ===================================================================== *)

Module Str.

(** [/c/.test(s)] for a one-character pattern. *)
Fixpoint contains (c : ascii) (s : string) : bool :=
  match s with
  | EmptyString => false
  | String a r => Ascii.eqb a c || contains c r
  end.

(** [s.split(c)] *)
Fixpoint split (c : ascii) (s : string) : list string :=
  match s with
  | EmptyString => [""]
  | String a r =>
      if Ascii.eqb a c then "" :: split c r
      else match split c r with
           | [] => [String a ""]
           | h :: t => String a h :: t
           end
  end.

(** [s.replace(/c/g, d)] for one-character patterns. *)
Fixpoint replace (c d : ascii) (s : string) : string :=
  match s with
  | EmptyString => EmptyString
  | String a r => String (if Ascii.eqb a c then d else a) (replace c d r)
  end.

Definition lower_char (a : ascii) : ascii :=
  let n := nat_of_ascii a in
  if (65 <=? n)%nat && (n <=? 90)%nat then ascii_of_nat (n + 32) else a.

(** [s.toLowerCase()] on ASCII text. *)
Fixpoint toLowerCase (s : string) : string :=
  match s with
  | EmptyString => EmptyString
  | String a r => String (lower_char a) (toLowerCase r)
  end.

(** [arr.join(sep)] *)
Definition join (sep : string) (l : list string) : string := String.concat sep l.

(** [arr[i]] of a split or of a match, where the index is known to exist. *)
Definition item (i : nat) (l : list string) : string := nth i l "".

End Str.

Definition slash : ascii := "/"%char.

(* ===================================================================== *)
(** ** The attribute resolver *)
(* ===================================================================== *)

(** [_.isNil(x)] followed by [throw new Error(msg)] *)
Definition require {A : Type} (o : option A) (msg : string) : Result A :=
  match o with
  | Some x => inr x
  | None => throw msg
  end.

(** How [sprintf('%s', x)] prints a property that may be absent. *)
Definition show (o : option string) : string :=
  match o with
  | Some s => s
  | None => "undefined"
  end.

(** The result of [resolveJunctionAttributeJoin]: [{ $expand, $select }]. *)
Record JunctionJoin := mkJunctionJoin {
  jj_expand : Expand;
  jj_select : QueryField
}.

Section Resolver.

Variable rt : Runtime.

(** [DataAttributeResolver.prototype.resolveNestedAttributeJoin], called on
    a model ([this]); [alias] is the model's [_alias], which the function
    sets on the parent model before it recurses.  The recursive call is made
    on the second and third members only, so it never recurses again:
    [depth] counts the remaining calls. *)
Fixpoint resolveNestedAttributeJoin_rec (depth : nat) (self : DataModel)
    (alias : option string) (memberExpr : string) : Result Expand :=
  match depth with
  | O => throw "RangeError: Maximum call stack size exceeded"
  | S depth' =>
      if Str.contains slash memberExpr then
        let arrMember := Str.split slash memberExpr in
        let first := Str.item 0 arrMember in
        _ <- require (field self first)
               ("The target model does not have an attribute named as " ++ first) ;;
        inferred <- inferMapping rt self first ;;
        mapping <- require inferred
               ("The target model does not have an association defined for attribute named "
                  ++ first) ;;
        if opt_eqb (childModel mapping) (Some (m_name self))
           && opt_eqb (associationType mapping) (Some "association") then
          pm <- require (parentModel mapping)
                 "Association parent model (undefined) cannot be found." ;;
          parentModel_ <- require (context_model rt pm)
                 ("Association parent model (" ++ pm ++ ") cannot be found.") ;;
          cf <- require (childField mapping)
                 "Association field (undefined) cannot be found." ;;
          childField_ <- require (field self cf)
                 ("Association field (" ++ cf ++ ") cannot be found.") ;;
          pf <- require (parentField mapping)
                 "Referenced field (undefined) cannot be found." ;;
          _ <- require (field parentModel_ pf)
                 ("Referenced field (" ++ pf ++ ") cannot be found.") ;;
          let expr :=
            ExEqual (from (or_else alias (viewAdapter self))
                          (fields_select (f_name childField_)))
                    (from cf (fields_select pf)) in
          let entity_ := left (entity_as cf (entity (viewAdapter parentModel_))) in
          let res := join_with entity_ expr in
          if (2 <? List.length arrMember)%nat then
            nested <- resolveNestedAttributeJoin_rec depth' parentModel_ (Some cf)
                        (Str.item 1 arrMember ++ "/" ++ Str.item 2 arrMember) ;;
            ret (ExpandArray (res :: joins nested))
          else
            ret (ExpandOne res)
        else if opt_eqb (parentModel mapping) (Some (m_name self))
                && opt_eqb (associationType mapping) (Some "association") then
          cm <- require (childModel mapping)
                 "Association child model (undefined) cannot be found." ;;
          childModel_ <- require (context_model rt cm)
                 ("Association child model (" ++ cm ++ ") cannot be found.") ;;
          cf <- require (childField mapping)
                 "Association field (undefined) cannot be found." ;;
          childField_ <- require (field childModel_ cf)
                 ("Association field (" ++ cf ++ ") cannot be found.") ;;
          pf <- require (parentField mapping)
                 "Referenced field (undefined) cannot be found." ;;
          parentField_ <- require (field self pf)
                 ("Referenced field (" ++ pf ++ ") cannot be found.") ;;
          let expr :=
            ExEqual (from (viewAdapter self) (fields_select (f_name parentField_)))
                    (from first (fields_select (f_name childField_))) in
          let entity_ := left (entity_as first (entity (viewAdapter childModel_))) in
          ret (ExpandOne (join_with entity_ expr))
        else
          throw ("The association type between " ++ show (parentModel mapping) ++ " and "
                   ++ show (childModel mapping)
                   ++ " model is not supported for filtering, grouping or sorting data.")
      else
        ret ExpandUndefined
  end.

Definition resolveNestedAttributeJoin (self : DataModel) (memberExpr : string)
  : Result Expand :=
  resolveNestedAttributeJoin_rec 2 self None memberExpr.

(** [DataAttributeResolver.prototype.resolveJunctionAttributeJoin], called
    on a model. *)
Definition resolveJunctionAttributeJoin (self : DataModel) (attr : string)
  : Result JunctionJoin :=
  let member := Str.split slash attr in
  let second := nth_error member 1 in
  inferred <- inferMapping rt self (Str.item 0 member) ;;
  match inferred with
  | Some mapping =>
      if opt_eqb (associationType mapping) (Some "junction") then
        field_ <- require (field self (Str.item 0 member))
               "TypeError: Cannot read property 'name' of undefined" ;;
        let fname := f_name field_ in
        if opt_eqb (parentModel mapping) (Some (m_name self)) then
          let tagging := negb (is_some (childModel mapping)) in
          let parentField_ := if tagging then "object" else "parentId" in
          let valueField := if tagging then "value" else "valueId" in
          let entity_ := entity_as fname (entity (show (associationAdapter mapping))) in
          let expr :=
            ExEqual (from (viewAdapter self) (fields_select (show (parentField mapping))))
                    (from fname (fields_select parentField_)) in
          let j1 := join_with entity_ expr in
          if tagging then
            ret (mkJunctionJoin (ExpandArray [j1]) (from fname (fields_select valueField)))
          else if opt_eqb second (childField mapping) then
            ret (mkJunctionJoin (ExpandArray [j1]) (from fname (fields_select valueField)))
          else
            childModel_ <- require
                 match childModel mapping with
                 | Some cm => context_model rt cm
                 | None => None
                 end
                 "EJUNC: The associated model cannot be found." ;;
            let alias := fname ++ "_" ++ m_name childModel_ in
            let entity2 := entity_as alias (entity (viewAdapter childModel_)) in
            let expr2 :=
              ExEqual (from fname (fields_select "valueId"))
                      (from alias (fields_select (show (childField mapping)))) in
            ret (mkJunctionJoin (ExpandArray [j1; join_with entity2 expr2])
                                (from alias (fields_select (show second))))
        else
          let entity_ := entity_as fname (entity (show (associationAdapter mapping))) in
          let expr :=
            ExEqual (from (viewAdapter self) (fields_select (show (childField mapping))))
                    (from fname (fields_select "valueId")) in
          let j1 := join_with entity_ expr in
          if opt_eqb second (parentField mapping) then
            ret (mkJunctionJoin (ExpandArray [j1]) (from fname (fields_select "parentId")))
          else
            parentModel_ <- require
                 match parentModel mapping with
                 | Some pm => context_model rt pm
                 | None => None
                 end
                 "EJUNC: The associated model cannot be found." ;;
            let parentAlias := fname ++ "_" ++ m_name parentModel_ in
            let entity2 := entity_as parentAlias (entity (viewAdapter parentModel_)) in
            let expr2 :=
              ExEqual (from fname (fields_select "parentId"))
                      (from parentAlias (fields_select (show (parentField mapping)))) in
            ret (mkJunctionJoin (ExpandArray [j1; join_with entity2 expr2])
                                (from parentAlias (fields_select (show second))))
      else
        throw "EJUNC: The target model does not have a many to many association defined by the given attribute."
  | None =>
      throw "EJUNC: The target model does not have a many to many association defined by the given attribute."
  end.

(** The test of the de-duplication loop of [resolveNestedAttribute]:
    [x.$entity && x.$entity.$as] is truthy and
    [x.$entity.$as === y.$entity.$as]. *)
Definition same_alias (y x : Join) : bool :=
  match ent_as (j_entity x) with
  | Some a => negb (a =? "") && opt_eqb (Some a) (ent_as (j_entity y))
  | None => false
  end.

(** One turn of [arr.forEach]: [y] is pushed unless [find] returns a join
    with the same alias. *)
Definition push_join (acc : list Join) (y : Join) : list Join :=
  if existsb (same_alias y) acc then acc else (acc ++ [y])%list.

(** The merge of the resolved join(s) into [query.$expand]. *)
Definition merge_expand (current expr : Expand) : Expand :=
  match current with
  | ExpandUndefined => expr
  | _ => ExpandArray (fold_left push_join (joins expr) (joins current))
  end.

(** [DataAttributeResolver.prototype.resolveNestedAttribute], called on a
    queryable, for a string argument.  The result is the field to select
    ([undefined] when the attribute has no [/]) and the queryable with its
    query's [$expand] updated. *)
Definition resolveNestedAttribute (self : DataQueryable) (attr : string)
  : Result (option QueryField * DataQueryable) :=
  if Str.contains slash attr then
    let member := Str.split slash attr in
    inferred <- inferMapping rt (model self) (Str.item 0 member) ;;
    let junction :=
      match inferred with
      | Some mapping => opt_eqb (associationType mapping) (Some "junction")
      | None => false
      end in
    '(expr, select_) <-
      (if junction then
         expr1 <- resolveJunctionAttributeJoin (model self) attr ;;
         ret (jj_expand expr1, jj_select expr1)
       else
         expr <- resolveNestedAttributeJoin (model self) attr ;;
         ret (expr,
              if (2 <? List.length member)%nat
              then from (Str.item 1 member) (fields_select (Str.item 2 member))
              else from (Str.item 0 member) (fields_select (Str.item 1 member)))) ;;
    match expr with
    | ExpandUndefined =>
        throw "Member join expression cannot be empty at this context"
    | _ =>
        let q := query self in
        ret (Some select_,
             with_query (set_expand (merge_expand (q_expand q) expr) q) self)
    end
  else
    ret (None, self).

End Resolver.

(* ===================================================================== *)
(** ** The query builder *)
(* ===================================================================== *)

(** The outcome of the [test...] recognisers:
    [{ aggr, name, property }]. *)
Record AttributeMatch := mkMatch {
  am_aggr : option string;
  am_name : string;
  am_property : option string
}.

(** The first pattern of a list that matches, with what to build from its
    groups. *)
Fixpoint first_match (exec : string -> string -> option (list string))
    (cases : list (string * (list string -> AttributeMatch))) (s : string)
  : option AttributeMatch :=
  match cases with
  | [] => None
  | (pattern, build) :: rest =>
      match exec pattern s with
      | Some matches => Some (build matches)
      | None => first_match exec rest s
      end
  end.

(** [arguments] of [expand]: nothing, one value, or several values (or one
    array). *)
Inductive ExpandArg : Type :=
| ExpandNothing
| ExpandValue (e : ExpandEntry)
| ExpandValues (l : list ExpandEntry).

(** [_.isNil(x)] on an argument of [expand], or on an element of the array
    given to it. *)
Definition nil_entry (x : ExpandEntry) : bool :=
  match x with
  | EOther VUndefined | EOther VNull => true
  | _ => false
  end.

(** The test of the array branch of [expand] on an element that is not nil:
    [(typeof x === 'string') || (typeof x === 'object' && x.hasOwnProperty('name'))].
    A mapping is an object that has no property [name]. *)
Definition named_or_string (x : ExpandEntry) : bool :=
  match x with
  | EString _ | ENamed _ _ | EOther (VStr _) => true
  | EOther (VObj props) => hasOwn "name" props
  | _ => false
  end.

(** The callback of [arg.forEach] in [expand]: a nil element is skipped, a
    string or a named object is pushed, and any other element throws. *)
Definition push_one (arr : list ExpandEntry) (x : ExpandEntry)
  : Result (list ExpandEntry) :=
  if nil_entry x then ret arr
  else if named_or_string x then ret (arr ++ [x])%list
  else throw "Expand option may be a string or a named object.".

(** [arg.forEach(function(x) { ... })] in [expand]. *)
Definition push_each (l current : list ExpandEntry) : Result (list ExpandEntry) :=
  fold_left (fun (acc : Result (list ExpandEntry)) x => arr <- acc ;; push_one arr x)
            l (ret current).

(** [DataQueryable.prototype.expand]: [arg] is the array of the arguments
    when there are several, and the first argument otherwise.  A nil [arg]
    deletes [$expand]; an array is walked; any other value is pushed as it
    is. *)
Definition expand (arg : ExpandArg) (self : DataQueryable) : Result DataQueryable :=
  let current := match d_expand self with Some l => l | None => [] end in
  match arg with
  | ExpandNothing => ret (with_expand None self)
  | ExpandValue (EOther VUndefined) | ExpandValue (EOther VNull) =>
      ret (with_expand None self)
  | ExpandValue (EOther (VArr items)) =>
      pushed <- push_each (List.map EOther items) current ;;
      ret (with_expand (Some pushed) self)
  | ExpandValue e => ret (with_expand (Some (current ++ [e])%list) self)
  | ExpandValues l =>
      pushed <- push_each l current ;;
      ret (with_expand (Some pushed) self)
  end.

(** [arguments] of [select]: nothing, one string, or several values (or one
    array) whose elements are strings or query fields. *)
Inductive SelectItem : Type :=
| SelString (s : string)
| SelField (f : QueryField).

Inductive SelectArg : Type :=
| SelectNothing
| SelectString (s : string)
| SelectItems (l : list SelectItem).

(** [self.select.apply(self, fields)] for an array of strings. *)
Definition apply_args (l : list string) : SelectArg :=
  match l with
  | [] => SelectNothing
  | [s] => SelectString s
  | _ => SelectItems (map SelString l)
  end.

Section Builder.

Variable rt : Runtime.

(** [DataAttributeResolver.prototype.testAttribute] *)
Definition testAttribute : string -> option AttributeMatch :=
  first_match (regexp_exec rt)
    [ ("/^(\w+)\((\w+)\)\sas\s(\w+)$/i",
       fun m => mkMatch None (Str.item 1 m ++ "(" ++ Str.item 2 m ++ ")") (Some (Str.item 3 m)));
      ("/^(\w+)\sas\s(\w+)$/i",
       fun m => mkMatch None (Str.item 1 m) (Some (Str.item 2 m)));
      ("/^(\w+)\((\w+)\)$/i",
       fun m => mkMatch None (Str.item 1 m ++ "(" ++ Str.item 2 m ++ ")") None);
      ("/^(\w+)$/",
       fun m => mkMatch None (Str.item 0 m) None) ].

(** [DataAttributeResolver.prototype.testAggregatedNestedAttribute] *)
Definition testAggregatedNestedAttribute : string -> option AttributeMatch :=
  first_match (regexp_exec rt)
    [ ("/^(\w+)\((\w+)\/(\w+)\)\sas\s(\w+)$/i",
       fun m => mkMatch (Some (Str.item 1 m)) (Str.item 2 m ++ "/" ++ Str.item 3 m)
                        (Some (Str.item 4 m)));
      ("/^(\w+)\((\w+)\/(\w+)\/(\w+)\)\sas\s(\w+)$/i",
       fun m => mkMatch (Some (Str.item 1 m))
                        (Str.item 2 m ++ "/" ++ Str.item 3 m ++ "/" ++ Str.item 4 m)
                        (Some (Str.item 5 m)));
      ("/^(\w+)\((\w+)\/(\w+)\)$/i",
       fun m => mkMatch (Some (Str.item 1 m)) (Str.item 2 m ++ "/" ++ Str.item 3 m) None);
      ("/^(\w+)\((\w+)\/(\w+)\/(\w+)\)$/i",
       fun m => mkMatch (Some (Str.item 1 m))
                        (Str.item 2 m ++ "/" ++ Str.item 3 m ++ "/" ++ Str.item 4 m) None) ].

(** [DataAttributeResolver.prototype.testNestedAttribute] *)
Definition testNestedAttribute : string -> option AttributeMatch :=
  first_match (regexp_exec rt)
    [ ("/^(\w+)\((\w+)\/(\w+)\)\sas\s(\w+)$/i",
       fun m => mkMatch None (Str.item 1 m ++ "(" ++ Str.item 2 m ++ "/" ++ Str.item 3 m ++ ")")
                        (Some (Str.item 4 m)));
      ("/^(\w+)\((\w+)\/(\w+)\/(\w+)\)\sas\s(\w+)$/i",
       fun m => mkMatch None
                        (Str.item 1 m ++ "(" ++ Str.item 2 m ++ "/" ++ Str.item 3 m ++ "/"
                           ++ Str.item 4 m ++ ")")
                        (Some (Str.item 5 m)));
      ("/^(\w+)\/(\w+)\sas\s(\w+)$/i",
       fun m => mkMatch None (Str.item 1 m ++ "/" ++ Str.item 2 m) (Some (Str.item 3 m)));
      ("/^(\w+)\/(\w+)\/(\w+)\sas\s(\w+)$/i",
       fun m => mkMatch None (Str.item 1 m ++ "/" ++ Str.item 2 m ++ "/" ++ Str.item 3 m)
                        (Some (Str.item 4 m)));
      ("/^(\w+)\((\w+)\/(\w+)\)$/i",
       fun m => mkMatch None (Str.item 1 m ++ "(" ++ Str.item 2 m ++ "/" ++ Str.item 3 m ++ ")")
                        None);
      ("/^(\w+)\((\w+)\/(\w+)\/(\w+)\)$/i",
       fun m => mkMatch None
                        (Str.item 1 m ++ "(" ++ Str.item 2 m ++ "/" ++ Str.item 3 m ++ "/"
                           ++ Str.item 4 m ++ ")")
                        None);
      ("/^(\w+)\/(\w+)$/", fun m => mkMatch None (Str.item 0 m) None);
      ("/^(\w+)\/(\w+)\/(\w+)$/", fun m => mkMatch None (Str.item 0 m) None) ].

(** [DataQueryable.prototype.fieldOf] for a string attribute.  The object
    that the function branch builds by hand, [{ prop: { $fn: [field] } }],
    is kept as a query field with that envelope. *)
Definition fieldOf (self : DataQueryable) (attr : string) (alias : option string)
  : Result (QueryField * DataQueryable) :=
  let m := model self in
  let missing (n : string) :=
    "The specified field " ++ n ++ " cannot be found in target model." in
  match regexp_exec rt "/(count|avg|sum|min|max)\((.*?)\)/i" attr with
  | Some matches =>
      let target := Str.item 2 matches in
      let field_ := field m target in
      let aggr := Str.toLowerCase (Str.item 1 matches) in
      '(nestedAttr, self') <-
        (if negb (is_some field_) && Str.contains slash target
         then resolveNestedAttribute rt self target
         else ret (None, self)) ;;
      match nestedAttr with
      | Some nested =>
          let alias' :=
            match alias with
            | Some a => a
            | None =>
                match regexp_exec rt "/as\s(\w+)$/i" attr with
                | None => aggr ++ "Of_" ++ Str.replace slash "_"%char target
                | Some nestedMatches => Str.item 1 nestedMatches
                end
            end in
          ret (mkField (qf_name nested) (qf_from nested) (Some alias') (Some aggr), self')
      | None =>
          f <- require field_ (missing target) ;;
          let alias' :=
            match alias with
            | Some a => a
            | None =>
                match regexp_exec rt "/as\s(\w+)$/i" attr with
                | Some ms => Str.item 1 ms
                | None => aggr ++ "Of" ++ f_name f
                end
            end in
          ret (as_ alias' (from (viewAdapter m) (fields_fn aggr (f_name f))), self')
      end
  | None =>
      match regexp_exec rt "/(\w+)\((.*?)\)/i" attr with
      | Some matches =>
          f <- require (field m (Str.item 2 matches)) (missing (Str.item 2 matches)) ;;
          let aggr := Str.item 1 matches in
          let alias' :=
            match alias with
            | Some a => Some a
            | None =>
                match regexp_exec rt "/as\s(\w+)$/i" attr with
                | Some ms => Some (Str.item 1 ms)
                | None => None
                end
            end in
          let prop := or_else alias' (or_else (f_property f) (f_name f)) in
          ret (as_ prop (from (viewAdapter m) (fields_fn aggr (f_name f))), self)
      | None =>
          match regexp_exec rt "/^(\w+)\s+as\s+(.*?)$/i" attr with
          | Some matches =>
              f <- require (field m (Str.item 1 matches)) (missing attr) ;;
              let prop := or_else (Some (Str.item 2 matches))
                                  (or_else (f_property f) (f_name f)) in
              ret (as_ prop (from (viewAdapter m) (fields_select (f_name f))), self)
          | None =>
              f <- require (field m attr) (missing attr) ;;
              let qf := from (viewAdapter m) (fields_select (f_name f)) in
              match f_property f with
              | Some p => if p =? "" then ret (qf, self) else ret (as_ p qf, self)
              | None => ret (qf, self)
              end
          end
      end
  end.

(** [DataAttributeResolver.prototype.selecteNestedAttribute] *)
Definition selecteNestedAttribute (self : DataQueryable) (attr : string)
    (alias : option string) : Result (option QueryField * DataQueryable) :=
  '(expr, self') <- resolveNestedAttribute rt self attr ;;
  match expr with
  | Some e =>
      match alias with
      | None => ret (Some (as_ (Str.replace slash "_"%char attr) e), self')
      | Some a => ret (Some (as_ a e), self')
      end
  | None => ret (None, self')
  end.

(** [DataAttributeResolver.prototype.selectAggregatedAttribute]: the resolved
    field wrapped in the envelope [$aggregation]. *)
Definition selectAggregatedAttribute (self : DataQueryable) (aggregation attribute : string)
    (alias : option string) : Result (QueryField * DataQueryable) :=
  '(result, self') <-
    (match testNestedAttribute attribute with
     | Some _ =>
         '(r, s) <- selecteNestedAttribute self attribute alias ;;
         r' <- require r "TypeError: Cannot read property 'as' of undefined" ;;
         ret (r', s)
     | None => fieldOf self attribute None
     end) ;;
  ret (mkField (qf_name result) (qf_from result) (qf_as result) (Some aggregation), self').

(** [select_]: an attribute expression that does not name a field. *)
Definition select_ (self : DataQueryable) (arg : string)
  : Result (option QueryField * DataQueryable) :=
  if arg =? "" then ret (None, self)
  else
    match testAggregatedNestedAttribute arg with
    | Some a =>
        '(f, s) <- selectAggregatedAttribute self (show (am_aggr a)) (am_name a)
                     (am_property a) ;;
        ret (Some f, s)
    | None =>
        match testNestedAttribute arg with
        | Some a => selecteNestedAttribute self (am_name a) (am_property a)
        | None =>
            match testAttribute arg with
            | Some a =>
                '(f, s) <- fieldOf self (am_name a) (am_property a) ;;
                ret (Some f, s)
            | None =>
                '(f, s) <- fieldOf self arg None ;;
                ret (Some f, s)
            end
        end
    end.

(** [DataQueryable.prototype.where] for a string attribute. *)
Definition where_ (attr : string) (self : DataQueryable) : Result DataQueryable :=
  if Str.contains slash attr then
    '(f, self') <- resolveNestedAttribute rt self attr ;;
    ret (with_query (set_left f (query self')) self')
  else
    '(f, self') <- fieldOf self attr None ;;
    ret (with_query (Query.where_ f (query self')) self').

End Builder.

Section Select.

Variable rt : Runtime.

(** The attributes that [select] takes when nothing is selected yet:
    [(x.many === false) || _.isNil(x.many) ||
     ((x.expandable === true) && (self.getLevels() > 0))] *)
Definition selected_by_default (self : DataQueryable) (x : DataField) : bool :=
  match f_many x with
  | Some false | None => true
  | Some true => f_expandable x && (0 <? getLevels self)%Z
  end.

(** ... mapped to [x.property || x.name]. *)
Definition default_fields (self : DataQueryable) : list string :=
  map (fun x => or_else (f_property x) (f_name x))
      (List.filter (selected_by_default self) (attributes (model self))).

(** One field of a data view, in the [forEach] of the view branch: the
    array of fields collected so far and the queryable are threaded. *)
Definition select_view_field (x : DataViewField)
    (acc : list QueryField * DataQueryable)
  : Result (list QueryField * DataQueryable) :=
  let '(arr, self) := acc in
  let n := vf_name x in
  match field (model self) n with
  | Some f =>
      if many_or_junction f then
        self' <- expand (ExpandValue (EString (f_name f))) self ;;
        ret (arr, self')
      else
        '(qf, self') <- fieldOf rt self (f_name f) None ;;
        ret ((arr ++ [qf])%list, self')
  | None =>
      match testAggregatedNestedAttribute rt n with
      | Some b =>
          '(qf, self') <- selectAggregatedAttribute rt self (show (am_aggr b)) (am_name b) None ;;
          ret ((arr ++ [qf])%list, self')
      | None =>
          match testNestedAttribute rt n with
          | Some b =>
              '(expr, self') <- selecteNestedAttribute rt self (am_name b) (vf_property x) ;;
              match expr with
              | Some qf => ret ((arr ++ [qf])%list, self')
              | None => ret (arr, self')
              end
          | None =>
              match testAttribute rt n with
              | Some b =>
                  '(qf, self') <- fieldOf rt self (am_name b) (vf_property x) ;;
                  ret ((arr ++ [qf])%list, self')
              | None =>
                  let n' := if Str.contains "."%char n
                            then Str.item 0 (Str.split "."%char n) else n in
                  '(qf, self') <- fieldOf rt self n' None ;;
                  ret ((arr ++ [qf])%list, self')
              end
          end
      end
  end.

(** One element of the array branch of [select]. *)
Definition select_item (x : SelectItem) (acc : list QueryField * DataQueryable)
  : Result (list QueryField * DataQueryable) :=
  let '(arr, self) := acc in
  match x with
  | SelString s =>
      match field (model self) s with
      | Some f =>
          if many_or_junction f then
            self' <- expand (ExpandValue (EString (f_name f))) self ;;
            ret (arr, self')
          else
            '(qf, self') <- fieldOf rt self (f_name f) None ;;
            ret ((arr ++ [qf])%list, self')
      | None =>
          '(expr, self') <- select_ rt self s ;;
          match expr with
          | Some qf => ret ((arr ++ [qf])%list, self')
          | None => ret (arr, self')
          end
      end
  | SelField qf => ret ((arr ++ [qf])%list, self)
  end.

(** [arr.forEach(step)] over a fallible step. *)
Fixpoint for_each {A S : Type} (step : A -> S -> Result S) (l : list A) (s : S)
  : Result S :=
  match l with
  | [] => ret s
  | x :: rest => s' <- step x s ;; for_each step rest s'
  end.

(** [DataQueryable.prototype.select].  The function calls itself with the
    name of a view or with the default attributes; [fuel] bounds the depth
    of these calls, and running out of it is the stack overflow of a chain
    of calls that never ends. *)
Fixpoint select_rec (fuel : nat) (arg : SelectArg) (self : DataQueryable)
  : Result DataQueryable :=
  match fuel with
  | O => throw "RangeError: Maximum call stack size exceeded"
  | S fuel' =>
      let finish (arr : option (list QueryField)) (self : DataQueryable)
        : Result DataQueryable :=
        match arr with
        | None =>
            if negb (hasFields (query self))
            then select_rec fuel' (apply_args (default_fields self)) self
            else ret self
        | Some a => ret (with_query (Query.select a (query self)) self)
        end in
      match arg with
      | SelectNothing => finish None self
      | SelectString s =>
          if s =? "*" then
            ret (with_query (set_select None (query self)) self)
          else
            match field (model self) s with
            | Some f =>
                if many_or_junction f then
                  self' <- expand (ExpandValue (EString (f_name f))) self ;;
                  finish None self'
                else
                  '(qf, self') <- fieldOf rt self (f_name f) None ;;
                  finish (Some [qf]) self'
            | None =>
                let v := dataviews rt (model self) s in
                let self1 := with_view v self in
                match v with
                | Some vw =>
                    '(arr, self2) <- for_each select_view_field (view_fields vw) ([], self1) ;;
                    match arr with
                    | [] => finish None self2
                    | _ => finish (Some arr) self2
                    end
                | None =>
                    '(expr, self2) <- select_ rt self1 s ;;
                    match expr with
                    | Some qf => finish (Some [qf]) self2
                    | None => finish None self2
                    end
                end
            end
      | SelectItems l =>
          match l with
          | [SelString s] =>
              if is_some (dataviews rt (model self) s)
              then select_rec fuel' (SelectString s) self
              else
                '(arr, self') <- for_each select_item l ([], self) ;;
                finish (Some arr) self'
          | _ =>
              '(arr, self') <- for_each select_item l ([], self) ;;
              finish (Some arr) self'
          end
      end
  end.

(** A chain of calls of [select] that ends is at most four calls long
    (array with a view name, the view, the default attributes, the array of
    default attributes). *)
Definition select (arg : SelectArg) (self : DataQueryable) : Result DataQueryable :=
  select_rec 4 arg self.

End Select.

(* ===================================================================== *)
(** ** The execution pipeline *)
(* ===================================================================== *)

Module Entry.

Fixpoint list_eqb {A : Type} (eq : A -> A -> bool) (l1 l2 : list A) : bool :=
  match l1, l2 with
  | [], [] => true
  | x :: r1, y :: r2 => eq x y && list_eqb eq r1 r2
  | _, _ => false
  end.

Definition option_eqb {A : Type} (eq : A -> A -> bool) (a b : option A) : bool :=
  match a, b with
  | None, None => true
  | Some x, Some y => eq x y
  | _, _ => false
  end.

Definition props_eqb : list (string * Value) -> list (string * Value) -> bool :=
  list_eqb (fun a b => (fst a =? fst b) && Js.eqb (snd a) (snd b)).

Definition mapping_eqb (a b : DataAssociationMapping) : bool :=
  opt_eqb (associationType a) (associationType b)
  && opt_eqb (associationAdapter a) (associationAdapter b)
  && opt_eqb (parentModel a) (parentModel b)
  && opt_eqb (parentField a) (parentField b)
  && opt_eqb (childModel a) (childModel b)
  && opt_eqb (childField a) (childField b)
  && opt_eqb (cascade a) (cascade b)
  && opt_eqb (refersTo a) (refersTo b)
  && option_eqb (list_eqb String.eqb) (map_select a) (map_select b)
  && option_eqb props_eqb (map_options a) (map_options b).

Definition options_eqb (a b : ExpandOptions) : bool :=
  match a, b with
  | OptObject x, OptObject y => props_eqb x y
  | OptQueryable x, OptQueryable y => Js.eqb x y
  | _, _ => false
  end.

Definition eqb (a b : ExpandEntry) : bool :=
  match a, b with
  | EString x, EString y => x =? y
  | ENamed x o, ENamed y p => (x =? y) && option_eqb options_eqb o p
  | EMapping x, EMapping y => mapping_eqb x y
  | EOther x, EOther y => Js.eqb x y
  | _, _ => false
  end.

(** Modelled from the spec: [arr.distinct(x => x)], the entries without
    repetitions, each at its first position.  Objects are compared by their
    content. *)
Fixpoint distinct (l : list ExpandEntry) : list ExpandEntry :=
  match l with
  | [] => []
  | x :: rest => x :: List.filter (fun y => negb (eqb x y)) (distinct rest)
  end.

(** How [sprintf('%s', expand)] prints an entry. *)
Definition print (e : ExpandEntry) : string :=
  match e with
  | EString s => s
  | _ => "[object Object]"
  end.

End Entry.

Section Pipeline.

Variable rt : Runtime.

Definition fail {A : Type} (e : Error) : Run A := ([], inl e).

(** [Object.keys(x)[0]], used as a property name: without keys the name is
    [undefined], which reads the property of that name. *)
Definition first_key (x : Value) : string :=
  match keys x with
  | k :: _ => k
  | [] => "undefined"
  end.

(** The body of [result.forEach] in [toArrayCallback]: what one row pushes
    to the array of scalars. *)
Definition collapse_row (x : Value) : list Value :=
  if isNil x then []
  else if truthy (get x (first_key x)) then [get x (first_key x)]
  else [].

(** [toArrayCallback] *)
Definition toArrayCallback (self : DataQueryable) (result : Value) : Result Value :=
  match d_asArray self with
  | Some true =>
      match Query.fields (query self) with
      | [_] =>
          match result with
          | VArr items => ret (VArr (flat_map collapse_row items))
          | _ => throw "TypeError: result.forEach is not a function"
          end
      | _ => ret result
      end
  | _ => ret result
  end.

(** The test of [expands.find] in the string branch of [afterExecute_]:
    [x.parentField === mapping.parentField && ...], reading the four
    properties on the entry and on the inferred mapping. *)
Definition same_association (x : ExpandEntry) (m : DataAssociationMapping) : bool :=
  match x with
  | EMapping e =>
      opt_eqb (parentField e) (parentField m) && opt_eqb (parentModel e) (parentModel m)
      && opt_eqb (childField e) (childField m) && opt_eqb (childModel e) (childModel m)
  | _ =>
      opt_eqb None (parentField m) && opt_eqb None (parentModel m)
      && opt_eqb None (childField m) && opt_eqb None (childModel m)
  end.

(** [expands.find(function(x) { return (x.parentField === mapping.parentField) && ... })]:
    whether an entry is found.  The callback reads a property of [x] and then
    a property of [mapping]; either read throws on [null] and on
    [undefined]. *)
Fixpoint find_same_association (mapping : option DataAssociationMapping)
    (expands : list ExpandEntry) : Result bool :=
  match expands with
  | [] => ret false
  | x :: rest =>
      match x with
      | EOther VUndefined | EOther VNull =>
          throw "TypeError: Cannot read property 'parentField' of undefined"
      | _ =>
          match mapping with
          | None => throw "TypeError: Cannot read property 'parentField' of null"
          | Some m =>
              if same_association x m then ret true
              else find_same_association mapping rest
          end
      end
  end.

(** The default options of an expansion: [$top] is [-1] and [$levels] is
    one less than the levels of the queryable, unless given. *)
Definition default_options (self : DataQueryable) (options : ExpandOptions)
  : ExpandOptions :=
  match options with
  | OptQueryable q => OptQueryable q
  | OptObject props =>
      let props1 := if hasOwn "$top" props then props
                    else set_prop "$top" (VNum (-1)) props in
      let props2 :=
        if hasOwn "$levels" props1 then props1
        else match d_levels self with
             | Some _ => set_prop "$levels" (VNum (getLevels self - 1)) props1
             | None => props1
             end in
      OptObject props2
  end.

(** [_.assign(options, source)] where [options] may be the queryable of a
    named entry, which is kept as it is. *)
Definition assign_options (options : ExpandOptions) (source : list (string * Value))
  : ExpandOptions :=
  match options with
  | OptObject props => OptObject (assign props source)
  | OptQueryable q => OptQueryable q
  end.

(** What the first half of one turn of [async.eachSeries] in
    [afterExecute_] decides. *)
Inductive Resolution : Type :=
| Skip
| Resolved (mapping : option DataAssociationMapping) (options : ExpandOptions).

(** The [try] block of one turn: the mapping of the entry and its options. *)
Definition resolve_entry (self : DataQueryable) (expands : list ExpandEntry)
    (expand_ : ExpandEntry) : Result Resolution :=
  match expand_ with
  | EMapping m =>
      let options :=
        match map_select m with
        | Some sel => [("$select", VStr (Str.join "," sel))]
        | None => []
        end in
      let options' :=
        match map_options m with
        | Some o => assign options o
        | None => options
        end in
      ret (Resolved (Some m) (default_options self (OptObject options')))
  | EOther _ => throw "Invalid expand option. Expected string or a named object."
  | EString _ | ENamed _ _ =>
      let expandAttr := match expand_ with
                        | ENamed n _ => n
                        | EString s => s
                        | _ => ""
                        end in
      let options := match expand_ with
                     | ENamed _ (Some o) => o
                     | _ => OptObject []
                     end in
      let field_ :=
        match field (model self) expandAttr with
        | Some f => Some f
        | None => find (fun x => f_type x =? expandAttr) (attributes (model self))
        end in
      match field_ with
      | Some f =>
          mapping <- inferMapping rt (model self) (f_name f) ;;
          found <- find_same_association mapping expands ;;
          if found then ret Skip
          else
            match mapping with
            | Some m =>
                let m' := set_refersTo (Some (or_else (refersTo m) (f_name f))) m in
                let options' :=
                  match map_options m with
                  | Some o => assign_options options o
                  | None =>
                      match map_select m with
                      | Some (s :: sel) =>
                          assign_options options
                            [("$select", VStr (Str.join "," (s :: sel)))]
                      | _ => options
                      end
                  end in
                ret (Resolved (Some m') (default_options self options'))
            | None => ret (Resolved None (default_options self options))
            end
      | None => ret (Resolved None (default_options self options))
      end
  end.

(** The second half of one turn: the association is attached to the rows,
    or the entry is reported on the console and skipped. *)
Definition attach_entry (self : DataQueryable) (expand_ : ExpandEntry)
    (r : Resolution) (result : Value) : Run Value :=
  match r with
  | Skip => ret result
  | Resolved (Some mapping) options =>
      let here := Some (m_name (model self)) in
      let typed t := opt_eqb (associationType mapping) (Some t) in
      if typed "association" || typed "junction" then
        if opt_eqb (parentModel mapping) here && typed "association" then
          lift (associate rt AssociatedChilds mapping options self result)
        else if opt_eqb (childModel mapping) here && typed "junction" then
          lift (associate rt Parents mapping options self result)
        else if opt_eqb (parentModel mapping) here && typed "junction" then
          lift (associate rt Childs mapping options self result)
        else if opt_eqb (childModel mapping) here && typed "association" then
          lift (associate rt AssociatedParents mapping options self result)
        else
          fail Stalled
      else
        fail (Thrown "Not yet implemented")
  | Resolved None _ =>
      effect (ConsoleLog ("Data assocication mapping (" ++ Entry.print expand_ ++ ") for "
                            ++ show (m_title (model self))
                            ++ " cannot be found or the association between these two models defined more than once.")) ;;
      ret result
  end.

(** [async.eachSeries(expands, ...)]: one entry after the other, the first
    error ends the series. *)
Fixpoint each_expand (self : DataQueryable) (expands todo : list ExpandEntry)
    (result : Value) : Run Value :=
  match todo with
  | [] => ret result
  | expand_ :: rest =>
      r <- lift (resolve_entry self expands expand_) ;;
      result' <- attach_entry self expand_ r result ;;
      each_expand self expands rest result'
  end.

(** The first part of [afterExecute_]: [async.eachSeries] over the distinct
    entries of [$expand], when there is one.  The functions that attach the
    associated objects write them into the rows that they are given: the
    value is [result] as the series leaves it. *)
Definition expansions (self : DataQueryable) (result : Value) : Run Value :=
  match d_expand self with
  | Some l =>
      let expands := Entry.distinct l in
      each_expand self expands expands result
  | None => ret result
  end.

(** [afterExecute_]: the expansions, then [toArrayCallback] on the same
    [result]. *)
Definition afterExecute_ (self : DataQueryable) (result : Value) : Run Value :=
  written <- expansions self result ;;
  lift (toArrayCallback self written).

(** The end of both branches of [finalExecuteInternal_], once
    [afterExecute_] has returned [result]: the callback is called at once
    when [after.execute] has no listener, and after the emission of
    [after.execute] otherwise. *)
Definition raise_after_execute (self : DataQueryable) (e : ExecuteEvent) (result : Value)
  : Run (Value * DataQueryable) :=
  match List.length (after_execute rt) with
  | O => ret (result, self)
  | S _ =>
      effect (Emit "after.execute" (ev_query e)) ;;
      e' <- lift (emit (after_execute rt) e) ;;
      ret (result, with_query (ev_query e') self)
  end.

(** [finalExecuteInternal_].  The event carries the query of the queryable,
    so what the listeners do to [e.query] is seen through [self.query].
    When the adapter was called, [e.result] is assigned the result of
    [afterExecute_] before [after.execute] is emitted.  When a listener of
    [before.execute] has set [e.result], nothing is assigned: the listeners
    of [after.execute] see that result with what the expansions of
    [afterExecute_] wrote into it, and the callback gets what
    [toArrayCallback] made of it; so the two steps of [afterExecute_] are
    written out in that branch. *)
Definition finalExecuteInternal_ (self : DataQueryable) (e : ExecuteEvent)
  : Run (Value * DataQueryable) :=
  effect (Emit "before.execute" (ev_query e)) ;;
  e1 <- lift (emit (before_execute rt) e) ;;
  let self1 := with_query (ev_query e1) self in
  match ev_result e1 with
  | VUndefined =>
      effect (DbExecute (ev_query e1)) ;;
      raw <- lift (db_execute rt (ev_query e1)) ;;
      result <- afterExecute_ self1 raw ;;
      raise_after_execute self1 (mkEvent (ev_query e1) result) result
  | hooked =>
      written <- expansions self1 hooked ;;
      result <- lift (toArrayCallback self1 written) ;;
      raise_after_execute self1 (mkEvent (ev_query e1) written) result
  end.

(** [self.$expand.find(function(x) { return x.name === field.name; })]:
    whether an entry is found.  Only a named entry has a [name]. *)
Fixpoint find_named (n : string) (l : list ExpandEntry) : Result bool :=
  match l with
  | [] => ret false
  | x :: rest =>
      match x with
      | EOther VUndefined | EOther VNull =>
          throw "TypeError: Cannot read property 'name' of undefined"
      | ENamed m _ => if m =? n then ret true else find_named n rest
      | EOther v => if Js.eqb (get v "name") (VStr n) then ret true else find_named n rest
      | _ => find_named n rest
      end
  end.

(** Whether a projected field is the attribute [y]:
    [f.name() === y.name]. *)
Definition names (x : QueryField) (y : DataField) : bool :=
  opt_eqb (name_of x) (Some (f_name y)).

(** One turn of [selected.forEach] in [execute_]: the mapping of a
    projected expandable attribute is added to [$expand]. *)
Definition register_expandable (expandables : list DataField) (x : QueryField)
    (self : DataQueryable) : Result DataQueryable :=
  match find (names x) expandables with
  | Some f =>
      mapping <- inferMapping rt (model self) (f_name f) ;;
      match mapping with
      | Some m =>
          let current := match d_expand self with Some l => l | None => [] end in
          let self' := with_expand (Some current) self in
          found <- find_named (f_name f) current ;;
          if found then ret self' else expand (ExpandValue (EMapping m)) self'
      | None => ret self
      end
  | None => ret self
  end.

(** The block of [execute_] that runs unless the queryable is flattened:
    hidden attributes leave the projection and expandable ones are
    registered for expansion. *)
Definition prepare_expand (self : DataQueryable) : Result DataQueryable :=
  let expandables := List.filter f_expandable (attributes (model self)) in
  match q_select (query self) with
  | None => throw "TypeError: Cannot read property of undefined"
  | Some selected =>
      let hiddens := List.filter f_hidden (attributes (model self)) in
      let selected' :=
        List.filter (fun x => negb (existsb (names x) hiddens)) selected in
      let self1 := with_query (set_select (Some selected') (query self)) self in
      match expandables with
      | [] => ret self1
      | _ => for_each (register_expandable expandables) selected' self1
      end
  end.

(** The merge of a view's filter, group and order into the query. *)
Definition merge_view (q : QueryExpression) (eq : QueryExpression) : QueryExpression :=
  let eq1 :=
    match q_prepared q with
    | Some p =>
        set_where (Some p)
          match q_where eq with
          | Some _ => prepare eq
          | None => eq
          end
    | None => eq
    end in
  let eq2 :=
    match q_group q with
    | Some g => set_group (Some g) eq1
    | None => eq1
    end in
  match q_order q with
  | Some o =>
      match q_order eq2 with
      | Some current => set_order (Some (current ++ o)%list) eq2
      | None => set_order (Some o) eq2
      end
  | None => eq2
  end.

(** [execute_] *)
Definition execute_ (self : DataQueryable) : Run (Value * DataQueryable) :=
  match migrate rt (model self) with
  | Some err => fail err
  | None =>
      let flatten_ :=
        match d_flatten self with
        | Some true => true
        | _ => (getLevels self =? 0)%Z
        end in
      self1 <- lift (if flatten_ then ret self else prepare_expand self) ;;
      match d_view self1 with
      | Some vw =>
          q <- lift (model_filter rt (model self1) vw) ;;
          let self2 := with_query (merge_view q (query self1)) self1 in
          finalExecuteInternal_ self2 (mkEvent (query self2) VUndefined)
      | None =>
          finalExecuteInternal_ self1 (mkEvent (query self1) VUndefined)
      end
  end.

(* ===================================================================== *)
(** ** Terminal operations *)
(* ===================================================================== *)

(** [takeInternal]: [take(n, callback)] *)
Definition takeInternal (n : Z) (self : DataQueryable) : Run (Value * DataQueryable) :=
  let self1 := take n self in
  self2 <- lift (if hasFields (query self1) then ret self1
                 else select rt SelectNothing self1) ;;
  execute_ self2.

(** [firstInternal] *)
Definition firstInternal (self : DataQueryable) : Run (Value * DataQueryable) :=
  '(result, self') <- takeInternal 1 (skip 0 self) ;;
  match result with
  | VArr (x :: _) => ret (x, self')
  | VArr [] => ret (VUndefined, self')
  | VStr s =>
      match chars s with
      | c :: _ => ret (VStr c, self')
      | [] => ret (VUndefined, self')
      end
  | VUndefined | VNull => fail (Thrown "TypeError: Cannot read property 'length' of undefined")
  | _ => ret (VUndefined, self')
  end.

(** [countInternal] *)
Definition countInternal (self : DataQueryable) : Run (Value * DataQueryable) :=
  match attributes (model self) with
  | [] => fail (Thrown "Queryable collection does not have any property.")
  | field_ :: _ =>
      let q := query self in
      let q' :=
        Query.select [from (viewAdapter (model self)) (fields_count (f_name field_))]
          (set_group None (set_order None (set_take None (set_skip None q)))) in
      '(result, self') <- execute_ (with_query q' self) ;;
      match result with
      | VArr (VUndefined :: _) | VArr (VNull :: _) =>
          fail (Thrown "TypeError: Cannot read property of undefined")
      | VArr (row :: _) => ret (get row (f_name field_), self')
      | _ => ret (VNull, self')
      end
  end.

(** [listInternal].  The clone shares the [$expand] array of the queryable,
    so the entries that the first execution pushes are there when the clone
    counts. *)
Definition listInternal (self : DataQueryable) : Run (Value * DataQueryable) :=
  let take_ :=
    match q_take (query self) with
    | Some n => if (n =? 0)%Z then 25%Z else n
    | None => 25%Z
    end in
  self1 <- lift (select rt SelectNothing self) ;;
  let q1 := clone self1 in
  '(result, self2) <- takeInternal take_ self1 ;;
  let q1' :=
    match d_expand q1 with
    | Some _ => with_expand (d_expand self2) q1
    | None => q1
    end in
  '(total, _) <- countInternal q1' ;;
  let skip_ := match q_skip (query self2) with Some n => parseInt n | None => 0%Z end in
  ret (VObj [("total", total); ("skip", VNum skip_);
             ("records", if truthy result then result else VArr [])],
       self2).

(** [valueInternal] *)
Definition valueInternal (self : DataQueryable) : Run (Value * DataQueryable) :=
  self1 <- lift
    match q_select (query self) with
    | None =>
        select rt
          match primaryKey (model self) with
          | Some pk => SelectString pk
          | None => SelectNothing
          end
          self
    | Some _ => ret self
    end ;;
  '(result, self2) <- firstInternal self1 ;;
  if isNil result then ret (VUndefined, self2)
  else
    match keys result with
    | [] => ret (VUndefined, self2)
    | key :: _ => ret (get result key, self2)
    end.

End Pipeline.

(** [allInternal]: [all(callback)] *)
Definition allInternal (rt : Runtime) (self : DataQueryable) : Run (Value * DataQueryable) :=
  let self1 := with_query (set_take None (set_skip None (query self))) self in
  self2 <- lift (if hasFields (query self1) then ret self1
                 else select rt SelectNothing self1) ;;
  execute_ rt self2.

(* ===================================================================== *)
(** ** Further operations of the queryable *)
(* ===================================================================== *)

(** [DataQueryable.prototype.getItems].  A negative [$take] stands for no
    limit: when [(parseInt(self.query.$take) || 0) < 0], [$take] and [$skip]
    are deleted.  ([$inlinecount], which the
    function deletes first, is not part of the query of this model.) *)
Definition getItems (rt : Runtime) (self : DataQueryable) : Run (Value * DataQueryable) :=
  let q := query self in
  let negative :=
    match q_take q with
    | Some n => (parseInt n <? 0)%Z
    | None => false
    end in
  let self1 := if negative then with_query (set_skip None (set_take None q)) self else self in
  self2 <- lift (if hasFields (query self1) then ret self1
                 else select rt SelectNothing self1) ;;
  execute_ rt self2.

(** The body that [maxInternal], [minInternal] and [averageInternal_]
    share; they differ in the name of the aggregate only:
    [delete self.query.$skip], then
    [self.select([field]).flatten().value(callback)] for the aggregated
    field. *)
Definition aggregateInternal (rt : Runtime) (aggregation attr : string)
    (self : DataQueryable) : Run (Value * DataQueryable) :=
  let self1 := with_query (set_skip None (query self)) self in
  '(field_, self2) <- lift (selectAggregatedAttribute rt self1 aggregation attr None) ;;
  self3 <- lift (select rt (SelectItems [SelField field_]) self2) ;;
  valueInternal rt (flatten None self3).

(** [maxInternal] *)
Definition maxInternal (rt : Runtime) : string -> DataQueryable -> Run (Value * DataQueryable) :=
  aggregateInternal rt "max".

(** [minInternal] *)
Definition minInternal (rt : Runtime) : string -> DataQueryable -> Run (Value * DataQueryable) :=
  aggregateInternal rt "min".

(** [averageInternal_] *)
Definition averageInternal_ (rt : Runtime)
  : string -> DataQueryable -> Run (Value * DataQueryable) :=
  aggregateInternal rt "avg".

(** The argument of [alsoSelect]: nothing, a string, an array, or a query
    field. *)
Inductive AlsoArg : Type :=
| AlsoNothing
| AlsoString (s : string)
| AlsoItems (l : list SelectItem)
| AlsoField (f : QueryField).

(** One turn of [arr.forEach] in [alsoSelect]: [fieldOf(x)], which hands a
    value that is not a string back as it is, is pushed to the projection
    of the model's view adapter. *)
Definition also_item (rt : Runtime) (x : SelectItem) (self : DataQueryable)
  : Result DataQueryable :=
  '(f, self1) <- match x with
                 | SelString s => fieldOf rt self s None
                 | SelField qf => ret (qf, self)
                 end ;;
  match q_select (query self1) with
  | Some sel => ret (with_query (set_select (Some (sel ++ [f])%list) (query self1)) self1)
  | None => throw "TypeError: Cannot read property of undefined"
  end.

(** [DataQueryable.prototype.alsoSelect] *)
Definition alsoSelect (rt : Runtime) (attr : AlsoArg) (self : DataQueryable)
  : Result DataQueryable :=
  if negb (hasFields (query self)) then
    select rt
      match attr with
      | AlsoString s => SelectString s
      | AlsoItems l => SelectItems l
      | AlsoNothing | AlsoField _ => SelectNothing
      end
      self
  else
    match attr with
    | AlsoNothing => ret self
    | AlsoString s => for_each (also_item rt) [SelString s] self
    | AlsoItems l => for_each (also_item rt) l self
    | AlsoField f => for_each (also_item rt) [SelField f] self
    end.

(** [DataAttributeResolver.prototype.orderByNestedAttribute]: an aggregate
    of a nested attribute is selected as an aggregate, anything else is
    resolved as a nested attribute. *)
Definition orderByNestedAttribute (rt : Runtime) (self : DataQueryable) (attr : string)
  : Result (option QueryField * DataQueryable) :=
  match testNestedAttribute rt attr with
  | Some nestedAttribute =>
      match regexp_exec rt "/^(\w+)\((\w+)\/(\w+)\)$/i" (am_name nestedAttribute) with
      | Some matches =>
          '(f, s) <- selectAggregatedAttribute rt self (Str.item 1 matches)
                       (Str.item 2 matches ++ "/" ++ Str.item 3 matches) None ;;
          ret (Some f, s)
      | None =>
          match regexp_exec rt "/^(\w+)\((\w+)\/(\w+)\/(\w+)\)$/i"
                  (am_name nestedAttribute) with
          | Some matches =>
              '(f, s) <- selectAggregatedAttribute rt self (Str.item 1 matches)
                           (Str.item 2 matches ++ "/" ++ Str.item 3 matches ++ "/"
                              ++ Str.item 4 matches) None ;;
              ret (Some f, s)
          | None => resolveNestedAttribute rt self attr
          end
      end
  | None => resolveNestedAttribute rt self attr
  end.

(** A method of the query that takes the resolved field ([undefined] when
    the resolution yields none): [orderBy], [thenBy], [orderByDescending]
    or [thenByDescending].  The package that defines them is not part of
    these sources, so the queryable is given them. *)
Definition QueryMethod : Type := option QueryField -> QueryExpression -> QueryExpression.

Record QueryOrdering := mkOrdering {
  query_orderBy : QueryMethod;
  query_thenBy : QueryMethod;
  query_orderByDescending : QueryMethod;
  query_thenByDescending : QueryMethod
}.

(** The body that the four ordering methods of the queryable share; they
    differ in the method of the query that they call. *)
Definition order_with (rt : Runtime) (method : QueryMethod) (attr : string)
    (self : DataQueryable) : Result DataQueryable :=
  if Str.contains slash attr then
    '(f, self') <- orderByNestedAttribute rt self attr ;;
    ret (with_query (method f (query self')) self')
  else
    '(f, self') <- fieldOf rt self attr None ;;
    ret (with_query (method (Some f) (query self')) self').

(** [DataQueryable.prototype.orderBy] *)
Definition orderBy (rt : Runtime) (pkg : QueryOrdering)
  : string -> DataQueryable -> Result DataQueryable :=
  order_with rt (query_orderBy pkg).

(** [DataQueryable.prototype.thenBy] *)
Definition thenBy (rt : Runtime) (pkg : QueryOrdering)
  : string -> DataQueryable -> Result DataQueryable :=
  order_with rt (query_thenBy pkg).

(** [DataQueryable.prototype.orderByDescending] *)
Definition orderByDescending (rt : Runtime) (pkg : QueryOrdering)
  : string -> DataQueryable -> Result DataQueryable :=
  order_with rt (query_orderByDescending pkg).

(** [DataQueryable.prototype.thenByDescending] *)
Definition thenByDescending (rt : Runtime) (pkg : QueryOrdering)
  : string -> DataQueryable -> Result DataQueryable :=
  order_with rt (query_thenByDescending pkg).

(** The body that [and] and [or] share with [where]; they differ in the
    method of the query that they call. *)
Definition filter_with (rt : Runtime) (method : QueryMethod) (attr : string)
    (self : DataQueryable) : Result DataQueryable :=
  if Str.contains slash attr then
    '(f, self') <- resolveNestedAttribute rt self attr ;;
    ret (with_query (method f (query self')) self')
  else
    '(f, self') <- fieldOf rt self attr None ;;
    ret (with_query (method (Some f) (query self')) self').

Record QueryLogic := mkLogic {
  query_and : QueryMethod;
  query_or : QueryMethod
}.

(** [DataQueryable.prototype.and] *)
Definition and_ (rt : Runtime) (pkg : QueryLogic)
  : string -> DataQueryable -> Result DataQueryable :=
  filter_with rt (query_and pkg).

(** [DataQueryable.prototype.or] *)
Definition or_ (rt : Runtime) (pkg : QueryLogic)
  : string -> DataQueryable -> Result DataQueryable :=
  filter_with rt (query_or pkg).

(** [fieldOf] for an attribute that may be [undefined], which is handed
    back as it is. *)
Definition fieldOf_any (rt : Runtime) (self : DataQueryable) (attr : option string)
  : Result (option QueryField * DataQueryable) :=
  match attr with
  | Some a =>
      '(f, self') <- fieldOf rt self a None ;;
      ret (Some f, self')
  | None => ret (None, self)
  end.

(** [query.join(entity).with(qry.query().where(left).equal(right))] on the
    query of the queryable.  The package that defines these methods is not
    part of these sources, so the queryable is given them. *)
Definition JoinMethod : Type :=
  QueryEntity -> option QueryField -> option QueryField -> QueryExpression -> QueryExpression.

(** [DataQueryable.prototype.join] *)
Definition join (rt : Runtime) (method : JoinMethod) (model_ : option string)
    (self : DataQueryable) : Result DataQueryable :=
  match model_ with
  | None => ret self
  | Some name =>
      joinModel <- require (context_model rt name)
                     ("The " ++ name ++ " model cannot be found") ;;
      match List.filter (fun x => f_type x =? m_name joinModel) (attributes (model self)) with
      | [] =>
          throw ("An internal error occured. The association between "
                   ++ m_name (model self) ++ " and " ++ name ++ " cannot be found")
      | x :: _ =>
          mapping <- inferMapping rt (model self) (f_name x) ;;
          match mapping with
          | None => throw "TypeError: Cannot read property 'childField' of null"
          | Some mp =>
              '(l, self1) <- fieldOf_any rt self (childField mp) ;;
              '(r, _) <- fieldOf_any rt (new_queryable joinModel) (parentField mp) ;;
              self2 <- select rt SelectNothing self1 ;;
              ret (with_query (method (left (entity (viewAdapter joinModel))) l r
                                 (query self2))
                              self2)
          end
      end
  end.

(* ===================================================================== *)
(** ** The methods of the model that start a queryable *)
(* ===================================================================== *)

Module OfModel.

(** [get attributeNames]: [self.attributes.map(x => x.name)] *)
Definition attributeNames (m : DataModel) : list string := map f_name (attributes m).

(** [DataModel.asQueryable] *)
Definition asQueryable (m : DataModel) : DataQueryable := new_queryable m.

(** [DataModel.where] *)
Definition where_ (rt : Runtime) (m : DataModel) (attr : string) : Result DataQueryable :=
  where_ rt attr (new_queryable m).

(** [result.select(this.attributeNames)], the first step of
    [DataModel.first] and of [DataModel.all]. *)
Definition selected (rt : Runtime) (m : DataModel) : Result DataQueryable :=
  select rt (SelectItems (map SelString (attributeNames m))) (new_queryable m).

(** [DataModel.select]: the arguments are passed on. *)
Definition select (rt : Runtime) (m : DataModel) (arg : SelectArg) : Result DataQueryable :=
  select rt arg (new_queryable m).

(** [DataModel.orderByDescending]: it calls [result.orderBy(attr)]. *)
Definition orderByDescending (rt : Runtime) (pkg : QueryOrdering) (m : DataModel)
    (attr : string) : Result DataQueryable :=
  orderBy rt pkg attr (new_queryable m).

(** [DataModel.orderBy] *)
Definition orderBy (rt : Runtime) (pkg : QueryOrdering) (m : DataModel) (attr : string)
  : Result DataQueryable :=
  orderBy rt pkg attr (new_queryable m).

(** [n = n || 25] *)
Definition limit (n : option Z) : Z :=
  match n with
  | Some k => if (k =? 0)%Z then 25%Z else k
  | None => 25%Z
  end.

(** [DataModel.take] without a callback, and with one. *)
Definition take (m : DataModel) (n : option Z) : DataQueryable :=
  take (limit n) (new_queryable m).

Definition takeInternal (rt : Runtime) (m : DataModel) (n : option Z)
  : Run (Value * DataQueryable) :=
  takeInternal rt (limit n) (new_queryable m).

(** [DataModel.skip] *)
Definition skip (m : DataModel) (n : Z) : DataQueryable := skip n (new_queryable m).

(** [DataModel.list] *)
Definition list (rt : Runtime) (m : DataModel) : Run (Value * DataQueryable) :=
  listInternal rt (new_queryable m).

(** [DataModel.first] *)
Definition first (rt : Runtime) (m : DataModel) : Run (Value * DataQueryable) :=
  self <- lift (selected rt m) ;; firstInternal rt self.

(** [DataModel.all] *)
Definition all (rt : Runtime) (m : DataModel) : Run (Value * DataQueryable) :=
  self <- lift (selected rt m) ;; allInternal rt self.

(** [DataModel.max] and [DataModel.min] *)
Definition max (rt : Runtime) (m : DataModel) (attr : string)
  : Run (Value * DataQueryable) :=
  maxInternal rt attr (new_queryable m).

Definition min (rt : Runtime) (m : DataModel) (attr : string)
  : Run (Value * DataQueryable) :=
  minInternal rt attr (new_queryable m).

End OfModel.


(* ===================================================================== *)
(** ** The data model: inherited attributes and inferred associations *)
(* ===================================================================== *)

(** [DataModel] of the model layer: the [attributes] getter of the
    constructor, [base], [getSuperTypes], [key], [field],
    [inferTagMapping_] and [inferMapping], which the engine above takes as
    given ([attributes] of a model, [inferMapping] of the runtime). *)

Module Schema.

(** An association mapping as an object: an instance of
    [DataAssociationMapping], or a plain object of a model definition. *)
Inductive MappingObject : Type :=
| Instance (m : DataAssociationMapping)
| Plain (m : DataAssociationMapping).

Definition properties (o : MappingObject) : DataAssociationMapping :=
  match o with
  | Instance m | Plain m => m
  end.

(** A field object, with the properties that the model layer reads or
    writes.  Every property but the name may be absent; [fd_many] may also
    hold [undefined], which reads the same. *)
Record FieldDefinition := mkField {
  fd_name : string;
  fd_property : option string;
  fd_type : option string;
  fd_many : option bool;
  fd_expandable : option bool;
  fd_hidden : option bool;
  fd_primary : option bool;
  fd_mapping : option MappingObject;
  fd_model : option string;
  fd_cloned : option bool
}.

(** A model: its name, the name of the model it inherits from and its own
    fields. *)
Record ModelDefinition := mkDefinition {
  md_name : string;
  md_inherits : option string;
  md_fields : list FieldDefinition
}.

(** [context.getConfiguration().model(name)], the entry of the
    configuration for a model: its fields and the mappings cached so far
    ([mappings_], absent at first). *)
Record Configuration := mkConfiguration {
  conf_fields : list FieldDefinition;
  mappings_ : option (list (string * MappingObject))
}.

(** What the model layer takes from outside: [context.model(name)], the
    names of [getConfiguration().dataTypes], the test of
    [/([a-zA-Z]+?)([e']s|[^aiou]s)$/], [_.upperFirst],
    [new DataAssociationMapping(obj)] ([None] for no argument) and
    [new DataAssociationMapping(Object.prototype[name])], the mapping that
    the constructor makes of a member of [Object.prototype]. *)
Record Context := mkContext {
  ctx_model : option string -> option ModelDefinition;
  dataTypes : string -> bool;
  pluralExpression : string -> bool;
  upperFirst : string -> string;
  new_mapping : option DataAssociationMapping -> DataAssociationMapping;
  member_mapping : string -> DataAssociationMapping
}.

(** The names that every plain object answers to, without having them: the
    members of [Object.prototype]. *)
Definition prototype_members : list string :=
  [ "constructor"; "hasOwnProperty"; "isPrototypeOf"; "propertyIsEnumerable";
    "toLocaleString"; "toString"; "valueOf"; "__proto__";
    "__defineGetter__"; "__defineSetter__"; "__lookupGetter__"; "__lookupSetter__" ].

Definition prototype_member (name : string) : bool :=
  existsb (String.eqb name) prototype_members.

(** [x == true] and the truth of a flag that may be absent. *)
Definition is_true (b : option bool) : bool :=
  match b with
  | Some true => true
  | _ => false
  end.

(** [a] when present, otherwise [b]: what [_.assign(_.assign({}, base), x)]
    leaves in a property that [x] holds as [a] and [base] as [b]. *)
Definition over {A : Type} (a b : option A) : option A :=
  match a with
  | Some _ => a
  | None => b
  end.

(** [typeof dataTypes[type] !== 'undefined'] *)
Definition primitive (ctx : Context) (type : option string) : bool :=
  match type with
  | Some t => dataTypes ctx t
  | None => false
  end.

(** [DataModel.base]: the model that [inherits] names, if the context has
    it.  The model has a context. *)
Definition base (ctx : Context) (self : ModelDefinition) : option ModelDefinition :=
  match md_inherits self with
  | None => None
  | Some n => ctx_model ctx (Some n)
  end.

(** The loop of [getSuperTypes]: [result.unshift(baseModel.name)] while
    there is a base model.  The fuel bounds the turns; a chain of models
    that comes back to itself never leaves the loop. *)
Fixpoint super_types (fuel : nat) (ctx : Context) (baseModel : option ModelDefinition)
    (result : list string) : option (list string) :=
  match baseModel with
  | None => Some result
  | Some b =>
      match fuel with
      | O => None
      | S fuel' => super_types fuel' ctx (base ctx b) (md_name b :: result)
      end
  end.

(** [DataModel.getSuperTypes] *)
Definition getSuperTypes (fuel : nat) (ctx : Context) (self : ModelDefinition)
  : option (list string) :=
  super_types fuel ctx (base ctx self) [].

(** The value that the getter gives to [x.many] when it is undefined:
    [false] for a primitive type, otherwise
    [pluralExpression.test(x.name) || (x.mapping && x.mapping.associationType === 'junction')]. *)
Definition infer_many (ctx : Context) (x : FieldDefinition) : option bool :=
  match fd_many x with
  | Some b => Some b
  | None =>
      if primitive ctx (fd_type x) then Some false
      else if pluralExpression ctx (fd_name x) then Some true
      else match fd_mapping x with
           | Some o => Some (opt_eqb (associationType (properties o)) (Some "junction"))
           | None => None
           end
  end.

(** The field [x] of the model as the getter leaves it: [many] inferred,
    [model] set to the name of the model unless it is defined. *)
Definition own (ctx : Context) (self : ModelDefinition) (x : FieldDefinition)
  : FieldDefinition :=
  mkField (fd_name x) (fd_property x) (fd_type x) (infer_many ctx x) (fd_expandable x)
          (fd_hidden x) (fd_primary x) (fd_mapping x)
          (match fd_model x with
           | Some m => Some m
           | None => Some (md_name self)
           end)
          (fd_cloned x).

(** [clone = {}; _.assign(clone, field); _.assign(clone, x);
    clone.model = field.model; clone.cloned = true], for [x] as [own]
    leaves it: [many] is then a property of [x], whatever it holds. *)
Definition clone (field_ x : FieldDefinition) : FieldDefinition :=
  mkField (fd_name x)
          (over (fd_property x) (fd_property field_))
          (over (fd_type x) (fd_type field_))
          (fd_many x)
          (over (fd_expandable x) (fd_expandable field_))
          (over (fd_hidden x) (fd_hidden field_))
          (over (fd_primary x) (fd_primary field_))
          (over (fd_mapping x) (fd_mapping field_))
          (fd_model field_)
          (Some true).

(** [attributes.find(x => x.name == name || x.property == name)], the body
    of [DataModel.field] for a string. *)
Definition field_in (attrs : list FieldDefinition) (name : string) : option FieldDefinition :=
  find (fun x => (fd_name x =? name) || opt_eqb (fd_property x) (Some name)) attrs.

(** One turn of [self.fields.forEach] in the getter, [baseAttributes]
    being the attributes of the base model if there is one. *)
Definition attribute (ctx : Context) (self : ModelDefinition)
    (baseAttributes : option (list FieldDefinition)) (x : FieldDefinition)
  : FieldDefinition :=
  let x1 := own ctx self x in
  match baseAttributes with
  | Some attrs =>
      if negb (is_true (fd_primary x1)) then
        match field_in attrs (fd_name x1) with
        | Some field_ => clone field_ x1
        | None => x1
        end
      else x1
  | None => x1
  end.

(** The attributes of the base model that the getter appends: those that
    are not primary and that no field of the model overrides by name. *)
Definition inherited (self : ModelDefinition) (baseAttributes : list FieldDefinition)
  : list FieldDefinition :=
  List.filter (fun x => negb (is_true (fd_primary x))
                        && negb (existsb (fun y => fd_name y =? fd_name x) (md_fields self)))
              baseAttributes.

(** The body of the getter, once the attributes of the base model are
    known. *)
Definition attributes_over (ctx : Context) (self : ModelDefinition)
    (baseAttributes : option (list FieldDefinition)) : list FieldDefinition :=
  (map (attribute ctx self baseAttributes) (md_fields self)
   ++ match baseAttributes with
      | Some attrs => inherited self attrs
      | None => []
      end)%list.

(** [get attributes].  The getter of a model calls the getter of its base
    model; the fuel bounds the depth of the calls, and a chain of models
    that comes back to itself exhausts the stack. *)
Fixpoint attributes (fuel : nat) (ctx : Context) (self : ModelDefinition)
  : Result (list FieldDefinition) :=
  match fuel with
  | O => throw "RangeError: Maximum call stack size exceeded"
  | S fuel' =>
      match base ctx self with
      | Some baseModel =>
          attrs <- attributes fuel' ctx baseModel ;;
          ret (attributes_over ctx self (Some attrs))
      | None => ret (attributes_over ctx self None)
      end
  end.

(** [DataModel.key]: [attributes.find(x => x.primary == true)] *)
Definition key (attrs : list FieldDefinition) : option FieldDefinition :=
  find (fun x => is_true (fd_primary x)) attrs.

(** [get primaryKey]: the name of the first primary field among the
    model's own fields. *)
Definition primaryKey (self : ModelDefinition) : option string :=
  match find (fun x => is_true (fd_primary x)) (md_fields self) with
  | Some p => Some (fd_name p)
  | None => None
  end.

(** [DataModel.field] *)
Definition field (fuel : nat) (ctx : Context) (self : ModelDefinition) (name : string)
  : Result (option FieldDefinition) :=
  attrs <- attributes fuel ctx self ;;
  ret (field_in attrs name).

(** [inferTagMapping_]: the junction that stores the values of a
    collection of a primitive type. *)
Definition inferTagMapping_ (fuel : nat) (ctx : Context) (self : ModelDefinition)
    (field_ : FieldDefinition) : Result (option DataAssociationMapping) :=
  if negb (is_true (fd_many field_)) then ret None
  else if negb (primitive ctx (fd_type field_)) then ret None
  else
    let name := md_name self ++ upperFirst ctx (fd_name field_) in
    attrs <- attributes fuel ctx self ;;
    match key attrs with
    | Some primaryKey =>
        ret (Some (new_mapping ctx
               (Some (mkMapping (Some "junction") (Some name) (Some (md_name self))
                                (Some (fd_name primaryKey)) None None (Some "delete")
                                (Some (fd_name field_)) None None))))
    | None => throw "TypeError: Cannot read property 'name' of undefined"
    end.

(** [conf.mappings_[name] = mapping] *)
Fixpoint set_key {A : Type} (k : string) (v : A) (l : list (string * A))
  : list (string * A) :=
  match l with
  | [] => [(k, v)]
  | (k', v') :: r => if k' =? k then (k', v) :: r else (k', v') :: set_key k v r
  end.

Definition cached (conf : Configuration) : list (string * MappingObject) :=
  match mappings_ conf with
  | Some l => l
  | None => []
  end.

Definition cache (name : string) (mapping : DataAssociationMapping) (conf : Configuration)
  : Configuration :=
  mkConfiguration (conf_fields conf) (Some (set_key name (Instance mapping) (cached conf))).

(** [definitionField.mapping = tagMapping] on the first field of the
    configuration with the given name. *)
Fixpoint define_mapping (name : string) (mapping : DataAssociationMapping)
    (l : list FieldDefinition) : list FieldDefinition :=
  match l with
  | [] => []
  | x :: r =>
      if fd_name x =? name then
        mkField (fd_name x) (fd_property x) (fd_type x) (fd_many x) (fd_expandable x)
                (fd_hidden x) (fd_primary x) (Some (Instance mapping)) (fd_model x)
                (fd_cloned x) :: r
      else x :: define_mapping name mapping r
  end.

Definition set_childModel (c : string) (m : DataAssociationMapping) : DataAssociationMapping :=
  mkMapping (associationType m) (associationAdapter m) (parentModel m) (parentField m)
            (Some c) (childField m) (cascade m) (refersTo m) (map_select m) (map_options m).

Definition set_parentModel (p : string) (m : DataAssociationMapping) : DataAssociationMapping :=
  mkMapping (associationType m) (associationAdapter m) (Some p) (parentField m)
            (childModel m) (childField m) (cascade m) (refersTo m) (map_select m) (map_options m).

(** [_.assign(target, source)] on mappings. *)
Definition assign_mapping (target source : DataAssociationMapping) : DataAssociationMapping :=
  mkMapping (over (associationType source) (associationType target))
            (over (associationAdapter source) (associationAdapter target))
            (over (parentModel source) (parentModel target))
            (over (parentField source) (parentField target))
            (over (childModel source) (childModel target))
            (over (childField source) (childField target))
            (over (cascade source) (cascade target))
            (over (refersTo source) (refersTo target))
            (over (map_select source) (map_select target))
            (over (map_options source) (map_options target)).

(** [superTypes.indexOf(name) >= 0] *)
Definition among (superTypes : list string) (name : option string) : bool :=
  match name with
  | Some n => existsb (fun s => s =? n) superTypes
  | None => false
  end.

(** The end of the branch of [inferMapping] for a declared mapping: the
    mapping object is cached and returned, as it is if it is an instance
    of [DataAssociationMapping] and assigned to a new instance if not. *)
Definition declared_as_it_is (ctx : Context) (conf : Configuration) (name : string)
    (o : MappingObject) : Result (option DataAssociationMapping * option Configuration) :=
  match o with
  | Instance m => ret (Some m, Some (cache name m conf))
  | Plain m =>
      let result := assign_mapping (new_mapping ctx None) m in
      ret (Some result, Some (cache name result conf))
  end.

(** The branch of [inferMapping] for a field with a declared mapping. *)
Definition declared (fuel : nat) (ctx : Context) (self : ModelDefinition)
    (conf : Configuration) (name : string) (field_ : FieldDefinition) (o : MappingObject)
  : Result (option DataAssociationMapping * option Configuration) :=
  let mapping := properties o in
  if negb (opt_eqb (fd_model field_) (Some (md_name self))) then
    if opt_eqb (childModel mapping) (Some (md_name self))
       || opt_eqb (parentModel mapping) (Some (md_name self)) then
      let result := new_mapping ctx (Some mapping) in
      ret (Some result, Some (cache name result conf))
    else
      match getSuperTypes fuel ctx self with
      | None => inl Stalled
      | Some superTypes =>
          if opt_eqb (associationType mapping) (Some "association") then
            let result := new_mapping ctx (Some mapping) in
            if among superTypes (childModel mapping) then
              let result := set_childModel (md_name self) result in
              ret (Some result, Some (cache name result conf))
            else if among superTypes (parentModel mapping) then
              let result := set_childModel (md_name self) result in
              ret (Some result, Some (cache name result conf))
            else throw "EMAP: An inherited data association cannot be mapped."
          else if opt_eqb (associationType mapping) (Some "junction") then
            let result := new_mapping ctx (Some mapping) in
            if among superTypes (childModel mapping) then
              let result := set_childModel (md_name self) result in
              ret (Some result, Some (cache name result conf))
            else if among superTypes (parentModel mapping) then
              let result := set_parentModel (md_name self) result in
              ret (Some result, Some (cache name result conf))
            else throw "EMAP: An inherited data association cannot be mapped."
          else declared_as_it_is ctx conf name o
      end
  else declared_as_it_is ctx conf name o.

(** The branch of [inferMapping] for a field without a declared mapping. *)
Definition inferred (fuel : nat) (ctx : Context) (self : ModelDefinition)
    (conf : Configuration) (name : string) (field_ : FieldDefinition)
  : Result (option DataAssociationMapping * option Configuration) :=
  match ctx_model ctx (fd_type field_) with
  | None =>
      if is_true (fd_many field_) then
        tagMapping <- inferTagMapping_ fuel ctx self field_ ;;
        match tagMapping with
        | Some tag =>
            match find (fun x => fd_name x =? fd_name field_) (conf_fields conf) with
            | Some _ =>
                ret (Some (new_mapping ctx (Some tag)),
                     Some (mkConfiguration (define_mapping (fd_name field_) tag (conf_fields conf))
                                           (mappings_ conf)))
            | None => throw "TypeError: Cannot set property 'mapping' of undefined"
            end
        | None => ret (None, Some conf)
        end
      else ret (None, Some conf)
  | Some associatedModel =>
      associated <- attributes fuel ctx associatedModel ;;
      match find (fun x => opt_eqb (fd_type x) (Some (md_name self))) associated with
      | Some associatedField =>
          if is_true (fd_many associatedField) then
            let result := new_mapping ctx
              (Some (mkMapping (Some "association") None (Some (md_name associatedModel))
                               (primaryKey associatedModel) (Some (md_name self))
                               (Some (fd_name field_)) (Some "null") None None None)) in
            ret (Some result, Some (cache name result conf))
          else
            let result := new_mapping ctx
              (Some (mkMapping (Some "association") None (Some (md_name self))
                               (primaryKey self) (Some (md_name associatedModel))
                               (Some (fd_name associatedField)) (Some "null")
                               (Some (or_else (fd_property field_) (fd_name field_)))
                               None None)) in
            ret (Some result, Some (cache name result conf))
      | None =>
          if pluralExpression ctx (fd_name field_) || is_true (fd_many field_) then
            let result := new_mapping ctx
              (Some (mkMapping (Some "junction")
                               (Some (md_name self ++ upperFirst ctx (fd_name field_)))
                               (Some (md_name self)) (primaryKey self)
                               (Some (md_name associatedModel)) (primaryKey associatedModel)
                               (Some "delete") None None None)) in
            ret (Some result, Some (cache name result conf))
          else
            let result := new_mapping ctx
              (Some (mkMapping (Some "association") None (Some (md_name associatedModel))
                               (primaryKey associatedModel) (Some (md_name self))
                               (Some (fd_name field_)) (Some "null") None None None)) in
            ret (Some result, Some (cache name result conf))
      end
  end.

(** [DataModel.inferMapping].  The configuration of the model goes in and
    comes out, with [mappings_] and, for a tag mapping, the field of the
    definition as the call leaves them; without a configuration the result
    is [undefined], and [null] without a field, both [None] here.
    [mappings_] is a plain object: under a name that it does not hold,
    [conf.mappings_[name]] is the member of [Object.prototype] of that name
    when there is one ([constructor], [toString], ...), and the result is
    the mapping that the constructor makes of it; nothing is cached. *)
Definition inferMapping (fuel : nat) (ctx : Context) (self : ModelDefinition)
    (conf : option Configuration) (name : string)
  : Result (option DataAssociationMapping * option Configuration) :=
  match conf with
  | None => ret (None, None)
  | Some conf0 =>
      let conf1 := mkConfiguration (conf_fields conf0) (Some (cached conf0)) in
      match assoc name (cached conf1) with
      | Some (Instance m) => ret (Some m, Some conf1)
      | Some (Plain m) => ret (Some (new_mapping ctx (Some m)), Some conf1)
      | None =>
          if prototype_member name
          then ret (Some (member_mapping ctx name), Some conf1)
          else
            found <- field fuel ctx self name ;;
            match found with
            | None => ret (None, Some conf1)
            | Some field_ =>
                match fd_mapping field_ with
                | Some o => declared fuel ctx self conf1 name field_ o
                | None => inferred fuel ctx self conf1 name field_
                end
            end
      end
  end.

End Schema.
(* ===================================================================== *)
(** ** A small application: people and their orders *)
(* ===================================================================== *)

Module Sample.

Definition plain (n t : string) : DataField :=
  mkDataField n None t (Some false) false false false None.

Definition key (n : string) : DataField :=
  mkDataField n None "Integer" (Some false) false false true None.

Definition association_ (parent pfield child cfield : string) : DataAssociationMapping :=
  mkMapping (Some "association") None (Some parent) (Some pfield) (Some child)
            (Some cfield) (Some "null") None None None.

(** [Person]: [orders] is the collection of the orders of a person, [tags]
    a collection of plain values that is not expandable. *)
Definition orders : DataField :=
  mkDataField "orders" None "Order" (Some true) true false false
    (Some (association_ "Person" "id" "Order" "customer")).

Definition tags : DataField :=
  mkDataField "tags" None "Text" (Some true) false false false None.

Definition person_fields : list DataField :=
  [ key "id"; plain "givenName" "Text"; plain "familyName" "Text"; orders; tags ].

Definition Person : DataModel :=
  mkModel "Person" (Some "People") None person_fields person_fields.

(** [Order]: [customer] is the person who ordered; [buyer] refers to the
    same person through the foreign key that [customer] holds. *)
Definition order_fields : list DataField :=
  [ key "id";
    mkDataField "customer" None "Person" (Some false) false false false
      (Some (association_ "Person" "id" "Order" "customer"));
    mkDataField "buyer" None "Person" (Some false) false false false
      (Some (association_ "Person" "id" "Order" "customer"));
    plain "orderDate" "DateTime" ].

Definition Order : DataModel :=
  mkModel "Order" (Some "Orders") None order_fields order_fields.

(** [Group]: [tags] is its only collection. *)
Definition group_fields : list DataField :=
  [ key "id"; plain "name" "Text"; tags ].

Definition Group : DataModel :=
  mkModel "Group" (Some "Groups") None group_fields group_fields.

Definition models (n : string) : option DataModel :=
  if n =? "Person" then Some Person
  else if n =? "Order" then Some Order
  else if n =? "Group" then Some Group
  else None.

(** The branch of [inferMapping] for an attribute of the model itself: the
    mapping that the attribute declares, [null] for an attribute without
    one and for a name that is not an attribute. *)
Definition declared_mapping (m : DataModel) (n : string)
  : Result (option DataAssociationMapping) :=
  match field m n with
  | Some f => inr (f_mapping f)
  | None => inr None
  end.

Fixpoint word (s : string) : bool :=
  match s with
  | EmptyString => true
  | String a r =>
      let n := nat_of_ascii a in
      (((48 <=? n) && (n <=? 57)) || ((65 <=? n) && (n <=? 90))
       || ((97 <=? n) && (n <=? 122)) || (n =? 95))%nat && word r
  end.

(** A matcher for the strings of the examples, which are attribute names
    and paths of two names: it knows the two patterns that such strings
    match and no other. *)
Definition exec (pattern s : string) : option (list string) :=
  if pattern =? "/^(\w+)$/" then
    if negb (s =? "") && word s then Some [s] else None
  else if pattern =? "/^(\w+)\/(\w+)$/" then
    match Str.split slash s with
    | [a; b] =>
        if negb (a =? "") && word a && negb (b =? "") && word b
        then Some [s; a; b] else None
    | _ => None
    end
  else None.

(** An adapter over a table kept in memory: it honours [$skip] and a
    positive [$take], and answers a count projection with the number of
    rows of the table. *)
Definition table (rows : list Value) (q : QueryExpression) : Result Value :=
  match q_select q with
  | Some [f] =>
      match qf_fn f with
      | Some _ => inr (VArr [VObj [(result_key f, VNum (Z.of_nat (List.length rows)))]])
      | None =>
          let skipped := match q_skip q with
                         | Some n => skipn (Z.to_nat n) rows
                         | None => rows
                         end in
          inr (VArr match q_take q with
                    | Some n => if (0 <? n)%Z then firstn (Z.to_nat n) skipped else skipped
                    | None => skipped
                    end)
      end
  | _ =>
      let skipped := match q_skip q with
                     | Some n => skipn (Z.to_nat n) rows
                     | None => rows
                     end in
      inr (VArr match q_take q with
                | Some n => if (0 <? n)%Z then firstn (Z.to_nat n) skipped else skipped
                | None => skipped
                end)
  end.

(** A runtime without listeners, views or migrations, over a table. *)
Definition runtime (rows : list Value) : Runtime :=
  mkRuntime exec models declared_mapping (fun _ _ => None) (fun _ => None)
            (fun _ _ => inl (Thrown "no view")) [] []
            (table rows)
            (fun _ _ _ _ result => inr result).

Fixpoint ids (from_ : Z) (n : nat) : list Value :=
  match n with
  | O => []
  | S n' => VObj [("id", VNum from_)] :: ids (from_ + 1) n'
  end.

(** [context.model('Order').expand('customer')] *)
Definition orders_with_customer : DataQueryable :=
  with_expand (Some [EString "customer"]) (new_queryable Order).

(** [context.model('Order').select('id').asArray()], the projection being
    written down directly. *)
Definition order_ids : DataQueryable :=
  asArray None
    (with_query (Query.select [from "OrderData" (fields_select "id")]
                   (query (new_queryable Order)))
                (new_queryable Order)).

(** [context.model('Order').select('id').flatten()], the projection being
    written down directly. *)
Definition flat_orders : DataQueryable :=
  flatten None
    (with_query (Query.select [from "OrderData" (fields_select "id")]
                   (query (new_queryable Order)))
                (new_queryable Order)).

(** [context.model('Person').expand('givenName')]: the attribute exists and
    has no association. *)
Definition people_with_name : DataQueryable :=
  with_expand (Some [EString "givenName"]) (new_queryable Person).

(** [context.model('Person').expand('nothing')]: no attribute has this name
    or this type. *)
Definition people_with_nothing : DataQueryable :=
  with_expand (Some [EString "nothing"]) (new_queryable Person).

(** A listener that answers from a cache, and one that refuses. *)
Definition cached : Listener :=
  fun e => inr (mkEvent (ev_query e) (VArr (ids 100 2))).

Definition denied : Listener :=
  fun _ => inl (Thrown "EPERM").

(** A runtime whose adapter is unreachable, with a list of listeners before
    the execution and one that records nothing after it. *)
Definition hooked (before : list Listener) : Runtime :=
  mkRuntime exec models declared_mapping (fun _ _ => None) (fun _ => None)
            (fun _ _ => inl (Thrown "no view")) before [fun e => inr e]
            (fun _ => inl (Thrown "ECONNREFUSED"))
            (fun _ _ _ _ result => inr result).

(** Functions of expansion that write an object into every row, under the
    name of the child field of the mapping. *)
Definition attaching (_ : Association) (m : DataAssociationMapping) (_ : ExpandOptions)
    (_ : DataQueryable) (result : Value) : Result Value :=
  match result with
  | VArr rows =>
      inr (VArr (List.map
                   (fun row =>
                      match row with
                      | VObj props =>
                          VObj (set_prop (or_else (childField m) "") (VObj [("id", VNum 1)])
                                         props)
                      | x => x
                      end)
                   rows))
  | x => inr x
  end.

(** A listener that answers with two rows, the first of which holds a falsy
    identifier. *)
Definition cached_pair : Listener :=
  fun e => inr (mkEvent (ev_query e) (VArr [VObj [("id", VNum 0)]; VObj [("id", VNum 100)]])).

(** A listener of [after.execute] that notes, as the limit of the query, how
    many rows of [e.result] hold a [customer]. *)
Definition measuring : Listener :=
  fun e =>
    match ev_result e with
    | VArr rows =>
        let holding :=
          List.filter (fun row => match row with
                                  | VObj props => hasOwn "customer" props
                                  | _ => false
                                  end) rows in
        inr (mkEvent (set_take (Some (Z.of_nat (List.length holding))) (ev_query e))
                     (ev_result e))
    | _ => inr e
    end.

(** A runtime whose adapter is unreachable, with a list of listeners before
    the execution, the listener that measures after it, and functions of
    expansion that write into the rows. *)
Definition measured (before : list Listener) : Runtime :=
  mkRuntime exec models declared_mapping (fun _ _ => None) (fun _ => None)
            (fun _ _ => inl (Thrown "no view")) before [measuring]
            (fun _ => inl (Thrown "ECONNREFUSED"))
            attaching.

(** A runtime over a table, with functions of expansion that write into the
    rows. *)
Definition expanding (rows : list Value) : Runtime :=
  mkRuntime exec models declared_mapping (fun _ _ => None) (fun _ => None)
            (fun _ _ => inl (Thrown "no view")) [] []
            (table rows)
            attaching.

(** [context.model('Order').select('id').expand('customer').asArray()], the
    projection being written down directly. *)
Definition order_ids_with_customer : DataQueryable :=
  with_expand (Some [EString "customer"]) order_ids.

(** A runtime whose migration fails. *)
Definition unmigrated : Runtime :=
  mkRuntime exec models declared_mapping (fun _ _ => None)
            (fun _ => Some (Thrown "EMIGRATE"))
            (fun _ _ => inl (Thrown "no view")) [] []
            (table [])
            (fun _ _ _ _ result => inr result).

(** [Account]: [password] is hidden. *)
Definition password : DataField :=
  mkDataField "password" None "Text" (Some false) false true false None.

Definition account_fields : list DataField :=
  [ key "id"; plain "name" "Text"; password ].

Definition Account : DataModel :=
  mkModel "Account" (Some "Accounts") None account_fields account_fields.

(** [context.model('Account').select('id', 'name', 'password')], the
    projection being written down directly. *)
Definition accounts : DataQueryable :=
  with_query (Query.select [from "AccountData" (fields_select "id");
                            from "AccountData" (fields_select "name");
                            from "AccountData" (fields_select "password")]
                (query (new_queryable Account)))
             (new_queryable Account).

(** [context.model('Person').select('id')], the projection being written
    down directly. *)
Definition people_ids : DataQueryable :=
  with_query (Query.select [from "PersonData" (fields_select "id")]
                (query (new_queryable Person)))
             (new_queryable Person).

(** A model without attributes, and one whose only attribute is an
    expandable collection. *)
Definition Empty : DataModel := mkModel "Empty" None None [] [].

Definition Basket : DataModel :=
  mkModel "Basket" None None [orders] [orders].

(** Ordering methods of a query that add the field to [$order]. *)
Definition ordered (d : Direction) : QueryMethod :=
  fun f q =>
    match f with
    | Some x =>
        set_order (Some (match q_order q with Some o => o | None => [] end ++ [(d, x)])%list) q
    | None => q
    end.

Definition ordering : QueryOrdering := mkOrdering (ordered Asc) (ordered Asc)
                                                  (ordered Desc) (ordered Desc).


(** A join method of a query that appends the join to [$expand]. *)
Definition joining : JoinMethod :=
  fun e l r q =>
    match l, r with
    | Some a, Some b =>
        set_expand (ExpandArray (joins (q_expand q) ++ [join_with e (ExEqual a b)])%list) q
    | _, _ => q
    end.

(** Methods of a query that open the next predicate on a field. *)
Definition logic : QueryLogic := mkLogic set_left set_left.
End Sample.

(* ===================================================================== *)
(** ** A small hierarchy: things, parties, people and their orders *)
(* ===================================================================== *)

Module Shop.

Import Schema.

Definition declare (name type : string) : FieldDefinition :=
  mkField name None (Some type) None None None None None None None.

Definition identifier : FieldDefinition :=
  mkField "id" None (Some "Integer") None None None (Some true) None None None.

(** A collection of texts. *)
Definition labels : FieldDefinition :=
  mkField "tags" None (Some "Text") (Some true) None None None None None None.

(** [Thing]: the root of the hierarchy. *)
Definition Thing : ModelDefinition :=
  mkDefinition "Thing" None [identifier; declare "name" "Text"; labels].

(** The postal address of a party, declared with its mapping; the members
    of a party, of which the party is the parent. *)
Definition address : FieldDefinition :=
  mkField "address" None (Some "Address") None None None None
          (Some (Plain (mkMapping (Some "association") None (Some "Address") (Some "id")
                                  (Some "Party") (Some "address") None None None None)))
          None None.

Definition members : FieldDefinition :=
  mkField "members" None (Some "Membership") (Some true) None None None
          (Some (Plain (mkMapping (Some "association") None (Some "Party") (Some "id")
                                  (Some "Membership") (Some "party") None None None None)))
          None None.

(** [Party] inherits from [Thing], declares its key again and says of the
    name only that it is hidden. *)
Definition Party : ModelDefinition :=
  mkDefinition "Party" (Some "Thing")
    [ identifier;
      mkField "name" None None None None (Some true) None None None None;
      address; members ].

(** [Person] inherits from [Party]; [Visitor] inherits from it too and
    declares [id] again, without saying that it is primary. *)
Definition Person : ModelDefinition :=
  mkDefinition "Person" (Some "Party")
    [ identifier; declare "orders" "Order"; declare "favourites" "Product";
      declare "employer" "Company" ].

Definition Visitor : ModelDefinition :=
  mkDefinition "Visitor" (Some "Party") [ declare "id" "Integer"; declare "badge" "Text" ].

Definition Order : ModelDefinition :=
  mkDefinition "Order" None
    [ identifier; declare "customer" "Person"; declare "orderedItem" "Product" ].

Definition Product : ModelDefinition :=
  mkDefinition "Product" None [ identifier; declare "name" "Text" ].

Definition Company : ModelDefinition :=
  mkDefinition "Company" None
    [ identifier;
      mkField "staff" None (Some "Person") (Some true) None None None None None None ].

Definition definitions : list ModelDefinition :=
  [Thing; Party; Person; Visitor; Order; Product; Company].

Definition letter (a : ascii) : bool :=
  let n := nat_of_ascii a in
  ((65 <=? n)%nat && (n <=? 90)%nat) || ((97 <=? n)%nat && (n <=? 122)%nat).

Definition aiou (a : ascii) : bool :=
  existsb (Ascii.eqb a) ["a"; "i"; "o"; "u"]%char.

(** [/([a-zA-Z]+?)([e']s|[^aiou]s)$/.test(s)]: the text ends with a
    letter, a character other than a, i, o and u, and an s. *)
Fixpoint plural (s : string) : bool :=
  match s with
  | String l (String c (String "s" EmptyString)) => letter l && negb (aiou c)
  | String _ r => plural r
  | EmptyString => false
  end.

Definition upper (s : string) : string :=
  match s with
  | String a r =>
      let n := nat_of_ascii a in
      String (if (97 <=? n)%nat && (n <=? 122)%nat then ascii_of_nat (n - 32) else a) r
  | EmptyString => EmptyString
  end.

(** A constructor of mappings that assigns its argument to an object with
    two defaults; a member of [Object.prototype] has nothing to assign. *)
Definition defaults : DataAssociationMapping :=
  mkMapping (Some "association") None None None None None (Some "none") None None None.

Definition context : Context :=
  mkContext (fun name => match name with
                         | Some n => find (fun m => md_name m =? n) definitions
                         | None => None
                         end)
            (fun type => existsb (String.eqb type) ["Integer"; "Text"])
            plural upper
            (fun obj => match obj with
                        | Some m => assign_mapping defaults m
                        | None => defaults
                        end)
            (fun _ => defaults).

(** A configuration entry of a model, before any mapping is inferred. *)
Definition configuration (m : ModelDefinition) : Configuration :=
  mkConfiguration (md_fields m) None.

End Shop.

(* ===================================================================== *)
(** * The vocabulary of the statements *)
(* ===================================================================== *)

(** An effect that is console output. *)
Definition is_log (ef : Effect) : Prop := exists msg, ef = ConsoleLog msg.

(** The parts of a queryable that attribute resolution and projection never
    write: the model, the filter, order, group and paging of the query, and
    the flags. *)
Definition settings (q : DataQueryable) :=
  (model q, q_entity (query q), q_where (query q), q_prepared (query q),
   q_order (query q), q_group (query q), q_skip (query q), q_take (query q),
   d_flatten q, d_levels q, d_asArray q, d_silent q).

(** A transparent queryable: it is flattened and has no view, no expand
    list and no [asArray], and the runtime has no listeners and a migration
    that succeeds.  Its execution is one call of the adapter with its query,
    and the rows of the adapter are the result. *)
Definition transparent (rt : Runtime) (self : DataQueryable) : Prop :=
  migrate rt (model self) = None
  /\ before_execute rt = [] /\ after_execute rt = []
  /\ d_flatten self = Some true /\ d_view self = None /\ d_expand self = None
  /\ d_asArray self <> Some true.

(** The queryable that [countInternal] executes: paging, order and group
    are deleted from the query and the projection is a count of the first
    attribute. *)
Definition counted (self : DataQueryable) (field_ : DataField) : DataQueryable :=
  with_query
    (Query.select [from (viewAdapter (model self)) (fields_count (f_name field_))]
       (set_group None (set_order None (set_take None (set_skip None (query self))))))
    self.

(** A path of two members. *)
Definition path (a b : string) : string := a ++ "/" ++ b.

(** The alias under which an association is joined: the child field of the
    mapping when the model is the child, the first member of the path when
    the model is the parent. *)
Definition join_alias (self : DataModel) (mp : DataAssociationMapping) (a : string)
  : option string :=
  if opt_eqb (childModel mp) (Some (m_name self)) then childField mp else Some a.

(** The expand list and the view of a queryable, which attribute resolution
    leaves as they are. *)
Definition expansion (q : DataQueryable) := (d_expand q, d_view q).

(** The expand list after [expand] has been called with each of the names,
    in order. *)
Definition pushed (current : option (list ExpandEntry)) (names : list string)
  : option (list ExpandEntry) :=
  match names with
  | [] => current
  | _ :: _ =>
      Some ((match current with Some l => l | None => [] end) ++ map EString names)%list
  end.

(** The names that one element of the array passes to [expand]. *)
Definition item_expansion (m : DataModel) (x : SelectItem) : list string :=
  match x with
  | SelString s =>
      match field m s with
      | Some f => if many_or_junction f then [f_name f] else []
      | None => []
      end
  | SelField _ => []
  end.

(** What one element of the array adds to the projection: nothing for the
    name of an attribute that is [many] or a junction, the field that
    [fieldOf] builds for the name of another attribute, what [select_]
    makes of a string that names no attribute, and a query field as it
    is. *)
Definition item_projection (rt : Runtime) (m : DataModel) (x : SelectItem)
    (out : list QueryField) : Prop :=
  match x with
  | SelField qf => out = [qf]
  | SelString s =>
      match field m s with
      | Some f =>
          if many_or_junction f then out = []
          else exists s1 s2 qf,
              model s1 = m /\ fieldOf rt s1 (f_name f) None = inr (qf, s2) /\ out = [qf]
      | None =>
          exists s1 s2 r,
            model s1 = m /\ select_ rt s1 s = inr (r, s2)
            /\ out = match r with Some qf => [qf] | None => [] end
      end
  end.

(** The field that [select] projects for an attribute. *)
Definition projected (rt : Runtime) (m : DataModel) (f : DataField) (qf : QueryField) : Prop :=
  exists s1 s2, model s1 = m /\ fieldOf rt s1 (f_name f) None = inr (qf, s2).

(** [x.property || x.name] *)
Definition public_name (x : DataField) : string := or_else (f_property x) (f_name x).

(** An attribute that is neither [many] nor a junction. *)
Definition scalar (x : DataField) : bool := negb (many_or_junction x).

(** The names that one field of a view passes to [expand]. *)
Definition view_field_expansion (m : DataModel) (x : DataViewField) : list string :=
  item_expansion m (SelString (vf_name x)).

(** What one field of a view adds to the projection: nothing for the name
    of an attribute that is [many] or a junction, the field that [fieldOf]
    builds for the name of another attribute, and at most one field for an
    expression. *)
Definition view_field_projection (rt : Runtime) (m : DataModel) (x : DataViewField)
    (out : list QueryField) : Prop :=
  match field m (vf_name x) with
  | Some f =>
      if many_or_junction f then out = []
      else exists s1 s2 qf,
          model s1 = m /\ fieldOf rt s1 (f_name f) None = inr (qf, s2) /\ out = [qf]
  | None => (List.length out <= 1)%nat
  end.

(** The limit that [list()] executes with: [self.query.$take || 25]. *)
Definition page (self : DataQueryable) : Z :=
  match q_take (query self) with
  | Some n => if (n =? 0)%Z then 25%Z else n
  | None => 25%Z
  end.

(** The clone that counts: it shares the expand list of the queryable. *)
Definition counting (self1 self2 : DataQueryable) : DataQueryable :=
  match d_expand (clone self1) with
  | Some _ => with_expand (d_expand self2) (clone self1)
  | None => clone self1
  end.

(** [{ total: total, skip: parseInt(self.query.$skip) || 0, records: (result || []) }] *)
Definition result_set (total result : Value) (self : DataQueryable) : Value :=
  VObj [("total", total);
        ("skip", VNum match q_skip (query self) with Some n => parseInt n | None => 0%Z end);
        ("records", if truthy result then result else VArr [])].

(** An adapter that honours limits: a query with a positive limit is
    answered with no more rows than the limit. *)
Definition honours_take (rt : Runtime) : Prop :=
  forall q n rows,
    q_take q = Some n -> (0 < n)%Z -> db_execute rt q = inr (VArr rows) ->
    (Z.of_nat (List.length rows) <= n)%Z.

(** The query without its paging, order and group. *)
Definition unpaged (q : QueryExpression) : QueryExpression :=
  set_group None (set_order None (set_take None (set_skip None q))).

(** An adapter that counts all matching rows: the count of a query that
    projects no aggregate, taken without paging, order and group, is not
    less than the number of rows that the query is answered with. *)
Definition counts_all (rt : Runtime) : Prop :=
  forall q entity name rows row more total,
    (forall f, In f (fields q) -> qf_fn f = None) ->
    db_execute rt q = inr (VArr rows) ->
    db_execute rt (Query.select [from entity (fields_count name)] (unpaged q))
    = inr (VArr (row :: more)) ->
    get row name = VNum total ->
    (Z.of_nat (List.length rows) <= total)%Z.

(** The elements of an expand list that may be absent. *)
Definition listed (l : option (list ExpandEntry)) : list ExpandEntry :=
  match l with
  | Some entries => entries
  | None => []
  end.

(** What the array branch of [expand] lets through: nothing, a string or a
    named object. *)
Definition acceptable (x : ExpandEntry) : bool :=
  nil_entry x || named_or_string x.

(** Whether a value is an array. *)
Definition is_array (x : ExpandEntry) : bool :=
  match x with
  | EOther (VArr _) => true
  | _ => false
  end.

(** A path of three members and one of four. *)
Definition path3 (a b c : string) : string := a ++ "/" ++ b ++ "/" ++ c.

Definition path4 (a b c d : string) : string := a ++ "/" ++ b ++ "/" ++ c ++ "/" ++ d.

(** The joins of the query of a queryable. *)
Definition joined (q : DataQueryable) : list Join := joins (q_expand (query q)).

(** The joins of [a] are kept by [b], in place: [b] has them first. *)
Definition keeps_joins (a b : DataQueryable) : Prop :=
  exists more, joined b = (joined a ++ more)%list.

(** The aliases of a list of joins that the de-duplication of
    [resolveNestedAttribute] can see: those that are set and not empty. *)
Definition aliases (l : list Join) : list string :=
  flat_map (fun j => match ent_as (j_entity j) with
                     | Some a => if a =? "" then [] else [a]
                     | None => []
                     end) l.

(** A run that performs nothing and fails. *)
Definition fails_quietly {A : Type} (r : Run A) : Prop :=
  effects r = [] /\ exists err, outcome r = inl err.

(** [self.$flatten || (self.getLevels() === 0)], the test of [execute_]. *)
Definition flattened (self : DataQueryable) : bool :=
  match d_flatten self with
  | Some true => true
  | _ => (getLevels self =? 0)%Z
  end.

(** A projected field that names a hidden attribute of the model. *)
Definition names_hidden (m : DataModel) (x : QueryField) : bool :=
  existsb (names x) (List.filter f_hidden (attributes m)).

(** A value of the expand list that [afterExecute_] takes for neither a
    string nor a named object, and reads without an error. *)
Definition unnamed (v : Value) : bool :=
  match v with
  | VUndefined | VBool _ | VNum _ | VArr _ => true
  | VObj props => negb (hasOwn "name" props)
  | VNull | VStr _ => false
  end.

(** The number of values that [alsoSelect] is given. *)
Definition also_count (attr : AlsoArg) : nat :=
  match attr with
  | AlsoNothing => 0
  | AlsoString _ | AlsoField _ => 1
  | AlsoItems l => List.length l
  end.


(** The names of a list of fields. *)
Definition field_names (l : list Schema.FieldDefinition) : list string :=
  map Schema.fd_name l.

(** An own field that does not say whether it is primary and that the base
    model holds, by name or by property, as a primary attribute. *)
Definition takes_key_from (baseAttributes : list Schema.FieldDefinition)
    (x : Schema.FieldDefinition) : bool :=
  match Schema.fd_primary x with
  | None =>
      match Schema.field_in baseAttributes (Schema.fd_name x) with
      | Some f => Schema.is_true (Schema.fd_primary f)
      | None => false
      end
  | Some _ => false
  end.

(** The constructor of mappings keeps every property that it is given. *)
Definition honours (ctx : Schema.Context) : Prop :=
  forall m, Schema.assign_mapping (Schema.new_mapping ctx (Some m)) m
            = Schema.new_mapping ctx (Some m).

(** The mapping has the model at one of its ends. *)
Definition involves (name : string) (m : DataAssociationMapping) : bool :=
  opt_eqb (parentModel m) (Some name) || opt_eqb (childModel m) (Some name).

(** The mapping that the configuration has cached under a name. *)
Definition cached_as (conf : Schema.Configuration) (name : string)
  : option Schema.MappingObject :=
  assoc name (Schema.cached conf).

(** A configuration once [inferMapping] has made sure that [mappings_] is
    an object. *)
Definition opened (conf : Schema.Configuration) : Schema.Configuration :=
  Schema.mkConfiguration (Schema.conf_fields conf) (Some (Schema.cached conf)).
(** The terminal operations that execute the query once.  [list()] is two
    of them: [take(n, callback)] on the queryable, then [count(callback)] on
    its clone. *)
Inductive Terminal : Type :=
| OpTake (n : Z)
| OpFirst
| OpAll
| OpItems
| OpCount
| OpValue
| OpAggregate (aggregation attr : string).

Definition run (rt : Runtime) (op : Terminal) (self : DataQueryable)
  : Run (Value * DataQueryable) :=
  match op with
  | OpTake n => takeInternal rt n self
  | OpFirst => firstInternal rt self
  | OpAll => allInternal rt self
  | OpItems => getItems rt self
  | OpCount => countInternal rt self
  | OpValue => valueInternal rt self
  | OpAggregate aggregation attr => aggregateInternal rt aggregation attr self
  end.

(** What [first()] answers on the result of its execution: [result[0]] when
    [result.length > 0], and nothing otherwise. *)
Definition first_of (result : Value) : Result Value :=
  match result with
  | VArr (x :: _) => ret x
  | VArr [] => ret VUndefined
  | VStr s =>
      match chars s with
      | c :: _ => ret (VStr c)
      | [] => ret VUndefined
      end
  | VUndefined | VNull => throw "TypeError: Cannot read property 'length' of undefined"
  | _ => ret VUndefined
  end.

(** What [count()] answers on the result of its execution:
    [result[0][field.name]] for an array that is not empty, and [null]
    otherwise. *)
Definition count_of (name : string) (result : Value) : Result Value :=
  match result with
  | VArr (VUndefined :: _) | VArr (VNull :: _) =>
      throw "TypeError: Cannot read property of undefined"
  | VArr (row :: _) => ret (get row name)
  | _ => ret VNull
  end.

(** What [value()] answers on the row of [first()]: the value of its first
    key. *)
Definition value_of (row : Value) : Value :=
  if isNil row then VUndefined
  else match keys row with
       | [] => VUndefined
       | key :: _ => get row key
       end.

(** The argument of the [select] of [value()]: [this.model.primaryKey]. *)
Definition key_argument (self : DataQueryable) : SelectArg :=
  match primaryKey (model self) with
  | Some pk => SelectString pk
  | None => SelectNothing
  end.

(** What an operation answers on the result of its execution. *)
Definition answer (op : Terminal) (m : DataModel) (result : Value) : Result Value :=
  match op with
  | OpTake _ | OpAll | OpItems => ret result
  | OpFirst => first_of result
  | OpCount =>
      match attributes m with
      | f :: _ => count_of (f_name f) result
      | [] => ret VNull
      end
  | OpValue | OpAggregate _ _ => row <- first_of result ;; ret (value_of row)
  end.

(** The end of an operation: its answer, with the queryable as the
    execution left it. *)
Definition finish (op : Terminal) (m : DataModel) (r : Value * DataQueryable)
  : Run (Value * DataQueryable) :=
  lift (v <- answer op m (fst r) ;; ret (v, snd r)).

(** Whether [toArrayCallback] collapses the rows of a queryable: [asArray]
    is set and the query has exactly one field. *)
Definition collapses (self : DataQueryable) : bool :=
  match d_asArray self with
  | Some true =>
      match Query.fields (query self) with
      | [_] => true
      | _ => false
      end
  | _ => false
  end.

(** The value that a row holds under its first key. *)
Definition first_value (x : Value) : Value := get x (first_key x).

(** The rows that the collapse keeps: those that are neither [null] nor
    [undefined] and hold a truthy value under their first key. *)
Definition kept_row (x : Value) : bool := negb (isNil x) && truthy (first_value x).

(** Functions of expansion that leave as many rows as they are given. *)
Definition attaches (rt : Runtime) : Prop :=
  forall kind mapping options self rows v,
    associate rt kind mapping options self (VArr rows) = inr v ->
    exists rows', v = VArr rows' /\ List.length rows' = List.length rows.

(* ===================================================================== *)
(** * Properties *)
(* ===================================================================== *)

(** ** Flattening and levels *)

Lemma leading_positive (fuel : nat) (n after : Z) :
  (1 <= n)%Z -> (1 <= fst (leading fuel n after))%Z.
Proof.
  revert n after. induction fuel as [|fuel IH]; intros n after Hn; simpl.
  - destruct (n <? 10)%Z; exact Hn.
  - destruct (n <? 10)%Z eqn:E; [exact Hn|].
    apply IH. apply Z.ltb_ge in E.
    apply Z.div_le_lower_bound; lia.
Qed.

(** Below [10^21], [parseInt] of an integer is the integer. *)
Lemma parseInt_small (n : Z) : (Z.abs n < 10 ^ 21)%Z -> parseInt n = n.
Proof.
  intros H. unfold parseInt. apply Z.ltb_lt in H. now rewrite H.
Qed.

(** [parseInt] of an integer has the sign of the integer. *)
Lemma parseInt_sign (n : Z) :
  ((parseInt n <? 1) = (n <? 1))%Z /\ ((parseInt n <? 0) = (n <? 0))%Z.
Proof.
  unfold parseInt. destruct (Z.abs n <? 10 ^ 21)%Z eqn:E; [split; reflexivity|].
  apply Z.ltb_ge in E.
  assert (Hbig : (1 <= Z.abs n)%Z).
  { eapply Z.le_trans; [|exact E]. now compute. }
  pose proof (@leading_positive (Z.to_nat (Z.log2 (Z.abs n))) (Z.abs n) 0 Hbig) as Hd.
  destruct (leading (Z.to_nat (Z.log2 (Z.abs n))) (Z.abs n) 0) as [d after].
  simpl in Hd.
  set (reached := if Z.even _ then _ else _).
  assert (Hdigit : (1 <= (if reached then if (d =? 9)%Z then 1 else d + 1 else d))%Z).
  { destruct reached; [destruct (d =? 9)%Z|]; lia. }
  revert Hdigit. generalize (if reached then if (d =? 9)%Z then 1 else d + 1 else d)%Z.
  intros digit Hdigit.
  destruct (Z.sgn_spec n) as [[Hn ->]|[[Hn ->]|[Hn ->]]].
  - split; [transitivity false|transitivity false];
      try (apply Z.ltb_ge; lia); symmetry; apply Z.ltb_ge; lia.
  - subst n. simpl in Hbig. lia.
  - split; [transitivity true|transitivity true];
      try (apply Z.ltb_lt; lia); symmetry; apply Z.ltb_lt; lia.
Qed.

(** What [expand] does to a queryable is in its expand list. *)
Lemma expand_writes (arg : ExpandArg) (self self' : DataQueryable) :
  expand arg self = inr self' -> exists l, self' = with_expand l self.
Proof.
  destruct arg as [|e|l]; simpl; intros H.
  - inversion H. eexists; reflexivity.
  - destruct e as [s|n o|m|v]; try (inversion H; eexists; reflexivity).
    destruct v; try (inversion H; eexists; reflexivity).
    destruct (push_each _ _) as [err|pushed]; simpl in H; [discriminate|].
    inversion H. eexists; reflexivity.
  - destruct (push_each _ _) as [err|pushed]; simpl in H; [discriminate|].
    inversion H. eexists; reflexivity.
Qed.

Lemma expand_levels (arg : ExpandArg) (self self' : DataQueryable) :
  expand arg self = inr self' -> d_levels self' = d_levels self.
Proof.
  intros H. apply expand_writes in H. destruct H as [l ->]. reflexivity.
Qed.

(** C6, as stated, fails: [levels(0)] sets the flatten flag but keeps the
    expand list that [flatten(true)] deletes, and [levels(-1)] reports the
    level [-1] where [flatten(true)] reports [0]. *)
Lemma levels_below_one_is_not_flatten :
  d_expand (levels (VNum 0) Sample.orders_with_customer) = Some [EString "customer"]
  /\ d_expand (flatten (Some true) Sample.orders_with_customer) = None
  /\ levels (VNum 0) Sample.orders_with_customer
     <> flatten (Some true) Sample.orders_with_customer
  /\ getLevels (levels (VNum (-1)) Sample.orders_with_customer) = (-1)%Z
  /\ getLevels (flatten (Some true) Sample.orders_with_customer) = 0%Z.
Proof.
  repeat split; try reflexivity.
  intros H. apply (f_equal d_expand) in H. discriminate H.
Qed.

(** C6 (amended).  [flatten()] and [flatten(true)] do the same: they delete
    the expand list, set the flatten flag and force the reported levels to
    [0].  [levels(n)] of a number reports [parseInt(n)], which is [n] itself
    for an integer below [10^21] in absolute value, and leaves the expand
    list as it is; it sets the flatten flag when that level is below [1],
    which is when [n < 1], and sets it to [false] otherwise.  [levels()],
    and [levels] of a value that is no number, report the level [1].  After
    [flatten(true)] the queryable reports the level [0] through paging,
    [asArray], [expand] and [flatten(false)], until [levels] sets another
    one. *)
Theorem flatten_levels_spec (q : DataQueryable) (n k : Z) (v : Value) (arg : ExpandArg) :
  flatten None q = flatten (Some true) q
  /\ d_expand (flatten (Some true) q) = None
  /\ d_flatten (flatten (Some true) q) = Some true
  /\ getLevels (flatten (Some true) q) = 0%Z
  /\ getLevels (levels (VNum n) q) = parseInt n
  /\ ((Z.abs n < 10 ^ 21)%Z -> getLevels (levels (VNum n) q) = n)
  /\ d_flatten (levels (VNum n) q) = Some (n <? 1)%Z
  /\ ((n < 1)%Z -> d_flatten (levels (VNum n) q) = d_flatten (flatten (Some true) q))
  /\ ((forall m, v <> VNum m) ->
      getLevels (levels v q) = 1%Z /\ d_flatten (levels v q) = Some false)
  /\ d_expand (levels v q) = d_expand q
  /\ getLevels (skip k (flatten (Some true) q)) = 0%Z
  /\ getLevels (take k (flatten (Some true) q)) = 0%Z
  /\ getLevels (asArray None (flatten (Some true) q)) = 0%Z
  /\ getLevels (flatten (Some false) (flatten (Some true) q)) = 0%Z
  /\ (forall q', expand arg (flatten (Some true) q) = inr q' -> getLevels q' = 0%Z)
  /\ getLevels (levels (VNum n) (flatten (Some true) q)) = parseInt n.
Proof.
  repeat split; try reflexivity.
  - intros Hn. simpl. now apply parseInt_small.
  - simpl. apply f_equal. apply parseInt_sign.
  - intros Hn. simpl. apply f_equal. rewrite (proj1 (parseInt_sign n)).
    apply Z.ltb_lt. exact Hn.
  - destruct v; try reflexivity. now elim (H n0).
  - destruct v; try reflexivity. now elim (H n0).
  - intros q' H. unfold getLevels. now rewrite (expand_levels _ _ H).
Qed.

(** The amended C6 at [levels(0)] after [expand('customer')], and where
    [parseInt] gives another number than its argument. *)
Lemma flatten_levels_spec_witness :
  d_flatten (levels (VNum 0) Sample.orders_with_customer)
  = d_flatten (flatten (Some true) Sample.orders_with_customer)
  /\ d_expand (levels (VNum 0) Sample.orders_with_customer)
     = d_expand Sample.orders_with_customer
  /\ getLevels (levels (VNum (10 ^ 21)) Sample.orders_with_customer) = 1%Z
  /\ getLevels (levels (VNum (- 10 ^ 21)) Sample.orders_with_customer) = (-1)%Z
  /\ d_flatten (levels (VNum (- 10 ^ 21)) Sample.orders_with_customer) = Some true
  /\ getLevels (levels (VNum 99999999999999991611392) Sample.orders_with_customer) = 1%Z.
Proof.
  pose proof (@flatten_levels_spec Sample.orders_with_customer
                0%Z 0%Z (VNum 0) ExpandNothing) as H.
  split; [apply H; lia|].
  split; [apply H|].
  split; [rewrite (proj1 (proj2 (proj2 (proj2 (proj2
            (@flatten_levels_spec Sample.orders_with_customer (10 ^ 21)%Z 0%Z
                                  VNull ExpandNothing)))))); now vm_compute|].
  split; [rewrite (proj1 (proj2 (proj2 (proj2 (proj2
            (@flatten_levels_spec Sample.orders_with_customer (- 10 ^ 21)%Z 0%Z
                                  VNull ExpandNothing)))))); now vm_compute|].
  split; [rewrite (proj1 (proj2 (proj2 (proj2 (proj2 (proj2 (proj2
            (@flatten_levels_spec Sample.orders_with_customer (- 10 ^ 21)%Z 0%Z
                                  VNull ExpandNothing)))))))); now vm_compute|].
  rewrite (proj1 (proj2 (proj2 (proj2 (proj2
            (@flatten_levels_spec Sample.orders_with_customer 99999999999999991611392%Z
                                  0%Z VNull ExpandNothing)))))).
  now vm_compute.
Defined.

(** ** The collapse of single-field projections *)

(** C7, as stated, fails: with [asArray] set and one projected field, a row
    whose value is falsy ([0] here) is dropped, so the scalars are fewer
    than the rows. *)
Lemma collapse_drops_falsy_values :
  toArrayCallback Sample.order_ids (VArr [VObj [("id", VNum 0)]; VObj [("id", VNum 1)]])
  = inr (VArr [VNum 1])
  /\ List.length [VNum 1] <> List.length [VObj [("id", VNum 0)]; VObj [("id", VNum 1)]].
Proof.
  split; [reflexivity | discriminate].
Qed.

Lemma collapse_row_length (rows : list Value) :
  (List.length (flat_map collapse_row rows) <= List.length rows)%nat.
Proof.
  induction rows as [|x rows IH]; simpl; [lia|].
  rewrite length_app. unfold collapse_row at 1.
  destruct (isNil x); simpl; [lia|].
  destruct (truthy (get x (first_key x))); simpl; lia.
Qed.

Lemma collapse_row_all (rows : list Value) :
  Forall (fun x => isNil x = false /\ truthy (get x (first_key x)) = true) rows ->
  flat_map collapse_row rows = map (fun x => get x (first_key x)) rows.
Proof.
  induction 1 as [|x rows [Hx Ht] _ IH]; simpl; [reflexivity|].
  unfold collapse_row at 1. rewrite Hx, Ht. simpl. now rewrite IH.
Qed.

(** ** Runs *)

Lemma run_bind_ok {A B : Type} (c : Run A) (f : A -> Run B) (t : list Effect) (x : A) :
  c = (t, inr x) -> bind c f = ((t ++ effects (f x))%list, outcome (f x)).
Proof.
  intros ->. simpl. destruct (f x) as [t' r]. reflexivity.
Qed.

Lemma run_bind_error {A B : Type} (c : Run A) (f : A -> Run B) (t : list Effect) (e : Error) :
  c = (t, inl e) -> bind c f = (t, inl e).
Proof.
  intros ->. reflexivity.
Qed.

Lemma run_bind_effects {A B : Type} (c : Run A) (f : A -> Run B) (ef : Effect) :
  In ef (effects (bind c f)) ->
  In ef (effects c) \/ exists x, outcome c = inr x /\ In ef (effects (f x)).
Proof.
  destruct c as [t [e|x]]; simpl.
  - intros H. now left.
  - destruct (f x) as [t' r] eqn:E. simpl. intros H.
    apply in_app_or in H. destruct H as [H|H]; [now left|].
    right. exists x. rewrite E. now split.
Qed.

Lemma lift_effects {A : Type} (r : Result A) : effects (lift r) = [].
Proof. reflexivity. Qed.

(** ** Expansion *)

Lemma attach_entry_logs (rt : Runtime) (self : DataQueryable) (x : ExpandEntry)
    (r : Resolution) (result : Value) (ef : Effect) :
  In ef (effects (attach_entry rt self x r result)) -> is_log ef.
Proof.
  unfold attach_entry.
  destruct r as [|[mapping|] options]; simpl.
  - intros [].
  - repeat match goal with
           | |- context [if ?b then _ else _] => destruct b
           end; simpl; intros [].
  - intros [H|[]]. eexists. symmetry. exact H.
Qed.

Lemma each_expand_logs (rt : Runtime) (self : DataQueryable) (expands todo : list ExpandEntry)
    (result : Value) (ef : Effect) :
  In ef (effects (each_expand rt self expands todo result)) -> is_log ef.
Proof.
  revert result. induction todo as [|x todo IH]; intros result; simpl.
  - intros [].
  - destruct (resolve_entry rt self expands x) as [e|r]; simpl; [intros []|].
    destruct (attach_entry rt self x r result) as [t [e|result']] eqn:E; simpl.
    + intros H. apply (@attach_entry_logs rt self x r result). rewrite E. exact H.
    + destruct (each_expand rt self expands todo result') as [t' r'] eqn:E'. simpl.
      intros H. apply in_app_or in H. destruct H as [H|H].
      * apply (@attach_entry_logs rt self x r result). rewrite E. exact H.
      * apply (IH result'). rewrite E'. exact H.
Qed.

(** The only effect of [afterExecute_] is console output: the adapter is
    not called for the query whose rows are being completed.  (The queries
    that fetch the associated objects are operations of their own.) *)
Lemma expansions_logs (rt : Runtime) (self : DataQueryable) (result : Value) (ef : Effect) :
  In ef (effects (expansions rt self result)) -> is_log ef.
Proof.
  unfold expansions. destruct (d_expand self) as [l|]; [|intros []].
  apply each_expand_logs.
Qed.

Lemma afterExecute_logs (rt : Runtime) (self : DataQueryable) (result : Value) (ef : Effect) :
  In ef (effects (afterExecute_ rt self result)) -> is_log ef.
Proof.
  unfold afterExecute_.
  intros H. apply run_bind_effects in H. destruct H as [H|(x & _ & H)].
  - eapply expansions_logs. exact H.
  - destruct H.
Qed.

(** Whatever the runtime, an entry that names an attribute whose mapping
    cannot be inferred ends the expansion with a [TypeError]: the test that
    looks for the same association among the entries reads
    [mapping.parentField] before [mapping] is checked. *)
Lemma resolve_entry_without_mapping (rt : Runtime) (self : DataQueryable)
    (expands : list ExpandEntry) (s : string) (f : DataField) :
  field (model self) s = Some f ->
  inferMapping rt (model self) (f_name f) = inr None ->
  In (EString s) expands ->
  exists msg, resolve_entry rt self expands (EString s) = inl (Thrown msg).
Proof.
  intros Hf Hm Hin. unfold resolve_entry. rewrite Hf. simpl. rewrite Hm. simpl.
  assert (H : exists msg, find_same_association None expands = inl (Thrown msg)).
  { clear -Hin. induction expands as [|x rest IH]; [destruct Hin|].
    simpl. destruct x as [s'|n o|m|v]; try (eexists; reflexivity).
    destruct v; eexists; reflexivity. }
  destruct H as [msg ->]. exists msg. reflexivity.
Qed.

(** C5, the code at the failing input.  [expand('givenName')] on [Person]:
    the attribute exists and has no association, so [inferMapping] yields
    [null]; the expansion does not log and skip the entry, it fails, and the
    rows are lost.  An entry that names no attribute at all is logged and
    skipped. *)
Theorem unresolved_mapping_aborts_expansion :
  afterExecute_ (Sample.runtime []) Sample.people_with_name (VArr (Sample.ids 1 2))
  = ([], inl (Thrown "TypeError: Cannot read property 'parentField' of null"))
  /\ afterExecute_ (Sample.runtime []) Sample.people_with_nothing (VArr (Sample.ids 1 2))
     = ([ConsoleLog "Data assocication mapping (nothing) for People cannot be found or the association between these two models defined more than once."],
        inr (VArr (Sample.ids 1 2))).
Proof.
  split; reflexivity.
Qed.

(** ** What the builder leaves alone *)

(** Case analysis on the steps of a fallible computation that is known to
    succeed. *)
Ltac step_in H :=
  match type of H with
  | inl _ = inr _ => discriminate H
  | throw _ = inr _ => discriminate H
  | inr _ = inr _ => inversion H; subst; clear H
  | context [match ?c with _ => _ end] =>
      match c with
      | context [match _ with _ => _ end] => fail 1
      | _ => let E := fresh "E" in destruct c eqn:E; simpl in H
      end
  | context [if ?c then _ else _] =>
      match c with
      | context [if _ then _ else _] => fail 1
      | _ => let E := fresh "E" in destruct c eqn:E; simpl in H
      end
  end.

Lemma resolveNestedAttribute_settings (rt : Runtime) (self self' : DataQueryable)
    (attr : string) (f : option QueryField) :
  resolveNestedAttribute rt self attr = inr (f, self') -> settings self' = settings self.
Proof.
  unfold resolveNestedAttribute. intros H. simpl in H.
  repeat step_in H; reflexivity.
Qed.

Ltac settled := unfold settings in *; simpl in *; congruence.

Ltac settings_of E :=
  match type of E with
  | resolveNestedAttribute _ _ _ = inr (_, _) =>
      apply resolveNestedAttribute_settings in E
  end.

Lemma expand_settings (arg : ExpandArg) (self self' : DataQueryable) :
  expand arg self = inr self' -> settings self' = settings self.
Proof.
  intros H. apply expand_writes in H. destruct H as [l ->]. reflexivity.
Qed.

Lemma fieldOf_settings (rt : Runtime) (self self' : DataQueryable) (attr : string)
    (alias : option string) (f : QueryField) :
  fieldOf rt self attr alias = inr (f, self') -> settings self' = settings self.
Proof.
  unfold fieldOf, require. intros H. simpl in H.
  repeat step_in H;
    repeat match goal with
           | E : resolveNestedAttribute _ _ _ = inr (_, _) |- _ => settings_of E
           end;
    try reflexivity; settled.
Qed.

Lemma selecteNestedAttribute_settings (rt : Runtime) (self self' : DataQueryable)
    (attr : string) (alias : option string) (f : option QueryField) :
  selecteNestedAttribute rt self attr alias = inr (f, self') ->
  settings self' = settings self.
Proof.
  unfold selecteNestedAttribute. intros H. simpl in H.
  repeat step_in H;
    repeat match goal with
           | E : resolveNestedAttribute _ _ _ = inr (_, _) |- _ => settings_of E
           end;
    settled.
Qed.

Lemma selectAggregatedAttribute_settings (rt : Runtime) (self self' : DataQueryable)
    (aggregation attribute : string) (alias : option string) (f : QueryField) :
  selectAggregatedAttribute rt self aggregation attribute alias = inr (f, self') ->
  settings self' = settings self.
Proof.
  unfold selectAggregatedAttribute, require. intros H. simpl in H.
  repeat step_in H;
    repeat match goal with
           | E : selecteNestedAttribute _ _ _ _ = inr (_, _) |- _ =>
               apply selecteNestedAttribute_settings in E
           | E : fieldOf _ _ _ _ = inr (_, _) |- _ => apply fieldOf_settings in E
           end;
    settled.
Qed.

Lemma select__settings (rt : Runtime) (self self' : DataQueryable) (arg : string)
    (f : option QueryField) :
  select_ rt self arg = inr (f, self') -> settings self' = settings self.
Proof.
  unfold select_. intros H. simpl in H.
  repeat step_in H;
    repeat match goal with
           | E : selecteNestedAttribute _ _ _ _ = inr (_, _) |- _ =>
               apply selecteNestedAttribute_settings in E
           | E : selectAggregatedAttribute _ _ _ _ _ = inr (_, _) |- _ =>
               apply selectAggregatedAttribute_settings in E
           | E : fieldOf _ _ _ _ = inr (_, _) |- _ => apply fieldOf_settings in E
           end;
    try reflexivity; settled.
Qed.

Ltac known_settings :=
  repeat match goal with
         | E : selecteNestedAttribute _ _ _ _ = inr (_, _) |- _ =>
             apply selecteNestedAttribute_settings in E
         | E : selectAggregatedAttribute _ _ _ _ _ = inr (_, _) |- _ =>
             apply selectAggregatedAttribute_settings in E
         | E : fieldOf _ _ _ _ = inr (_, _) |- _ => apply fieldOf_settings in E
         | E : select_ _ _ _ = inr (_, _) |- _ => apply select__settings in E
         | E : resolveNestedAttribute _ _ _ = inr (_, _) |- _ =>
             apply resolveNestedAttribute_settings in E
         | E : expand _ _ = inr _ |- _ => apply expand_settings in E
         end.

Lemma where_settings (rt : Runtime) (self self' : DataQueryable) (attr : string) :
  where_ rt attr self = inr self' -> settings self' = settings self.
Proof.
  unfold where_. intros H. simpl in H.
  repeat step_in H; known_settings; settled.
Qed.

Lemma select_view_field_settings (rt : Runtime) (x : DataViewField)
    (arr arr' : list QueryField) (self self' : DataQueryable) :
  select_view_field rt x (arr, self) = inr (arr', self') ->
  settings self' = settings self.
Proof.
  unfold select_view_field. intros H. simpl in H.
  repeat step_in H; known_settings; settled.
Qed.

Lemma select_item_settings (rt : Runtime) (x : SelectItem)
    (arr arr' : list QueryField) (self self' : DataQueryable) :
  select_item rt x (arr, self) = inr (arr', self') ->
  settings self' = settings self.
Proof.
  unfold select_item. intros H. simpl in H.
  repeat step_in H; known_settings; try reflexivity; settled.
Qed.

Lemma for_each_settings {A : Type}
    (step : A -> list QueryField * DataQueryable -> Result (list QueryField * DataQueryable))
    (l : list A) :
  (forall x arr arr' self self',
      step x (arr, self) = inr (arr', self') -> settings self' = settings self) ->
  forall arr arr' self self',
    for_each step l (arr, self) = inr (arr', self') -> settings self' = settings self.
Proof.
  intros Hstep. induction l as [|x l IH]; simpl; intros arr arr' self self' H.
  - inversion H; reflexivity.
  - destruct (step x (arr, self)) as [e|[arr1 self1]] eqn:E; [discriminate|].
    apply Hstep in E. apply IH in H. congruence.
Qed.

Lemma select_rec_settings (rt : Runtime) (fuel : nat) :
  forall (arg : SelectArg) (self self' : DataQueryable),
    select_rec rt fuel arg self = inr self' -> settings self' = settings self.
Proof.
  induction fuel as [|fuel IH]; intros arg self self' H; [discriminate H|].
  simpl in H.
  assert (Hfinish : forall arr s,
             match arr with
             | None =>
                 if negb (hasFields (query s))
                 then select_rec rt fuel (apply_args (default_fields s)) s
                 else ret s
             | Some a => ret (with_query (Query.select a (query s)) s)
             end = inr self' -> settings self' = settings s).
  { intros [a|] s Hs; simpl in Hs.
    - inversion Hs; reflexivity.
    - destruct (negb (hasFields (query s))).
      + now apply IH in Hs.
      + inversion Hs; reflexivity. }
  destruct arg as [|s|l].
  - exact (Hfinish None _ H).
  - destruct (s =? "*"); [inversion H; reflexivity|].
    destruct (field (model self) s) as [f|].
    + destruct (many_or_junction f).
      * simpl in H. pose proof (Hfinish None _ H) as H'. settled.
      * simpl in H. destruct (fieldOf rt self (f_name f) None) as [e|[qf s1]] eqn:E;
          [discriminate|]. pose proof (Hfinish (Some [qf]) _ H) as H'. known_settings. settled.
    + destruct (dataviews rt (model self) s) as [vw|].
      * simpl in H.
        destruct (for_each (select_view_field rt) (view_fields vw)
                           ([], with_view (Some vw) self)) as [e|[arr s2]] eqn:E;
          [discriminate|].
        apply (for_each_settings _ _ (@select_view_field_settings rt)) in E.
        destruct arr; [pose proof (Hfinish None _ H) as H'
                      | pose proof (Hfinish (Some (q :: arr)) _ H) as H'];
          settled.
      * simpl in H.
        destruct (select_ rt (with_view None self) s) as [e|[expr s2]] eqn:E;
          [discriminate|]. known_settings.
        destruct expr; [pose proof (Hfinish (Some [q]) _ H) as H'
                       | pose proof (Hfinish None _ H) as H'];
          settled.
  - assert (Hitems :
        (x <- for_each (select_item rt) l ([], self) ;;
         (let '(arr, s) := x in ret (with_query (Query.select arr (query s)) s)))
        = inr self' -> settings self' = settings self).
    { simpl. intros Hi.
      destruct (for_each (select_item rt) l ([], self)) as [e|[arr s1]] eqn:E;
        [discriminate|].
      apply (for_each_settings _ _ (@select_item_settings rt)) in E.
      inversion Hi; subst. settled. }
    destruct l as [|[s|qf] [|y l]]; try (apply Hitems; exact H).
    destruct (is_some (dataviews rt (model self) s)).
    + now apply IH in H.
    + apply Hitems; exact H.
Qed.

Lemma select_settings (rt : Runtime) (arg : SelectArg) (self self' : DataQueryable) :
  select rt arg self = inr self' -> settings self' = settings self.
Proof. apply select_rec_settings. Qed.

(** ** What an execution is given *)

Lemma register_expandable_settings (rt : Runtime) (expandables : list DataField)
    (x : QueryField) (self self' : DataQueryable) :
  register_expandable rt expandables x self = inr self' ->
  settings self' = settings self /\ d_view self' = d_view self
  /\ q_select (query self') = q_select (query self).
Proof.
  unfold register_expandable. intros H. simpl in H.
  repeat step_in H; try (repeat split; reflexivity).
Qed.

Lemma for_each_register (rt : Runtime) (expandables : list DataField)
    (l : list QueryField) :
  forall self self',
    for_each (register_expandable rt expandables) l self = inr self' ->
    settings self' = settings self /\ d_view self' = d_view self
    /\ q_select (query self') = q_select (query self).
Proof.
  induction l as [|x l IH]; simpl; intros self self' H.
  - inversion H; repeat split; reflexivity.
  - destruct (register_expandable rt expandables x self) as [e|self1] eqn:E;
      [discriminate|].
    apply register_expandable_settings in E. apply IH in H.
    destruct E as (E1 & E2 & E3), H as (H1 & H2 & H3). repeat split; congruence.
Qed.

Lemma prepare_expand_settings (rt : Runtime) (self self' : DataQueryable) :
  prepare_expand rt self = inr self' ->
  settings self' = settings self /\ d_view self' = d_view self.
Proof.
  unfold prepare_expand. intros H.
  destruct (q_select (query self)) as [selected|]; [|discriminate H].
  destruct (List.filter f_expandable (attributes (model self))).
  - inversion H; split; reflexivity.
  - apply for_each_register in H. destruct H as (H1 & H2 & _). split; [settled|].
    rewrite H2. reflexivity.
Qed.

Lemma merge_view_paging (q eq : QueryExpression) :
  q_skip (merge_view q eq) = q_skip eq /\ q_take (merge_view q eq) = q_take eq.
Proof.
  unfold merge_view, prepare.
  destruct eq as [en se le wh pr od gr sk ta ex]; simpl.
  destruct (q_prepared q), (q_group q), (q_order q), wh, od, pr; split; reflexivity.
Qed.

Lemma raise_after_execute_effects (rt : Runtime) (self : DataQueryable) (e : ExecuteEvent)
    (result : Value) (ef : Effect) :
  In ef (effects (raise_after_execute rt self e result)) ->
  ef = Emit "after.execute" (ev_query e).
Proof.
  unfold raise_after_execute. destruct (List.length (after_execute rt)); [intros []|].
  intros H. apply run_bind_effects in H. destruct H as [H|(y & _ & H)].
  - destruct H as [H|[]]. now symmetry.
  - apply run_bind_effects in H. destruct H as [[]|(e3 & _ & [])].
Qed.

(** The effects of a dispatch: the emission of [before.execute] with the
    query it was given, then a call of the adapter, console output and the
    emission of [after.execute]. *)
Lemma finalExecuteInternal_effects (rt : Runtime) (self : DataQueryable) (e : ExecuteEvent)
    (ef : Effect) :
  In ef (effects (finalExecuteInternal_ rt self e)) ->
  ef = Emit "before.execute" (ev_query e)
  \/ (exists e1, emit (before_execute rt) e = inr e1 /\ ev_result e1 = VUndefined
                 /\ ef = DbExecute (ev_query e1))
  \/ is_log ef
  \/ (exists q, ef = Emit "after.execute" q).
Proof.
  unfold finalExecuteInternal_. intros H.
  apply run_bind_effects in H. destruct H as [H|(x & _ & H)].
  { destruct H as [H|[]]. left. now symmetry. }
  right.
  apply run_bind_effects in H. destruct H as [[]|(e1 & He1 & H)].
  simpl in He1.
  assert (Hrest : forall raw e2,
             In ef (effects (result <- afterExecute_ rt (with_query (ev_query e1) self) raw ;;
                             raise_after_execute rt (with_query (ev_query e1) self)
                                                 (e2 result) result)) ->
             is_log ef \/ (exists q, ef = Emit "after.execute" q)).
  { intros raw e2 Hin. apply run_bind_effects in Hin.
    destruct Hin as [Hin|(result & _ & Hin)].
    - left. eapply afterExecute_logs. exact Hin.
    - right. apply raise_after_execute_effects in Hin. eexists. exact Hin. }
  assert (Hhook : forall hooked,
             In ef (effects (written <- expansions rt (with_query (ev_query e1) self) hooked ;;
                             result <- lift (toArrayCallback (with_query (ev_query e1) self)
                                                             written) ;;
                             raise_after_execute rt (with_query (ev_query e1) self)
                                                 (mkEvent (ev_query e1) written) result)) ->
             is_log ef \/ (exists q, ef = Emit "after.execute" q)).
  { intros hooked Hin. apply run_bind_effects in Hin.
    destruct Hin as [Hin|(written & _ & Hin)].
    - left. eapply expansions_logs. exact Hin.
    - apply run_bind_effects in Hin. destruct Hin as [[]|(result & _ & Hin)].
      right. apply raise_after_execute_effects in Hin. eexists. exact Hin. }
  destruct (ev_result e1) eqn:Ev;
    try (right; exact (Hhook _ H)).
  apply run_bind_effects in H. destruct H as [H|(y & _ & H)].
  { destruct H as [H|[]]. left. exists e1. repeat split; auto. }
  apply run_bind_effects in H. destruct H as [[]|(raw & _ & H)].
  right. exact (Hrest _ (fun result => mkEvent (ev_query e1) result) H).
Qed.

(** [before.execute] is emitted once in a dispatch, with the query that the
    dispatch was given. *)
Lemma finalExecuteInternal_before (rt : Runtime) (self : DataQueryable) (e : ExecuteEvent)
    (q : QueryExpression) :
  In (Emit "before.execute" q) (effects (finalExecuteInternal_ rt self e)) ->
  q = ev_query e.
Proof.
  intros H. apply finalExecuteInternal_effects in H.
  destruct H as [H|[(e1 & _ & _ & H)|[[msg H]|[q' H]]]]; try discriminate H.
  now inversion H.
Qed.

(** Without listeners of [before.execute], the adapter is called with that
    same query. *)
Lemma finalExecuteInternal_adapter (rt : Runtime) (self : DataQueryable) (e : ExecuteEvent)
    (q : QueryExpression) :
  before_execute rt = [] ->
  In (DbExecute q) (effects (finalExecuteInternal_ rt self e)) ->
  q = ev_query e.
Proof.
  intros Hb H. apply finalExecuteInternal_effects in H.
  destruct H as [H|[(e1 & He1 & _ & H)|[[msg H]|[q' H]]]]; try discriminate H.
  rewrite Hb in He1. simpl in He1. inversion He1; subst. now inversion H.
Qed.

(** The query that [before.execute] sees has the paging of the queryable
    that [execute_] was given; without a view it also has its order and its
    group. *)
Lemma execute_before (rt : Runtime) (self : DataQueryable) (q : QueryExpression) :
  In (Emit "before.execute" q) (effects (execute_ rt self)) ->
  q_skip q = q_skip (query self) /\ q_take q = q_take (query self)
  /\ (d_view self = None ->
      q_order q = q_order (query self) /\ q_group q = q_group (query self)).
Proof.
  unfold execute_. destruct (migrate rt (model self)); [intros []|].
  intros H. apply run_bind_effects in H. destruct H as [[]|(self1 & Hs & H)].
  assert (Hs1 : settings self1 = settings self /\ d_view self1 = d_view self).
  { simpl in Hs. destruct (match d_flatten self with
                           | Some true => true
                           | _ => (getLevels self =? 0)%Z
                           end).
    - inversion Hs; split; reflexivity.
    - now apply prepare_expand_settings in Hs. }
  destruct Hs1 as [Hset Hview].
  destruct (d_view self1) as [vw|] eqn:Ev.
  - apply run_bind_effects in H. destruct H as [[]|(qv & _ & H)].
    apply finalExecuteInternal_before in H. subst q. simpl.
    destruct (merge_view_paging qv (query self1)) as [-> ->].
    repeat split; settled.
  - apply finalExecuteInternal_before in H. subst q. simpl.
    repeat split; settled.
Qed.

Lemma execute_adapter (rt : Runtime) (self : DataQueryable) (q : QueryExpression) :
  before_execute rt = [] ->
  In (DbExecute q) (effects (execute_ rt self)) ->
  q_skip q = q_skip (query self) /\ q_take q = q_take (query self)
  /\ (d_view self = None ->
      q_order q = q_order (query self) /\ q_group q = q_group (query self)).
Proof.
  intros Hb.
  unfold execute_. destruct (migrate rt (model self)); [intros []|].
  intros H. apply run_bind_effects in H. destruct H as [[]|(self1 & Hs & H)].
  assert (Hs1 : settings self1 = settings self /\ d_view self1 = d_view self).
  { simpl in Hs. destruct (match d_flatten self with
                           | Some true => true
                           | _ => (getLevels self =? 0)%Z
                           end).
    - inversion Hs; split; reflexivity.
    - now apply prepare_expand_settings in Hs. }
  destruct Hs1 as [Hset Hview].
  destruct (d_view self1) as [vw|] eqn:Ev.
  - apply run_bind_effects in H. destruct H as [[]|(qv & _ & H)].
    eapply finalExecuteInternal_adapter in H; [|exact Hb]. subst q. simpl.
    destruct (merge_view_paging qv (query self1)) as [-> ->].
    repeat split; settled.
  - eapply finalExecuteInternal_adapter in H; [|exact Hb]. subst q. simpl.
    repeat split; settled.
Qed.

Lemma with_query_same (self : DataQueryable) : with_query (query self) self = self.
Proof. destruct self; reflexivity. Qed.

Lemma execute_transparent (rt : Runtime) (self : DataQueryable) :
  transparent rt self ->
  execute_ rt self =
    ([Emit "before.execute" (query self); DbExecute (query self)],
     match db_execute rt (query self) with
     | inl err => inl err
     | inr rows => inr (rows, self)
     end).
Proof.
  intros (Hm & Hb & Ha & Hf & Hv & He & Hs).
  unfold execute_. rewrite Hm, Hf. simpl. rewrite Hv.
  unfold finalExecuteInternal_, raise_after_execute, afterExecute_, expansions,
    toArrayCallback.
  rewrite Hb, Ha. simpl. rewrite with_query_same, He.
  destruct (db_execute rt (query self)) as [err|rows]; simpl; [reflexivity|].
  destruct (d_asArray self) as [[|]|]; try reflexivity. now elim Hs.
Qed.

(** ** first *)

Lemma takeInternal_paging (rt : Runtime) (n : Z) (self : DataQueryable) (ef : Effect) :
  In ef (effects (takeInternal rt n self)) ->
  exists self2,
    settings self2 = settings (take n self) /\ In ef (effects (execute_ rt self2)).
Proof.
  unfold takeInternal. intros H.
  apply run_bind_effects in H. destruct H as [[]|(self2 & Hs & H)].
  exists self2. split; [|exact H]. simpl in Hs.
  match type of Hs with context [if ?b then _ else _] => destruct b end.
  - inversion Hs; reflexivity.
  - now apply select_settings in Hs.
Qed.

Lemma firstInternal_effects (rt : Runtime) (self : DataQueryable) :
  effects (firstInternal rt self) = effects (takeInternal rt 1 (skip 0 self)).
Proof.
  unfold firstInternal.
  destruct (takeInternal rt 1 (skip 0 self)) as [t [e|[result s]]]; simpl; [reflexivity|].
  destruct result as [ | |b|n|str|[|x items]|props]; simpl;
    try (now rewrite app_nil_r).
  destruct (chars str); simpl; now rewrite app_nil_r.
Qed.

Lemma takeInternal_transparent (rt : Runtime) (n : Z) (self : DataQueryable) :
  transparent rt self -> hasFields (query self) = true ->
  takeInternal rt n self =
    ([Emit "before.execute" (query (take n self)); DbExecute (query (take n self))],
     match db_execute rt (query (take n self)) with
     | inl err => inl err
     | inr rows => inr (rows, take n self)
     end).
Proof.
  intros Ht Hf. unfold takeInternal.
  replace (hasFields (query (take n self))) with true by (symmetry; exact Hf).
  erewrite run_bind_ok by reflexivity.
  rewrite (@execute_transparent rt (take n self)) by exact Ht.
  reflexivity.
Qed.

(** What [firstInternal] makes of the result of [take(1, callback)]. *)
Lemma firstInternal_outcome (rt : Runtime) (self : DataQueryable)
    (r : Result (Value * DataQueryable)) :
  outcome (takeInternal rt 1 (skip 0 self)) = r ->
  outcome (firstInternal rt self) =
    match r with
    | inl err => inl err
    | inr (VArr (x :: _), s) => inr (x, s)
    | inr (VArr [], s) => inr (VUndefined, s)
    | inr (VStr str, s) =>
        match chars str with
        | c :: _ => inr (VStr c, s)
        | [] => inr (VUndefined, s)
        end
    | inr (VUndefined, _) | inr (VNull, _) =>
        inl (Thrown "TypeError: Cannot read property 'length' of undefined")
    | inr (_, s) => inr (VUndefined, s)
    end.
Proof.
  intros <-. unfold firstInternal.
  destruct (takeInternal rt 1 (skip 0 self)) as [t [e|[result s]]]; simpl; [reflexivity|].
  destruct result as [ | |b|n|str|[|x items]|props]; simpl; try reflexivity.
  destruct (chars str); reflexivity.
Qed.

(** ** count *)

Lemma countInternal_runs (rt : Runtime) (self : DataQueryable) (f : DataField)
    (rest : list DataField) :
  attributes (model self) = f :: rest ->
  effects (countInternal rt self) = effects (execute_ rt (counted self f))
  /\ outcome (countInternal rt self) =
       match outcome (execute_ rt (counted self f)) with
       | inl err => inl err
       | inr (VArr (VUndefined :: _), _) | inr (VArr (VNull :: _), _) =>
           inl (Thrown "TypeError: Cannot read property of undefined")
       | inr (VArr (row :: _), s) => inr (get row (f_name f), s)
       | inr (_, s) => inr (VNull, s)
       end.
Proof.
  intros Ha. unfold countInternal. rewrite Ha. fold (counted self f).
  destruct (execute_ rt (counted self f)) as [t [e|[result s]]]; simpl;
    [split; reflexivity|].
  destruct result as [ | |b|n|str|[|[ | |b|n|str|l|props] items]|props]; simpl;
    rewrite ?app_nil_r; split; reflexivity.
Qed.

(** ** value *)

Lemma valueInternal_runs (rt : Runtime) (self selected : DataQueryable) :
  match q_select (query self) with
  | None =>
      select rt
        match primaryKey (model self) with
        | Some pk => SelectString pk
        | None => SelectNothing
        end
        self
  | Some _ => ret self
  end = inr selected ->
  effects (valueInternal rt self) = effects (firstInternal rt selected)
  /\ outcome (valueInternal rt self) =
       match outcome (firstInternal rt selected) with
       | inl err => inl err
       | inr (row, s) =>
           inr (if isNil row then VUndefined
                else match keys row with
                     | [] => VUndefined
                     | key :: _ => get row key
                     end,
                s)
       end.
Proof.
  intros Hs. unfold valueInternal. rewrite Hs.
  erewrite run_bind_ok by reflexivity. simpl.
  destruct (firstInternal rt selected) as [t [e|[row s]]]; simpl; [split; reflexivity|].
  destruct (isNil row); simpl; [rewrite app_nil_r; split; reflexivity|].
  destruct (keys row); simpl; rewrite app_nil_r; split; reflexivity.
Qed.


(** ** The terminal operations *)

Lemma run_lift_ok {A B : Type} (x : A) (f : A -> Run B) : bind (lift (inr x)) f = f x.
Proof. simpl. destruct (f x); reflexivity. Qed.

Lemma run_bind_assoc {A B C : Type} (c : Run A) (f : A -> Run B) (g : B -> Run C) :
  bind (bind c f) g = bind c (fun x => bind (f x) g).
Proof.
  destruct c as [t [e|x]]; simpl; [reflexivity|].
  destruct (f x) as [t1 [e|y]]; simpl; [reflexivity|].
  destruct (g y) as [t2 r]. now rewrite app_assoc.
Qed.

Lemma run_bind_ext {A B : Type} (c : Run A) (f g : A -> Run B) :
  (forall x, f x = g x) -> bind c f = bind c g.
Proof.
  intros H. destruct c as [t [e|x]]; simpl; [reflexivity|]. now rewrite H.
Qed.

Lemma run_bind_outcome {A B : Type} (c : Run A) (f : A -> Run B) (y : B) :
  outcome (bind c f) = inr y -> exists x, outcome c = inr x /\ outcome (f x) = inr y.
Proof.
  destruct c as [t [e|x]]; simpl; [discriminate|].
  destruct (f x) as [t' r] eqn:E. simpl. intros ->. exists x. rewrite E. now split.
Qed.

Lemma run_bind_pure {A B : Type} (c : Run A) (f : A -> Result B) :
  bind c (fun x => lift (f x))
  = (effects c, match outcome c with inl e => inl e | inr x => f x end).
Proof.
  destruct c as [t [e|x]]; simpl; [reflexivity|]. now rewrite app_nil_r.
Qed.

(** An execution fails before anything happens (a migration, the
    preparation of the expansions or the filter of the view fails), or it is
    the dispatch of a queryable that has the model, the flags and the paging
    of the one that was given. *)
Lemma execute_dispatch (rt : Runtime) (self : DataQueryable) :
  (exists err, execute_ rt self = ([], inl err))
  \/ exists s2,
       model s2 = model self /\ d_asArray s2 = d_asArray self
       /\ q_skip (query s2) = q_skip (query self)
       /\ q_take (query s2) = q_take (query self)
       /\ execute_ rt self = finalExecuteInternal_ rt s2 (mkEvent (query s2) VUndefined).
Proof.
  unfold execute_. destruct (migrate rt (model self)) as [err|].
  { left. exists err. reflexivity. }
  destruct (if match d_flatten self with
               | Some true => true
               | _ => (getLevels self =? 0)%Z
               end
            then ret self else prepare_expand rt self) as [err|self1] eqn:Hp.
  { left. exists err. reflexivity. }
  rewrite run_lift_ok.
  assert (Hs1 : settings self1 = settings self /\ d_view self1 = d_view self).
  { destruct (match d_flatten self with
              | Some true => true
              | _ => (getLevels self =? 0)%Z
              end).
    - inversion Hp; split; reflexivity.
    - now apply prepare_expand_settings in Hp. }
  destruct Hs1 as [Hset Hview].
  destruct (d_view self1) as [vw|].
  - destruct (model_filter rt (model self1) vw) as [err|qv].
    { left. exists err. reflexivity. }
    rewrite run_lift_ok. right.
    exists (with_query (merge_view qv (query self1)) self1).
    destruct (merge_view_paging qv (query self1)) as [Hskip Htake].
    simpl. rewrite Hskip, Htake.
    repeat split; settled.
  - right. exists self1. repeat split; settled.
Qed.

(** The end of an operation has no effect. *)
Lemma finish_take (n : Z) (m : DataModel) (c : Run (Value * DataQueryable)) :
  bind c (finish (OpTake n) m) = c.
Proof.
  destruct c as [t [e|[v s]]]; simpl; [reflexivity|]. now rewrite app_nil_r.
Qed.

(** What follows the selection of the default attributes. *)
Lemma selected_dispatch (rt : Runtime) (self : DataQueryable) :
  (exists err,
      (self2 <- lift (if hasFields (query self) then ret self
                      else select rt SelectNothing self) ;;
       execute_ rt self2) = ([], inl err))
  \/ exists s2,
       model s2 = model self /\ d_asArray s2 = d_asArray self
       /\ q_skip (query s2) = q_skip (query self)
       /\ q_take (query s2) = q_take (query self)
       /\ (self2 <- lift (if hasFields (query self) then ret self
                          else select rt SelectNothing self) ;;
           execute_ rt self2)
          = finalExecuteInternal_ rt s2 (mkEvent (query s2) VUndefined).
Proof.
  destruct (if hasFields (query self) then ret self else select rt SelectNothing self)
    as [err|self2] eqn:Hs.
  { left. exists err. reflexivity. }
  rewrite run_lift_ok.
  assert (Hset : settings self2 = settings self).
  { destruct (hasFields (query self)).
    - inversion Hs; reflexivity.
    - now apply select_settings in Hs. }
  destruct (execute_dispatch rt self2) as [[err He]|(s2 & Hm & Ha & Hk & Ht & He)].
  - left. exists err. exact He.
  - right. exists s2. rewrite He. repeat split; settled.
Qed.

(** Every terminal operation fails before anything happens, or is the
    dispatch of a queryable that has the model and the [asArray] flag of the
    one it was given, followed by the end of the operation. *)
Lemma terminal_dispatch (rt : Runtime) (op : Terminal) (self : DataQueryable) :
  (exists err, run rt op self = ([], inl err))
  \/ exists s2,
       model s2 = model self /\ d_asArray s2 = d_asArray self
       /\ run rt op self
          = (r <- finalExecuteInternal_ rt s2 (mkEvent (query s2) VUndefined) ;;
             finish op (model self) r).
Proof.
  assert (Hfirst : forall self0,
             (exists err, firstInternal rt self0 = ([], inl err))
             \/ exists s2,
                  model s2 = model self0 /\ d_asArray s2 = d_asArray self0
                  /\ firstInternal rt self0
                     = (r <- finalExecuteInternal_ rt s2 (mkEvent (query s2) VUndefined) ;;
                        finish OpFirst (model self0) r)).
  { intros self0. unfold firstInternal, takeInternal.
    destruct (selected_dispatch rt (take 1 (skip 0 self0)))
      as [[err He]|(s2 & Hm & Ha & _ & _ & He)]; rewrite He.
    - left. exists err. reflexivity.
    - right. exists s2. split; [exact Hm|]. split; [exact Ha|].
      apply run_bind_ext. intros [result s]. unfold finish. simpl.
      destruct result as [ | |b|n|str|[|x items]|props]; try reflexivity.
      unfold first_of. destruct (chars str); reflexivity. }
  assert (Hvalue : forall self0,
             (exists err, valueInternal rt self0 = ([], inl err))
             \/ exists s2,
                  model s2 = model self0 /\ d_asArray s2 = d_asArray self0
                  /\ valueInternal rt self0
                     = (r <- finalExecuteInternal_ rt s2 (mkEvent (query s2) VUndefined) ;;
                        finish OpValue (model self0) r)).
  { intros self0. unfold valueInternal.
    destruct (match q_select (query self0) with
              | None =>
                  select rt
                    match primaryKey (model self0) with
                    | Some pk => SelectString pk
                    | None => SelectNothing
                    end
                    self0
              | Some _ => ret self0
              end) as [err|self1] eqn:Hs.
    { left. exists err. reflexivity. }
    rewrite run_lift_ok.
    assert (Hset : settings self1 = settings self0).
    { destruct (q_select (query self0)).
      - inversion Hs; reflexivity.
      - now apply select_settings in Hs. }
    destruct (Hfirst self1) as [[err He]|(s2 & Hm & Ha & He)]; rewrite He.
    - left. exists err. reflexivity.
    - right. exists s2. split; [settled|]. split; [settled|].
      rewrite run_bind_assoc. apply run_bind_ext. intros [result s].
      unfold finish. simpl.
      destruct (first_of result) as [err|row]; simpl; [reflexivity|].
      unfold value_of. destruct (isNil row); [reflexivity|].
      destruct (keys row); reflexivity. }
  destruct op as [n| | | | | |aggregation attr]; cbn [run].
  - unfold takeInternal.
    destruct (selected_dispatch rt (take n self))
      as [[err He]|(s2 & Hm & Ha & _ & _ & He)]; rewrite He.
    + left. exists err. reflexivity.
    + right. exists s2. split; [exact Hm|]. split; [exact Ha|].
      symmetry. exact (@finish_take n (model self) _).
  - exact (Hfirst self).
  - unfold allInternal.
    destruct (selected_dispatch rt
                (with_query (set_take None (set_skip None (query self))) self))
      as [[err He]|(s2 & Hm & Ha & _ & _ & He)]; rewrite He.
    + left. exists err. reflexivity.
    + right. exists s2. split; [exact Hm|]. split; [exact Ha|].
      symmetry. exact (@finish_take 0 (model self) _).
  - unfold getItems.
    match goal with
    | |- context [selected_ <- lift (if hasFields (query ?s) then _ else _) ;; _] =>
        destruct (selected_dispatch rt s)
          as [[err He]|(s2 & Hm & Ha & _ & _ & He)]; rewrite He;
        [left; exists err; reflexivity|];
        assert (Hs : model s = model self /\ d_asArray s = d_asArray self)
          by (destruct (q_take (query self)) as [k|];
              [destruct (parseInt k <? 0)%Z|]; split; reflexivity)
    end.
    right. exists s2. destruct Hs as [Hs1 Hs2].
    split; [congruence|]. split; [congruence|].
    symmetry. exact (@finish_take 0 (model self) _).
  - unfold countInternal. destruct (attributes (model self)) as [|f rest] eqn:Ea.
    { left. eexists. reflexivity. }
    match goal with
    | |- context [execute_ rt ?s] =>
        destruct (execute_dispatch rt s) as [[err He]|(s2 & Hm & Ha & _ & _ & He)];
        rewrite He
    end.
    + left. exists err. reflexivity.
    + right. exists s2. split; [exact Hm|]. split; [exact Ha|].
      apply run_bind_ext. intros [result s]. unfold finish, answer. rewrite Ea. simpl.
      destruct result as [ | |b|n|str|[|[ | |b|n|str|l|props] items]|props]; reflexivity.
  - exact (Hvalue self).
  - unfold aggregateInternal.
    destruct (selectAggregatedAttribute rt
                (with_query (set_skip None (query self)) self) aggregation attr None)
      as [err|[field_ self2]] eqn:Hf.
    { left. exists err. reflexivity. }
    rewrite run_lift_ok.
    destruct (select rt (SelectItems [SelField field_]) self2) as [err|self3] eqn:Hs.
    { left. exists err. reflexivity. }
    rewrite run_lift_ok.
    apply selectAggregatedAttribute_settings in Hf. apply select_settings in Hs.
    destruct (Hvalue (flatten None self3)) as [[err He]|(s2 & Hm & Ha & He)].
    + left. exists err. exact He.
    + right. exists s2.
      assert (Hmodel : model (flatten None self3) = model self) by settled.
      assert (Hflag : d_asArray (flatten None self3) = d_asArray self) by settled.
      split; [congruence|]. split; [congruence|].
      rewrite He, Hmodel. reflexivity.
Qed.

(** The three ways of a dispatch: a listener of [before.execute] fails, the
    listeners leave a result, or they leave none and the adapter is
    called. *)
Lemma dispatch_refused (rt : Runtime) (self : DataQueryable) (e : ExecuteEvent)
    (err : Error) :
  emit (before_execute rt) e = inl err ->
  finalExecuteInternal_ rt self e = ([Emit "before.execute" (ev_query e)], inl err).
Proof.
  intros He. unfold finalExecuteInternal_. simpl. rewrite He. reflexivity.
Qed.

Lemma dispatch_answered (rt : Runtime) (self : DataQueryable) (e e1 : ExecuteEvent) :
  emit (before_execute rt) e = inr e1 ->
  ev_result e1 <> VUndefined ->
  finalExecuteInternal_ rt self e
  = (effect (Emit "before.execute" (ev_query e)) ;;
     written <- expansions rt (with_query (ev_query e1) self) (ev_result e1) ;;
     result <- lift (toArrayCallback (with_query (ev_query e1) self) written) ;;
     raise_after_execute rt (with_query (ev_query e1) self)
                         (mkEvent (ev_query e1) written) result).
Proof.
  intros He Hr. unfold finalExecuteInternal_.
  apply run_bind_ext. intros _. rewrite He, run_lift_ok.
  destruct (ev_result e1) eqn:Ev; try reflexivity. now elim Hr.
Qed.

Lemma dispatch_asked (rt : Runtime) (self : DataQueryable) (e e1 : ExecuteEvent) :
  emit (before_execute rt) e = inr e1 ->
  ev_result e1 = VUndefined ->
  finalExecuteInternal_ rt self e
  = (effect (Emit "before.execute" (ev_query e)) ;;
     effect (DbExecute (ev_query e1)) ;;
     raw <- lift (db_execute rt (ev_query e1)) ;;
     result <- afterExecute_ rt (with_query (ev_query e1) self) raw ;;
     raise_after_execute rt (with_query (ev_query e1) self)
                         (mkEvent (ev_query e1) result) result).
Proof.
  intros He Hr. unfold finalExecuteInternal_.
  apply run_bind_ext. intros _. rewrite He, run_lift_ok, Hr. reflexivity.
Qed.

Lemma finish_effects (op : Terminal) (m : DataModel) (r : Value * DataQueryable) :
  effects (finish op m r) = [].
Proof. reflexivity. Qed.

(** The event of an operation: the one that carries the query that
    [before.execute] is emitted with. *)
Lemma terminal_event (rt : Runtime) (op : Terminal) (self : DataQueryable)
    (q : QueryExpression) :
  In (Emit "before.execute" q) (effects (run rt op self)) ->
  exists s2,
    query s2 = q /\ model s2 = model self /\ d_asArray s2 = d_asArray self
    /\ run rt op self
       = (r <- finalExecuteInternal_ rt s2 (mkEvent q VUndefined) ;;
          finish op (model self) r).
Proof.
  intros Hin.
  destruct (terminal_dispatch rt op self) as [[err He]|(s2 & Hm & Ha & He)].
  { rewrite He in Hin. destruct Hin. }
  exists s2. rewrite He in Hin.
  apply run_bind_effects in Hin. destruct Hin as [Hin|(r & _ & [])].
  apply finalExecuteInternal_before in Hin. simpl in Hin. subst q.
  repeat split; assumption.
Qed.

(** An operation calls the adapter for an event that the listeners of
    [before.execute] have left without a result, with the query of that
    event. *)
Lemma terminal_adapter (rt : Runtime) (op : Terminal) (self : DataQueryable)
    (q : QueryExpression) :
  In (DbExecute q) (effects (run rt op self)) ->
  exists q0 e1 s2,
    emit (before_execute rt) (mkEvent q0 VUndefined) = inr e1
    /\ ev_result e1 = VUndefined /\ ev_query e1 = q
    /\ query s2 = q0 /\ model s2 = model self /\ d_asArray s2 = d_asArray self
    /\ run rt op self
       = (r <- finalExecuteInternal_ rt s2 (mkEvent q0 VUndefined) ;;
          finish op (model self) r).
Proof.
  intros Hin.
  destruct (terminal_dispatch rt op self) as [[err He]|(s2 & Hm & Ha & He)].
  { rewrite He in Hin. destruct Hin. }
  rewrite He in Hin.
  apply run_bind_effects in Hin. destruct Hin as [Hin|(r & _ & [])].
  apply finalExecuteInternal_effects in Hin.
  destruct Hin as [H|[(e1 & He1 & Hr & H)|[[msg H]|[q' H]]]]; try discriminate H.
  inversion H; subst q.
  exists (query s2), e1, s2. repeat split; assumption.
Qed.

(** The result of an operation that has called the adapter: the rows of the
    adapter, as the expansions leave them and as [toArrayCallback] hands
    them on, are what the operation answers on.  The queryable that the
    operation returns is the one that was executed, but for what the
    listeners of [after.execute] did to its query. *)
Lemma terminal_asked (rt : Runtime) (op : Terminal) (self : DataQueryable)
    (q : QueryExpression) (v : Value) (s : DataQueryable) :
  In (DbExecute q) (effects (run rt op self)) ->
  outcome (run rt op self) = inr (v, s) ->
  model s = model self /\ d_asArray s = d_asArray self
  /\ (after_execute rt = [] -> query s = q)
  /\ exists raw written rows,
       db_execute rt q = inr raw
       /\ outcome (expansions rt (with_query q s) raw) = inr written
       /\ toArrayCallback (with_query q s) written = inr rows
       /\ answer op (model self) rows = inr v.
Proof.
  intros Hin Hout.
  destruct (@terminal_adapter rt op self q Hin)
    as (q0 & e1 & s2 & He1 & Hr & Hq & Hq0 & Hm & Ha & Hrun).
  rewrite Hrun, (@dispatch_asked rt s2 _ e1 He1 Hr) in Hout. subst q.
  apply run_bind_outcome in Hout. destruct Hout as ([rows s'] & Hout & Hfin).
  apply run_bind_outcome in Hout. destruct Hout as (u & _ & Hout).
  apply run_bind_outcome in Hout. destruct Hout as (u' & _ & Hout).
  apply run_bind_outcome in Hout. destruct Hout as (raw & Hraw & Hout).
  apply run_bind_outcome in Hout. destruct Hout as (result & Hafter & Hout).
  unfold afterExecute_ in Hafter.
  apply run_bind_outcome in Hafter. destruct Hafter as (written & Hw & Hc).
  assert (Hs : s' = s /\ answer op (model self) rows = inr v).
  { unfold finish in Hfin. simpl in Hfin.
    destruct (answer op (model self) rows) as [err|v']; [discriminate Hfin|].
    inversion Hfin. split; reflexivity. }
  destruct Hs as [-> Hans].
  assert (Hrows : rows = result
                  /\ with_query (ev_query e1) s = with_query (ev_query e1) s2
                  /\ model s = model s2 /\ d_asArray s = d_asArray s2
                  /\ (after_execute rt = [] -> query s = ev_query e1)).
  { unfold raise_after_execute in Hout.
    destruct (after_execute rt) as [|l ls]; cbn [List.length] in Hout.
    - inversion Hout; subst. repeat split.
    - apply run_bind_outcome in Hout. destruct Hout as (u'' & _ & Hout).
      apply run_bind_outcome in Hout. destruct Hout as (e3 & _ & Hout).
      inversion Hout; subst. repeat split. discriminate. }
  destruct Hrows as (-> & Hsame & Hm' & Ha' & Hq').
  split; [congruence|]. split; [congruence|]. split; [exact Hq'|].
  exists raw, written, result. rewrite Hsame.
  repeat split; assumption.
Qed.

(** Without entries to expand, the rows are left as they are. *)
Lemma expansions_none (rt : Runtime) (self : DataQueryable) (result : Value) :
  listed (d_expand self) = [] -> expansions rt self result = ([], inr result).
Proof.
  unfold expansions, listed. destruct (d_expand self) as [l|]; [|reflexivity].
  intros ->. reflexivity.
Qed.

(** What the collapse keeps. *)
Lemma collapse_row_kept (rows : list Value) :
  flat_map collapse_row rows = List.map first_value (List.filter kept_row rows).
Proof.
  induction rows as [|x rows IH]; [reflexivity|].
  cbn [flat_map List.filter]. rewrite IH.
  unfold collapse_row, kept_row, first_value.
  destruct (isNil x); simpl; [reflexivity|].
  destruct (truthy (get x (first_key x))); reflexivity.
Qed.

Lemma toArrayCallback_collapses (self : DataQueryable) (result : Value) :
  (collapses self = false -> toArrayCallback self result = inr result)
  /\ (collapses self = true ->
      forall items, result = VArr items ->
        toArrayCallback self result
        = inr (VArr (List.map first_value (List.filter kept_row items))))
  /\ (collapses self = true -> (forall items, result <> VArr items) ->
      toArrayCallback self result = throw "TypeError: result.forEach is not a function").
Proof.
  unfold collapses, toArrayCallback.
  destruct (d_asArray self) as [[|]|]; try (repeat split; try reflexivity; discriminate).
  destruct (Query.fields (query self)) as [|f [|g fs]];
    try (repeat split; try reflexivity; discriminate).
  split; [discriminate|]. split.
  - intros _ items ->. now rewrite collapse_row_kept.
  - intros _ H. destruct result; try reflexivity. now elim (H items).
Qed.

Lemma filter_length {A : Type} (f : A -> bool) (l : list A) :
  (List.length (List.filter f l) <= List.length l)%nat.
Proof.
  induction l as [|x l IH]; simpl; [lia|]. destruct (f x); simpl; lia.
Qed.

(** The result of [list()], from those of the page and of the count. *)
Lemma listInternal_outcome (rt : Runtime) (self : DataQueryable) :
  outcome (listInternal rt self) =
    match select rt SelectNothing self with
    | inl err => inl err
    | inr self1 =>
        match outcome (takeInternal rt (page self) self1) with
        | inl err => inl err
        | inr (result, self2) =>
            match outcome (countInternal rt (counting self1 self2)) with
            | inl err => inl err
            | inr (total, _) => inr (result_set total result self2, self2)
            end
        end
    end.
Proof.
  unfold listInternal, counting, result_set. fold (page self).
  destruct (select rt SelectNothing self) as [err|self1]; [reflexivity|].
  simpl.
  destruct (takeInternal rt (page self) self1) as [t1 [err|[result self2]]];
    [reflexivity|].
  simpl.
  match goal with
  | |- context [countInternal rt ?c] =>
      destruct (countInternal rt c) as [t2 [err|[total s3]]]; reflexivity
  end.
Qed.

(** The effects of [list()] are those of the page, then those of the count. *)
Lemma listInternal_effects (rt : Runtime) (self : DataQueryable) (ef : Effect) :
  In ef (effects (listInternal rt self)) ->
  exists self1,
    select rt SelectNothing self = inr self1
    /\ (In ef (effects (takeInternal rt (page self) self1))
        \/ exists result self2,
             outcome (takeInternal rt (page self) self1) = inr (result, self2)
             /\ In ef (effects (countInternal rt (counting self1 self2)))).
Proof.
  unfold listInternal. fold (page self). intros H.
  apply run_bind_effects in H. destruct H as [H|(self1 & Hs & H)].
  { rewrite lift_effects in H. destruct H. }
  exists self1. split; [exact Hs|].
  apply run_bind_effects in H. destruct H as [H|([result self2] & Ht & H)].
  { now left. }
  right. exists result, self2. split; [exact Ht|].
  unfold counting.
  apply run_bind_effects in H. destruct H as [H|([total s3] & _ & [])].
  exact H.
Qed.

Lemma run_effect_bind {B : Type} (ef : Effect) (c : Run B) :
  bind (effect ef) (fun _ => c) = (ef :: effects c, outcome c).
Proof. simpl. destruct c; reflexivity. Qed.

Lemma run_bind_head {A B : Type} (c : Run A) (f : A -> Run B) :
  exists rest, effects (bind c f) = (effects c ++ rest)%list.
Proof.
  destruct c as [t [e|x]]; simpl.
  - exists []. now rewrite app_nil_r.
  - destruct (f x) as [t' r]. exists t'. reflexivity.
Qed.

Lemma dispatch_emits (rt : Runtime) (self : DataQueryable) (e : ExecuteEvent) :
  exists rest,
    effects (finalExecuteInternal_ rt self e) = Emit "before.execute" (ev_query e) :: rest.
Proof.
  unfold finalExecuteInternal_. rewrite run_effect_bind. eexists. reflexivity.
Qed.

(** ** Hooks before the execution *)

(** C4.  A terminal operation fails before anything happens, or it emits
    [before.execute] first.  When a listener of that event yields an error,
    the operation fails with that error and nothing else happens: the
    adapter is not called.  When the listeners leave a [result] on the
    event, the adapter is not called either: the expansions are run on that
    result, [toArrayCallback] collapses it, [after.execute] is emitted when
    it has listeners, on the event that holds the result of the listener as
    the expansions have left it, and the operation answers on what
    [toArrayCallback] returned.  When the listeners leave no result, the
    adapter is called with the query of the event; it is never called
    otherwise.  [list()] is [take(n, callback)] followed by [count()] on the
    clone, and the same holds of each of the two. *)
Theorem before_execute_decides (rt : Runtime) (op : Terminal) (self : DataQueryable) :
  ((exists err, run rt op self = ([], inl err))
   \/ exists q rest, effects (run rt op self) = Emit "before.execute" q :: rest)
  /\ (forall q,
        In (Emit "before.execute" q) (effects (run rt op self)) ->
        (forall err,
            emit (before_execute rt) (mkEvent q VUndefined) = inl err ->
            run rt op self = ([Emit "before.execute" q], inl err))
        /\ (forall e1,
              emit (before_execute rt) (mkEvent q VUndefined) = inr e1 ->
              ev_result e1 <> VUndefined ->
              (forall q', ~ In (DbExecute q') (effects (run rt op self)))
              /\ exists s,
                   query s = ev_query e1 /\ model s = model self
                   /\ d_asArray s = d_asArray self
                   /\ run rt op self
                      = (effect (Emit "before.execute" q) ;;
                         written <- expansions rt s (ev_result e1) ;;
                         result <- lift (toArrayCallback s written) ;;
                         r <- raise_after_execute rt s (mkEvent (ev_query e1) written)
                                                  result ;;
                         finish op (model self) r))
        /\ (forall e1,
              emit (before_execute rt) (mkEvent q VUndefined) = inr e1 ->
              ev_result e1 = VUndefined ->
              exists rest,
                effects (run rt op self)
                = Emit "before.execute" q :: DbExecute (ev_query e1) :: rest))
  /\ (forall q',
        In (DbExecute q') (effects (run rt op self)) ->
        exists q e1,
          In (Emit "before.execute" q) (effects (run rt op self))
          /\ emit (before_execute rt) (mkEvent q VUndefined) = inr e1
          /\ ev_result e1 = VUndefined /\ ev_query e1 = q')
  /\ (forall ef,
        In ef (effects (listInternal rt self)) ->
        exists self1,
          select rt SelectNothing self = inr self1
          /\ (In ef (effects (run rt (OpTake (page self)) self1))
              \/ exists result self2,
                   outcome (run rt (OpTake (page self)) self1) = inr (result, self2)
                   /\ In ef (effects (run rt OpCount (counting self1 self2)))))
  /\ (forall q err,
        In (Emit "before.execute" q) (effects (listInternal rt self)) ->
        emit (before_execute rt) (mkEvent q VUndefined) = inl err ->
        outcome (listInternal rt self) = inl err).
Proof.
  split; [|split; [|split; [|split]]].
  - destruct (terminal_dispatch rt op self) as [[err He]|(s2 & Hm & Ha & He)].
    + left. exists err. exact He.
    + right. rewrite He.
      destruct (run_bind_head (finalExecuteInternal_ rt s2 (mkEvent (query s2) VUndefined))
                              (fun r => finish op (model self) r)) as [rest Hrest].
      rewrite Hrest.
      destruct (dispatch_emits rt s2 (mkEvent (query s2) VUndefined)) as [rest' ->].
      eexists. eexists. reflexivity.
  - intros q Hin.
    destruct (@terminal_event rt op self q Hin) as (s2 & Hq & Hm & Ha & Hrun).
    split; [|split].
    + intros err He. rewrite Hrun, (@dispatch_refused rt s2 _ err He). reflexivity.
    + intros e1 He Hr.
      assert (Heq : run rt op self
                    = (effect (Emit "before.execute" q) ;;
                       written <- expansions rt (with_query (ev_query e1) s2) (ev_result e1) ;;
                       result <- lift (toArrayCallback (with_query (ev_query e1) s2) written) ;;
                       r <- raise_after_execute rt (with_query (ev_query e1) s2)
                                                (mkEvent (ev_query e1) written) result ;;
                       finish op (model self) r)).
      { rewrite Hrun, (@dispatch_answered rt s2 _ e1 He Hr).
        rewrite run_bind_assoc. apply run_bind_ext. intros _.
        rewrite run_bind_assoc. apply run_bind_ext. intros written.
        rewrite run_bind_assoc. reflexivity. }
      split.
      * intros q' Hd. rewrite Heq in Hd.
        apply run_bind_effects in Hd. destruct Hd as [Hd|(u & _ & Hd)].
        { destruct Hd as [Hd|[]]. discriminate Hd. }
        apply run_bind_effects in Hd. destruct Hd as [Hd|(written & _ & Hd)].
        { apply expansions_logs in Hd. destruct Hd as [msg Hd]. discriminate Hd. }
        apply run_bind_effects in Hd. destruct Hd as [[]|(result & _ & Hd)].
        apply run_bind_effects in Hd. destruct Hd as [Hd|(r & _ & [])].
        apply raise_after_execute_effects in Hd. discriminate Hd.
      * exists (with_query (ev_query e1) s2). repeat split; assumption.
    + intros e1 He Hr. rewrite Hrun, (@dispatch_asked rt s2 _ e1 He Hr).
      match goal with
      | |- context [bind ?c ?f] =>
          destruct (run_bind_head c f) as [rest Hrest];
          rewrite Hrest
      end.
      rewrite run_effect_bind. cbn [effects fst]. rewrite run_effect_bind.
      eexists. reflexivity.
  - intros q' Hin.
    destruct (@terminal_adapter rt op self q' Hin)
      as (q0 & e1 & s2 & He1 & Hr & Hq & Hq0 & Hm & Ha & Hrun).
    exists q0, e1. repeat split; try assumption.
    rewrite Hrun, (@dispatch_asked rt s2 _ e1 He1 Hr).
    match goal with
    | |- In _ (effects (bind ?c ?f)) =>
        destruct (run_bind_head c f) as [rest Hrest];
        rewrite Hrest
    end.
    rewrite run_effect_bind. left. reflexivity.
  - intros ef Hin. apply listInternal_effects in Hin. exact Hin.
  - intros q err Hin He.
    apply listInternal_effects in Hin.
    destruct Hin as (self1 & Hs & [Hin|(result & self2 & Hpage & Hin)]).
    + destruct (@terminal_event rt (OpTake (page self)) self1 q Hin)
        as (s2 & Hq & Hm & Ha & Hrun).
      rewrite (@dispatch_refused rt s2 _ err He) in Hrun.
      rewrite listInternal_outcome, Hs.
      cbn [run] in Hrun. rewrite Hrun. reflexivity.
    + destruct (@terminal_event rt OpCount (counting self1 self2) q Hin)
        as (s2 & Hq & Hm & Ha & Hrun).
      rewrite (@dispatch_refused rt s2 _ err He) in Hrun.
      rewrite listInternal_outcome, Hs.
      cbn [run] in Hrun, Hpage. rewrite Hpage, Hrun. reflexivity.
Qed.

(** C4 on [first()] of [select('id').expand('customer').asArray()], with a
    listener that answers with the rows [{id:0}] and [{id:100}] in front of
    an adapter that cannot be reached: the adapter is not called, the
    expansion writes a customer into both rows, the collapse keeps the one
    truthy identifier, which is the answer, and the listener of
    [after.execute] finds the two rows with their customers on the event.
    With a listener that refuses, the operation fails with its error. *)
Lemma before_execute_decides_witness :
  (forall q', ~ In (DbExecute q')
                (effects (run (Sample.measured [Sample.cached_pair]) OpFirst
                              Sample.order_ids_with_customer)))
  /\ effects (run (Sample.measured [Sample.cached_pair]) OpFirst
                  Sample.order_ids_with_customer)
     = [Emit "before.execute" (query (take 1 (skip 0 Sample.order_ids_with_customer)));
        Emit "after.execute" (query (take 1 (skip 0 Sample.order_ids_with_customer)))]
  /\ (exists s,
        outcome (run (Sample.measured [Sample.cached_pair]) OpFirst
                     Sample.order_ids_with_customer) = inr (VNum 100, s)
        /\ q_take (query s) = Some 2%Z)
  /\ run (Sample.measured [Sample.denied]) OpFirst Sample.order_ids_with_customer
     = ([Emit "before.execute" (query (take 1 (skip 0 Sample.order_ids_with_customer)))],
        inl (Thrown "EPERM")).
Proof.
  assert (Hin : In (Emit "before.execute"
                         (query (take 1 (skip 0 Sample.order_ids_with_customer))))
                   (effects (run (Sample.measured [Sample.cached_pair]) OpFirst
                                 Sample.order_ids_with_customer))).
  { vm_compute. left. reflexivity. }
  assert (Hin' : In (Emit "before.execute"
                          (query (take 1 (skip 0 Sample.order_ids_with_customer))))
                    (effects (run (Sample.measured [Sample.denied]) OpFirst
                                  Sample.order_ids_with_customer))).
  { vm_compute. left. reflexivity. }
  split; [|split; [|split]].
  - exact (proj1 (proj1 (proj2 (proj1 (proj2
             (before_execute_decides (Sample.measured [Sample.cached_pair]) OpFirst
                                     Sample.order_ids_with_customer))
             _ Hin))
             (mkEvent (query (take 1 (skip 0 Sample.order_ids_with_customer)))
                      (VArr [VObj [("id", VNum 0)]; VObj [("id", VNum 100)]]))
             eq_refl ltac:(discriminate))).
  - vm_compute. reflexivity.
  - eexists. split; vm_compute; reflexivity.
  - exact (proj1 (proj1 (proj2
             (before_execute_decides (Sample.measured [Sample.denied]) OpFirst
                                     Sample.order_ids_with_customer))
             _ Hin')
             (Thrown "EPERM") eq_refl).
Defined.

(** ** The collapse of the rows *)

Lemma filter_split_length {A : Type} (f : A -> bool) (l : list A) :
  (List.length (List.filter f l) + List.length (List.filter (fun x => negb (f x)) l)
   = List.length l)%nat.
Proof.
  induction l as [|x l IH]; simpl; [reflexivity|]. destruct (f x); simpl; lia.
Qed.

Lemma filter_all_length {A : Type} (f : A -> bool) (l : list A) :
  List.length (List.filter f l) = List.length l <-> Forall (fun x => f x = true) l.
Proof.
  induction l as [|x l IH]; simpl.
  - split; [constructor|reflexivity].
  - destruct (f x) eqn:E; simpl; split.
    + intros H. constructor; [exact E|]. apply IH. lia.
    + intros H. inversion H; subst. f_equal. now apply IH.
    + intros H. pose proof (filter_length f l). lia.
    + intros H. inversion H; subst. congruence.
Qed.

Lemma filter_all {A : Type} (f : A -> bool) (l : list A) :
  Forall (fun x => f x = true) l -> List.filter f l = l.
Proof.
  induction 1 as [|x l Hx _ IH]; simpl; [reflexivity|]. now rewrite Hx, IH.
Qed.

(** C7 (amended).  With [asArray] set and exactly one projected field, the
    result is the list of the values that the rows hold under their first
    key, in order, without the rows that are [null] or [undefined] and
    without those whose value is falsy: every scalar is truthy, the scalars
    and the dropped rows are as many as the rows, and the scalars are as
    many as the rows only when no row is dropped.  With another number of
    projected fields, or without [asArray], the result is returned
    unchanged.  Every terminal operation that has called the adapter
    answers on the rows of the adapter, expanded, and collapsed in this
    way. *)
Theorem toArrayCallback_spec (rt : Runtime) (op : Terminal) (self : DataQueryable)
    (result : Value) :
  (d_asArray self = Some true ->
   List.length (Query.fields (query self)) = 1%nat ->
   forall rows, result = VArr rows ->
     exists scalars,
       toArrayCallback self result = inr (VArr scalars)
       /\ scalars = List.map first_value (List.filter kept_row rows)
       /\ Forall (fun v => truthy v = true) scalars
       /\ (forall v, In v scalars <->
                     exists x, In x rows /\ isNil x = false
                               /\ truthy (get x (first_key x)) = true
                               /\ v = get x (first_key x))
       /\ (List.length scalars
           + List.length (List.filter (fun x => negb (kept_row x)) rows)
           = List.length rows)%nat
       /\ (List.length scalars = List.length rows <->
           Forall (fun x => isNil x = false /\ truthy (get x (first_key x)) = true) rows)
       /\ (Forall (fun x => isNil x = false /\ truthy (get x (first_key x)) = true) rows ->
           scalars = List.map (fun x => get x (first_key x)) rows))
  /\ (List.length (Query.fields (query self)) <> 1%nat ->
      toArrayCallback self result = inr result)
  /\ (d_asArray self <> Some true -> toArrayCallback self result = inr result)
  /\ (forall q v s,
        In (DbExecute q) (effects (run rt op self)) ->
        outcome (run rt op self) = inr (v, s) ->
        d_asArray s = d_asArray self
        /\ exists raw written,
             db_execute rt q = inr raw
             /\ outcome (expansions rt (with_query q s) raw) = inr written
             /\ (collapses (with_query q s) = true ->
                 exists rows,
                   written = VArr rows
                   /\ answer op (model self)
                             (VArr (List.map first_value (List.filter kept_row rows)))
                      = inr v)
             /\ (collapses (with_query q s) = false ->
                 answer op (model self) written = inr v)).
Proof.
  assert (Hkept : forall x, kept_row x = true <->
                            isNil x = false /\ truthy (get x (first_key x)) = true).
  { intros x. unfold kept_row, first_value. rewrite andb_true_iff, negb_true_iff. tauto. }
  split; [|split; [|split]].
  - intros Ha Hf rows ->.
    exists (List.map first_value (List.filter kept_row rows)).
    assert (Hc : collapses self = true).
    { unfold collapses. rewrite Ha.
      destruct (Query.fields (query self)) as [|f [|g fs]]; try discriminate Hf.
      reflexivity. }
    split; [exact (proj1 (proj2 (toArrayCallback_collapses self (VArr rows))) Hc rows eq_refl)|].
    split; [reflexivity|].
    split.
    { apply Forall_forall. intros v Hv. apply in_map_iff in Hv.
      destruct Hv as (x & <- & Hx). apply filter_In in Hx. destruct Hx as [_ Hx].
      apply Hkept in Hx. exact (proj2 Hx). }
    split.
    { intros v. rewrite in_map_iff. split.
      - intros (x & <- & Hx). apply filter_In in Hx. destruct Hx as [Hin Hx].
        apply Hkept in Hx. exists x. repeat split; tauto.
      - intros (x & Hin & Hn & Ht & ->). exists x. split; [reflexivity|].
        apply filter_In. split; [exact Hin|]. apply Hkept. now split. }
    split.
    { rewrite length_map. apply filter_split_length. }
    split.
    { rewrite length_map, filter_all_length. split; intros H.
      - eapply Forall_impl; [|exact H]. intros x Hx. now apply Hkept.
      - eapply Forall_impl; [|exact H]. intros x Hx. now apply Hkept. }
    intros H. rewrite filter_all; [reflexivity|].
    eapply Forall_impl; [|exact H]. intros x Hx. now apply Hkept.
  - intros H. apply toArrayCallback_collapses. unfold collapses.
    destruct (d_asArray self) as [[|]|]; try reflexivity.
    destruct (Query.fields (query self)) as [|f [|g fs]]; try reflexivity.
    now elim H.
  - intros H. apply toArrayCallback_collapses. unfold collapses.
    destruct (d_asArray self) as [[|]|]; try reflexivity. now elim H.
  - intros q v s Hin Hout.
    destruct (@terminal_asked rt op self q v s Hin Hout)
      as (Hm & Ha & _ & raw & written & rows & Hraw & Hw & Hc & Hv).
    split; [exact Ha|].
    exists raw, written. repeat split; try assumption.
    + intros Hcol.
      destruct written as [ | |b|n|str|items|props];
        try (rewrite (proj2 (proj2 (toArrayCallback_collapses (with_query q s) _)) Hcol)
              in Hc;
             [discriminate Hc|intros items; discriminate]).
      exists items. split; [reflexivity|].
      rewrite (proj1 (proj2 (toArrayCallback_collapses (with_query q s) _))
                     Hcol items eq_refl) in Hc.
      inversion Hc; subst rows. exact Hv.
    + intros Hcol.
      rewrite (proj1 (toArrayCallback_collapses (with_query q s) written) Hcol) in Hc.
      inversion Hc; subst rows. exact Hv.
Qed.

(** The amended C7 on two rows, one of which holds a falsy value, and on
    [take(5)] of [select('id').expand('customer').asArray()] over the rows
    [{id:0}], [{id:1}] and [{id:2}]. *)
Lemma toArrayCallback_spec_witness :
  d_asArray Sample.order_ids = Some true
  /\ List.length (Query.fields (query Sample.order_ids)) = 1%nat
  /\ toArrayCallback Sample.order_ids (VArr [VObj [("id", VNum 0)]; VObj [("id", VNum 7)]])
     = inr (VArr [VNum 7])
  /\ (exists s,
        outcome (run (Sample.expanding (Sample.ids 0 3)) (OpTake 5)
                     Sample.order_ids_with_customer)
        = inr (VArr [VNum 1; VNum 2], s)).
Proof.
  split; [reflexivity|]. split; [reflexivity|].
  split.
  - destruct (proj1 (toArrayCallback_spec (Sample.runtime []) OpFirst Sample.order_ids
                       (VArr [VObj [("id", VNum 0)]; VObj [("id", VNum 7)]]))
                    eq_refl eq_refl _ eq_refl) as (scalars & H & -> & _).
    exact H.
  - eexists. vm_compute. reflexivity.
Defined.

(** ** The answers of the operations *)

(** An operation fails before anything happens, or emits [before.execute]
    first. *)
Lemma terminal_emits (rt : Runtime) (op : Terminal) (self : DataQueryable) :
  (exists err, run rt op self = ([], inl err))
  \/ exists q rest, effects (run rt op self) = Emit "before.execute" q :: rest.
Proof.
  destruct (terminal_dispatch rt op self) as [[err He]|(s2 & Hm & Ha & He)].
  - left. exists err. exact He.
  - right. rewrite He.
    destruct (run_bind_head (finalExecuteInternal_ rt s2 (mkEvent (query s2) VUndefined))
                            (fun r => finish op (model self) r)) as [rest Hrest].
    rewrite Hrest.
    destruct (dispatch_emits rt s2 (mkEvent (query s2) VUndefined)) as [rest' ->].
    eexists. eexists. reflexivity.
Qed.

(** An error of the adapter is the error of the operation. *)
Lemma terminal_adapter_error (rt : Runtime) (op : Terminal) (self : DataQueryable)
    (q : QueryExpression) (err : Error) :
  In (DbExecute q) (effects (run rt op self)) ->
  db_execute rt q = inl err ->
  outcome (run rt op self) = inl err.
Proof.
  intros Hin Hdb.
  destruct (@terminal_adapter rt op self q Hin)
    as (q0 & e1 & s2 & He1 & Hr & Hq & Hq0 & Hm & Ha & Hrun).
  rewrite Hrun, (@dispatch_asked rt s2 _ e1 He1 Hr), Hq, Hdb. reflexivity.
Qed.

(** Without [asArray] nothing is collapsed. *)
Lemma collapses_flag (self : DataQueryable) :
  d_asArray self <> Some true -> collapses self = false.
Proof.
  intros H. unfold collapses. destruct (d_asArray self) as [[|]|]; try reflexivity.
  now elim H.
Qed.

(** The rows that an operation answers on: the rows of the adapter when
    there is nothing to expand, as they are or as their scalars. *)
Lemma asked_shape (rt : Runtime) (s3 : DataQueryable) (raw written rows : Value) :
  outcome (expansions rt s3 raw) = inr written ->
  toArrayCallback s3 written = inr rows ->
  (listed (d_expand s3) = [] -> written = raw)
  /\ (collapses s3 = false -> rows = written)
  /\ (collapses s3 = true ->
      exists items,
        written = VArr items
        /\ rows = VArr (List.map first_value (List.filter kept_row items))).
Proof.
  intros Hw Hc. split; [|split].
  - intros He. rewrite (expansions_none rt s3 raw He) in Hw. now inversion Hw.
  - intros Hcol. rewrite (proj1 (toArrayCallback_collapses s3 written) Hcol) in Hc.
    now inversion Hc.
  - intros Hcol.
    destruct written as [ | |b|n|str|items|props];
      try (rewrite (proj2 (proj2 (toArrayCallback_collapses s3 _)) Hcol) in Hc;
           [discriminate Hc|intros items; discriminate]).
    exists items. split; [reflexivity|].
    rewrite (proj1 (proj2 (toArrayCallback_collapses s3 _)) Hcol items eq_refl) in Hc.
    now inversion Hc.
Qed.

(** ** The answer of first *)

(** C8, as stated, fails: with [asArray] set on a projection of one field,
    [first()] resolves with [undefined] although the adapter returns a row,
    when the value of that row is falsy; and with a scalar, not with the
    row, otherwise. *)
Lemma first_of_collapsed_rows :
  db_execute (Sample.runtime [VObj [("id", VNum 0)]; VObj [("id", VNum 5)]])
             (query (take 1 (skip 0 Sample.order_ids)))
  = inr (VArr [VObj [("id", VNum 0)]])
  /\ firstInternal (Sample.runtime [VObj [("id", VNum 0)]; VObj [("id", VNum 5)]])
                   Sample.order_ids
     = ([Emit "before.execute" (query (take 1 (skip 0 Sample.order_ids)));
         DbExecute (query (take 1 (skip 0 Sample.order_ids)))],
        inr (VUndefined, take 1 (skip 0 Sample.order_ids)))
  /\ outcome (firstInternal (Sample.runtime (Sample.ids 1 30)) Sample.order_ids)
     = inr (VNum 1, take 1 (skip 0 Sample.order_ids)).
Proof.
  split; [reflexivity|]. split; vm_compute; reflexivity.
Qed.

(** C8 (amended).  [first()] executes [skip(0).take(1, callback)]: it fails
    before anything happens or emits [before.execute], and whatever skip and
    take the query had, the query that the listeners of [before.execute]
    see, and the one that reaches the adapter when there are no such
    listeners, has [$skip = 0] and [$take = 1].  When the adapter has been
    called, an error of the adapter is the error of [first()]; otherwise
    [first()] resolves with the first element of the rows of the adapter as
    the expansions leave them and as [toArrayCallback] hands them on, and
    with [undefined] (and no error) when there is none.  With nothing to
    expand and nothing to collapse (no [asArray]) these are the rows of the
    adapter: the first row, or [undefined] for no row.  When the rows are collapsed,
    [first()] resolves with the first of the scalars that are kept, and with
    [undefined] when none is.  For a transparent queryable with a
    projection the queryable that executes is the one that was given, with
    skip 0 and take 1. *)
Theorem first_spec (rt : Runtime) (self : DataQueryable) :
  ((exists err, firstInternal rt self = ([], inl err))
   \/ exists q rest, effects (firstInternal rt self) = Emit "before.execute" q :: rest)
  /\ (forall q, In (Emit "before.execute" q) (effects (firstInternal rt self)) ->
                q_skip q = Some 0%Z /\ q_take q = Some 1%Z)
  /\ (before_execute rt = [] ->
      forall q, In (DbExecute q) (effects (firstInternal rt self)) ->
                q_skip q = Some 0%Z /\ q_take q = Some 1%Z)
  /\ (forall q err,
        In (DbExecute q) (effects (firstInternal rt self)) ->
        db_execute rt q = inl err ->
        outcome (firstInternal rt self) = inl err)
  /\ (forall q v s,
        In (DbExecute q) (effects (firstInternal rt self)) ->
        outcome (firstInternal rt self) = inr (v, s) ->
        model s = model self /\ d_asArray s = d_asArray self
        /\ (after_execute rt = [] -> query s = q)
        /\ (d_asArray self <> Some true -> collapses (with_query q s) = false)
        /\ exists raw written rows,
             db_execute rt q = inr raw
             /\ outcome (expansions rt (with_query q s) raw) = inr written
             /\ toArrayCallback (with_query q s) written = inr rows
             /\ first_of rows = inr v
             /\ (listed (d_expand s) = [] -> written = raw)
             /\ (collapses (with_query q s) = false ->
                 rows = written
                 /\ (forall row more, written = VArr (row :: more) -> v = row)
                 /\ (written = VArr [] -> v = VUndefined))
             /\ (collapses (with_query q s) = true ->
                 exists items,
                   written = VArr items
                   /\ v = List.hd VUndefined
                             (List.map first_value (List.filter kept_row items))))
  /\ (transparent rt self -> hasFields (query self) = true ->
      (forall row rows,
          db_execute rt (query (take 1 (skip 0 self))) = inr (VArr (row :: rows)) ->
          outcome (firstInternal rt self) = inr (row, take 1 (skip 0 self)))
      /\ (db_execute rt (query (take 1 (skip 0 self))) = inr (VArr []) ->
          outcome (firstInternal rt self) = inr (VUndefined, take 1 (skip 0 self)))).
Proof.
  pose proof (@firstInternal_outcome rt self) as Hout.
  split; [exact (terminal_emits rt OpFirst self)|].
  split.
  { intros q H. rewrite firstInternal_effects in H. apply takeInternal_paging in H.
    destruct H as (self2 & Hs & H). apply execute_before in H.
    destruct H as (H1 & H2 & _). rewrite H1, H2. split; settled. }
  split.
  { intros Hb q H. rewrite firstInternal_effects in H. apply takeInternal_paging in H.
    destruct H as (self2 & Hs & H). eapply execute_adapter in H; [|exact Hb].
    destruct H as (H1 & H2 & _). rewrite H1, H2. split; settled. }
  split.
  { intros q err Hin Hdb. exact (@terminal_adapter_error rt OpFirst self q err Hin Hdb). }
  split.
  { intros q v s Hin Hv.
    destruct (@terminal_asked rt OpFirst self q v s Hin Hv)
      as (Hm & Ha & Hq & raw & written & rows & Hraw & Hw & Hc & Hans).
    cbn [answer] in Hans.
    do 3 (split; [assumption|]).
    split.
    { intros Hflag. apply collapses_flag. simpl. now rewrite Ha. }
    exists raw, written, rows.
    do 4 (split; [assumption|]).
    destruct (@asked_shape rt (with_query q s) raw written rows Hw Hc)
      as (Hnone & Hplain & Hcollapsed).
    split; [exact Hnone|]. split.
    - intros Hcol. rewrite (Hplain Hcol) in Hans. split; [now apply Hplain|]. split.
      + intros row more ->. now inversion Hans.
      + intros ->. now inversion Hans.
    - intros Hcol. destruct (Hcollapsed Hcol) as (items & Hitems & Hrows).
      exists items. split; [exact Hitems|]. rewrite Hrows in Hans.
      destruct (List.map first_value (List.filter kept_row items)); now inversion Hans. }
  intros Ht Hf. split.
  - intros row rows Hdb. apply (Hout (inr (VArr (row :: rows), take 1 (skip 0 self)))).
    rewrite (@takeInternal_transparent rt 1 (skip 0 self)) by assumption.
    rewrite Hdb. reflexivity.
  - intros Hdb. apply (Hout (inr (VArr [], take 1 (skip 0 self)))).
    rewrite (@takeInternal_transparent rt 1 (skip 0 self)) by assumption.
    rewrite Hdb. reflexivity.
Qed.

(** The amended C8 on a flattened query of the identifiers of thirty orders
    that had [skip(4)] and [take(7)]: the first of all rows is returned;
    and on a collapsed query whose adapter returns [{id:0}]. *)
Lemma first_spec_witness :
  transparent (Sample.runtime (Sample.ids 1 30)) (skip 4 (take 7 Sample.flat_orders))
  /\ outcome (firstInternal (Sample.runtime (Sample.ids 1 30))
                (skip 4 (take 7 Sample.flat_orders)))
     = inr (VObj [("id", VNum 1)], take 1 (skip 0 (skip 4 (take 7 Sample.flat_orders))))
  /\ (exists raw written rows,
        db_execute (Sample.runtime [VObj [("id", VNum 0)]; VObj [("id", VNum 5)]])
                   (query (take 1 (skip 0 Sample.order_ids))) = inr raw
        /\ outcome (expansions (Sample.runtime [VObj [("id", VNum 0)]; VObj [("id", VNum 5)]])
                               (take 1 (skip 0 Sample.order_ids)) raw) = inr written
        /\ toArrayCallback (take 1 (skip 0 Sample.order_ids)) written = inr rows
        /\ first_of rows = inr VUndefined).
Proof.
  assert (Ht : transparent (Sample.runtime (Sample.ids 1 30))
                 (skip 4 (take 7 Sample.flat_orders))).
  { repeat split; try reflexivity. discriminate. }
  split; [exact Ht|].
  split.
  - exact (proj1 (proj2 (proj2 (proj2 (proj2 (proj2
             (first_spec (Sample.runtime (Sample.ids 1 30))
                         (skip 4 (take 7 Sample.flat_orders)))))))
             Ht eq_refl)
           (VObj [("id", VNum 1)]) [] eq_refl).
  - assert (Hin : In (DbExecute (query (take 1 (skip 0 Sample.order_ids))))
                     (effects (firstInternal
                                 (Sample.runtime [VObj [("id", VNum 0)]; VObj [("id", VNum 5)]])
                                 Sample.order_ids))).
    { vm_compute. right. left. reflexivity. }
    destruct (proj1 (proj2 (proj2 (proj2 (proj2
                (first_spec (Sample.runtime [VObj [("id", VNum 0)]; VObj [("id", VNum 5)]])
                            Sample.order_ids)))))
                _ VUndefined (take 1 (skip 0 Sample.order_ids)) Hin
                ltac:(vm_compute; reflexivity))
      as (_ & _ & _ & _ & raw & written & rows & Hraw & Hw & Hc & Hans & _).
    exists raw, written, rows. repeat split; assumption.
Defined.

(** ** The answer of count *)

(** C9, as stated, fails: with [asArray] set, the one row of the count is
    collapsed to its scalar, and [count()] reads the name of the attribute
    on a number: it resolves with [undefined] although the adapter returns
    the row that holds the count; without [asArray] it resolves with the
    count. *)
Lemma count_of_collapsed_rows :
  d_asArray Sample.order_ids = Some true
  /\ db_execute (Sample.runtime (Sample.ids 1 30))
                (query (counted Sample.order_ids (Sample.key "id")))
     = inr (VArr [VObj [("id", VNum 30)]])
  /\ countInternal (Sample.runtime (Sample.ids 1 30)) Sample.order_ids
     = ([Emit "before.execute" (query (counted Sample.order_ids (Sample.key "id")));
         DbExecute (query (counted Sample.order_ids (Sample.key "id")))],
        inr (VUndefined, counted Sample.order_ids (Sample.key "id")))
  /\ outcome (countInternal (Sample.runtime (Sample.ids 1 30))
                (asArray (Some false) Sample.order_ids))
     = inr (VNum 30, counted (asArray (Some false) Sample.order_ids) (Sample.key "id")).
Proof.
  split; [reflexivity|]. split; [reflexivity|]. split; vm_compute; reflexivity.
Qed.

(** C9 (amended).  On a model without attributes [count()] fails.
    Otherwise it executes the queryable with [$skip], [$take], [$order] and
    [$group] deleted and with a count over the first attribute of the model
    as the projection: it fails before anything happens or emits
    [before.execute], and the query that the listeners see, and the one that
    reaches the adapter when there are no such listeners, has no [$skip] and
    no [$take] (and, for a queryable without a view, no [$order] and no
    [$group]).  When the adapter has been called, an error of the adapter is
    the error of [count()]; otherwise [count()] answers on the rows of the
    adapter as the expansions leave them and as [toArrayCallback] hands them
    on.  Without [asArray] nothing is collapsed, and [count()] resolves with
    the value that the first row holds under the name of the attribute, and
    with [null] (and no error) when there is no row.  For a transparent
    queryable the rows are those of the adapter. *)
Theorem count_spec (rt : Runtime) (self : DataQueryable) :
  (attributes (model self) = [] ->
   countInternal rt self =
     ([], inl (Thrown "Queryable collection does not have any property.")))
  /\ (forall f rest,
        attributes (model self) = f :: rest ->
        q_skip (query (counted self f)) = None
        /\ q_take (query (counted self f)) = None
        /\ q_order (query (counted self f)) = None
        /\ q_group (query (counted self f)) = None
        /\ q_select (query (counted self f))
           = Some [from (viewAdapter (model self)) (fields_count (f_name f))]
        /\ effects (countInternal rt self) = effects (execute_ rt (counted self f))
        /\ ((exists err, countInternal rt self = ([], inl err))
            \/ exists q more,
                 effects (countInternal rt self) = Emit "before.execute" q :: more)
        /\ (forall q, In (Emit "before.execute" q) (effects (countInternal rt self)) ->
                      q_skip q = None /\ q_take q = None
                      /\ (d_view self = None -> q_order q = None /\ q_group q = None))
        /\ (before_execute rt = [] ->
            forall q, In (DbExecute q) (effects (countInternal rt self)) ->
                      q_skip q = None /\ q_take q = None
                      /\ (d_view self = None -> q_order q = None /\ q_group q = None))
        /\ (forall q err,
              In (DbExecute q) (effects (countInternal rt self)) ->
              db_execute rt q = inl err ->
              outcome (countInternal rt self) = inl err)
        /\ (forall q v s,
              In (DbExecute q) (effects (countInternal rt self)) ->
              outcome (countInternal rt self) = inr (v, s) ->
              model s = model self /\ d_asArray s = d_asArray self
              /\ (after_execute rt = [] -> query s = q)
              /\ (d_asArray self <> Some true -> collapses (with_query q s) = false)
              /\ exists raw written rows,
                   db_execute rt q = inr raw
                   /\ outcome (expansions rt (with_query q s) raw) = inr written
                   /\ toArrayCallback (with_query q s) written = inr rows
                   /\ count_of (f_name f) rows = inr v
                   /\ (listed (d_expand s) = [] -> written = raw)
                   /\ (collapses (with_query q s) = false ->
                       rows = written
                       /\ (forall row more,
                              written = VArr (row :: more) -> isNil row = false ->
                              v = get row (f_name f))
                       /\ (written = VArr [] -> v = VNull))
                   /\ (collapses (with_query q s) = true ->
                       exists items,
                         written = VArr items
                         /\ count_of (f_name f)
                                     (VArr (List.map first_value
                                                     (List.filter kept_row items)))
                            = inr v))
        /\ (transparent rt self ->
            (forall row rows,
                db_execute rt (query (counted self f)) = inr (VArr (row :: rows)) ->
                isNil row = false ->
                outcome (countInternal rt self) = inr (get row (f_name f), counted self f))
            /\ (db_execute rt (query (counted self f)) = inr (VArr []) ->
                outcome (countInternal rt self) = inr (VNull, counted self f)))).
Proof.
  split.
  - intros Ha. unfold countInternal. rewrite Ha. reflexivity.
  - intros f rest Ha.
    destruct (countInternal_runs rt self Ha) as [Hef Hout].
    do 5 (split; [reflexivity|]).
    split; [exact Hef|].
    split; [exact (terminal_emits rt OpCount self)|].
    split.
    { intros q Hin. rewrite Hef in Hin. apply execute_before in Hin.
      destruct Hin as (H1 & H2 & H3). repeat split; try assumption.
      - now apply H3.
      - now apply H3. }
    split.
    { intros Hb q Hin. rewrite Hef in Hin. eapply execute_adapter in Hin; [|exact Hb].
      destruct Hin as (H1 & H2 & H3). repeat split; try assumption.
      - now apply H3.
      - now apply H3. }
    split.
    { intros q err Hin Hdb. exact (@terminal_adapter_error rt OpCount self q err Hin Hdb). }
    split.
    { intros q v s Hin Hv.
      destruct (@terminal_asked rt OpCount self q v s Hin Hv)
        as (Hm & Hflag & Hq & raw & written & rows & Hraw & Hw & Hc & Hans).
      cbn [answer] in Hans. rewrite Ha in Hans.
      do 3 (split; [assumption|]).
      split.
      { intros Hno. apply collapses_flag. simpl. now rewrite Hflag. }
      exists raw, written, rows.
      do 4 (split; [assumption|]).
      destruct (@asked_shape rt (with_query q s) raw written rows Hw Hc)
        as (Hnone & Hplain & Hcollapsed).
      split; [exact Hnone|]. split.
      - intros Hcol. rewrite (Hplain Hcol) in Hans. split; [now apply Hplain|]. split.
        + intros row more -> Hrow.
          destruct row; try discriminate Hrow; now inversion Hans.
        + intros ->. now inversion Hans.
      - intros Hcol. destruct (Hcollapsed Hcol) as (items & Hitems & Hrows).
        exists items. split; [exact Hitems|]. now rewrite Hrows in Hans. }
    intros Ht.
    assert (Hex := @execute_transparent rt (counted self f) Ht).
    split.
    + intros row rows Hdb Hn. rewrite Hout, Hex. cbn [outcome snd]. rewrite Hdb.
      destruct row; try reflexivity; discriminate.
    + intros Hdb. rewrite Hout, Hex. cbn [outcome snd]. rewrite Hdb. reflexivity.
Qed.

(** The amended C9 on the identifiers of thirty orders that had [skip(4)]
    and [take(7)], flattened and not. *)
Lemma count_spec_witness :
  outcome (countInternal (Sample.runtime (Sample.ids 1 30))
             (skip 4 (take 7 Sample.flat_orders)))
  = inr (VNum 30, counted (skip 4 (take 7 Sample.flat_orders)) (Sample.key "id"))
  /\ (exists raw written rows,
        db_execute (Sample.runtime (Sample.ids 1 30))
                   (query (counted (new_queryable Sample.Order) (Sample.key "id")))
        = inr raw
        /\ outcome (expansions (Sample.runtime (Sample.ids 1 30))
                               (counted (new_queryable Sample.Order) (Sample.key "id"))
                               raw) = inr written
        /\ toArrayCallback (counted (new_queryable Sample.Order) (Sample.key "id")) written
           = inr rows
        /\ count_of "id" rows = inr (VNum 30)).
Proof.
  assert (Ht : transparent (Sample.runtime (Sample.ids 1 30))
                 (skip 4 (take 7 Sample.flat_orders))).
  { repeat split; try reflexivity. discriminate. }
  split.
  - exact (proj1 (proj2 (proj2 (proj2 (proj2 (proj2 (proj2 (proj2 (proj2 (proj2 (proj2
             (proj2 (proj2 (count_spec (Sample.runtime (Sample.ids 1 30))
                                (skip 4 (take 7 Sample.flat_orders)))
                    (Sample.key "id") _ eq_refl)))))))))))
             Ht)
           (VObj [("id", VNum 30)]) [] eq_refl eq_refl).
  - assert (Hin : In (DbExecute (query (counted (new_queryable Sample.Order)
                                                (Sample.key "id"))))
                     (effects (countInternal (Sample.runtime (Sample.ids 1 30))
                                             (new_queryable Sample.Order)))).
    { vm_compute. right. left. reflexivity. }
    destruct (proj1 (proj2 (proj2 (proj2 (proj2 (proj2 (proj2 (proj2 (proj2 (proj2 (proj2
                (proj2 (count_spec (Sample.runtime (Sample.ids 1 30))
                                   (new_queryable Sample.Order))
                       (Sample.key "id") _ eq_refl)))))))))))
                _ (VNum 30) (counted (new_queryable Sample.Order) (Sample.key "id")) Hin
                ltac:(vm_compute; reflexivity))
      as (_ & _ & _ & _ & raw & written & rows & Hraw & Hw & Hc & Hans & _).
    exists raw, written, rows. repeat split; assumption.
Defined.

(** ** The answer of value *)

(** C10, as stated, fails: with [asArray] set, the row of the primary key
    is collapsed to its scalar, which has no property: [value()] resolves
    with [undefined] although a row matches; without [asArray] it resolves
    with the identifier. *)
Lemma value_of_collapsed_rows :
  q_select (query (asArray None (new_queryable Sample.Order))) = None
  /\ db_execute (Sample.runtime (Sample.ids 1 30))
                (Query.take 1 (set_skip (Some 0%Z)
                   (Query.select [from "OrderData" (fields_select "id")]
                                 (query (new_queryable Sample.Order)))))
     = inr (VArr [VObj [("id", VNum 1)]])
  /\ (exists s,
        valueInternal (Sample.runtime (Sample.ids 1 30))
                      (asArray None (new_queryable Sample.Order))
        = ([Emit "before.execute"
              (Query.take 1 (set_skip (Some 0%Z)
                 (Query.select [from "OrderData" (fields_select "id")]
                               (query (new_queryable Sample.Order)))));
            DbExecute
              (Query.take 1 (set_skip (Some 0%Z)
                 (Query.select [from "OrderData" (fields_select "id")]
                               (query (new_queryable Sample.Order)))))],
           inr (VUndefined, s)))
  /\ (exists s,
        outcome (valueInternal (Sample.runtime (Sample.ids 1 30))
                               (new_queryable Sample.Order))
        = inr (VNum 1, s)).
Proof.
  split; [reflexivity|]. split; [reflexivity|].
  split; eexists; vm_compute; reflexivity.
Qed.

(** C10 (amended).  On a queryable without a projection, [value()] calls
    [select] with the primary key of the model: it fails with the error of
    [select], or it runs [first()] on the queryable that [select] yields.
    When the primary key names an attribute that is neither [many] nor a
    junction, the projection is that attribute (the field that [fieldOf]
    builds for it).  [value()] fails before anything happens or emits
    [before.execute], with [$skip = 0] and [$take = 1].  When the adapter
    has been called, an error of the adapter is the error of [value()];
    otherwise [value()] answers on the rows of the adapter as the
    expansions leave them and as [toArrayCallback] hands them on.  Without
    [asArray] nothing is collapsed, and [value()] resolves with the value
    of the first key of the first row, and with [undefined] (and no error)
    when there is no row. *)
Theorem value_spec (rt : Runtime) (self : DataQueryable) :
  (q_select (query self) = None ->
   (forall err,
       select rt (key_argument self) self = inl err ->
       valueInternal rt self = ([], inl err))
   /\ (forall selected,
         select rt (key_argument self) self = inr selected ->
         effects (valueInternal rt self) = effects (firstInternal rt selected)
         /\ outcome (valueInternal rt self)
            = match outcome (firstInternal rt selected) with
              | inl err => inl err
              | inr (row, s) => inr (value_of row, s)
              end)
   /\ (forall pk f qf self1,
         primaryKey (model self) = Some pk ->
         pk <> "*" ->
         field (model self) pk = Some f ->
         many_or_junction f = false ->
         fieldOf rt self (f_name f) None = inr (qf, self1) ->
         select rt (key_argument self) self
         = inr (with_query (Query.select [qf] (query self1)) self1)))
  /\ ((exists err, valueInternal rt self = ([], inl err))
      \/ exists q more, effects (valueInternal rt self) = Emit "before.execute" q :: more)
  /\ (forall q, In (Emit "before.execute" q) (effects (valueInternal rt self)) ->
                q_skip q = Some 0%Z /\ q_take q = Some 1%Z)
  /\ (forall q err,
        In (DbExecute q) (effects (valueInternal rt self)) ->
        db_execute rt q = inl err ->
        outcome (valueInternal rt self) = inl err)
  /\ (forall q v s,
        In (DbExecute q) (effects (valueInternal rt self)) ->
        outcome (valueInternal rt self) = inr (v, s) ->
        model s = model self /\ d_asArray s = d_asArray self
        /\ (after_execute rt = [] -> query s = q)
        /\ (d_asArray self <> Some true -> collapses (with_query q s) = false)
        /\ exists raw written rows row,
             db_execute rt q = inr raw
             /\ outcome (expansions rt (with_query q s) raw) = inr written
             /\ toArrayCallback (with_query q s) written = inr rows
             /\ first_of rows = inr row
             /\ v = value_of row
             /\ (listed (d_expand s) = [] -> written = raw)
             /\ (collapses (with_query q s) = false ->
                 rows = written
                 /\ (forall r more, written = VArr (r :: more) -> v = value_of r)
                 /\ (written = VArr [] -> v = VUndefined))
             /\ (collapses (with_query q s) = true ->
                 exists items,
                   written = VArr items
                   /\ v = value_of (List.hd VUndefined
                                      (List.map first_value
                                                (List.filter kept_row items)))))
  /\ (forall k x props, value_of (VObj ((k, x) :: props)) = x)
  /\ value_of VUndefined = VUndefined.
Proof.
  split; [|split; [|split; [|split; [|split; [|split]]]]].
  - intros Hsel. unfold key_argument. split; [|split].
    + intros err He. unfold valueInternal. rewrite Hsel, He. reflexivity.
    + intros selected Hs.
      apply (@valueInternal_runs rt self selected). now rewrite Hsel.
    + intros pk f qf self1 Hpk Hstar Hf Hmany Hfield. rewrite Hpk.
      unfold select. simpl.
      destruct (pk =? "*") eqn:E; [apply String.eqb_eq in E; contradiction|].
      rewrite Hf, Hmany. simpl. rewrite Hfield. reflexivity.
  - exact (terminal_emits rt OpValue self).
  - intros q Hin. unfold valueInternal in Hin.
    apply run_bind_effects in Hin. destruct Hin as [[]|(self1 & _ & Hin)].
    apply run_bind_effects in Hin. destruct Hin as [Hin|([row s] & _ & Hin)].
    + rewrite firstInternal_effects in Hin. apply takeInternal_paging in Hin.
      destruct Hin as (self2 & Hs & Hin). apply execute_before in Hin.
      destruct Hin as (H1 & H2 & _). rewrite H1, H2. split; settled.
    + destruct (isNil row); [destruct Hin|]. destruct (keys row); destruct Hin.
  - intros q err Hin Hdb. exact (@terminal_adapter_error rt OpValue self q err Hin Hdb).
  - intros q v s Hin Hv.
    destruct (@terminal_asked rt OpValue self q v s Hin Hv)
      as (Hm & Hflag & Hq & raw & written & rows & Hraw & Hw & Hc & Hans).
    cbn [answer] in Hans.
    do 3 (split; [assumption|]).
    split.
    { intros Hno. apply collapses_flag. simpl. now rewrite Hflag. }
    destruct (first_of rows) as [err|row] eqn:Hrow; [discriminate Hans|].
    simpl in Hans. inversion Hans as [Hval]. clear Hans.
    exists raw, written, rows, row.
    do 4 (split; [assumption|]). split; [now symmetry|]. subst v.
    destruct (@asked_shape rt (with_query q s) raw written rows Hw Hc)
      as (Hnone & Hplain & Hcollapsed).
    split; [exact Hnone|]. split.
    + intros Hcol. rewrite (Hplain Hcol) in Hrow. split; [now apply Hplain|]. split.
      * intros r more ->. now inversion Hrow.
      * intros ->. now inversion Hrow.
    + intros Hcol. destruct (Hcollapsed Hcol) as (items & Hitems & Hrows).
      exists items. split; [exact Hitems|]. rewrite Hrows in Hrow.
      destruct (List.map first_value (List.filter kept_row items)); now inversion Hrow.
  - intros k x props. unfold value_of. simpl. now rewrite String.eqb_refl.
  - reflexivity.
Qed.

(** The amended C10 on the orders: the primary key is selected, and the
    identifier of the first order is the answer. *)
Lemma value_spec_witness :
  q_select (query (new_queryable Sample.Order)) = None
  /\ primaryKey (model (new_queryable Sample.Order)) = Some "id"
  /\ select (Sample.runtime (Sample.ids 1 30)) (key_argument (new_queryable Sample.Order))
            (new_queryable Sample.Order)
     = inr (with_query (Query.select [from "OrderData" (fields_select "id")]
                                     (query (new_queryable Sample.Order)))
                       (new_queryable Sample.Order))
  /\ (exists raw written rows row,
        db_execute (Sample.runtime (Sample.ids 1 30))
                   (Query.take 1 (set_skip (Some 0%Z)
                      (Query.select [from "OrderData" (fields_select "id")]
                                    (query (new_queryable Sample.Order)))))
        = inr raw
        /\ outcome (expansions (Sample.runtime (Sample.ids 1 30))
                      (take 1 (skip 0
                         (with_query (Query.select [from "OrderData" (fields_select "id")]
                                                   (query (new_queryable Sample.Order)))
                                     (new_queryable Sample.Order))))
                      raw) = inr written
        /\ toArrayCallback
             (take 1 (skip 0
                (with_query (Query.select [from "OrderData" (fields_select "id")]
                                          (query (new_queryable Sample.Order)))
                            (new_queryable Sample.Order))))
             written = inr rows
        /\ first_of rows = inr row
        /\ VNum 1 = value_of row).
Proof.
  split; [reflexivity|]. split; [reflexivity|].
  pose proof (value_spec (Sample.runtime (Sample.ids 1 30)) (new_queryable Sample.Order))
    as (Hsel & _ & _ & _ & Hask & _).
  split.
  - refine (proj2 (proj2 (Hsel eq_refl)) "id" (Sample.key "id")
                  (from "OrderData" (fields_select "id")) (new_queryable Sample.Order)
                  eq_refl _ eq_refl eq_refl eq_refl).
    discriminate.
  - assert (Hin : In (DbExecute
                        (Query.take 1 (set_skip (Some 0%Z)
                           (Query.select [from "OrderData" (fields_select "id")]
                                         (query (new_queryable Sample.Order))))))
                     (effects (valueInternal (Sample.runtime (Sample.ids 1 30))
                                             (new_queryable Sample.Order)))).
    { vm_compute. right. left. reflexivity. }
    destruct (Hask _ (VNum 1)
                (take 1 (skip 0
                   (with_query (Query.select [from "OrderData" (fields_select "id")]
                                             (query (new_queryable Sample.Order)))
                               (new_queryable Sample.Order))))
                Hin ltac:(vm_compute; reflexivity))
      as (_ & _ & _ & _ & raw & written & rows & row & Hraw & Hw & Hc & Hrow & Hv & _).
    exists raw, written, rows, row. repeat split; assumption.
Defined.

(** ** The rows of a page *)

(** Functions of expansion that keep the number of rows make expansions that
    keep it. *)
Lemma attach_entry_rows (rt : Runtime) (self : DataQueryable) (x : ExpandEntry)
    (r : Resolution) (rows : list Value) (v : Value) :
  attaches rt ->
  outcome (attach_entry rt self x r (VArr rows)) = inr v ->
  exists rows', v = VArr rows' /\ List.length rows' = List.length rows.
Proof.
  intros Hat. unfold attach_entry.
  destruct r as [|[mapping|] options]; simpl.
  - intros H. inversion H. now exists rows.
  - repeat match goal with
           | |- context [if ?b then _ else _] => destruct b
           end; simpl; try discriminate; intros H; eapply Hat; exact H.
  - intros H. inversion H. now exists rows.
Qed.

Lemma each_expand_rows (rt : Runtime) (self : DataQueryable) (expands todo : list ExpandEntry)
    (rows : list Value) (v : Value) :
  attaches rt ->
  outcome (each_expand rt self expands todo (VArr rows)) = inr v ->
  exists rows', v = VArr rows' /\ List.length rows' = List.length rows.
Proof.
  intros Hat. revert rows. induction todo as [|x todo IH]; intros rows H.
  - simpl in H. inversion H. now exists rows.
  - cbn [each_expand] in H.
    apply run_bind_outcome in H. destruct H as (r & _ & H).
    apply run_bind_outcome in H. destruct H as (result' & Hx & H).
    apply (attach_entry_rows _ _ _ _ Hat) in Hx. destruct Hx as (rows1 & -> & Hlen).
    apply IH in H. destruct H as (rows2 & -> & Hlen2).
    exists rows2. split; [reflexivity|]. congruence.
Qed.

Lemma expansions_rows (rt : Runtime) (self : DataQueryable) (rows : list Value) (v : Value) :
  attaches rt ->
  outcome (expansions rt self (VArr rows)) = inr v ->
  exists rows', v = VArr rows' /\ List.length rows' = List.length rows.
Proof.
  intros Hat. unfold expansions. destruct (d_expand self) as [l|].
  - now apply each_expand_rows.
  - intros H. inversion H. now exists rows.
Qed.

(** Without listeners of [before.execute], an operation that completes has
    called the adapter. *)
Lemma terminal_asks (rt : Runtime) (op : Terminal) (self : DataQueryable)
    (r : Value * DataQueryable) :
  before_execute rt = [] ->
  outcome (run rt op self) = inr r ->
  exists q, In (DbExecute q) (effects (run rt op self)).
Proof.
  intros Hb Hout.
  destruct (terminal_dispatch rt op self) as [[err He]|(s2 & Hm & Ha & He)].
  { rewrite He in Hout. discriminate Hout. }
  assert (Hemit : emit (before_execute rt) (mkEvent (query s2) VUndefined)
                  = inr (mkEvent (query s2) VUndefined)) by now rewrite Hb.
  exists (query s2).
  rewrite He, (@dispatch_asked rt s2 _ _ Hemit eq_refl).
  match goal with
  | |- In _ (effects (bind ?c ?f)) =>
      destruct (run_bind_head c f) as [rest Hrest]; rewrite Hrest
  end.
  rewrite run_effect_bind. cbn [effects fst]. rewrite run_effect_bind.
  right. left. reflexivity.
Qed.

(** What [records] holds, against the rows it is made of. *)
Lemma records_length (self : DataQueryable) (written result : Value) (items : list Value) :
  toArrayCallback self written = inr result ->
  written = VArr items ->
  exists records,
    (if truthy result then result else VArr []) = VArr records
    /\ (List.length records <= List.length items)%nat
    /\ (collapses self = false -> records = items).
Proof.
  intros Hc ->.
  destruct (collapses self) eqn:Hcol.
  - rewrite (proj1 (proj2 (toArrayCallback_collapses self _)) Hcol items eq_refl) in Hc.
    inversion Hc; subst result. eexists. split; [reflexivity|].
    split; [|discriminate]. rewrite length_map. apply filter_length.
  - rewrite (proj1 (toArrayCallback_collapses self _) Hcol) in Hc.
    inversion Hc; subst result. exists items. repeat split. lia.
Qed.

(** ** Nested attributes and their joins *)

Lemma contains_append (c : ascii) (a b : string) :
  Str.contains c (a ++ b) = Str.contains c a || Str.contains c b.
Proof.
  induction a as [|x a IH]; simpl; [reflexivity|].
  rewrite IH. now rewrite orb_assoc.
Qed.

Lemma split_single (c : ascii) (s : string) :
  Str.contains c s = false -> Str.split c s = [s].
Proof.
  induction s as [|x s IH]; simpl; [reflexivity|].
  intros H. apply orb_false_iff in H. destruct H as [Hx Hs].
  rewrite Hx, (IH Hs). reflexivity.
Qed.

Lemma split_append (c : ascii) (a b : string) :
  Str.contains c a = false ->
  Str.split c (a ++ String c b) = a :: Str.split c b.
Proof.
  induction a as [|x a IH]; simpl.
  - intros _. now rewrite Ascii.eqb_refl.
  - intros H. apply orb_false_iff in H. destruct H as [Hx Ha].
    rewrite Hx, (IH Ha). reflexivity.
Qed.

Lemma path_contains (a b : string) : Str.contains slash (path a b) = true.
Proof.
  unfold path. rewrite contains_append. simpl. now rewrite orb_true_r.
Qed.

Lemma path_split (a b : string) :
  Str.contains slash a = false -> Str.contains slash b = false ->
  Str.split slash (path a b) = [a; b].
Proof.
  intros Ha Hb. unfold path. change ("/" ++ b) with (String slash b).
  rewrite (@split_append slash a b Ha), (@split_single slash b Hb). reflexivity.
Qed.

(** The join of a path of two members does not depend on the second one. *)
Lemma resolveNestedAttributeJoin_second (rt : Runtime) (self : DataModel) (a b c : string) :
  Str.contains slash a = false -> Str.contains slash b = false ->
  Str.contains slash c = false ->
  resolveNestedAttributeJoin rt self (path a b) = resolveNestedAttributeJoin rt self (path a c).
Proof.
  intros Ha Hb Hc. unfold resolveNestedAttributeJoin. simpl.
  rewrite !path_contains, (@path_split a b Ha Hb), (@path_split a c Ha Hc). reflexivity.
Qed.

Lemma resolveNestedAttributeJoin_pair (rt : Runtime) (self : DataModel) (a b : string)
    (mp : DataAssociationMapping) (E : Expand) :
  Str.contains slash a = false -> Str.contains slash b = false ->
  inferMapping rt self a = inr (Some mp) ->
  associationType mp = Some "association" ->
  resolveNestedAttributeJoin rt self (path a b) = inr E ->
  exists j, E = ExpandOne j
            /\ ent_join (j_entity j) = Some "left"
            /\ ent_as (j_entity j) = join_alias self mp a.
Proof.
  intros Ha Hb Hi Ht. unfold resolveNestedAttributeJoin, join_alias. simpl.
  rewrite path_contains, (@path_split a b Ha Hb). unfold Str.item. cbn [nth List.length].
  unfold require. rewrite Hi, Ht.
  destruct (opt_eqb (childModel mp) (Some (m_name self))) eqn:Ec; simpl; intros H;
    repeat step_in H; eexists; repeat split; reflexivity.
Qed.

Lemma joins_merge_one (current : Expand) (j : Join) :
  joins (merge_expand current (ExpandOne j)) = push_join (joins current) j.
Proof.
  destruct current; reflexivity.
Qed.

Lemma same_alias_refl (j : Join) :
  ent_as (j_entity j) <> None -> ent_as (j_entity j) <> Some "" -> same_alias j j = true.
Proof.
  unfold same_alias. destruct (ent_as (j_entity j)) as [x|]; [|now intros H].
  intros _ H. simpl. rewrite String.eqb_refl, andb_true_r.
  destruct (x =? "") eqn:E; [|reflexivity].
  apply String.eqb_eq in E. subst. now elim H.
Qed.

Lemma push_join_again (acc : list Join) (j : Join) :
  ent_as (j_entity j) <> None -> ent_as (j_entity j) <> Some "" ->
  push_join (push_join acc j) j = push_join acc j.
Proof.
  intros Hn He. unfold push_join at 2 3.
  destruct (existsb (same_alias j) acc) eqn:E.
  - unfold push_join. now rewrite E.
  - unfold push_join. rewrite existsb_app. simpl.
    now rewrite (@same_alias_refl j Hn He), orb_true_r.
Qed.

(** What one resolution of a path of two members does when the first one
    carries an association. *)
Lemma resolveNestedAttribute_pair (rt : Runtime) (self self' : DataQueryable) (a b : string)
    (mp : DataAssociationMapping) (sel : option QueryField) :
  Str.contains slash a = false -> Str.contains slash b = false ->
  inferMapping rt (model self) a = inr (Some mp) ->
  associationType mp = Some "association" ->
  resolveNestedAttribute rt self (path a b) = inr (sel, self') ->
  exists j,
    resolveNestedAttributeJoin rt (model self) (path a b) = inr (ExpandOne j)
    /\ ent_join (j_entity j) = Some "left"
    /\ ent_as (j_entity j) = join_alias (model self) mp a
    /\ sel = Some (from a (fields_select b))
    /\ model self' = model self
    /\ joins (q_expand (query self')) = push_join (joins (q_expand (query self))) j.
Proof.
  intros Ha Hb Hi Ht. unfold resolveNestedAttribute.
  rewrite path_contains, (@path_split a b Ha Hb). unfold Str.item. cbn [nth List.length].
  simpl. rewrite Hi, Ht. simpl.
  destruct (resolveNestedAttributeJoin rt (model self) (path a b)) as [e|E] eqn:EJ;
    [discriminate|].
  destruct (@resolveNestedAttributeJoin_pair rt (model self) a b mp E Ha Hb Hi Ht EJ)
    as (j & -> & Hl & Has).
  simpl. intros H. inversion H; subst; clear H.
  exists j. repeat split; try assumption.
  simpl. apply joins_merge_one.
Qed.

(** C1, as stated, fails: on [Order], the attribute [buyer] carries an
    association whose child field is [customer]; resolving [buyer/givenName]
    adds one left join, and its alias is [customer], not the first member of
    the path. *)
Lemma join_alias_is_the_child_field :
  exists sel self' j,
    resolveNestedAttribute (Sample.runtime []) (new_queryable Sample.Order) "buyer/givenName"
    = inr (sel, self')
    /\ option_map f_mapping (field Sample.Order "buyer")
       = Some (Some (Sample.association_ "Person" "id" "Order" "customer"))
    /\ joins (q_expand (query self')) = [j]
    /\ ent_join (j_entity j) = Some "left"
    /\ ent_as (j_entity j) = Some "customer"
    /\ ent_as (j_entity j) <> Some "buyer".
Proof.
  do 3 eexists. split; [reflexivity|]. repeat split. discriminate.
Qed.

(** C1 (amended).  For a path [a/b] of two members whose first member
    carries an association mapping that is joined under the name of the
    attribute (the model is the parent of the association, or it is the
    child and [a] is the child field of the mapping), a resolution that
    succeeds yields the field [b] of [a] and one left join whose alias is
    [a].  The join is appended to the joins of the query unless a join with
    that alias is there already, and then the joins stay as they are.
    Resolving a second path [a/c] on the result leaves the joins as they
    are. *)
Theorem nested_attribute_joins_once (rt : Runtime) (self self' : DataQueryable)
    (a b c : string) (mp : DataAssociationMapping) (sel : option QueryField) :
  Str.contains slash a = false ->
  Str.contains slash b = false ->
  Str.contains slash c = false ->
  a <> "" ->
  inferMapping rt (model self) a = inr (Some mp) ->
  associationType mp = Some "association" ->
  (opt_eqb (childModel mp) (Some (m_name (model self))) = true -> childField mp = Some a) ->
  resolveNestedAttribute rt self (path a b) = inr (sel, self') ->
  exists j,
    ent_join (j_entity j) = Some "left"
    /\ ent_as (j_entity j) = Some a
    /\ sel = Some (from a (fields_select b))
    /\ (existsb (same_alias j) (joins (q_expand (query self))) = false ->
        joins (q_expand (query self')) = (joins (q_expand (query self)) ++ [j])%list)
    /\ (existsb (same_alias j) (joins (q_expand (query self))) = true ->
        joins (q_expand (query self')) = joins (q_expand (query self)))
    /\ (forall sel2 self2,
          resolveNestedAttribute rt self' (path a c) = inr (sel2, self2) ->
          joins (q_expand (query self2)) = joins (q_expand (query self'))).
Proof.
  intros Ha Hb Hc Hne Hi Ht Hchild H.
  assert (Halias : join_alias (model self) mp a = Some a).
  { unfold join_alias.
    destruct (opt_eqb (childModel mp) (Some (m_name (model self)))); [|reflexivity].
    now apply Hchild. }
  destruct (@resolveNestedAttribute_pair rt self self' a b mp sel Ha Hb Hi Ht H)
    as (j & HJ & Hl & Has & Hsel & Hm & Hj).
  rewrite Halias in Has.
  exists j. repeat split; try assumption.
  - intros E. rewrite Hj. unfold push_join. now rewrite E.
  - intros E. rewrite Hj. unfold push_join. now rewrite E.
  - intros sel2 self2 H2.
    rewrite <- Hm in Hi.
    destruct (@resolveNestedAttribute_pair rt self' self2 a c mp sel2 Ha Hc Hi Ht H2)
      as (j2 & HJ2 & _ & _ & _ & _ & Hj2).
    rewrite Hm in HJ2.
    rewrite <- (@resolveNestedAttributeJoin_second rt (model self) a b c Ha Hb Hc) in HJ2.
    rewrite HJ in HJ2. inversion HJ2; subst j2.
    rewrite Hj2, Hj. apply push_join_again; rewrite Has.
    + discriminate.
    + intros E. inversion E. contradiction.
Qed.

(** The amended C1 on [customer/givenName] followed by [customer/familyName]
    on the orders. *)
Lemma nested_attribute_joins_once_witness :
  exists sel self' j,
    resolveNestedAttribute (Sample.runtime []) (new_queryable Sample.Order)
      (path "customer" "givenName") = inr (sel, self')
    /\ joins (q_expand (query self')) = [j]
    /\ ent_as (j_entity j) = Some "customer"
    /\ forall sel2 self2,
         resolveNestedAttribute (Sample.runtime []) self' (path "customer" "familyName")
         = inr (sel2, self2) ->
         joins (q_expand (query self2)) = joins (q_expand (query self')).
Proof.
  do 3 eexists. split; [reflexivity|]. split; [reflexivity|]. split; [reflexivity|].
  assert (Hne : "customer" <> "") by discriminate.
  destruct (@nested_attribute_joins_once (Sample.runtime []) (new_queryable Sample.Order)
              _ "customer" "givenName" "familyName"
              (Sample.association_ "Person" "id" "Order" "customer") _
              eq_refl eq_refl eq_refl Hne eq_refl eq_refl (fun _ => eq_refl) eq_refl)
    as (j & _ & _ & _ & _ & _ & Hagain).
  exact Hagain.
Defined.

(** ** Projection *)

Lemma resolveNestedAttribute_expansion (rt : Runtime) (self self' : DataQueryable)
    (attr : string) (f : option QueryField) :
  resolveNestedAttribute rt self attr = inr (f, self') -> expansion self' = expansion self.
Proof.
  unfold resolveNestedAttribute. intros H. simpl in H.
  repeat step_in H; reflexivity.
Qed.

Ltac kept := unfold expansion in *; simpl in *; congruence.

Lemma fieldOf_expansion (rt : Runtime) (self self' : DataQueryable) (attr : string)
    (alias : option string) (f : QueryField) :
  fieldOf rt self attr alias = inr (f, self') -> expansion self' = expansion self.
Proof.
  unfold fieldOf, require. intros H. simpl in H.
  repeat step_in H;
    repeat match goal with
           | E : resolveNestedAttribute _ _ _ = inr (_, _) |- _ =>
               apply resolveNestedAttribute_expansion in E
           end;
    try reflexivity; kept.
Qed.

Lemma selecteNestedAttribute_expansion (rt : Runtime) (self self' : DataQueryable)
    (attr : string) (alias : option string) (f : option QueryField) :
  selecteNestedAttribute rt self attr alias = inr (f, self') ->
  expansion self' = expansion self.
Proof.
  unfold selecteNestedAttribute. intros H. simpl in H.
  repeat step_in H;
    repeat match goal with
           | E : resolveNestedAttribute _ _ _ = inr (_, _) |- _ =>
               apply resolveNestedAttribute_expansion in E
           end;
    kept.
Qed.

Lemma selectAggregatedAttribute_expansion (rt : Runtime) (self self' : DataQueryable)
    (aggregation attribute : string) (alias : option string) (f : QueryField) :
  selectAggregatedAttribute rt self aggregation attribute alias = inr (f, self') ->
  expansion self' = expansion self.
Proof.
  unfold selectAggregatedAttribute, require. intros H. simpl in H.
  repeat step_in H;
    repeat match goal with
           | E : selecteNestedAttribute _ _ _ _ = inr (_, _) |- _ =>
               apply selecteNestedAttribute_expansion in E
           | E : fieldOf _ _ _ _ = inr (_, _) |- _ => apply fieldOf_expansion in E
           end;
    kept.
Qed.

Lemma select__expansion (rt : Runtime) (self self' : DataQueryable) (arg : string)
    (f : option QueryField) :
  select_ rt self arg = inr (f, self') -> expansion self' = expansion self.
Proof.
  unfold select_. intros H. simpl in H.
  repeat step_in H;
    repeat match goal with
           | E : selecteNestedAttribute _ _ _ _ = inr (_, _) |- _ =>
               apply selecteNestedAttribute_expansion in E
           | E : selectAggregatedAttribute _ _ _ _ _ = inr (_, _) |- _ =>
               apply selectAggregatedAttribute_expansion in E
           | E : fieldOf _ _ _ _ = inr (_, _) |- _ => apply fieldOf_expansion in E
           end;
    try reflexivity; kept.
Qed.

Lemma pushed_app (current : option (list ExpandEntry)) (a b : list string) :
  pushed (pushed current a) b = pushed current (a ++ b)%list.
Proof.
  destruct a as [|x a]; [reflexivity|].
  destruct b as [|y b]; simpl.
  - now rewrite app_nil_r.
  - now rewrite map_app, <- app_assoc, app_comm_cons.
Qed.

Lemma settings_model (a b : DataQueryable) : settings a = settings b -> model a = model b.
Proof. unfold settings. intros H. now inversion H. Qed.

Lemma select_item_spec (rt : Runtime) (x : SelectItem) (arr arr' : list QueryField)
    (self self' : DataQueryable) :
  select_item rt x (arr, self) = inr (arr', self') ->
  exists out,
    item_projection rt (model self) x out
    /\ arr' = (arr ++ out)%list
    /\ d_expand self' = pushed (d_expand self) (item_expansion (model self) x)
    /\ model self' = model self.
Proof.
  intros H. pose proof H as Hm. apply select_item_settings in Hm. apply settings_model in Hm.
  unfold select_item in H. unfold item_projection, item_expansion.
  destruct x as [s|qf]; simpl in H.
  - destruct (field (model self) s) as [f|] eqn:Ef.
    + destruct (many_or_junction f) eqn:Em; simpl in H.
      * inversion H; subst. exists []. rewrite app_nil_r.
        split; [reflexivity|]. split; [reflexivity|]. split; reflexivity.
      * destruct (fieldOf rt self (f_name f) None) as [e|[qf s1]] eqn:E; [discriminate|].
        inversion H; subst. exists [qf].
        split; [exists self, self', qf; repeat split; exact E|].
        split; [reflexivity|]. split; [|exact Hm].
        apply fieldOf_expansion in E. unfold expansion in E. now inversion E.
    + destruct (select_ rt self s) as [e|[expr s1]] eqn:E; [discriminate|].
      pose proof E as Hx. apply select__expansion in Hx. unfold expansion in Hx.
      destruct expr as [qf|]; inversion H; subst.
      * exists [qf].
        split; [exists self, self', (Some qf); repeat split; exact E|].
        split; [reflexivity|]. split; [now inversion Hx|exact Hm].
      * exists []. rewrite app_nil_r.
        split; [exists self, self', None; repeat split; exact E|].
        split; [reflexivity|]. split; [now inversion Hx|exact Hm].
  - inversion H; subst. exists [qf].
    split; [reflexivity|]. split; [reflexivity|]. split; reflexivity.
Qed.

Lemma for_each_cons {A S : Type} (step : A -> S -> Result S) (x : A) (l : list A) (s : S) :
  for_each step (x :: l) s =
    match step x s with
    | inl e => inl e
    | inr s' => for_each step l s'
    end.
Proof. reflexivity. Qed.

Lemma select_items_spec (rt : Runtime) (items : list SelectItem) :
  forall (arr arr' : list QueryField) (self self' : DataQueryable),
    for_each (select_item rt) items (arr, self) = inr (arr', self') ->
    exists outs,
      Forall2 (item_projection rt (model self)) items outs
      /\ arr' = (arr ++ concat outs)%list
      /\ d_expand self' = pushed (d_expand self) (flat_map (item_expansion (model self)) items)
      /\ model self' = model self.
Proof.
  induction items as [|x items IH]; intros arr arr' self self' H.
  - inversion H; subst. exists [].
    split; [constructor|]. split; [simpl; now rewrite app_nil_r|]. split; reflexivity.
  - rewrite for_each_cons in H.
    destruct (select_item rt x (arr, self)) as [e|[arr1 self1]] eqn:E; [discriminate|].
    apply select_item_spec in E. destruct E as (out & Hp & -> & Hx & Hm).
    apply IH in H. destruct H as (outs & Hps & -> & Hxs & Hms).
    exists (out :: outs). rewrite Hm in Hps, Hxs, Hms.
    split; [now constructor|].
    split; [simpl; now rewrite app_assoc|].
    split; [|exact Hms].
    rewrite Hxs, Hx. apply pushed_app.
Qed.

Lemma attributes_projection (rt : Runtime) (m : DataModel) (chosen : list DataField) :
  (forall x, In x chosen -> field m (public_name x) = Some x) ->
  forall outs,
    Forall2 (item_projection rt m) (map (fun x => SelString (public_name x)) chosen) outs ->
    Forall2 (projected rt m) (List.filter scalar chosen) (concat outs).
Proof.
  induction chosen as [|x chosen IH]; intros Hf outs H; simpl in *.
  - inversion H; subst. constructor.
  - inversion H as [|? out ? outs' Hx Hrest]; subst. simpl.
    unfold item_projection in Hx. rewrite (Hf x (or_introl eq_refl)) in Hx.
    unfold scalar at 1. destruct (many_or_junction x); simpl.
    + subst out. simpl. apply IH; auto.
    + destruct Hx as (s1 & s2 & qf & Hm & Hq & ->). simpl. constructor.
      * exists s1, s2. now split.
      * apply IH; auto.
Qed.

Lemma attributes_expansion (m : DataModel) (chosen : list DataField) :
  (forall x, In x chosen -> field m (public_name x) = Some x) ->
  flat_map (item_expansion m) (map (fun x => SelString (public_name x)) chosen)
  = map f_name (List.filter many_or_junction chosen).
Proof.
  induction chosen as [|x chosen IH]; intros Hf; simpl; [reflexivity|].
  rewrite (Hf x (or_introl eq_refl)).
  destruct (many_or_junction x); simpl; rewrite IH; auto.
  all: intros y Hy; apply Hf; now right.
Qed.

(** The array branch of [select]. *)
Lemma select_items (rt : Runtime) (fuel : nat) (items : list SelectItem)
    (self self' : DataQueryable) :
  (forall s, items = [SelString s] -> dataviews rt (model self) s = None) ->
  select_rec rt (S fuel) (SelectItems items) self = inr self' ->
  exists outs,
    Forall2 (item_projection rt (model self)) items outs
    /\ q_select (query self') = Some (concat outs)
    /\ d_expand self' = pushed (d_expand self) (flat_map (item_expansion (model self)) items).
Proof.
  intros Hv H.
  assert (Hx : match for_each (select_item rt) items ([], self) with
               | inl e => inl e
               | inr (arr, s) => inr (with_query (Query.select arr (query s)) s)
               end = inr self').
  { simpl in H. destruct items as [|[s|qf] [|y items]]; try exact H.
    rewrite (Hv s eq_refl) in H. exact H. }
  destruct (for_each (select_item rt) items ([], self)) as [e|[arr s1]] eqn:E;
    [discriminate|].
  inversion Hx; subst; clear Hx.
  apply select_items_spec in E. destruct E as (outs & Hp & -> & He & _).
  exists outs. split; [exact Hp|]. split; [reflexivity|exact He].
Qed.

(** The name of an attribute that is [many] or a junction, alone: the call
    is [expand] with the name of the attribute, followed by [select()]. *)
Lemma select_collection (rt : Runtime) (fuel : nat) (s : string) (f : DataField)
    (self : DataQueryable) :
  s <> "*" ->
  field (model self) s = Some f ->
  many_or_junction f = true ->
  select_rec rt (S fuel) (SelectString s) self
  = select_rec rt (S fuel) SelectNothing
      (with_expand (pushed (d_expand self) [f_name f]) self).
Proof.
  intros Hs Hf Hm. simpl.
  destruct (s =? "*") eqn:E; [apply String.eqb_eq in E; contradiction|].
  rewrite Hf, Hm. reflexivity.
Qed.

(** The name of another attribute, alone: the projection is the field that
    [fieldOf] builds for it. *)
Lemma select_scalar (rt : Runtime) (fuel : nat) (s : string) (f : DataField)
    (self : DataQueryable) :
  s <> "*" ->
  field (model self) s = Some f ->
  many_or_junction f = false ->
  select_rec rt (S fuel) (SelectString s) self
  = match fieldOf rt self (f_name f) None with
    | inl e => inl e
    | inr (qf, s1) => inr (with_query (Query.select [qf] (query s1)) s1)
    end.
Proof.
  intros Hs Hf Hm. simpl.
  destruct (s =? "*") eqn:E; [apply String.eqb_eq in E; contradiction|].
  rewrite Hf, Hm. simpl.
  destruct (fieldOf rt self (f_name f) None) as [e|[qf s1]]; reflexivity.
Qed.

(** [select()] *)
Lemma select_nothing (rt : Runtime) (fuel : nat) (self : DataQueryable) :
  select_rec rt (S fuel) SelectNothing self
  = if hasFields (query self) then inr self
    else select_rec rt fuel (apply_args (default_fields self)) self.
Proof.
  simpl. destruct (hasFields (query self)); reflexivity.
Qed.

(** The selection of the default attributes, when nothing is projected. *)
Lemma select_default (rt : Runtime) (self self' : DataQueryable) :
  hasFields (query self) = false ->
  (forall x, In x (attributes (model self)) ->
             field (model self) (public_name x) = Some x /\ public_name x <> "*") ->
  (exists x, In x (List.filter (selected_by_default self) (attributes (model self)))
             /\ scalar x = true) ->
  select rt SelectNothing self = inr self' ->
  (exists proj,
      q_select (query self') = Some proj
      /\ Forall2 (projected rt (model self))
           (List.filter scalar
              (List.filter (selected_by_default self) (attributes (model self))))
           proj)
  /\ d_expand self'
     = pushed (d_expand self)
         (map f_name
            (List.filter many_or_junction
               (List.filter (selected_by_default self) (attributes (model self))))).
Proof.
  intros Hf Hnamed Hscalar H.
  assert (Hnames : default_fields self
                   = map public_name
                       (List.filter (selected_by_default self) (attributes (model self))))
    by reflexivity.
  remember (List.filter (selected_by_default self) (attributes (model self))) as chosen
    eqn:Ec.
  assert (Hchosen : forall x, In x chosen ->
                              field (model self) (public_name x) = Some x
                              /\ public_name x <> "*").
  { intros x Hx. apply Hnamed. rewrite Ec in Hx. apply filter_In in Hx. tauto. }
  unfold select in H. rewrite select_nothing, Hf, Hnames in H.
  clear Ec Hnames Hnamed.
  destruct chosen as [|x [|y rest]].
  - destruct Hscalar as (x & [] & _).
  - (* one attribute *)
    destruct Hscalar as (x' & [<-|[]] & Hsc).
    change (apply_args (map public_name [x])) with (SelectString (public_name x)) in H.
    destruct (Hchosen x (or_introl eq_refl)) as [Hfx Hstar].
    unfold scalar in Hsc. apply negb_true_iff in Hsc.
    rewrite (@select_scalar rt 2 (public_name x) x self Hstar Hfx Hsc) in H.
    destruct (fieldOf rt self (f_name x) None) as [e|[qf s1]] eqn:Eq; [discriminate|].
    inversion H; subst; clear H. simpl. unfold scalar. rewrite Hsc. simpl.
    split.
    + exists [qf]. split; [reflexivity|]. constructor; [|constructor].
      exists self, s1. now split.
    + apply fieldOf_expansion in Eq. unfold expansion in Eq. now inversion Eq.
  - (* several attributes *)
    change (apply_args (map public_name (x :: y :: rest)))
      with (SelectItems (map SelString (map public_name (x :: y :: rest)))) in H.
    rewrite map_map in H.
    apply select_items in H; [|intros s Hs; discriminate Hs].
    destruct H as (outs & Hp & Hsel & He).
    assert (Hfields : forall z, In z (x :: y :: rest) ->
                                field (model self) (public_name z) = Some z).
    { intros z Hz. now apply Hchosen. }
    split.
    + exists (concat outs). split; [exact Hsel|].
      apply attributes_projection; assumption.
    + rewrite He. f_equal. apply attributes_expansion. assumption.
Qed.

Ltac known_expansion :=
  repeat match goal with
         | E : selecteNestedAttribute _ _ _ _ = inr (_, _) |- _ =>
             apply selecteNestedAttribute_expansion in E
         | E : selectAggregatedAttribute _ _ _ _ _ = inr (_, _) |- _ =>
             apply selectAggregatedAttribute_expansion in E
         | E : fieldOf _ _ _ _ = inr (_, _) |- _ => apply fieldOf_expansion in E
         | E : select_ _ _ _ = inr (_, _) |- _ => apply select__expansion in E
         | E : resolveNestedAttribute _ _ _ = inr (_, _) |- _ =>
             apply resolveNestedAttribute_expansion in E
         end.

Lemma select_view_field_spec (rt : Runtime) (x : DataViewField) (arr arr' : list QueryField)
    (self self' : DataQueryable) :
  select_view_field rt x (arr, self) = inr (arr', self') ->
  exists out,
    view_field_projection rt (model self) x out
    /\ arr' = (arr ++ out)%list
    /\ d_expand self' = pushed (d_expand self) (view_field_expansion (model self) x)
    /\ model self' = model self.
Proof.
  intros H. pose proof H as Hm. apply select_view_field_settings in Hm.
  apply settings_model in Hm.
  unfold select_view_field in H.
  unfold view_field_projection, view_field_expansion, item_expansion.
  destruct (field (model self) (vf_name x)) as [f|] eqn:Ef.
  - destruct (many_or_junction f) eqn:Em; simpl in H.
    + inversion H; subst. exists []. rewrite app_nil_r.
      split; [reflexivity|]. split; [reflexivity|]. split; reflexivity.
    + destruct (fieldOf rt self (f_name f) None) as [e|[qf s1]] eqn:E; [discriminate|].
      inversion H; subst. exists [qf].
      split; [exists self, self', qf; repeat split; exact E|].
      split; [reflexivity|]. split; [|exact Hm].
      apply fieldOf_expansion in E. unfold expansion in E. now inversion E.
  - simpl in H.
    repeat step_in H; known_expansion;
      first
        [ solve [ eexists [_];
                  (split; [simpl; lia|]); (split; [reflexivity|]); (split; [|exact Hm]);
                  unfold expansion in *; simpl in *; congruence ]
        | solve [ exists []; rewrite app_nil_r;
                  (split; [simpl; lia|]); (split; [reflexivity|]); (split; [|exact Hm]);
                  unfold expansion in *; simpl in *; congruence ] ].
Qed.

Lemma select_view_fields_spec (rt : Runtime) (l : list DataViewField) :
  forall (arr arr' : list QueryField) (self self' : DataQueryable),
    for_each (select_view_field rt) l (arr, self) = inr (arr', self') ->
    exists outs,
      Forall2 (view_field_projection rt (model self)) l outs
      /\ arr' = (arr ++ concat outs)%list
      /\ d_expand self' = pushed (d_expand self) (flat_map (view_field_expansion (model self)) l)
      /\ model self' = model self.
Proof.
  induction l as [|x l IH]; intros arr arr' self self' H.
  - inversion H; subst. exists [].
    split; [constructor|]. split; [simpl; now rewrite app_nil_r|]. split; reflexivity.
  - rewrite for_each_cons in H.
    destruct (select_view_field rt x (arr, self)) as [e|[arr1 self1]] eqn:E; [discriminate|].
    apply select_view_field_spec in E. destruct E as (out & Hp & -> & Hx & Hm).
    apply IH in H. destruct H as (outs & Hps & -> & Hxs & Hms).
    exists (out :: outs). rewrite Hm in Hps, Hxs, Hms.
    split; [now constructor|].
    split; [simpl; now rewrite app_assoc|].
    split; [|exact Hms].
    rewrite Hxs, Hx. apply pushed_app.
Qed.

(** The name of a view: the fields of the view are projected, and [select()]
    follows when they project nothing. *)
Lemma select_view (rt : Runtime) (fuel : nat) (s : string) (vw : DataModelView)
    (self self' : DataQueryable) :
  s <> "*" ->
  field (model self) s = None ->
  dataviews rt (model self) s = Some vw ->
  select_rec rt (S fuel) (SelectString s) self = inr self' ->
  exists outs mid,
    Forall2 (view_field_projection rt (model self)) (view_fields vw) outs
    /\ d_expand mid
       = pushed (d_expand self) (flat_map (view_field_expansion (model self)) (view_fields vw))
    /\ model mid = model self
    /\ (concat outs <> [] -> q_select (query self') = Some (concat outs)
                             /\ d_expand self' = d_expand mid)
    /\ (concat outs = [] -> select_rec rt (S fuel) SelectNothing mid = inr self').
Proof.
  intros Hs Hf Hv H. simpl in H.
  destruct (s =? "*") eqn:E; [apply String.eqb_eq in E; contradiction|].
  rewrite Hf, Hv in H. simpl in H.
  destruct (for_each (select_view_field rt) (view_fields vw) ([], with_view (Some vw) self))
    as [e|[arr s2]] eqn:Ev; [discriminate|].
  apply select_view_fields_spec in Ev. destruct Ev as (outs & Hp & -> & He & Hm).
  exists outs, s2. simpl in Hp, He, Hm, H.
  split; [exact Hp|]. split; [exact He|]. split; [exact Hm|].
  destruct (concat outs) as [|qf proj]; split.
  - intros Hn. now elim Hn.
  - intros _. rewrite select_nothing. destruct (hasFields (query s2)); exact H.
  - intros _. inversion H; subst. split; reflexivity.
  - intros Hn. discriminate Hn.
Qed.

(** C3, as stated, fails: [Group] has one [many] attribute, [tags], which
    is not expandable.  After [select('*')] the execution projects [id] and
    [name]; [tags] is left out of the projection, and nothing is put on the
    expand list. *)
Lemma collection_is_not_expanded_by_default :
  exists star rows self',
    select (Sample.runtime (Sample.ids 1 3)) (SelectString "*") (new_queryable Sample.Group)
    = inr star
    /\ List.filter many_or_junction (attributes Sample.Group) = [Sample.tags]
    /\ outcome (allInternal (Sample.runtime (Sample.ids 1 3)) star) = inr (rows, self')
    /\ q_select (query self')
       = Some [from "GroupData" (fields_select "id"); from "GroupData" (fields_select "name")]
    /\ d_expand self' = None.
Proof.
  do 3 eexists. split; [reflexivity|]. split; [reflexivity|].
  split; [reflexivity|]. split; reflexivity.
Qed.

Lemma many_is_collection (m : DataField) : f_many m = Some true -> many_or_junction m = true.
Proof. unfold many_or_junction. now intros ->. Qed.

(** C3 (amended).  [select] never passes to [fieldOf] the name of an
    attribute that is [many] or a junction; it calls [expand] with the name
    of the attribute instead.
    - Such a name alone: the call is [expand(name)] followed by [select()].
    - An array: the projection is made, in order, of what the elements that
      are not such names contribute, and the expand list gains the names of
      the others.
    - The name of a view: the same holds of the fields of the view.
    - [select('*')] deletes the projection, and the [select()] of the
      execution then projects the attributes that are taken by default
      (those that are not [many], and those that are expandable when the
      levels are positive) and are neither [many] nor a junction, and
      passes the names of the others that are taken by default to
      [expand].  So an attribute that is [many] is never projected; its
      name is put on the expand list when it is expandable and the levels
      are positive, and when the only collection of the model is not taken
      by default the expand list stays as it was. *)
Theorem select_keeps_collections_out (rt : Runtime) (self : DataQueryable) :
  (forall fuel s f,
      s <> "*" -> field (model self) s = Some f -> many_or_junction f = true ->
      select_rec rt (S fuel) (SelectString s) self
      = select_rec rt (S fuel) SelectNothing
          (with_expand (pushed (d_expand self) [f_name f]) self))
  /\ (forall fuel items self',
        (forall s, items = [SelString s] -> dataviews rt (model self) s = None) ->
        select_rec rt (S fuel) (SelectItems items) self = inr self' ->
        exists outs,
          Forall2 (item_projection rt (model self)) items outs
          /\ q_select (query self') = Some (concat outs)
          /\ d_expand self'
             = pushed (d_expand self) (flat_map (item_expansion (model self)) items))
  /\ (forall fuel s vw self',
        s <> "*" -> field (model self) s = None ->
        dataviews rt (model self) s = Some vw ->
        select_rec rt (S fuel) (SelectString s) self = inr self' ->
        exists outs mid,
          Forall2 (view_field_projection rt (model self)) (view_fields vw) outs
          /\ d_expand mid
             = pushed (d_expand self)
                 (flat_map (view_field_expansion (model self)) (view_fields vw))
          /\ model mid = model self
          /\ (concat outs <> [] -> q_select (query self') = Some (concat outs)
                                   /\ d_expand self' = d_expand mid)
          /\ (concat outs = [] -> select_rec rt (S fuel) SelectNothing mid = inr self'))
  /\ (forall star self',
        select rt (SelectString "*") self = inr star ->
        (forall x, In x (attributes (model self)) ->
                   field (model self) (public_name x) = Some x /\ public_name x <> "*") ->
        (exists x, In x (List.filter (selected_by_default self) (attributes (model self)))
                   /\ scalar x = true) ->
        select rt SelectNothing star = inr self' ->
        let chosen := List.filter (selected_by_default self) (attributes (model self)) in
        q_select (query star) = None
        /\ (exists proj,
               q_select (query self') = Some proj
               /\ Forall2 (projected rt (model self)) (List.filter scalar chosen) proj)
        /\ d_expand self'
           = pushed (d_expand self) (map f_name (List.filter many_or_junction chosen))
        /\ (forall m,
              In m (attributes (model self)) -> f_many m = Some true ->
              ~ In m (List.filter scalar chosen)
              /\ (f_expandable m = true -> (0 < getLevels self)%Z ->
                  exists l, d_expand self' = Some l /\ In (EString (f_name m)) l)
              /\ (f_expandable m = false \/ (getLevels self <= 0)%Z ->
                  ~ In m chosen
                  /\ ((forall x, In x (attributes (model self)) ->
                                 many_or_junction x = true -> x = m) ->
                      d_expand self' = d_expand self)))).
Proof.
  split; [intros; now apply select_collection|].
  split; [intros fuel items self' Hv H; exact (@select_items rt fuel items self self' Hv H)|].
  split; [intros fuel s vw self' Hs Hf Hv H; exact (@select_view rt fuel s vw self self' Hs Hf Hv H)|].
  intros star self' Hstar Hnamed Hscalar H chosen.
  unfold select in Hstar. simpl in Hstar. inversion Hstar; subst star; clear Hstar.
  split; [reflexivity|].
  destruct (@select_default rt (with_query (set_select None (query self)) self) self'
              eq_refl Hnamed Hscalar H) as [Hproj Hexp].
  change (selected_by_default (with_query (set_select None (query self)) self))
    with (selected_by_default self) in Hproj, Hexp.
  simpl in Hproj, Hexp. fold chosen in Hproj, Hexp.
  split; [exact Hproj|]. split; [exact Hexp|].
  intros m Hin Hmany.
  pose proof (many_is_collection m Hmany) as Hcol.
  assert (Hsel : selected_by_default self m = f_expandable m && (0 <? getLevels self)%Z).
  { unfold selected_by_default. now rewrite Hmany. }
  split.
  { intros Hs. apply filter_In in Hs. destruct Hs as [_ Hs]. unfold scalar in Hs.
    rewrite Hcol in Hs. discriminate Hs. }
  split.
  - intros He Hl.
    assert (Hc : In m (List.filter many_or_junction chosen)).
    { apply filter_In. split; [|exact Hcol]. apply filter_In. split; [exact Hin|].
      rewrite Hsel, He. simpl. now apply Z.ltb_lt. }
    rewrite Hexp.
    destruct (List.filter many_or_junction chosen) as [|x rest] eqn:Ef; [destruct Hc|].
    simpl. eexists. split; [reflexivity|].
    apply in_or_app. right. rewrite <- Ef in Hc.
    change (EString (f_name x) :: map EString (map f_name rest))
      with (map EString (map f_name (x :: rest))).
    rewrite <- Ef. apply in_map. apply in_map. exact Hc.
  - intros Hno.
    assert (Hout : ~ In m chosen).
    { intros Hc. apply filter_In in Hc. destruct Hc as [_ Hc]. rewrite Hsel in Hc.
      apply andb_true_iff in Hc. destruct Hc as [He Hl]. apply Z.ltb_lt in Hl.
      destruct Hno as [Hno|Hno]; [congruence|lia]. }
    split; [exact Hout|].
    intros Honly. rewrite Hexp.
    destruct (List.filter many_or_junction chosen) as [|x rest] eqn:Ef; [reflexivity|].
    exfalso. apply Hout.
    assert (Hx : In x (List.filter many_or_junction chosen)) by (rewrite Ef; now left).
    apply filter_In in Hx. destruct Hx as [Hx Hxm].
    assert (x = m).
    { apply Honly; [|exact Hxm]. apply filter_In in Hx. tauto. }
    now subst.
Qed.

(** The amended C3 on [Person]: [orders] is expandable and [tags] is not. *)
Lemma select_keeps_collections_out_witness :
  exists star self',
    select (Sample.runtime []) (SelectString "*") (new_queryable Sample.Person) = inr star
    /\ select (Sample.runtime []) SelectNothing star = inr self'
    /\ (exists l, d_expand self' = Some l /\ In (EString "orders") l)
    /\ ~ In Sample.tags
           (List.filter (selected_by_default (new_queryable Sample.Person))
              (attributes Sample.Person)).
Proof.
  do 2 eexists. split; [reflexivity|]. split; [reflexivity|].
  pose proof (proj2 (proj2 (proj2
                (select_keeps_collections_out (Sample.runtime [])
                   (new_queryable Sample.Person))))) as H.
  assert (Hnamed : forall x, In x (attributes (model (new_queryable Sample.Person))) ->
                             field (model (new_queryable Sample.Person)) (public_name x)
                             = Some x /\ public_name x <> "*").
  { intros x Hx. simpl in Hx.
    repeat (destruct Hx as [<-|Hx]; [split; [reflexivity|discriminate]|]).
    destruct Hx. }
  assert (Hscalar : exists x,
             In x (List.filter (selected_by_default (new_queryable Sample.Person))
                     (attributes (model (new_queryable Sample.Person))))
             /\ scalar x = true).
  { exists (Sample.key "id"). split; [now left|reflexivity]. }
  edestruct H as (_ & _ & _ & Hm);
    [reflexivity | exact Hnamed | exact Hscalar | reflexivity |].
  split.
  - refine (proj1 (proj2 (Hm Sample.orders _ eq_refl)) eq_refl _); [|reflexivity].
    simpl. right. right. right. left. reflexivity.
  - refine (proj1 (proj2 (proj2 (Hm Sample.tags _ eq_refl)) (or_introl eq_refl))).
    simpl. right. right. right. right. left. reflexivity.
Defined.

(** ** list *)

(** C2, as stated, fails: after [take(0)] the requested limit is [0], and
    [list()] executes with a limit of 25 and answers 25 of the 30 rows.
    After [take(-1)] the limit is [-1], and an adapter that reads a limit
    that is not positive as no limit answers all 30 rows. *)
Lemma list_of_take_zero_has_records :
  (exists rows self',
      q_take (query (take 0 (new_queryable Sample.Order))) = Some 0%Z
      /\ outcome (listInternal (Sample.runtime (Sample.ids 1 30))
                    (take 0 (new_queryable Sample.Order)))
         = inr (VObj [("total", VNum 30); ("skip", VNum 0); ("records", VArr rows)], self')
      /\ List.length rows = 25%nat)
  /\ (exists rows self',
        q_take (query (take (-1) (new_queryable Sample.Order))) = Some (-1)%Z
        /\ outcome (listInternal (Sample.runtime (Sample.ids 1 30))
                      (take (-1) (new_queryable Sample.Order)))
           = inr (VObj [("total", VNum 30); ("skip", VNum 0); ("records", VArr rows)], self')
        /\ List.length rows = 30%nat).
Proof.
  split; do 2 eexists; (split; [reflexivity|]);
    (split; [vm_compute; reflexivity|reflexivity]).
Qed.

(** The adapter over a table honours limits and counts all rows. *)
Lemma get_first (k : string) (v : Value) (rest : list (string * Value)) :
  get (VObj ((k, v) :: rest)) k = v.
Proof. simpl. now rewrite String.eqb_refl. Qed.

Lemma table_rows (rows : list Value) (q : QueryExpression) :
  (forall f, In f (fields q) -> qf_fn f = None) ->
  exists page_,
    Sample.table rows q = inr (VArr page_)
    /\ (List.length page_ <= List.length rows)%nat
    /\ (forall n, q_take q = Some n -> (0 < n)%Z ->
                  (List.length page_ <= Z.to_nat n)%nat).
Proof.
  intros Hplain.
  assert (Hpaged : exists page_,
             VArr match q_take q with
                  | Some n =>
                      if (0 <? n)%Z
                      then firstn (Z.to_nat n)
                             match q_skip q with
                             | Some k => skipn (Z.to_nat k) rows
                             | None => rows
                             end
                      else match q_skip q with
                           | Some k => skipn (Z.to_nat k) rows
                           | None => rows
                           end
                  | None => match q_skip q with
                            | Some k => skipn (Z.to_nat k) rows
                            | None => rows
                            end
                  end = VArr page_
             /\ (List.length page_ <= List.length rows)%nat
             /\ (forall n, q_take q = Some n -> (0 < n)%Z ->
                           (List.length page_ <= Z.to_nat n)%nat)).
  { eexists. split; [reflexivity|].
    assert (Hskip : (List.length match q_skip q with
                                 | Some k => skipn (Z.to_nat k) rows
                                 | None => rows
                                 end <= List.length rows)%nat).
    { destruct (q_skip q); [rewrite length_skipn; lia|lia]. }
    destruct (q_take q) as [n|]; split.
    - destruct (0 <? n)%Z; [rewrite length_firstn; lia|exact Hskip].
    - intros n' Hn Hpos. inversion Hn; subst n'.
      apply Z.ltb_lt in Hpos. rewrite Hpos. rewrite length_firstn. lia.
    - exact Hskip.
    - intros n' Hn. discriminate Hn. }
  destruct Hpaged as (page_ & Heq & Hlen & Hlim).
  exists page_. split; [|split; assumption].
  unfold Sample.table.
  destruct (q_select q) as [[|f [|g fs]]|] eqn:Es; try (now rewrite Heq).
  assert (Hf : qf_fn f = None).
  { apply Hplain. unfold fields. rewrite Es. now left. }
  rewrite Hf. now rewrite Heq.
Qed.

Lemma table_counts (rows : list Value) (q : QueryExpression) (entity name : string) :
  Sample.table rows (Query.select [from entity (fields_count name)] q)
  = inr (VArr [VObj [(name, VNum (Z.of_nat (List.length rows)))]]).
Proof. reflexivity. Qed.

Lemma table_honours_take (rows : list Value) : honours_take (Sample.runtime rows).
Proof.
  intros q n got Hn Hpos H. simpl in H. unfold Sample.table in H.
  assert (Hpaged : forall l,
             inr (VArr match q_take q with
                       | Some n => if (0 <? n)%Z then firstn (Z.to_nat n) l else l
                       | None => l
                       end) = @inr Error Value (VArr got) ->
             (Z.of_nat (List.length got) <= n)%Z).
  { intros l Hl. rewrite Hn in Hl. pose proof Hpos as Hb. apply Z.ltb_lt in Hb.
    rewrite Hb in Hl. inversion Hl; subst got. rewrite length_firstn. lia. }
  destruct (q_select q) as [[|f [|g fs]]|]; try exact (Hpaged _ H).
  destruct (qf_fn f); [|exact (Hpaged _ H)].
  inversion H; subst got. simpl. lia.
Qed.

Lemma table_counts_all (rows : list Value) : counts_all (Sample.runtime rows).
Proof.
  intros q entity name got row more total Hplain Hq Hc Ht. simpl in Hq, Hc.
  rewrite table_counts in Hc. inversion Hc; subst row more.
  rewrite get_first in Ht. inversion Ht; subst total.
  destruct (table_rows rows q Hplain) as (page_ & Hp & Hlen & _).
  rewrite Hp in Hq. inversion Hq; subst got. lia.
Qed.

(** [select()] leaves a queryable that has a projection as it is. *)
Lemma select_projected (rt : Runtime) (self : DataQueryable) :
  hasFields (query self) = true -> select rt SelectNothing self = inr self.
Proof.
  intros Hf. unfold select. rewrite select_nothing, Hf. reflexivity.
Qed.

(** A clone of a transparent queryable is transparent, whatever its query. *)
Lemma clone_transparent (rt : Runtime) (self : DataQueryable) (q : QueryExpression) :
  transparent rt self -> transparent rt (with_query q (clone self)).
Proof.
  intros (Hm & Hb & Ha & Hf & Hv & He & Hs).
  repeat split; try assumption. discriminate.
Qed.

(** [list()] on a transparent queryable with a projection: two calls of the
    adapter, the first with the limit of the page, the second with the
    count. *)
Lemma listInternal_transparent (rt : Runtime) (self : DataQueryable) (f : DataField)
    (rest : list DataField) (rows : Value) (row : Value) (more : list Value) :
  transparent rt self -> hasFields (query self) = true ->
  attributes (model self) = f :: rest ->
  db_execute rt (query (take (page self) self)) = inr rows ->
  db_execute rt (query (counted (clone self) f)) = inr (VArr (row :: more)) ->
  isNil row = false ->
  listInternal rt self
  = ([Emit "before.execute" (query (take (page self) self));
      DbExecute (query (take (page self) self));
      Emit "before.execute" (query (counted (clone self) f));
      DbExecute (query (counted (clone self) f))],
     inr (result_set (get row (f_name f)) rows (take (page self) self),
          take (page self) self)).
Proof.
  intros Ht Hf Ha Hrows Hcount Hrow.
  pose proof Ht as (Hm & Hb & Hafter & Hfl & Hv & He & Hs).
  assert (Hc : counting self (take (page self) self) = clone self).
  { unfold counting. simpl. now rewrite He. }
  assert (Hcl : countInternal rt (clone self)
                = ([Emit "before.execute" (query (counted (clone self) f));
                    DbExecute (query (counted (clone self) f))],
                   inr (get row (f_name f), counted (clone self) f))).
  { destruct (@countInternal_runs rt (clone self) f rest Ha) as [Hef Hout].
    assert (Hx := @execute_transparent rt (counted (clone self) f)
                    (clone_transparent _ Ht)).
    rewrite Hcount in Hx.
    rewrite Hx in Hef, Hout. cbn [effects outcome fst snd] in Hef, Hout.
    destruct (countInternal rt (clone self)) as [t r]. simpl in Hef, Hout.
    subst t r. f_equal. destruct row; try reflexivity; discriminate Hrow. }
  unfold listInternal. fold (page self).
  rewrite (select_projected rt self Hf).
  change (lift (inr self)) with (@ret Run _ _ self).
  cbn [bind ret Monad_Run].
  rewrite (@takeInternal_transparent rt (page self) self Ht Hf), Hrows.
  cbn [bind ret Monad_Run].
  fold (counting self (take (page self) self)). rewrite Hc, Hcl.
  reflexivity.
Qed.

(** The queries of [list()]: those of the page and those of the count. *)
Lemma listInternal_queries (rt : Runtime) (self : DataQueryable) (ef : Effect)
    (q : QueryExpression) :
  (forall s, In ef (effects (execute_ rt s)) ->
             q_skip q = q_skip (query s) /\ q_take q = q_take (query s)) ->
  In ef (effects (listInternal rt self)) ->
  (q_take q = Some (page self) /\ q_skip q = q_skip (query self))
  \/ (q_take q = None /\ q_skip q = None).
Proof.
  intros Hexec H.
  apply listInternal_effects in H. destruct H as (self1 & Hs & [H|(result & self2 & _ & H)]).
  - left. apply select_settings in Hs.
    apply takeInternal_paging in H. destruct H as (s2 & Hs2 & H).
    destruct (Hexec s2 H) as [Hskip Htake].
    rewrite Hskip, Htake. split; settled.
  - right.
    destruct (attributes (model (counting self1 self2))) as [|f rest] eqn:Ea.
    + unfold countInternal in H. rewrite Ea in H. destruct H.
    + destruct (@countInternal_runs rt (counting self1 self2) f rest Ea) as [Hef _].
      rewrite Hef in H.
      destruct (Hexec _ H) as [Hskip Htake].
      rewrite Hskip, Htake. split; reflexivity.
Qed.

(** The page of [list()]: the queries of its execution, and the records
    against the rows of the adapter. *)
Lemma list_page (rt : Runtime) (self self1 : DataQueryable) (result : Value)
    (s : DataQueryable) (q : QueryExpression) :
  select rt SelectNothing self = inr self1 ->
  outcome (takeInternal rt (page self) self1) = inr (result, s) ->
  In (DbExecute q) (effects (takeInternal rt (page self) self1)) ->
  (before_execute rt = [] ->
   q_take q = Some (page self) /\ q_skip q = q_skip (query self))
  /\ exists raw written,
       db_execute rt q = inr raw
       /\ outcome (expansions rt (with_query q s) raw) = inr written
       /\ toArrayCallback (with_query q s) written = inr result
       /\ (listed (d_expand s) = [] -> written = raw)
       /\ (attaches rt ->
           forall rows, raw = VArr rows ->
             exists items records,
               written = VArr items
               /\ List.length items = List.length rows
               /\ (if truthy result then result else VArr []) = VArr records
               /\ (List.length records <= List.length rows)%nat
               /\ (collapses (with_query q s) = false -> records = items)
               /\ (honours_take rt -> q_take q = Some (page self) ->
                   (0 < page self)%Z ->
                   (Z.of_nat (List.length records) <= page self)%Z)).
Proof.
  intros Hs Hout Hin.
  split.
  { intros Hb. pose proof Hs as Hset. apply select_settings in Hset.
    pose proof Hin as Hin'.
    apply takeInternal_paging in Hin'. destruct Hin' as (s2 & Hs2 & Hin').
    eapply execute_adapter in Hin'; [|exact Hb]. destruct Hin' as (H1 & H2 & _).
    rewrite H1, H2. split; settled. }
  destruct (@terminal_asked rt (OpTake (page self)) self1 q result s Hin Hout)
    as (_ & _ & _ & raw & written & rows & Hraw & Hw & Hc & Hans).
  cbn [answer] in Hans. inversion Hans; subst rows.
  exists raw, written. do 3 (split; [assumption|]).
  split.
  { exact (proj1 (@asked_shape rt (with_query q s) raw written result Hw Hc)). }
  intros Hat rows ->.
  destruct (expansions_rows _ _ Hat Hw) as (items & -> & Hlen).
  destruct (@records_length (with_query q s) (VArr items) result items Hc eq_refl)
    as (records & Hrec & Hle & Hsame).
  exists items, records. repeat split; try assumption.
  - lia.
  - intros Hlimit Htake Hpos.
    pose proof (Hlimit q (page self) rows Htake Hpos Hraw). lia.
Qed.

(** The count of [list()]: the queries of its execution, and the total
    against the rows of the adapter. *)
Lemma list_total (rt : Runtime) (self self1 : DataQueryable) (s : DataQueryable)
    (total : Value) (s3 : DataQueryable) (q : QueryExpression) (f : DataField)
    (rest : list DataField) :
  attributes (model self) = f :: rest ->
  select rt SelectNothing self = inr self1 ->
  outcome (countInternal rt (counting self1 s)) = inr (total, s3) ->
  In (DbExecute q) (effects (countInternal rt (counting self1 s))) ->
  (before_execute rt = [] -> q_take q = None /\ q_skip q = None)
  /\ exists raw written,
       db_execute rt q = inr raw
       /\ outcome (expansions rt (with_query q s3) raw) = inr written
       /\ count_of (f_name f) written = inr total
       /\ (listed (d_expand s3) = [] -> written = raw)
       /\ (forall row more,
              written = VArr (row :: more) -> isNil row = false ->
              total = get row (f_name f)).
Proof.
  intros Ha Hs Hcount Hin.
  assert (Hmodel : model (counting self1 s) = model self).
  { apply select_settings in Hs. unfold counting.
    destruct (d_expand (clone self1)); simpl; settled. }
  split.
  { intros Hb.
    assert (Hattr : attributes (model (counting self1 s)) = f :: rest)
      by now rewrite Hmodel.
    destruct (@countInternal_runs rt (counting self1 s) f rest Hattr) as [Hef _].
    rewrite Hef in Hin. eapply execute_adapter in Hin; [|exact Hb].
    destruct Hin as (H1 & H2 & _). rewrite H1, H2. split; reflexivity. }
  destruct (@terminal_asked rt OpCount (counting self1 s) q total s3 Hin Hcount)
    as (Hm & Hflag & _ & raw & written & rows & Hraw & Hw & Hc & Hans).
  cbn [answer] in Hans. rewrite Hmodel, Ha in Hans.
  assert (Hcol : collapses (with_query q s3) = false).
  { apply collapses_flag. simpl. rewrite Hflag. unfold counting.
    destruct (d_expand (clone self1)); discriminate. }
  destruct (@asked_shape rt (with_query q s3) raw written rows Hw Hc)
    as (Hnone & Hplain & _).
  rewrite (Hplain Hcol) in Hans.
  exists raw, written. do 3 (split; [assumption|]).
  split; [exact Hnone|].
  intros row more -> Hrow. destruct row; try discriminate Hrow; now inversion Hans.
Qed.

(** C2 (amended).  [list()] selects the default attributes when nothing is
    projected, executes [take(n, callback)] with [n = $take || 25], that is
    25 when the limit is unset or is [0] and the limit otherwise, then
    counts on the clone taken before, and resolves with
    [{ total, skip, records }]: [total] is what the count of the clone
    answers, [skip] is [parseInt($skip) || 0], which is [$skip] for an
    integer below [10^21] and 0 when it is unset, and [records] is what the
    execution of the page yields ([[]] for a falsy result).  Every query
    that [before.execute] sees, and every query that reaches the adapter
    when there are no such listeners, either has that limit and the [$skip]
    of the queryable, or has neither [$skip] nor [$take].  When the adapter
    has been called for the page, the records are its rows as the expansions
    leave them and as [toArrayCallback] hands them on, so they are no more
    than these rows when the functions of expansion keep the number of rows,
    and no more than the limit when the limit is positive and the adapter
    honours limits.  When the adapter has been called for the count,
    [total] is read from its first row as the expansions leave it, so the
    records are no more than [total] when the adapter counts no fewer rows
    than it returns for the page.  For a transparent queryable with a
    projection the adapter is called twice: with the query of the queryable
    under the limit of the page, and with the count over the first attribute
    of the model on the same query without [$skip], [$take], [$order] and
    [$group]. *)
Theorem list_spec (rt : Runtime) (self : DataQueryable) :
  ((q_take (query self) = None -> page self = 25%Z)
   /\ (q_take (query self) = Some 0%Z -> page self = 25%Z)
   /\ (forall n, q_take (query self) = Some n -> n <> 0%Z -> page self = n))
  /\ (forall res s,
        outcome (listInternal rt self) = inr (res, s) ->
        (exists self1 result total s3,
            select rt SelectNothing self = inr self1
            /\ outcome (takeInternal rt (page self) self1) = inr (result, s)
            /\ outcome (countInternal rt (counting self1 s)) = inr (total, s3)
            /\ res = VObj [("total", total);
                           ("skip", VNum match q_skip (query s) with
                                         | Some n => parseInt n
                                         | None => 0%Z
                                         end);
                           ("records", if truthy result then result else VArr [])])
        /\ (q_skip (query s) = None -> get res "skip" = VNum 0)
        /\ (forall k, q_skip (query s) = Some k -> (Z.abs k < 10 ^ 21)%Z ->
                      get res "skip" = VNum k)
        /\ (before_execute rt = [] -> after_execute rt = [] ->
            q_skip (query s) = q_skip (query self)))
  /\ (forall q, In (Emit "before.execute" q) (effects (listInternal rt self)) ->
                (q_take q = Some (page self) /\ q_skip q = q_skip (query self))
                \/ (q_take q = None /\ q_skip q = None))
  /\ (before_execute rt = [] ->
      forall q, In (DbExecute q) (effects (listInternal rt self)) ->
                (q_take q = Some (page self) /\ q_skip q = q_skip (query self))
                \/ (q_take q = None /\ q_skip q = None))
  /\ (forall self1 result s q,
        select rt SelectNothing self = inr self1 ->
        outcome (takeInternal rt (page self) self1) = inr (result, s) ->
        In (DbExecute q) (effects (takeInternal rt (page self) self1)) ->
        (before_execute rt = [] ->
         q_take q = Some (page self) /\ q_skip q = q_skip (query self))
        /\ exists raw written,
             db_execute rt q = inr raw
             /\ outcome (expansions rt (with_query q s) raw) = inr written
             /\ toArrayCallback (with_query q s) written = inr result
             /\ (listed (d_expand s) = [] -> written = raw)
             /\ (attaches rt ->
                 forall rows, raw = VArr rows ->
                   exists items records,
                     written = VArr items
                     /\ List.length items = List.length rows
                     /\ (if truthy result then result else VArr []) = VArr records
                     /\ (List.length records <= List.length rows)%nat
                     /\ (collapses (with_query q s) = false -> records = items)
                     /\ (honours_take rt -> q_take q = Some (page self) ->
                         (0 < page self)%Z ->
                         (Z.of_nat (List.length records) <= page self)%Z)))
  /\ (forall self1 result s total s3 q f rest,
        attributes (model self) = f :: rest ->
        select rt SelectNothing self = inr self1 ->
        outcome (takeInternal rt (page self) self1) = inr (result, s) ->
        outcome (countInternal rt (counting self1 s)) = inr (total, s3) ->
        In (DbExecute q) (effects (countInternal rt (counting self1 s))) ->
        (before_execute rt = [] -> q_take q = None /\ q_skip q = None)
        /\ exists raw written,
             db_execute rt q = inr raw
             /\ outcome (expansions rt (with_query q s3) raw) = inr written
             /\ count_of (f_name f) written = inr total
             /\ (listed (d_expand s3) = [] -> written = raw)
             /\ (forall row more,
                    written = VArr (row :: more) -> isNil row = false ->
                    total = get row (f_name f)))
  /\ (forall self1 result s total s3 qp qc rows row more c f rest,
        attributes (model self) = f :: rest ->
        select rt SelectNothing self = inr self1 ->
        outcome (takeInternal rt (page self) self1) = inr (result, s) ->
        outcome (countInternal rt (counting self1 s)) = inr (total, s3) ->
        In (DbExecute qp) (effects (takeInternal rt (page self) self1)) ->
        In (DbExecute qc) (effects (countInternal rt (counting self1 s))) ->
        db_execute rt qp = inr (VArr rows) ->
        db_execute rt qc = inr (VArr (row :: more)) ->
        isNil row = false ->
        get row (f_name f) = VNum c ->
        attaches rt ->
        listed (d_expand s3) = [] ->
        (Z.of_nat (List.length rows) <= c)%Z ->
        total = VNum c
        /\ exists records,
             (if truthy result then result else VArr []) = VArr records
             /\ (Z.of_nat (List.length records) <= c)%Z)
  /\ (transparent rt self -> hasFields (query self) = true ->
      forall f rest rows row more,
        attributes (model self) = f :: rest ->
        db_execute rt (query (take (page self) self)) = inr (VArr rows) ->
        db_execute rt
          (Query.select [from (viewAdapter (model self)) (fields_count (f_name f))]
             (unpaged (query self)))
        = inr (VArr (row :: more)) ->
        isNil row = false ->
        listInternal rt self
        = ([Emit "before.execute" (query (take (page self) self));
            DbExecute (query (take (page self) self));
            Emit "before.execute"
              (Query.select [from (viewAdapter (model self)) (fields_count (f_name f))]
                 (unpaged (query self)));
            DbExecute
              (Query.select [from (viewAdapter (model self)) (fields_count (f_name f))]
                 (unpaged (query self)))],
           inr (VObj [("total", get row (f_name f));
                      ("skip", VNum match q_skip (query self) with
                                    | Some n => parseInt n
                                    | None => 0%Z
                                    end);
                      ("records", VArr rows)],
                take (page self) self))
        /\ (honours_take rt -> (0 < page self)%Z ->
            (Z.of_nat (List.length rows) <= page self)%Z)
        /\ (counts_all rt ->
            (forall x, In x (fields (query self)) -> qf_fn x = None) ->
            forall total, get row (f_name f) = VNum total ->
                          (Z.of_nat (List.length rows) <= total)%Z)).
Proof.
  split.
  { unfold page. split; [|split].
    - intros ->. reflexivity.
    - intros ->. reflexivity.
    - intros n -> Hn. destruct (n =? 0)%Z eqn:E; [|reflexivity].
      apply Z.eqb_eq in E. contradiction. }
  split.
  { intros res s H. rewrite listInternal_outcome in H.
    destruct (select rt SelectNothing self) as [err|self1] eqn:Es; [discriminate|].
    destruct (outcome (takeInternal rt (page self) self1)) as [err|[result self2]] eqn:Et;
      [discriminate|].
    destruct (outcome (countInternal rt (counting self1 self2))) as [err|[total s3]] eqn:Ec;
      [discriminate|].
    inversion H; subst. split; [|split; [|split]].
    - exists self1, result, total, s3. repeat split; assumption.
    - intros Hk. unfold result_set. rewrite Hk. reflexivity.
    - intros k Hk Hsmall. unfold result_set. rewrite Hk, (parseInt_small _ Hsmall).
      reflexivity.
    - intros Hb Ha.
      destruct (@terminal_asks rt (OpTake (page self)) self1 (result, s) Hb Et) as [q Hin].
      destruct (@terminal_asked rt (OpTake (page self)) self1 q result s Hin Et)
        as (_ & _ & Hq & _).
      rewrite (Hq Ha).
      exact (proj2 (proj1 (@list_page rt self self1 result s q Es Et Hin) Hb)). }
  split.
  { intros q H.
    apply (@listInternal_queries rt self (Emit "before.execute" q) q); [|exact H].
    intros s Hin. apply execute_before in Hin. tauto. }
  split.
  { intros Hb q H.
    apply (@listInternal_queries rt self (DbExecute q) q); [|exact H].
    intros s Hin. eapply execute_adapter in Hin; [|exact Hb]. tauto. }
  split.
  { intros self1 result s q Hs Hout Hin.
    exact (@list_page rt self self1 result s q Hs Hout Hin). }
  split.
  { intros self1 result s total s3 q f rest Ha Hs Hpage Hcount Hin.
    exact (@list_total rt self self1 s total s3 q f rest Ha Hs Hcount Hin). }
  split.
  { intros self1 result s total s3 qp qc rows row more c f rest
           Ha Hs Hpage Hcount Hinp Hinc Hrows Hrow Hnil Hc Hat Hnone Hle.
    destruct (@list_total rt self self1 s total s3 qc f rest Ha Hs Hcount Hinc)
      as (_ & raw & written & Hraw & Hw & Hans & Hsame & Hfirst).
    rewrite Hrow in Hraw. inversion Hraw; subst raw.
    rewrite (Hsame Hnone) in Hfirst.
    rewrite (Hfirst row more eq_refl Hnil), Hc.
    split; [reflexivity|].
    destruct (@list_page rt self self1 result s qp Hs Hpage Hinp)
      as (_ & raw & written' & Hraw' & _ & _ & _ & Hbound).
    rewrite Hrows in Hraw'. inversion Hraw'; subst raw.
    destruct (Hbound Hat rows eq_refl) as (items & records & _ & _ & Hrec & Hlen & _).
    exists records. split; [exact Hrec|]. lia. }
  intros Ht Hf f rest rows row more Ha Hrows Hcount Hrow.
  split; [|split].
  - exact (@listInternal_transparent rt self f rest (VArr rows) row more
             Ht Hf Ha Hrows Hcount Hrow).
  - intros Hlimit Hpos.
    exact (Hlimit (query (take (page self) self)) (page self) rows eq_refl Hpos Hrows).
  - intros Hall Hplain total Htotal.
    exact (Hall (query (take (page self) self)) (viewAdapter (model self)) (f_name f)
             rows row more total Hplain Hrows Hcount Htotal).
Qed.

Lemma attaching_attaches (before after : list Listener) (rows : list Value) :
  attaches (mkRuntime Sample.exec Sample.models Sample.declared_mapping (fun _ _ => None)
                      (fun _ => None) (fun _ _ => inl (Thrown "no view")) before after
                      (Sample.table rows) Sample.attaching).
Proof.
  intros kind mapping options self got v H. simpl in H. inversion H.
  eexists. split; [reflexivity|]. apply length_map.
Qed.

(** The amended C2 on the identifiers of thirty orders, read from the fifth
    in pages of seven; and on a page of two of the identifiers 0 to 3, with
    the customer expanded and the rows collapsed: the adapter returns two
    rows, the row of the identifier 0 is dropped, and all four rows are
    counted. *)
Lemma list_spec_witness :
  transparent (Sample.runtime (Sample.ids 1 30)) (skip 4 (take 7 Sample.flat_orders))
  /\ honours_take (Sample.runtime (Sample.ids 1 30))
  /\ counts_all (Sample.runtime (Sample.ids 1 30))
  /\ outcome (listInternal (Sample.runtime (Sample.ids 1 30))
                (skip 4 (take 7 Sample.flat_orders)))
     = inr (VObj [("total", VNum 30); ("skip", VNum 4); ("records", VArr (Sample.ids 5 7))],
            take 7 (skip 4 (take 7 Sample.flat_orders)))
  /\ (Z.of_nat (List.length (Sample.ids 5 7)) <= 7)%Z
  /\ (Z.of_nat (List.length (Sample.ids 5 7)) <= 30)%Z
  /\ outcome (listInternal (Sample.expanding (Sample.ids 0 4))
                (take 2 Sample.order_ids_with_customer))
     = inr (VObj [("total", VNum 4); ("skip", VNum 0); ("records", VArr [VNum 1])],
            take 2 Sample.order_ids_with_customer)
  /\ (exists records,
        (if truthy (VArr [VNum 1]) then VArr [VNum 1] else VArr []) = VArr records
        /\ (Z.of_nat (List.length records) <= 2)%Z).
Proof.
  assert (Ht : transparent (Sample.runtime (Sample.ids 1 30))
                 (skip 4 (take 7 Sample.flat_orders))).
  { repeat split; try reflexivity. discriminate. }
  destruct (proj2 (proj2 (proj2 (proj2 (proj2 (proj2 (proj2
              (list_spec (Sample.runtime (Sample.ids 1 30))
                         (skip 4 (take 7 Sample.flat_orders)))))))))
              Ht eq_refl (Sample.key "id") _ (Sample.ids 5 7)
              (VObj [("id", VNum 30)]) [] eq_refl eq_refl eq_refl eq_refl)
    as (Hlist & Hlimit & Hall).
  split; [exact Ht|].
  split; [exact (@table_honours_take _)|].
  split; [exact (@table_counts_all _)|].
  split; [rewrite Hlist; reflexivity|].
  split; [apply Hlimit; [exact (@table_honours_take _)|reflexivity]|].
  split.
  { apply (Hall (@table_counts_all _)); [|reflexivity].
    intros x [<-|[]]. reflexivity. }
  split; [vm_compute; reflexivity|].
  assert (Hin : In (DbExecute (query (take 2 Sample.order_ids_with_customer)))
                   (effects (takeInternal (Sample.expanding (Sample.ids 0 4))
                                          (page (take 2 Sample.order_ids_with_customer))
                                          (take 2 Sample.order_ids_with_customer)))).
  { vm_compute. right. left. reflexivity. }
  destruct (proj1 (proj2 (proj2 (proj2 (proj2
              (list_spec (Sample.expanding (Sample.ids 0 4))
                         (take 2 Sample.order_ids_with_customer))))))
              (take 2 Sample.order_ids_with_customer) (VArr [VNum 1])
              (take 2 Sample.order_ids_with_customer)
              (query (take 2 Sample.order_ids_with_customer))
              ltac:(vm_compute; reflexivity) ltac:(vm_compute; reflexivity) Hin)
    as (_ & raw & written & Hraw & _ & _ & _ & Hbound).
  destruct (Hbound (@attaching_attaches [] [] (Sample.ids 0 4)) (Sample.ids 0 2))
    as (items & records & _ & _ & Hrec & _ & _ & Hlimit2).
  { vm_compute in Hraw. inversion Hraw. vm_compute. reflexivity. }
  exists records. split; [exact Hrec|].
  apply Hlimit2; [exact (@table_honours_take (Sample.ids 0 4))|reflexivity|reflexivity].
Defined.

(* ===================================================================== *)
(** * Further properties of the engine *)
(* ===================================================================== *)

(** ** The arguments of expand *)

Lemma push_each_error (l : list ExpandEntry) (e : Error) :
  fold_left (fun (acc : Result (list ExpandEntry)) x => arr <- acc ;; push_one arr x)
            l (inl e) = inl e.
Proof.
  induction l as [|x l IH]; simpl; [reflexivity|exact IH].
Qed.

Lemma push_each_fold (l acc : list ExpandEntry) :
  fold_left (fun (acc : Result (list ExpandEntry)) x => arr <- acc ;; push_one arr x)
            l (inr acc)
  = if forallb acceptable l
    then inr (acc ++ List.filter (fun x => negb (nil_entry x)) l)%list
    else throw "Expand option may be a string or a named object.".
Proof.
  revert acc. induction l as [|x l IH]; intros acc.
  - simpl. now rewrite app_nil_r.
  - cbn [fold_left forallb List.filter]. unfold acceptable at 1.
    change (arr <- inr acc ;; push_one arr x) with (push_one acc x).
    unfold push_one.
    destruct (nil_entry x) eqn:En; simpl; [apply IH|].
    destruct (named_or_string x) eqn:Es; simpl.
    + rewrite IH. destruct (forallb acceptable l); [|reflexivity].
      now rewrite <- app_assoc.
    + apply push_each_error.
Qed.

Lemma push_each_spec (l acc : list ExpandEntry) :
  push_each l acc
  = if forallb acceptable l
    then inr (acc ++ List.filter (fun x => negb (nil_entry x)) l)%list
    else throw "Expand option may be a string or a named object.".
Proof. exact (push_each_fold l acc). Qed.

(** X1.  [expand()], [expand(null)] and [expand(undefined)] delete the
    expand list.  [expand(x)] with one value that is neither nil nor an
    array appends it to the list as it is, whatever it is.  [expand] with an
    array, or with several arguments, checks every element: [null] and
    [undefined] are skipped, strings and objects that have a property
    [name] of their own are appended in order, and any other element (a
    number, an array, a mapping) makes the call throw. *)
Theorem expand_arguments (self : DataQueryable) :
  expand ExpandNothing self = inr (with_expand None self)
  /\ (forall e,
        nil_entry e = true ->
        expand (ExpandValue e) self = inr (with_expand None self))
  /\ (forall e,
        nil_entry e = false -> is_array e = false ->
        expand (ExpandValue e) self
        = inr (with_expand (Some (listed (d_expand self) ++ [e])%list) self))
  /\ (forall items,
        expand (ExpandValue (EOther (VArr items))) self
        = expand (ExpandValues (List.map EOther items)) self)
  /\ (forall l,
        forallb acceptable l = true ->
        expand (ExpandValues l) self
        = inr (with_expand
                 (Some (listed (d_expand self)
                          ++ List.filter (fun x => negb (nil_entry x)) l)%list)
                 self))
  /\ (forall l,
        forallb acceptable l = false ->
        expand (ExpandValues l) self
        = throw "Expand option may be a string or a named object.")
  /\ (forall x,
        acceptable x = true <->
        match x with
        | EString _ | ENamed _ _ => True
        | EMapping _ => False
        | EOther VUndefined | EOther VNull | EOther (VStr _) => True
        | EOther (VObj props) => assoc "name" props <> None
        | EOther _ => False
        end).
Proof.
  split; [reflexivity|].
  split.
  { intros e He. destruct e as [s|n o|m|v]; try discriminate He.
    destruct v; try discriminate He; reflexivity. }
  split.
  { intros e He Ha. destruct e as [s|n o|m|v]; try reflexivity.
    destruct v; try discriminate He; try discriminate Ha; reflexivity. }
  split; [reflexivity|].
  split; [|split].
  - intros l Hl. unfold expand. rewrite push_each_spec, Hl. reflexivity.
  - intros l Hl. unfold expand. rewrite push_each_spec, Hl. reflexivity.
  - intros x. unfold acceptable. destruct x as [s|n o|m|v]; simpl; try tauto.
    + split; [discriminate|intros []].
    + destruct v; simpl; try tauto; try (split; [discriminate|intros []]).
      unfold hasOwn. destruct (assoc "name" props); split; intros H.
      * discriminate.
      * reflexivity.
      * discriminate H.
      * now elim H.
Qed.

(** X1 on an array with a string, [null] and two named objects, on an array
    that holds a number, and on [null] alone. *)
Lemma expand_arguments_witness :
  expand (ExpandValues [EString "customer"; EOther VNull; ENamed "orders" None;
                        EOther (VObj [("name", VStr "tags"); ("source", VNum 1)])])
         Sample.orders_with_customer
  = inr (with_expand (Some [EString "customer"; EString "customer"; ENamed "orders" None;
                            EOther (VObj [("name", VStr "tags"); ("source", VNum 1)])])
                     Sample.orders_with_customer)
  /\ expand (ExpandValues [EString "customer"; EOther (VNum 1)]) Sample.orders_with_customer
     = throw "Expand option may be a string or a named object."
  /\ expand (ExpandValue (EOther VNull)) Sample.orders_with_customer
     = inr (with_expand None Sample.orders_with_customer).
Proof.
  split; [|split].
  - exact (proj1 (proj2 (proj2 (proj2 (proj2 (expand_arguments Sample.orders_with_customer)))))
             [EString "customer"; EOther VNull; ENamed "orders" None;
              EOther (VObj [("name", VStr "tags"); ("source", VNum 1)])] eq_refl).
  - exact (proj1 (proj2 (proj2 (proj2 (proj2 (proj2
             (expand_arguments Sample.orders_with_customer))))))
             [EString "customer"; EOther (VNum 1)] eq_refl).
  - exact (proj1 (proj2 (expand_arguments Sample.orders_with_customer))
             (EOther VNull) eq_refl).
Defined.

(** ** Paths of more than three members *)

Lemma path3_contains (a b c : string) : Str.contains slash (path3 a b c) = true.
Proof.
  unfold path3. rewrite contains_append. simpl. now rewrite orb_true_r.
Qed.

Lemma path4_contains (a b c d : string) : Str.contains slash (path4 a b c d) = true.
Proof.
  unfold path4. rewrite contains_append. simpl. now rewrite orb_true_r.
Qed.

Lemma path3_split (a b c : string) :
  Str.contains slash a = false -> Str.contains slash b = false ->
  Str.contains slash c = false ->
  Str.split slash (path3 a b c) = [a; b; c].
Proof.
  intros Ha Hb Hc. unfold path3.
  change ("/" ++ b ++ "/" ++ c) with (String slash (b ++ String slash c)).
  rewrite (@split_append slash a _ Ha), (@split_append slash b _ Hb),
    (@split_single slash c Hc).
  reflexivity.
Qed.

Lemma path4_split (a b c d : string) :
  Str.contains slash a = false -> Str.contains slash b = false ->
  Str.contains slash c = false ->
  Str.split slash (path4 a b c d) = a :: b :: c :: Str.split slash d.
Proof.
  intros Ha Hb Hc. unfold path4.
  change ("/" ++ b ++ "/" ++ c ++ "/" ++ d)
    with (String slash (b ++ String slash (c ++ String slash d))).
  rewrite (@split_append slash a _ Ha), (@split_append slash b _ Hb),
    (@split_append slash c _ Hc).
  reflexivity.
Qed.

(** X2.  The resolver reads the first three members of a path and no more:
    [a/b/c/d] is resolved as [a/b/c] is, with the same field, the same
    joins and the same errors, whatever [d] is. *)
Theorem members_after_the_third_are_ignored (rt : Runtime) (self : DataQueryable)
    (a b c d : string) :
  Str.contains slash a = false ->
  Str.contains slash b = false ->
  Str.contains slash c = false ->
  resolveNestedAttribute rt self (path4 a b c d)
  = resolveNestedAttribute rt self (path3 a b c).
Proof.
  intros Ha Hb Hc.
  unfold resolveNestedAttribute, resolveNestedAttributeJoin, resolveJunctionAttributeJoin.
  cbn [resolveNestedAttributeJoin_rec].
  rewrite !path3_contains, !path4_contains.
  rewrite !(@path3_split a b c Ha Hb Hc), !(@path4_split a b c d Ha Hb Hc).
  reflexivity.
Qed.

(** X2 on the orders of the customer of an order. *)
Lemma members_after_the_third_are_ignored_witness :
  resolveNestedAttribute (Sample.runtime []) (new_queryable Sample.Order)
    (path4 "customer" "orders" "id" "zip/zap")
  = resolveNestedAttribute (Sample.runtime []) (new_queryable Sample.Order)
      (path3 "customer" "orders" "id").
Proof.
  exact (@members_after_the_third_are_ignored (Sample.runtime [])
           (new_queryable Sample.Order) "customer" "orders" "id" "zip/zap"
           eq_refl eq_refl eq_refl).
Defined.

(** ** Paths that cannot be resolved *)

(** X3.  The resolution of a path [a/b] fails when the model has no
    attribute [a] and when the attribute has no association, with a message
    that names [a], and when the association is neither a junction nor an
    association that has the model as its child or as its parent, with a
    message that names the two models of the association.  [where] fails
    with the same error. *)
Theorem unresolvable_path_fails (rt : Runtime) (self : DataQueryable) (a b : string) :
  Str.contains slash a = false ->
  Str.contains slash b = false ->
  (field (model self) a = None ->
   inferMapping rt (model self) a = inr None ->
   resolveNestedAttribute rt self (path a b)
   = throw ("The target model does not have an attribute named as " ++ a))
  /\ (forall f,
        field (model self) a = Some f ->
        inferMapping rt (model self) a = inr None ->
        resolveNestedAttribute rt self (path a b)
        = throw ("The target model does not have an association defined for attribute named "
                   ++ a))
  /\ (forall f mp,
        field (model self) a = Some f ->
        inferMapping rt (model self) a = inr (Some mp) ->
        opt_eqb (associationType mp) (Some "junction") = false ->
        opt_eqb (associationType mp) (Some "association")
        && (opt_eqb (childModel mp) (Some (m_name (model self)))
            || opt_eqb (parentModel mp) (Some (m_name (model self)))) = false ->
        resolveNestedAttribute rt self (path a b)
        = throw ("The association type between " ++ show (parentModel mp) ++ " and "
                   ++ show (childModel mp)
                   ++ " model is not supported for filtering, grouping or sorting data."))
  /\ (forall e,
        resolveNestedAttribute rt self (path a b) = inl e ->
        where_ rt (path a b) self = inl e).
Proof.
  intros Ha Hb.
  assert (Hcall : forall r,
             resolveNestedAttributeJoin rt (model self) (path a b) = inl r ->
             (forall mp, inferMapping rt (model self) a = inr (Some mp) ->
                         opt_eqb (associationType mp) (Some "junction") = false) ->
             (exists o, inferMapping rt (model self) a = inr o) ->
             resolveNestedAttribute rt self (path a b) = inl r).
  { intros r Hr Hj [o Ho]. unfold resolveNestedAttribute.
    rewrite path_contains, (@path_split a b Ha Hb). unfold Str.item. cbn [nth].
    rewrite Ho. cbn [bind Monad_Result].
    destruct o as [mp|]; [rewrite (Hj mp Ho)|]; rewrite Hr; reflexivity. }
  split; [|split; [|split]].
  - intros Hf Hi. apply Hcall; [|intros mp Hm; congruence|eexists; exact Hi].
    unfold resolveNestedAttributeJoin. simpl.
    rewrite path_contains, (@path_split a b Ha Hb). unfold Str.item. cbn [nth].
    rewrite Hf. reflexivity.
  - intros f Hf Hi. apply Hcall; [|intros mp Hm; congruence|eexists; exact Hi].
    unfold resolveNestedAttributeJoin. simpl.
    rewrite path_contains, (@path_split a b Ha Hb). unfold Str.item. cbn [nth].
    rewrite Hf, Hi. reflexivity.
  - intros f mp Hf Hi Hj Ht.
    apply Hcall; [|intros mp' Hm; congruence|eexists; exact Hi].
    unfold resolveNestedAttributeJoin. simpl.
    rewrite path_contains, (@path_split a b Ha Hb). unfold Str.item. cbn [nth].
    rewrite Hf, Hi. simpl.
    destruct (opt_eqb (associationType mp) (Some "association")); simpl in Ht.
    + apply orb_false_iff in Ht. destruct Ht as [-> ->]. reflexivity.
    + rewrite !andb_false_r. reflexivity.
  - intros e He. unfold where_. rewrite path_contains, He. reflexivity.
Qed.

(** X3 on [Person]: no attribute [nothing], and no association on
    [givenName]. *)
Lemma unresolvable_path_fails_witness :
  resolveNestedAttribute (Sample.runtime []) (new_queryable Sample.Person)
    (path "nothing" "id")
  = throw "The target model does not have an attribute named as nothing"
  /\ where_ (Sample.runtime []) (path "givenName" "id") (new_queryable Sample.Person)
     = throw "The target model does not have an association defined for attribute named givenName".
Proof.
  pose proof (@unresolvable_path_fails (Sample.runtime []) (new_queryable Sample.Person)
                "nothing" "id" eq_refl eq_refl) as H1.
  pose proof (@unresolvable_path_fails (Sample.runtime []) (new_queryable Sample.Person)
                "givenName" "id" eq_refl eq_refl) as H2.
  split.
  - exact (proj1 H1 eq_refl eq_refl).
  - apply (proj2 (proj2 (proj2 H2))).
    exact (proj1 (proj2 H2) _ eq_refl eq_refl).
Defined.

(** ** Joins are only ever added *)

Lemma keeps_joins_refl (a : DataQueryable) : keeps_joins a a.
Proof. exists []. now rewrite app_nil_r. Qed.

Lemma keeps_joins_trans (a b c : DataQueryable) :
  keeps_joins a b -> keeps_joins b c -> keeps_joins a c.
Proof.
  intros [m1 H1] [m2 H2]. exists (m1 ++ m2)%list.
  now rewrite H2, H1, app_assoc.
Qed.

Lemma keeps_joins_same (a b : DataQueryable) :
  q_expand (query b) = q_expand (query a) -> keeps_joins a b.
Proof.
  intros H. exists []. unfold joined. now rewrite H, app_nil_r.
Qed.

Lemma push_join_keeps (acc : list Join) (y : Join) :
  exists more, push_join acc y = (acc ++ more)%list.
Proof.
  unfold push_join. destruct (existsb (same_alias y) acc).
  - exists []. now rewrite app_nil_r.
  - now exists [y].
Qed.

Lemma push_joins_keep (l acc : list Join) :
  exists more, fold_left push_join l acc = (acc ++ more)%list.
Proof.
  revert acc. induction l as [|y l IH]; intros acc; simpl.
  - exists []. now rewrite app_nil_r.
  - destruct (push_join_keeps acc y) as [m1 H1].
    destruct (IH (push_join acc y)) as [m2 H2].
    exists (m1 ++ m2)%list. now rewrite H2, H1, app_assoc.
Qed.

Lemma merge_expand_keeps (current expr : Expand) :
  exists more, joins (merge_expand current expr) = (joins current ++ more)%list.
Proof.
  destruct current as [|j|l]; simpl.
  - now exists (joins expr).
  - apply push_joins_keep.
  - apply push_joins_keep.
Qed.

Lemma resolveNestedAttribute_keeps (rt : Runtime) (self self' : DataQueryable)
    (attr : string) (f : option QueryField) :
  resolveNestedAttribute rt self attr = inr (f, self') -> keeps_joins self self'.
Proof.
  unfold resolveNestedAttribute. intros H. simpl in H.
  repeat step_in H; try apply keeps_joins_refl;
    unfold keeps_joins, joined; simpl; apply merge_expand_keeps.
Qed.

Ltac joins_kept :=
  repeat match goal with
         | |- keeps_joins ?a ?a => apply keeps_joins_refl
         | E : keeps_joins ?a ?b |- keeps_joins ?a ?c =>
             apply (keeps_joins_trans E); clear E
         | |- keeps_joins _ _ => apply keeps_joins_same; reflexivity
         end.

Lemma fieldOf_keeps (rt : Runtime) (self self' : DataQueryable) (attr : string)
    (alias : option string) (f : QueryField) :
  fieldOf rt self attr alias = inr (f, self') -> keeps_joins self self'.
Proof.
  unfold fieldOf, require. intros H. simpl in H.
  repeat step_in H;
    repeat match goal with
           | E : resolveNestedAttribute _ _ _ = inr (_, _) |- _ =>
               apply resolveNestedAttribute_keeps in E
           end;
    try assumption; apply keeps_joins_refl.
Qed.

Lemma selecteNestedAttribute_keeps (rt : Runtime) (self self' : DataQueryable)
    (attr : string) (alias : option string) (f : option QueryField) :
  selecteNestedAttribute rt self attr alias = inr (f, self') -> keeps_joins self self'.
Proof.
  unfold selecteNestedAttribute. intros H. simpl in H.
  repeat step_in H;
    repeat match goal with
           | E : resolveNestedAttribute _ _ _ = inr (_, _) |- _ =>
               apply resolveNestedAttribute_keeps in E
           end;
    assumption.
Qed.

Lemma selectAggregatedAttribute_keeps (rt : Runtime) (self self' : DataQueryable)
    (aggregation attribute : string) (alias : option string) (f : QueryField) :
  selectAggregatedAttribute rt self aggregation attribute alias = inr (f, self') ->
  keeps_joins self self'.
Proof.
  unfold selectAggregatedAttribute, require. intros H. simpl in H.
  repeat step_in H;
    repeat match goal with
           | E : selecteNestedAttribute _ _ _ _ = inr (_, _) |- _ =>
               apply selecteNestedAttribute_keeps in E
           | E : fieldOf _ _ _ _ = inr (_, _) |- _ => apply fieldOf_keeps in E
           end;
    assumption.
Qed.

Ltac known_joins :=
  repeat match goal with
         | E : selecteNestedAttribute _ _ _ _ = inr (_, _) |- _ =>
             apply selecteNestedAttribute_keeps in E
         | E : selectAggregatedAttribute _ _ _ _ _ = inr (_, _) |- _ =>
             apply selectAggregatedAttribute_keeps in E
         | E : fieldOf _ _ _ _ = inr (_, _) |- _ => apply fieldOf_keeps in E
         | E : resolveNestedAttribute _ _ _ = inr (_, _) |- _ =>
             apply resolveNestedAttribute_keeps in E
         end.

Lemma select__keeps (rt : Runtime) (self self' : DataQueryable) (arg : string)
    (f : option QueryField) :
  select_ rt self arg = inr (f, self') -> keeps_joins self self'.
Proof.
  unfold select_. intros H. simpl in H.
  repeat step_in H; known_joins; try assumption; apply keeps_joins_refl.
Qed.

Lemma expand_keeps (arg : ExpandArg) (self self' : DataQueryable) :
  expand arg self = inr self' -> keeps_joins self self'.
Proof.
  intros H. apply expand_writes in H. destruct H as [l ->].
  now apply keeps_joins_same.
Qed.

Lemma where_keeps (rt : Runtime) (self self' : DataQueryable) (attr : string) :
  where_ rt attr self = inr self' -> keeps_joins self self'.
Proof.
  unfold where_. intros H. simpl in H.
  repeat step_in H; known_joins;
    match goal with
    | E : keeps_joins ?a ?b |- _ =>
        apply (keeps_joins_trans E); apply keeps_joins_same; reflexivity
    end.
Qed.

Lemma select_view_field_keeps (rt : Runtime) (x : DataViewField)
    (arr arr' : list QueryField) (self self' : DataQueryable) :
  select_view_field rt x (arr, self) = inr (arr', self') -> keeps_joins self self'.
Proof.
  unfold select_view_field. intros H. simpl in H.
  repeat step_in H; known_joins; try assumption;
    apply keeps_joins_same; reflexivity.
Qed.

Lemma select_item_keeps (rt : Runtime) (x : SelectItem)
    (arr arr' : list QueryField) (self self' : DataQueryable) :
  select_item rt x (arr, self) = inr (arr', self') -> keeps_joins self self'.
Proof.
  unfold select_item. intros H. simpl in H.
  repeat step_in H;
    repeat match goal with
           | E : select_ _ _ _ = inr (_, _) |- _ => apply select__keeps in E
           end;
    known_joins; try assumption; apply keeps_joins_same; reflexivity.
Qed.

Lemma for_each_keeps {A : Type}
    (step : A -> list QueryField * DataQueryable -> Result (list QueryField * DataQueryable))
    (l : list A) :
  (forall x arr arr' self self',
      step x (arr, self) = inr (arr', self') -> keeps_joins self self') ->
  forall arr arr' self self',
    for_each step l (arr, self) = inr (arr', self') -> keeps_joins self self'.
Proof.
  intros Hstep. induction l as [|x l IH]; simpl; intros arr arr' self self' H.
  - inversion H. apply keeps_joins_refl.
  - destruct (step x (arr, self)) as [e|[arr1 self1]] eqn:E; [discriminate|].
    apply Hstep in E. apply IH in H. exact (keeps_joins_trans E H).
Qed.

Lemma select_rec_keeps (rt : Runtime) (fuel : nat) :
  forall (arg : SelectArg) (self self' : DataQueryable),
    select_rec rt fuel arg self = inr self' -> keeps_joins self self'.
Proof.
  induction fuel as [|fuel IH]; intros arg self self' H; [discriminate H|].
  simpl in H.
  assert (Hfinish : forall arr s,
             match arr with
             | None =>
                 if negb (hasFields (query s))
                 then select_rec rt fuel (apply_args (default_fields s)) s
                 else ret s
             | Some a => ret (with_query (Query.select a (query s)) s)
             end = inr self' -> keeps_joins s self').
  { intros [a|] s Hs; simpl in Hs.
    - inversion Hs. now apply keeps_joins_same.
    - destruct (negb (hasFields (query s))).
      + now apply IH in Hs.
      + inversion Hs. apply keeps_joins_refl. }
  destruct arg as [|s|l].
  - exact (Hfinish None _ H).
  - destruct (s =? "*"); [inversion H; now apply keeps_joins_same|].
    destruct (field (model self) s) as [f|].
    + destruct (many_or_junction f).
      * simpl in H. pose proof (Hfinish None _ H) as H'.
        refine (keeps_joins_trans _ H'). now apply keeps_joins_same.
      * simpl in H. destruct (fieldOf rt self (f_name f) None) as [e|[qf s1]] eqn:E;
          [discriminate|]. pose proof (Hfinish (Some [qf]) _ H) as H'.
        apply fieldOf_keeps in E. exact (keeps_joins_trans E H').
    + destruct (dataviews rt (model self) s) as [vw|].
      * simpl in H.
        destruct (for_each (select_view_field rt) (view_fields vw)
                           ([], with_view (Some vw) self)) as [e|[arr s2]] eqn:E;
          [discriminate|].
        apply (for_each_keeps _ _ (@select_view_field_keeps rt)) in E.
        assert (E0 : keeps_joins self (with_view (Some vw) self))
          by now apply keeps_joins_same.
        destruct arr; [pose proof (Hfinish None _ H) as H'
                      | pose proof (Hfinish (Some (q :: arr)) _ H) as H'];
          exact (keeps_joins_trans E0 (keeps_joins_trans E H')).
      * simpl in H.
        destruct (select_ rt (with_view None self) s) as [e|[expr s2]] eqn:E;
          [discriminate|]. apply select__keeps in E.
        assert (E0 : keeps_joins self (with_view None self))
          by now apply keeps_joins_same.
        destruct expr; [pose proof (Hfinish (Some [q]) _ H) as H'
                       | pose proof (Hfinish None _ H) as H'];
          exact (keeps_joins_trans E0 (keeps_joins_trans E H')).
  - assert (Hitems :
        (x <- for_each (select_item rt) l ([], self) ;;
         (let '(arr, s) := x in ret (with_query (Query.select arr (query s)) s)))
        = inr self' -> keeps_joins self self').
    { simpl. intros Hi.
      destruct (for_each (select_item rt) l ([], self)) as [e|[arr s1]] eqn:E;
        [discriminate|].
      apply (for_each_keeps _ _ (@select_item_keeps rt)) in E.
      inversion Hi; subst. refine (keeps_joins_trans E _). now apply keeps_joins_same. }
    destruct l as [|[s|qf] [|y l]]; try (apply Hitems; exact H).
    destruct (is_some (dataviews rt (model self) s)).
    + now apply IH in H.
    + apply Hitems; exact H.
Qed.

(** X4.  Attribute resolution, [fieldOf], [where] and [select] never remove
    a join from the query and never move one: the joins that the query had
    are the first joins of the query afterwards, in the same order. *)
Theorem joins_are_only_added (rt : Runtime) (self self' : DataQueryable) :
  (forall attr f, resolveNestedAttribute rt self attr = inr (f, self') ->
                  keeps_joins self self')
  /\ (forall attr alias f, fieldOf rt self attr alias = inr (f, self') ->
                           keeps_joins self self')
  /\ (forall attr, where_ rt attr self = inr self' -> keeps_joins self self')
  /\ (forall arg, select rt arg self = inr self' -> keeps_joins self self').
Proof.
  split; [intros attr f; apply resolveNestedAttribute_keeps|].
  split; [intros attr alias f; apply fieldOf_keeps|].
  split; [intros attr; apply where_keeps|].
  intros arg. apply select_rec_keeps.
Qed.

(** X4 on the orders: [where('customer/givenName')], then a projection that
    names the same association. *)
Lemma joins_are_only_added_witness :
  exists self1 self2,
    where_ (Sample.runtime []) "customer/givenName" (new_queryable Sample.Order) = inr self1
    /\ select (Sample.runtime [])
         (SelectItems [SelString "customer/familyName"; SelString "id"]) self1
       = inr self2
    /\ keeps_joins self1 self2.
Proof.
  do 2 eexists. split; [vm_compute; reflexivity|]. split; [vm_compute; reflexivity|].
  refine (proj2 (proj2 (proj2 (joins_are_only_added (Sample.runtime []) _ _)))
            (SelectItems [SelString "customer/familyName"; SelString "id"]) _).
  vm_compute. reflexivity.
Defined.

(** ** Aliases of joins *)

Lemma aliases_app (a b : list Join) : aliases (a ++ b) = (aliases a ++ aliases b)%list.
Proof. unfold aliases. apply flat_map_app. Qed.

Lemma alias_seen (y : Join) (acc : list Join) (a : string) :
  ent_as (j_entity y) = Some a -> In a (aliases acc) ->
  existsb (same_alias y) acc = true.
Proof.
  intros Hy. induction acc as [|x acc IH]; simpl; [intros []|].
  intros H. apply in_app_or in H. destruct H as [H|H].
  - unfold same_alias. destruct (ent_as (j_entity x)) as [b|]; [|destruct H].
    destruct (b =? "") eqn:Eb; [destruct H|].
    destruct H as [<-|[]]. rewrite Hy. simpl. now rewrite String.eqb_refl.
  - rewrite (IH H). apply orb_true_r.
Qed.

Lemma push_join_unique (acc : list Join) (y : Join) :
  NoDup (aliases acc) -> NoDup (aliases (push_join acc y)).
Proof.
  intros Hn. unfold push_join.
  destruct (existsb (same_alias y) acc) eqn:E; [exact Hn|].
  rewrite aliases_app. simpl. rewrite app_nil_r.
  destruct (ent_as (j_entity y)) as [a|] eqn:Ey; [|now rewrite app_nil_r].
  destruct (a =? ""); [now rewrite app_nil_r|].
  apply NoDup_app; [exact Hn | repeat constructor; intros [] |].
  intros x Hx [<-|[]].
  rewrite (alias_seen y acc Ey Hx) in E. discriminate E.
Qed.

Lemma push_joins_unique (l acc : list Join) :
  NoDup (aliases acc) -> NoDup (aliases (fold_left push_join l acc)).
Proof.
  revert acc. induction l as [|y l IH]; intros acc Hn; simpl; [exact Hn|].
  apply IH. now apply push_join_unique.
Qed.

(** X5.  On a query that has joins already, attribute resolution keeps the
    aliases of the joins apart: when no two joins of the query have the
    same non-empty alias, no two joins have it afterwards.  (On a query
    without joins the resolved joins are taken as they are.) *)
Theorem aliases_stay_unique (rt : Runtime) (self self' : DataQueryable) (attr : string)
    (f : option QueryField) :
  q_expand (query self) <> ExpandUndefined ->
  NoDup (aliases (joined self)) ->
  resolveNestedAttribute rt self attr = inr (f, self') ->
  NoDup (aliases (joined self')) /\ q_expand (query self') <> ExpandUndefined.
Proof.
  intros Hd Hn. unfold resolveNestedAttribute. intros H. simpl in H.
  assert (Hm : forall expr,
             NoDup (aliases (joins (merge_expand (q_expand (query self)) expr)))
             /\ merge_expand (q_expand (query self)) expr <> ExpandUndefined).
  { intros expr. unfold joined in Hn.
    destruct (q_expand (query self)) as [|j|l]; [now elim Hd| |]; simpl.
    - split; [now apply push_joins_unique|discriminate].
    - split; [now apply push_joins_unique|discriminate]. }
  repeat step_in H; try (split; assumption); unfold joined; simpl; apply Hm.
Qed.

(** X5 on the orders: after [where('customer/givenName')] the path
    [buyer/familyName], which joins under the same alias, adds no join. *)
Lemma aliases_stay_unique_witness :
  exists self1 f self2,
    where_ (Sample.runtime []) "customer/givenName" (new_queryable Sample.Order) = inr self1
    /\ resolveNestedAttribute (Sample.runtime []) self1 "buyer/familyName" = inr (f, self2)
    /\ NoDup (aliases (joined self2))
    /\ List.length (joined self2) = 1%nat.
Proof.
  do 3 eexists. split; [vm_compute; reflexivity|].
  match goal with
  | |- resolveNestedAttribute ?rt ?s1 ?p = inr (?f, ?s2) /\ _ =>
      assert (E : resolveNestedAttribute rt s1 p = inr (f, s2)) by (vm_compute; reflexivity)
  end.
  split; [exact E|]. split; [|reflexivity].
  refine (proj1 (@aliases_stay_unique _ _ _ _ _ _ _ E)).
  - vm_compute. discriminate.
  - vm_compute. repeat constructor. intros [].
Defined.

(** ** Paths through a collection *)

(** Case analysis on the steps of a computation, in the hypothesis and in
    the goal at once. *)
Ltac case_in H :=
  match type of H with
  | context [match ?x with _ => _ end] =>
      match x with
      | context [match _ with _ => _ end] => fail 1
      | _ => destruct x eqn:?
      end
  | context [if ?x then _ else _] =>
      match x with
      | context [if _ then _ else _] => fail 1
      | _ => destruct x eqn:?
      end
  end.

(** X6.  When the first member of a path of three members is an
    association that has the model as its parent and not as its child (a
    collection of the model), the third member plays no part in the joins:
    the query gets the joins of the path [a/b], and the field that is
    handed back is nevertheless [c] of [b]. *)
Theorem collection_path_joins_as_two_members (rt : Runtime) (self self' : DataQueryable)
    (a b c : string) (mp : DataAssociationMapping) (sel : option QueryField) :
  Str.contains slash a = false ->
  Str.contains slash b = false ->
  Str.contains slash c = false ->
  inferMapping rt (model self) a = inr (Some mp) ->
  associationType mp = Some "association" ->
  opt_eqb (childModel mp) (Some (m_name (model self))) = false ->
  resolveNestedAttribute rt self (path3 a b c) = inr (sel, self') ->
  sel = Some (from b (fields_select c))
  /\ resolveNestedAttribute rt self (path a b) = inr (Some (from a (fields_select b)), self').
Proof.
  intros Ha Hb Hc Hi Ht Hm.
  unfold resolveNestedAttribute, resolveNestedAttributeJoin.
  cbn [resolveNestedAttributeJoin_rec].
  rewrite path_contains, path3_contains.
  rewrite !(@path_split a b Ha Hb), !(@path3_split a b c Ha Hb Hc).
  unfold Str.item. cbn [nth List.length].
  rewrite !Hi. cbn [bind ret Monad_Result require]. rewrite !Ht.
  cbn [opt_eqb String.eqb Ascii.eqb Bool.eqb].
  rewrite !Hm. cbn [andb Nat.ltb Nat.leb]. intros H.
  repeat (case_in H; try discriminate H).
  all: inversion H; subst; split; reflexivity.
Qed.

(** X6 on the people: [orders/customer/givenName] joins the orders only. *)
Lemma collection_path_joins_as_two_members_witness :
  exists self',
    resolveNestedAttribute (Sample.runtime []) (new_queryable Sample.Person)
      (path3 "orders" "customer" "givenName")
    = inr (Some (from "customer" (fields_select "givenName")), self')
    /\ resolveNestedAttribute (Sample.runtime []) (new_queryable Sample.Person)
         (path "orders" "customer")
       = inr (Some (from "orders" (fields_select "customer")), self')
    /\ List.length (joined self') = 1%nat.
Proof.
  eexists. split; [vm_compute; reflexivity|]. split; [|reflexivity].
  refine (proj2 (@collection_path_joins_as_two_members (Sample.runtime [])
                   (new_queryable Sample.Person) _ "orders" "customer" "givenName"
                   (Sample.association_ "Person" "id" "Order" "customer") _
                   eq_refl eq_refl eq_refl eq_refl eq_refl eq_refl _)).
  vm_compute. reflexivity.
Defined.

(** ** A migration that fails *)

Lemma fails_quietly_bind {A B : Type} (c : Result A) (f : A -> Run B) :
  (forall x, c = inr x -> fails_quietly (f x)) -> fails_quietly (x <- lift c ;; f x).
Proof.
  intros H. destruct c as [e|x]; simpl.
  - split; [reflexivity|now exists e].
  - destruct (H x eq_refl) as [He [err Ho]].
    destruct (f x) as [t r]. simpl in *. subst. split; [reflexivity|now exists err].
Qed.

Lemma fails_quietly_then {A B : Type} (c : Run A) (f : A -> Run B) :
  fails_quietly c -> fails_quietly (x <- c ;; f x).
Proof.
  intros [He [err Ho]]. destruct c as [t [e|x]]; simpl in *; [|discriminate Ho].
  subst. split; [reflexivity|now exists e].
Qed.

Lemma flatten_model (value : option bool) (q : DataQueryable) :
  model (flatten value q) = model q.
Proof.
  unfold flatten. destruct value as [[|]|]; simpl; try reflexivity.
  all: destruct (d_flatten q) as [[|]|]; reflexivity.
Qed.

Lemma execute_without_migration (rt : Runtime) (self : DataQueryable) (err : Error) :
  migrate rt (model self) = Some err -> fails_quietly (execute_ rt self).
Proof.
  intros H. unfold execute_. rewrite H. split; [reflexivity|now exists err].
Qed.

Lemma selected_without_migration (rt : Runtime) (self : DataQueryable) (err : Error) :
  migrate rt (model self) = Some err ->
  fails_quietly (self2 <- lift (if hasFields (query self) then ret self
                                else select rt SelectNothing self) ;;
                 execute_ rt self2).
Proof.
  intros H. apply fails_quietly_bind. intros s Hs.
  apply (@execute_without_migration rt s err).
  destruct (hasFields (query self)).
  - inversion Hs; subst. exact H.
  - apply select_settings in Hs. apply settings_model in Hs. now rewrite Hs.
Qed.

(** X7.  When the migration of the model fails, no terminal operation emits
    an event or calls the adapter, and each of them fails: [take(n,
    callback)], [first], [all], [getItems], [count], [list], [value] and
    the aggregates. *)
Theorem failed_migration_executes_nothing (rt : Runtime) (self : DataQueryable)
    (err : Error) :
  migrate rt (model self) = Some err ->
  (forall n, fails_quietly (takeInternal rt n self))
  /\ fails_quietly (firstInternal rt self)
  /\ fails_quietly (allInternal rt self)
  /\ fails_quietly (getItems rt self)
  /\ fails_quietly (countInternal rt self)
  /\ fails_quietly (listInternal rt self)
  /\ fails_quietly (valueInternal rt self)
  /\ (forall aggregation attr, fails_quietly (aggregateInternal rt aggregation attr self)).
Proof.
  intros H.
  assert (Htake : forall n s, model s = model self -> fails_quietly (takeInternal rt n s)).
  { intros n s Hs. unfold takeInternal.
    apply (@selected_without_migration rt (take n s) err). simpl. now rewrite Hs. }
  assert (Hfirst : forall s, model s = model self -> fails_quietly (firstInternal rt s)).
  { intros s Hs. unfold firstInternal. apply fails_quietly_then. now apply Htake. }
  assert (Hvalue : forall s, model s = model self -> fails_quietly (valueInternal rt s)).
  { intros s Hs. unfold valueInternal. apply fails_quietly_bind. intros s1 H1.
    apply fails_quietly_then. apply Hfirst.
    destruct (q_select (query s)).
    - inversion H1; subst. exact Hs.
    - apply select_settings in H1. apply settings_model in H1. congruence. }
  assert (Hcount : forall s, model s = model self -> fails_quietly (countInternal rt s)).
  { intros s Hs. unfold countInternal.
    destruct (attributes (model s)) as [|f rest].
    - split; [reflexivity|eexists; reflexivity].
    - apply fails_quietly_then. apply (@execute_without_migration rt _ err).
      simpl. now rewrite Hs. }
  split; [intros n; now apply Htake|].
  split; [now apply Hfirst|].
  split.
  { unfold allInternal.
    apply (@selected_without_migration rt
             (with_query (set_take None (set_skip None (query self))) self) err).
    exact H. }
  split.
  { unfold getItems.
    match goal with
    | |- context [if ?b then with_query ?q self else self] =>
        apply (@selected_without_migration rt (if b then with_query q self else self) err);
        destruct b; exact H
    end. }
  split; [now apply Hcount|].
  split.
  { unfold listInternal. apply fails_quietly_bind. intros s1 H1.
    apply fails_quietly_then. apply Htake.
    apply select_settings in H1. now apply settings_model in H1. }
  split; [now apply Hvalue|].
  intros aggregation attr. unfold aggregateInternal.
  apply fails_quietly_bind. intros [f s2] H2.
  apply fails_quietly_bind. intros s3 H3.
  apply Hvalue.
  apply selectAggregatedAttribute_settings in H2. apply settings_model in H2.
  apply select_settings in H3. apply settings_model in H3.
  rewrite flatten_model. simpl in *. congruence.
Qed.

(** X7 on a runtime whose migration fails. *)
Lemma failed_migration_executes_nothing_witness :
  fails_quietly (firstInternal Sample.unmigrated Sample.flat_orders)
  /\ fails_quietly (listInternal Sample.unmigrated Sample.flat_orders).
Proof.
  pose proof (@failed_migration_executes_nothing Sample.unmigrated Sample.flat_orders
                (Thrown "EMIGRATE") eq_refl) as H.
  split; [exact (proj1 (proj2 H))|exact (proj1 (proj2 (proj2 (proj2 (proj2 (proj2 H))))))].
Defined.

(** ** Hidden attributes *)

Lemma merge_view_select (q eq : QueryExpression) :
  q_select (merge_view q eq) = q_select eq.
Proof.
  unfold merge_view, prepare.
  destruct eq as [en se le wh pr od gr sk ta ex]; simpl.
  destruct (q_prepared q), (q_group q), (q_order q), wh, od, pr; reflexivity.
Qed.

Lemma prepare_expand_projection (rt : Runtime) (self self' : DataQueryable) :
  prepare_expand rt self = inr self' ->
  exists sel,
    q_select (query self) = Some sel
    /\ q_select (query self')
       = Some (List.filter (fun x => negb (names_hidden (model self) x)) sel).
Proof.
  unfold prepare_expand. intros H.
  destruct (q_select (query self)) as [selected|]; [|discriminate H].
  exists selected. split; [reflexivity|].
  destruct (List.filter f_expandable (attributes (model self))).
  - inversion H; reflexivity.
  - apply for_each_register in H. destruct H as (_ & _ & H). rewrite H. reflexivity.
Qed.

(** The projection of the query that a dispatch is given. *)
Lemma execute_projection (rt : Runtime) (self : DataQueryable) (ef : Effect)
    (q : QueryExpression) :
  (forall s e, In ef (effects (finalExecuteInternal_ rt s e)) -> q = ev_query e) ->
  In ef (effects (execute_ rt self)) ->
  (flattened self = true -> q_select q = q_select (query self))
  /\ (flattened self = false ->
      exists sel,
        q_select (query self) = Some sel
        /\ q_select q
           = Some (List.filter (fun x => negb (names_hidden (model self) x)) sel)).
Proof.
  intros Hfinal. unfold execute_. destruct (migrate rt (model self)); [intros []|].
  intros H. apply run_bind_effects in H. destruct H as [[]|(self1 & Hs & H)].
  fold (flattened self) in Hs. simpl in Hs.
  assert (Hq : q_select q = q_select (query self1)).
  { destruct (d_view self1) as [vw|].
    - apply run_bind_effects in H. destruct H as [[]|(qv & _ & H)].
      apply Hfinal in H. subst q. simpl. apply merge_view_select.
    - apply Hfinal in H. subst q. reflexivity. }
  rewrite Hq. destruct (flattened self); split; intros Hf; try discriminate Hf.
  - inversion Hs; reflexivity.
  - now apply prepare_expand_projection in Hs.
Qed.

(** The projection that an execution is given, for the query of either
    effect. *)
Lemma hidden_projection_of (rt : Runtime) (self : DataQueryable) (q : QueryExpression) :
  In (Emit "before.execute" q) (effects (execute_ rt self))
  \/ (before_execute rt = [] /\ In (DbExecute q) (effects (execute_ rt self))) ->
  (flattened self = true -> q_select q = q_select (query self))
  /\ (flattened self = false ->
      exists sel,
        q_select (query self) = Some sel
        /\ q_select q
           = Some (List.filter (fun x => negb (names_hidden (model self) x)) sel)).
Proof.
  intros [H|[Hb H]].
  - apply (@execute_projection rt self (Emit "before.execute" q) q); [|exact H].
    intros s e. apply finalExecuteInternal_before.
  - apply (@execute_projection rt self (DbExecute q) q); [|exact H].
    intros s e. now apply finalExecuteInternal_adapter.
Qed.

(** X8.  Unless the queryable is flattened, the projected fields that name
    a hidden attribute of the model are taken out of the projection before
    the query is executed: the query that [before.execute] sees, and the
    one that reaches the adapter when there are no such listeners, projects
    the other fields, in order.  A flattened queryable ([flatten()], or
    levels [0]) is executed with its projection as it is, hidden attributes
    included. *)
Theorem hidden_attributes_leave_the_projection (rt : Runtime) (self : DataQueryable)
    (q : QueryExpression) :
  In (Emit "before.execute" q) (effects (execute_ rt self))
  \/ (before_execute rt = [] /\ In (DbExecute q) (effects (execute_ rt self))) ->
  (flattened self = true -> q_select q = q_select (query self))
  /\ (flattened self = false ->
      exists sel,
        q_select (query self) = Some sel
        /\ q_select q
           = Some (List.filter (fun x => negb (names_hidden (model self) x)) sel)
        /\ forall x kept, q_select q = Some kept -> In x kept ->
                          names_hidden (model self) x = false).
Proof.
  intros H.
  pose proof (hidden_projection_of rt self q H) as Hp.
  destruct Hp as [Hflat Hfull]. split; [exact Hflat|].
  intros Hf. destruct (Hfull Hf) as (sel & Hsel & Hq).
  exists sel. split; [exact Hsel|]. split; [exact Hq|].
  intros x kept Hk Hx. rewrite Hq in Hk. inversion Hk; subst kept.
  apply filter_In in Hx. destruct Hx as [_ Hx]. now apply negb_true_iff in Hx.
Qed.

(** X8 on the accounts: [password] is not queried, unless the queryable is
    flattened. *)
Lemma hidden_attributes_leave_the_projection_witness :
  effects (execute_ (Sample.runtime []) Sample.accounts)
  = [Emit "before.execute"
       (Query.select [from "AccountData" (fields_select "id");
                      from "AccountData" (fields_select "name")]
          (query Sample.accounts));
     DbExecute
       (Query.select [from "AccountData" (fields_select "id");
                      from "AccountData" (fields_select "name")]
          (query Sample.accounts))]
  /\ (forall x,
         In x [from "AccountData" (fields_select "id");
               from "AccountData" (fields_select "name")] ->
         names_hidden Sample.Account x = false)
  /\ effects (execute_ (Sample.runtime []) (flatten None Sample.accounts))
     = [Emit "before.execute" (query Sample.accounts); DbExecute (query Sample.accounts)].
Proof.
  split; [vm_compute; reflexivity|]. split; [|vm_compute; reflexivity].
  intros x Hx.
  assert (Hin : In (Emit "before.execute"
                      (Query.select [from "AccountData" (fields_select "id");
                                     from "AccountData" (fields_select "name")]
                         (query Sample.accounts)))
                   (effects (execute_ (Sample.runtime []) Sample.accounts)))
    by (vm_compute; left; reflexivity).
  destruct (proj2 (hidden_attributes_leave_the_projection _ _ _ (or_introl Hin)) eq_refl)
    as (sel & _ & _ & Hkept).
  refine (Hkept x _ _ Hx). vm_compute. reflexivity.
Defined.

(** ** Errors of a dispatch *)

(** X9.  When no [before.execute] listener sets a result, the adapter is
    called with the query of the event.  An error of the adapter fails the
    operation, and so does an error of the expansion; neither is followed
    by [after.execute].  When the expansion succeeds and [after.execute]
    has listeners, the event is emitted once, after the expansion, and an
    error of a listener fails the operation although the adapter has
    answered. *)
Theorem dispatch_errors (rt : Runtime) (self : DataQueryable) (e e1 : ExecuteEvent) :
  emit (before_execute rt) e = inr e1 ->
  ev_result e1 = VUndefined ->
  (forall err,
      db_execute rt (ev_query e1) = inl err ->
      finalExecuteInternal_ rt self e
      = ([Emit "before.execute" (ev_query e); DbExecute (ev_query e1)], inl err))
  /\ (forall raw t err,
        db_execute rt (ev_query e1) = inr raw ->
        afterExecute_ rt (with_query (ev_query e1) self) raw = (t, inl err) ->
        finalExecuteInternal_ rt self e
        = ((Emit "before.execute" (ev_query e) :: DbExecute (ev_query e1) :: t)%list,
           inl err))
  /\ (forall raw t result,
        db_execute rt (ev_query e1) = inr raw ->
        afterExecute_ rt (with_query (ev_query e1) self) raw = (t, inr result) ->
        (after_execute rt = [] ->
         finalExecuteInternal_ rt self e
         = ((Emit "before.execute" (ev_query e) :: DbExecute (ev_query e1) :: t)%list,
            inr (result, with_query (ev_query e1) self)))
        /\ (after_execute rt <> [] ->
            effects (finalExecuteInternal_ rt self e)
            = (Emit "before.execute" (ev_query e) :: DbExecute (ev_query e1) :: t
                 ++ [Emit "after.execute" (ev_query e1)])%list
            /\ forall err,
                 emit (after_execute rt) (mkEvent (ev_query e1) result) = inl err ->
                 outcome (finalExecuteInternal_ rt self e) = inl err)).
Proof.
  intros He1 Hr.
  split; [|split].
  - intros err Hdb. unfold finalExecuteInternal_. simpl. rewrite He1. simpl.
    rewrite Hr, Hdb. reflexivity.
  - intros raw t err Hdb Ha. unfold finalExecuteInternal_. simpl. rewrite He1. simpl.
    rewrite Hr, Hdb. simpl. rewrite Ha. reflexivity.
  - intros raw t result Hdb Ha. split.
    + intros Hn. unfold finalExecuteInternal_, raise_after_execute. simpl.
      rewrite He1. simpl. rewrite Hr, Hdb. simpl. rewrite Ha, Hn. simpl.
      now rewrite app_nil_r.
    + intros Hn. unfold finalExecuteInternal_, raise_after_execute. simpl.
      rewrite He1. simpl. rewrite Hr, Hdb. simpl. rewrite Ha.
      destruct (after_execute rt) as [|l ls] eqn:El; [now elim Hn|]. simpl.
      destruct (l (mkEvent (ev_query e1) result)) as [er|e2]; simpl.
      * split; [reflexivity|]. intros err Herr. now inversion Herr.
      * destruct (emit ls e2) as [er|e3]; simpl.
        -- split; [reflexivity|]. intros err Herr. now inversion Herr.
        -- split; [reflexivity|]. intros err Herr. discriminate Herr.
Qed.

(** X9 on an adapter that cannot be reached. *)
Lemma dispatch_errors_witness :
  finalExecuteInternal_ (Sample.hooked []) (new_queryable Sample.Order)
    (mkEvent (query (new_queryable Sample.Order)) VUndefined)
  = ([Emit "before.execute" (query (new_queryable Sample.Order));
      DbExecute (query (new_queryable Sample.Order))],
     inl (Thrown "ECONNREFUSED")).
Proof.
  exact (proj1 (@dispatch_errors (Sample.hooked []) (new_queryable Sample.Order)
                  (mkEvent (query (new_queryable Sample.Order)) VUndefined)
                  (mkEvent (query (new_queryable Sample.Order)) VUndefined)
                  eq_refl eq_refl)
           (Thrown "ECONNREFUSED") eq_refl).
Defined.

(** ** Entries that cannot be expanded *)

Lemma each_expand_first (rt : Runtime) (self : DataQueryable) (x : ExpandEntry)
    (expands todo : list ExpandEntry) (result : Value) (err : Error) :
  r <- lift (resolve_entry rt self expands x) ;; attach_entry rt self x r result
  = ([], inl err) ->
  each_expand rt self expands (x :: todo) result = ([], inl err).
Proof.
  intros H. cbn [each_expand].
  destruct (resolve_entry rt self expands x) as [e|r]; simpl in *.
  - inversion H; reflexivity.
  - destruct (attach_entry rt self x r result) as [t [e|v]]; simpl in *.
    + inversion H; reflexivity.
    + destruct (each_expand rt self expands todo v) as [t' r']. discriminate H.
Qed.

Lemma afterExecute_first (rt : Runtime) (self : DataQueryable) (x : ExpandEntry)
    (rest : list ExpandEntry) (result : Value) (err : Error) :
  d_expand self = Some (x :: rest) ->
  (forall expands,
      r <- lift (resolve_entry rt self expands x) ;; attach_entry rt self x r result
      = ([], inl err)) ->
  afterExecute_ rt self result = ([], inl err).
Proof.
  intros Hd Hx. unfold afterExecute_, expansions. rewrite Hd.
  cbn [Entry.distinct].
  rewrite (@each_expand_first rt self x _ _ result err (Hx _)).
  reflexivity.
Qed.

(** X10.  The first entry of the expand list decides at once when it cannot
    be expanded.  A value that is neither a string, nor an object with a
    name, nor a mapping, nor [null], fails the operation.  A mapping whose association is neither
    an association nor a junction fails it with [Not yet implemented].  A
    mapping of an association or a junction that has the model neither as
    its parent nor as its child ends the turn without calling back: the
    operation never completes.  In all three cases nothing is logged and no
    other entry is expanded. *)
Theorem entries_that_cannot_be_expanded (rt : Runtime) (self : DataQueryable)
    (x : ExpandEntry) (rest : list ExpandEntry) (result : Value) :
  d_expand self = Some (x :: rest) ->
  (forall v,
      x = EOther v ->
      unnamed v = true ->
      afterExecute_ rt self result
      = ([], inl (Thrown "Invalid expand option. Expected string or a named object.")))
  /\ (forall m,
        x = EMapping m ->
        opt_eqb (associationType m) (Some "association") = false ->
        opt_eqb (associationType m) (Some "junction") = false ->
        afterExecute_ rt self result = ([], inl (Thrown "Not yet implemented")))
  /\ (forall m,
        x = EMapping m ->
        opt_eqb (associationType m) (Some "association")
        || opt_eqb (associationType m) (Some "junction") = true ->
        opt_eqb (parentModel m) (Some (m_name (model self))) = false ->
        opt_eqb (childModel m) (Some (m_name (model self))) = false ->
        afterExecute_ rt self result = ([], inl Stalled)).
Proof.
  intros Hd. split; [|split].
  - intros v -> _. apply (afterExecute_first rt self result Hd). reflexivity.
  - intros m -> Ha Hj. apply (afterExecute_first rt self result Hd).
    intros expands. simpl. rewrite Ha, Hj. reflexivity.
  - intros m -> Ht Hp Hc. apply (afterExecute_first rt self result Hd).
    intros expands. simpl. rewrite Ht, Hp, Hc. reflexivity.
Qed.

(** X10 on a number in the expand list, and on the mapping of an
    association between two other models. *)
Lemma entries_that_cannot_be_expanded_witness :
  afterExecute_ (Sample.runtime [])
    (with_expand (Some [EOther (VNum 5); EString "customer"]) (new_queryable Sample.Order))
    (VArr (Sample.ids 1 2))
  = ([], inl (Thrown "Invalid expand option. Expected string or a named object."))
  /\ afterExecute_ (Sample.runtime [])
       (with_expand (Some [EMapping (Sample.association_ "Person" "id" "Group" "owner")])
                    (new_queryable Sample.Order))
       (VArr (Sample.ids 1 2))
     = ([], inl Stalled).
Proof.
  split.
  - exact (proj1 (@entries_that_cannot_be_expanded (Sample.runtime [])
                    (with_expand (Some [EOther (VNum 5); EString "customer"])
                                 (new_queryable Sample.Order))
                    _ _ (VArr (Sample.ids 1 2)) eq_refl)
             (VNum 5) eq_refl eq_refl).
  - exact (proj2 (proj2 (@entries_that_cannot_be_expanded (Sample.runtime [])
                    (with_expand
                       (Some [EMapping (Sample.association_ "Person" "id" "Group" "owner")])
                       (new_queryable Sample.Order))
                    _ _ (VArr (Sample.ids 1 2)) eq_refl))
             _ eq_refl eq_refl eq_refl eq_refl).
Defined.

(** ** all and getItems *)

(** The effects of an execution that follows the selection of the default
    attributes are those of an execution of a queryable with the same
    settings. *)
Lemma selected_paging (rt : Runtime) (self : DataQueryable) (ef : Effect) :
  In ef (effects (self2 <- lift (if hasFields (query self) then ret self
                                 else select rt SelectNothing self) ;;
                  execute_ rt self2)) ->
  exists self2,
    settings self2 = settings self /\ In ef (effects (execute_ rt self2)).
Proof.
  intros H. apply run_bind_effects in H. destruct H as [[]|(self2 & Hs & H)].
  exists self2. split; [|exact H]. simpl in Hs.
  destruct (hasFields (query self)).
  - inversion Hs; reflexivity.
  - now apply select_settings in Hs.
Qed.

Lemma selected_transparent (rt : Runtime) (self : DataQueryable) :
  transparent rt self -> hasFields (query self) = true ->
  (self2 <- lift (if hasFields (query self) then ret self
                  else select rt SelectNothing self) ;;
   execute_ rt self2)
  = ([Emit "before.execute" (query self); DbExecute (query self)],
     match db_execute rt (query self) with
     | inl err => inl err
     | inr rows => inr (rows, self)
     end).
Proof.
  intros Ht Hf. rewrite Hf.
  erewrite run_bind_ok by reflexivity.
  rewrite (@execute_transparent rt self Ht). reflexivity.
Qed.

(** X11.  [all()] deletes [$skip] and [$take]: whatever paging the
    queryable had, the query that [before.execute] sees, and the one that
    reaches the adapter when there are no such listeners, has neither.  For
    a transparent queryable with a projection the adapter is called once,
    with the query without its paging, and its rows are the result. *)
Theorem all_spec (rt : Runtime) (self : DataQueryable) :
  (forall q, In (Emit "before.execute" q) (effects (allInternal rt self)) ->
             q_skip q = None /\ q_take q = None)
  /\ (before_execute rt = [] ->
      forall q, In (DbExecute q) (effects (allInternal rt self)) ->
                q_skip q = None /\ q_take q = None)
  /\ (transparent rt self -> hasFields (query self) = true ->
      allInternal rt self
      = ([Emit "before.execute" (set_take None (set_skip None (query self)));
          DbExecute (set_take None (set_skip None (query self)))],
         match db_execute rt (set_take None (set_skip None (query self))) with
         | inl err => inl err
         | inr rows =>
             inr (rows, with_query (set_take None (set_skip None (query self))) self)
         end)).
Proof.
  split; [|split].
  - intros q H. unfold allInternal in H. apply selected_paging in H.
    destruct H as (s2 & Hs & H). apply execute_before in H.
    destruct H as (H1 & H2 & _). rewrite H1, H2. split; settled.
  - intros Hb q H. unfold allInternal in H. apply selected_paging in H.
    destruct H as (s2 & Hs & H). eapply execute_adapter in H; [|exact Hb].
    destruct H as (H1 & H2 & _). rewrite H1, H2. split; settled.
  - intros Ht Hf. unfold allInternal.
    apply (@selected_transparent rt
             (with_query (set_take None (set_skip None (query self))) self)).
    + destruct Ht as (Hm & Hb & Ha & Hfl & Hv & He & Hs). repeat split; assumption.
    + exact Hf.
Qed.

(** X11 on the identifiers of thirty orders that had [skip(4)] and
    [take(7)]. *)
Lemma all_spec_witness :
  transparent (Sample.runtime (Sample.ids 1 30)) (skip 4 (take 7 Sample.flat_orders))
  /\ outcome (allInternal (Sample.runtime (Sample.ids 1 30))
                (skip 4 (take 7 Sample.flat_orders)))
     = inr (VArr (Sample.ids 1 30),
            with_query (set_take None (set_skip None (query Sample.flat_orders)))
                       Sample.flat_orders).
Proof.
  assert (Ht : transparent (Sample.runtime (Sample.ids 1 30))
                 (skip 4 (take 7 Sample.flat_orders))).
  { repeat split; try reflexivity. discriminate. }
  split; [exact Ht|].
  rewrite (proj2 (proj2 (all_spec (Sample.runtime (Sample.ids 1 30))
                           (skip 4 (take 7 Sample.flat_orders)))) Ht eq_refl).
  reflexivity.
Defined.

(** X12.  [getItems()] reads a negative [$take] as no limit: it deletes
    [$take] and [$skip] and runs as [all()] does.  With another [$take]
    it runs as [take(n, callback)] does for that [$take]; without a
    [$take] the query is executed with the [$skip] of the queryable and no
    limit. *)
Theorem getItems_spec (rt : Runtime) (self : DataQueryable) :
  (forall n, q_take (query self) = Some n -> (n < 0)%Z ->
             getItems rt self = allInternal rt self)
  /\ (forall n, q_take (query self) = Some n -> (0 <= n)%Z ->
                getItems rt self = takeInternal rt n self)
  /\ (q_take (query self) = None ->
      forall q, In (Emit "before.execute" q) (effects (getItems rt self)) ->
                q_take q = None /\ q_skip q = q_skip (query self)).
Proof.
  split; [|split].
  - intros n Hn Hneg. unfold getItems, allInternal. rewrite Hn.
    rewrite (proj2 (parseInt_sign n)).
    apply Z.ltb_lt in Hneg. rewrite Hneg. reflexivity.
  - intros n Hn Hpos. unfold getItems, takeInternal. rewrite Hn.
    rewrite (proj2 (parseInt_sign n)).
    assert (Hb : (n <? 0)%Z = false) by (apply Z.ltb_ge; exact Hpos).
    rewrite Hb.
    assert (Hs : take n self = self).
    { unfold take, Query.take. destruct self as [q m v e f l a s].
      destruct q as [en se le wh pr od gr sk ta ex]. simpl in *. now subst. }
    rewrite Hs. reflexivity.
  - intros Hn q H. unfold getItems in H. rewrite Hn in H.
    apply selected_paging in H. destruct H as (s2 & Hs & H).
    apply execute_before in H. destruct H as (H1 & H2 & _).
    rewrite H1, H2. split; settled.
Qed.

(** X12 on the identifiers of thirty orders, after [skip(4)] and
    [take(-1)]. *)
Lemma getItems_spec_witness :
  getItems (Sample.runtime (Sample.ids 1 30)) (take (-1) (skip 4 Sample.flat_orders))
  = allInternal (Sample.runtime (Sample.ids 1 30)) (take (-1) (skip 4 Sample.flat_orders))
  /\ outcome (getItems (Sample.runtime (Sample.ids 1 30))
                (take (-1) (skip 4 Sample.flat_orders)))
     = inr (VArr (Sample.ids 1 30),
            with_query (set_take None (set_skip None (query Sample.flat_orders)))
                       Sample.flat_orders).
Proof.
  pose proof (proj1 (getItems_spec (Sample.runtime (Sample.ids 1 30))
                       (take (-1) (skip 4 Sample.flat_orders)))
                    (-1)%Z eq_refl ltac:(lia)) as H.
  split; [exact H|]. rewrite H. reflexivity.
Defined.

(** ** max, min and average *)

Lemma takeInternal_projected (rt : Runtime) (n : Z) (self : DataQueryable) :
  hasFields (query self) = true ->
  takeInternal rt n self = execute_ rt (take n self).
Proof.
  intros Hf. unfold takeInternal.
  replace (hasFields (query (take n self))) with true by (symmetry; exact Hf).
  erewrite run_bind_ok by reflexivity.
  destruct (execute_ rt (take n self)) as [t r]. reflexivity.
Qed.

Lemma selectAggregatedAttribute_envelope (rt : Runtime) (self self' : DataQueryable)
    (aggregation attribute : string) (alias : option string) (f : QueryField) :
  selectAggregatedAttribute rt self aggregation attribute alias = inr (f, self') ->
  qf_fn f = Some aggregation.
Proof.
  unfold selectAggregatedAttribute. intros H. simpl in H.
  repeat step_in H; reflexivity.
Qed.

(** The queryable that an aggregate executes: flattened, with the
    aggregated field as its projection, and paged as [first()] pages. *)
Lemma aggregateInternal_runs (rt : Runtime) (aggregation attr : string)
    (self s2 : DataQueryable) (f : QueryField) :
  selectAggregatedAttribute rt (with_query (set_skip None (query self)) self)
    aggregation attr None = inr (f, s2) ->
  effects (aggregateInternal rt aggregation attr self)
  = effects (execute_ rt (take 1 (skip 0 (flatten None
               (with_query (Query.select [f] (query s2)) s2)))))
  /\ outcome (aggregateInternal rt aggregation attr self)
     = match outcome (execute_ rt (take 1 (skip 0 (flatten None
                        (with_query (Query.select [f] (query s2)) s2))))) with
       | inl err => inl err
       | inr (VArr (row :: _), s) =>
           inr (if isNil row then VUndefined
                else match keys row with
                     | [] => VUndefined
                     | key :: _ => get row key
                     end,
                s)
       | inr (VArr [], s) => inr (VUndefined, s)
       | inr (VStr str, s) =>
           match chars str with
           | c :: _ =>
               inr (match keys (VStr c) with
                    | [] => VUndefined
                    | key :: _ => get (VStr c) key
                    end,
                    s)
           | [] => inr (VUndefined, s)
           end
       | inr (VUndefined, _) | inr (VNull, _) =>
           inl (Thrown "TypeError: Cannot read property 'length' of undefined")
       | inr (_, s) => inr (VUndefined, s)
       end.
Proof.
  intros H.
  set (S := flatten None (with_query (Query.select [f] (query s2)) s2)).
  assert (Hvalue : aggregateInternal rt aggregation attr self = valueInternal rt S).
  { unfold aggregateInternal. rewrite H. cbn [lift bind Monad_Run].
    change (select rt (SelectItems [SelField f]) s2)
      with (@inr Error _ (with_query (Query.select [f] (query s2)) s2)).
    cbn iota beta. fold S. destruct (valueInternal rt S) as [t r]. reflexivity. }
  assert (Hsel : q_select (query S) = Some [f]).
  { unfold S, flatten. simpl. destruct (d_flatten s2) as [[|]|]; reflexivity. }
  assert (Hruns := @valueInternal_runs rt S S).
  rewrite Hsel in Hruns. specialize (Hruns eq_refl). destruct Hruns as [Hef Hout].
  assert (Hf : hasFields (query (skip 0 S)) = true).
  { assert (Hs0 : q_select (query (skip 0 S)) = Some [f]) by exact Hsel.
    unfold hasFields, fields. rewrite Hs0. reflexivity. }
  pose proof (@takeInternal_projected rt 1 (skip 0 S) Hf) as Ht.
  rewrite Hvalue, Hef, Hout, firstInternal_effects, Ht.
  split; [reflexivity|].
  rewrite (@firstInternal_outcome rt S _ eq_refl), Ht.
  destruct (outcome (execute_ rt (take 1 (skip 0 S)))) as [e|[result s]]; [reflexivity|].
  destruct result as [ | |b|n|str|[|x items]|props]; try reflexivity.
  destruct (chars str) as [|c cs]; reflexivity.
Qed.

(** X13.  [max], [min] and [average] resolve the attribute before anything
    is executed, and fail with the error of the resolution when it fails.
    Otherwise they execute one query: flattened, with the aggregated field
    as its only projection, with [$skip = 0] and [$take = 1], whatever the
    projection and the paging of the queryable were.  They resolve with the
    value under the first key of the first row of the execution, and with
    [undefined] when there is no row. *)
Theorem aggregate_spec (rt : Runtime) (aggregation attr : string) (self : DataQueryable) :
  (forall err,
      selectAggregatedAttribute rt (with_query (set_skip None (query self)) self)
        aggregation attr None = inl err ->
      aggregateInternal rt aggregation attr self = ([], inl err))
  /\ (forall f s2,
        selectAggregatedAttribute rt (with_query (set_skip None (query self)) self)
          aggregation attr None = inr (f, s2) ->
        let executed :=
          take 1 (skip 0 (flatten None (with_query (Query.select [f] (query s2)) s2))) in
        qf_fn f = Some aggregation
        /\ d_expand executed = None
        /\ effects (aggregateInternal rt aggregation attr self)
           = effects (execute_ rt executed)
        /\ (forall q,
              In (Emit "before.execute" q) (effects (aggregateInternal rt aggregation attr self))
              \/ (before_execute rt = []
                  /\ In (DbExecute q) (effects (aggregateInternal rt aggregation attr self))) ->
              q_skip q = Some 0%Z /\ q_take q = Some 1%Z /\ q_select q = Some [f])
        /\ (forall row rows s,
              outcome (execute_ rt executed) = inr (VArr (row :: rows), s) ->
              isNil row = false ->
              outcome (aggregateInternal rt aggregation attr self)
              = inr (match keys row with
                     | [] => VUndefined
                     | key :: _ => get row key
                     end, s))
        /\ (forall s,
              outcome (execute_ rt executed) = inr (VArr [], s) ->
              outcome (aggregateInternal rt aggregation attr self) = inr (VUndefined, s))).
Proof.
  split.
  - intros err H. unfold aggregateInternal. rewrite H. reflexivity.
  - intros f s2 H executed.
    destruct (@aggregateInternal_runs rt aggregation attr self s2 f H) as [Hef Hout].
    fold executed in Hef, Hout.
    assert (Hflat : flattened executed = true).
    { unfold executed, flattened, flatten. simpl.
      destruct (d_flatten s2) as [[|]|]; reflexivity. }
    assert (Hq : q_skip (query executed) = Some 0%Z /\ q_take (query executed) = Some 1%Z
                 /\ q_select (query executed) = Some [f]).
    { unfold executed, flatten. simpl.
      destruct (d_flatten s2) as [[|]|]; repeat split; reflexivity. }
    split; [exact (selectAggregatedAttribute_envelope _ _ _ _ _ H)|].
    split.
    { unfold executed, flatten. simpl. destruct (d_flatten s2) as [[|]|]; reflexivity. }
    split; [exact Hef|].
    split.
    { intros q Hin. rewrite Hef in Hin.
      destruct (@hidden_projection_of rt executed q Hin) as [Hsel _].
      specialize (Hsel Hflat).
      destruct Hq as (Hq1 & Hq2 & Hq3).
      destruct Hin as [Hin|[Hb Hin]].
      - apply execute_before in Hin. destruct Hin as (H1 & H2 & _).
        repeat split; congruence.
      - eapply execute_adapter in Hin; [|exact Hb]. destruct Hin as (H1 & H2 & _).
        repeat split; congruence. }
    split.
    { intros row rows s Hex Hn. rewrite Hout, Hex, Hn. reflexivity. }
    intros s Hex. rewrite Hout, Hex. reflexivity.
Qed.

(** X13 on the identifiers of thirty orders: [max('id')] after [skip(4)],
    with the projection that [select('id')] had set. *)
Lemma aggregate_spec_witness :
  outcome (maxInternal (Sample.runtime (Sample.ids 1 30)) "id" (skip 4 Sample.flat_orders))
  = inr (VNum 30,
         take 1 (skip 0 (flatten None
           (with_query
              (Query.select [mkField "id" (Some "OrderData") None (Some "max")]
                 (set_skip None (query Sample.flat_orders)))
              Sample.flat_orders)))).
Proof.
  pose proof (proj2 (aggregate_spec (Sample.runtime (Sample.ids 1 30)) "max" "id"
                       (skip 4 Sample.flat_orders))
                    (mkField "id" (Some "OrderData") None (Some "max"))
                    (with_query (set_skip None (query Sample.flat_orders)) Sample.flat_orders)
                    eq_refl) as H.
  destruct H as (_ & _ & _ & _ & Hrow & _).
  exact (Hrow (VObj [("id", VNum 30)]) [] _ eq_refl eq_refl).
Defined.

(** ** alsoSelect *)

Lemma also_item_appends (rt : Runtime) (x : SelectItem) (self self' : DataQueryable) :
  also_item rt x self = inr self' ->
  exists sel f,
    q_select (query self) = Some sel
    /\ q_select (query self') = Some (sel ++ [f])%list
    /\ expansion self' = expansion self
    /\ settings self' = settings self
    /\ match x with
       | SelField qf => f = qf
       | SelString s => exists s1 s2, fieldOf rt s1 s None = inr (f, s2) /\ model s1 = model self
       end.
Proof.
  unfold also_item. intros H.
  destruct x as [s|qf]; simpl in H.
  - destruct (fieldOf rt self s None) as [e|[f s1]] eqn:E; [discriminate|].
    simpl in H.
    pose proof (fieldOf_expansion _ _ _ _ E) as Hx.
    pose proof (fieldOf_settings _ _ _ _ E) as Hs.
    assert (Hq : q_select (query s1) = q_select (query self)).
    { clear H. unfold fieldOf, require in E. simpl in E.
      repeat step_in E;
        repeat match goal with
               | E0 : resolveNestedAttribute _ _ _ = inr (_, _) |- _ =>
                   unfold resolveNestedAttribute in E0; simpl in E0; repeat step_in E0
               end; reflexivity. }
    destruct (q_select (query s1)) as [sel|] eqn:Es; [|discriminate].
    inversion H; subst. exists sel, f. rewrite <- Hq.
    repeat split; try (unfold expansion, settings in *; simpl in *; congruence).
    exists self, s1. split; [exact E|reflexivity].
  - destruct (q_select (query self)) as [sel|] eqn:Es; [|discriminate].
    inversion H; subst. exists sel, qf. repeat split; reflexivity.
Qed.

Lemma also_items_append (rt : Runtime) (l : list SelectItem) :
  forall self self' sel,
    q_select (query self) = Some sel ->
    for_each (also_item rt) l self = inr self' ->
    exists more,
      q_select (query self') = Some (sel ++ more)%list
      /\ List.length more = List.length l
      /\ expansion self' = expansion self
      /\ settings self' = settings self.
Proof.
  induction l as [|x l IH]; simpl; intros self self' sel Hsel H.
  - inversion H; subst. exists []. rewrite app_nil_r. repeat split; assumption.
  - destruct (also_item rt x self) as [e|s1] eqn:E; [discriminate|].
    apply also_item_appends in E.
    destruct E as (sel0 & f & Hs0 & Hs1 & Hx & Hset & _).
    rewrite Hsel in Hs0. inversion Hs0; subst sel0.
    destruct (IH _ _ _ Hs1 H) as (more & Hm & Hlen & Hx' & Hset').
    exists (f :: more). rewrite Hm, <- app_assoc. simpl.
    repeat split; congruence.
Qed.

(** X14.  On a queryable that has a projection, [alsoSelect] only appends:
    the projected fields stay, in order, and one field is added for each
    value given, whether the value names a plain attribute or a collection;
    the expand list, the view and the settings of the queryable stay as
    they are.  (On a queryable without a projection, [alsoSelect] is
    [select].) *)
Theorem alsoSelect_appends (rt : Runtime) (attr : AlsoArg) (self self' : DataQueryable) :
  hasFields (query self) = true ->
  alsoSelect rt attr self = inr self' ->
  exists sel more,
    q_select (query self) = Some sel
    /\ q_select (query self') = Some (sel ++ more)%list
    /\ List.length more = also_count attr
    /\ d_expand self' = d_expand self
    /\ d_view self' = d_view self
    /\ settings self' = settings self.
Proof.
  intros Hf H. unfold alsoSelect in H. rewrite Hf in H. simpl in H.
  assert (Hsel : exists sel, q_select (query self) = Some sel).
  { unfold hasFields, fields in Hf. destruct (q_select (query self)) as [sel|];
      [now exists sel|discriminate Hf]. }
  destruct Hsel as [sel Hsel]. exists sel.
  assert (Hl : forall l, for_each (also_item rt) l self = inr self' ->
               exists more,
                 q_select (query self) = Some sel
                 /\ q_select (query self') = Some (sel ++ more)%list
                 /\ List.length more = List.length l
                 /\ d_expand self' = d_expand self
                 /\ d_view self' = d_view self
                 /\ settings self' = settings self).
  { intros l Hl. destruct (also_items_append rt l _ Hsel Hl) as (more & Hm & Hlen & Hx & Hs).
    exists more. unfold expansion in Hx. inversion Hx. repeat split; assumption. }
  destruct attr as [|s|l|f]; simpl.
  - inversion H; subst. exists []. rewrite app_nil_r. repeat split; assumption.
  - exact (Hl [SelString s] H).
  - exact (Hl l H).
  - exact (Hl [SelField f] H).
Qed.

(** X14 on the people: [alsoSelect('orders')] projects the collection that
    [select('orders')] would expand. *)
Lemma alsoSelect_appends_witness :
  alsoSelect (Sample.runtime []) (AlsoString "orders") Sample.people_ids
  = inr (with_query
           (Query.select [from "PersonData" (fields_select "id");
                          from "PersonData" (fields_select "orders")]
              (query Sample.people_ids))
           Sample.people_ids)
  /\ many_or_junction Sample.orders = true
  /\ exists sel more,
       q_select (query Sample.people_ids) = Some sel
       /\ more = [from "PersonData" (fields_select "orders")]
       /\ List.length more = 1%nat.
Proof.
  assert (E : alsoSelect (Sample.runtime []) (AlsoString "orders") Sample.people_ids
              = inr (with_query
                       (Query.select [from "PersonData" (fields_select "id");
                                      from "PersonData" (fields_select "orders")]
                          (query Sample.people_ids))
                       Sample.people_ids)) by (vm_compute; reflexivity).
  split; [exact E|]. split; [reflexivity|].
  destruct (@alsoSelect_appends (Sample.runtime []) (AlsoString "orders")
              Sample.people_ids _ eq_refl E)
    as (sel & more & Hsel & Hm & Hlen & _).
  exists sel, [from "PersonData" (fields_select "orders")].
  split; [exact Hsel|]. split; reflexivity.
Defined.

(** ** select() without default attributes *)

(** X15.  [select()] on a queryable without a projection calls itself with
    the attributes that are selected by default.  When there is none, and
    when the only one is a collection (which is passed to [expand] and
    leaves the projection empty), every call makes the same call again: the
    chain of calls never ends, however deep the stack is. *)
Theorem select_without_default_attributes (rt : Runtime) (self : DataQueryable) :
  hasFields (query self) = false ->
  default_fields self = []
  \/ (exists n f, default_fields self = [n] /\ n <> "*"
                  /\ field (model self) n = Some f /\ many_or_junction f = true) ->
  forall fuel,
    select_rec rt fuel SelectNothing self
    = throw "RangeError: Maximum call stack size exceeded".
Proof.
  intros Hf [Hd|(n & f & Hd & Hn & Hfield & Hmany)] fuel.
  - induction fuel as [|fuel IH]; [reflexivity|].
    rewrite select_nothing, Hf, Hd. exact IH.
  - assert (Hstar : (n =? "*") = false) by (now apply String.eqb_neq).
    assert (Hall : forall fuel s,
               hasFields (query s) = false -> model s = model self ->
               default_fields s = [n] ->
               select_rec rt fuel SelectNothing s
               = throw "RangeError: Maximum call stack size exceeded"
               /\ select_rec rt fuel (SelectString n) s
                  = throw "RangeError: Maximum call stack size exceeded").
    { clear fuel. induction fuel as [|fuel IH]; intros s Hs Hm Hds; [split; reflexivity|].
      destruct (IH s Hs Hm Hds) as [IH1 IH2].
      split.
      - rewrite select_nothing, Hs, Hds. exact IH2.
      - cbn [select_rec]. rewrite Hstar, Hm, Hfield, Hmany.
        cbn [expand bind ret Monad_Result].
        set (s' := with_expand _ s).
        assert (Hs' : hasFields (query s') = false) by exact Hs.
        assert (Hds' : default_fields s' = [n]) by exact Hds.
        rewrite Hs'. cbn [negb]. rewrite Hds'.
        apply (IH s' Hs' Hm Hds'). }
    apply (Hall fuel self Hf eq_refl Hd).
Qed.

(** X15 on a model without attributes and on a model whose only attribute
    is an expandable collection. *)
Lemma select_without_default_attributes_witness :
  select (Sample.runtime []) SelectNothing (new_queryable Sample.Empty)
  = throw "RangeError: Maximum call stack size exceeded"
  /\ select (Sample.runtime []) SelectNothing (new_queryable Sample.Basket)
     = throw "RangeError: Maximum call stack size exceeded".
Proof.
  split.
  - exact (@select_without_default_attributes (Sample.runtime [])
             (new_queryable Sample.Empty) eq_refl (or_introl eq_refl) 4).
  - refine (@select_without_default_attributes (Sample.runtime [])
              (new_queryable Sample.Basket) eq_refl (or_intror _) 4).
    exists "orders", Sample.orders. repeat split; try reflexivity. discriminate.
Defined.

(** ** Ordering *)

(** X16.  The four ordering methods resolve their attribute as [where]
    does.  For a path that is not an aggregate, ordering fails where
    [where] fails, with the same error, and otherwise leaves the query with
    the same joins, provided that the method of the query that is called
    does not touch the joins.  In any case ordering keeps the joins that
    the query had. *)
Theorem ordering_resolves_as_where (rt : Runtime) (method : QueryMethod) (attr : string)
    (self : DataQueryable) :
  (forall f q, q_expand (method f q) = q_expand q) ->
  (forall self', order_with rt method attr self = inr self' -> keeps_joins self self')
  /\ (Str.contains slash attr = true ->
      (forall nested,
          testNestedAttribute rt attr = Some nested ->
          regexp_exec rt "/^(\w+)\((\w+)\/(\w+)\)$/i" (am_name nested) = None
          /\ regexp_exec rt "/^(\w+)\((\w+)\/(\w+)\/(\w+)\)$/i" (am_name nested) = None) ->
      match order_with rt method attr self, where_ rt attr self with
      | inr ordered, inr filtered =>
          q_expand (query ordered) = q_expand (query filtered)
          /\ expansion ordered = expansion self
      | inl e1, inl e2 => e1 = e2
      | _, _ => False
      end).
Proof.
  intros Hm. split.
  - intros self' H. unfold order_with in H.
    assert (Hq : forall f s, keeps_joins s (with_query (method f (query s)) s)).
    { intros f s. apply keeps_joins_same. simpl. apply Hm. }
    destruct (Str.contains slash attr).
    + unfold orderByNestedAttribute in H. simpl in H.
      repeat step_in H; known_joins;
        match goal with
        | E : keeps_joins self ?s |- keeps_joins self (with_query (method ?f (query ?s)) ?s) =>
            exact (keeps_joins_trans E (Hq f s))
        end.
    + simpl in H. repeat step_in H; known_joins.
      match goal with
      | E : keeps_joins self ?s |- keeps_joins self (with_query (method ?f (query ?s)) ?s) =>
          exact (keeps_joins_trans E (Hq f s))
      end.
  - intros Hs Hplain.
    assert (Hr : orderByNestedAttribute rt self attr = resolveNestedAttribute rt self attr).
    { unfold orderByNestedAttribute.
      destruct (testNestedAttribute rt attr) as [nested|] eqn:En; [|reflexivity].
      destruct (Hplain nested eq_refl) as [-> ->]. reflexivity. }
    unfold order_with, where_. rewrite Hs, Hr.
    destruct (resolveNestedAttribute rt self attr) as [e|[f s]] eqn:E; simpl; [reflexivity|].
    split; [apply Hm|].
    exact (resolveNestedAttribute_expansion _ _ _ E).
Qed.

(** X16 on the orders, by the name of the customer. *)
Lemma ordering_resolves_as_where_witness :
  exists ordered_ filtered,
    orderBy (Sample.runtime []) Sample.ordering "customer/givenName"
      (new_queryable Sample.Order) = inr ordered_
    /\ where_ (Sample.runtime []) "customer/givenName" (new_queryable Sample.Order)
       = inr filtered
    /\ q_expand (query ordered_) = q_expand (query filtered)
    /\ List.length (joined ordered_) = 1%nat.
Proof.
  assert (Hm : forall f q, q_expand (Sample.ordered Asc f q) = q_expand q).
  { intros [x|] q; reflexivity. }
  pose proof (proj2 (@ordering_resolves_as_where (Sample.runtime []) (Sample.ordered Asc)
                       "customer/givenName" (new_queryable Sample.Order) Hm)
                    eq_refl) as H.
  assert (Hplain : forall nested,
             testNestedAttribute (Sample.runtime []) "customer/givenName" = Some nested ->
             regexp_exec (Sample.runtime []) "/^(\w+)\((\w+)\/(\w+)\)$/i" (am_name nested)
             = None
             /\ regexp_exec (Sample.runtime []) "/^(\w+)\((\w+)\/(\w+)\/(\w+)\)$/i"
                  (am_name nested) = None).
  { intros nested Hn. vm_compute in Hn. inversion Hn; subst. split; reflexivity. }
  specialize (H Hplain).
  change (order_with (Sample.runtime []) (Sample.ordered Asc) "customer/givenName"
            (new_queryable Sample.Order))
    with (orderBy (Sample.runtime []) Sample.ordering "customer/givenName"
            (new_queryable Sample.Order)) in H.
  destruct (orderBy (Sample.runtime []) Sample.ordering "customer/givenName"
              (new_queryable Sample.Order)) as [e|o] eqn:Eo;
    [vm_compute in Eo; discriminate Eo|].
  destruct (where_ (Sample.runtime []) "customer/givenName" (new_queryable Sample.Order))
    as [e|w] eqn:Ew; [destruct H|].
  exists o, w. split; [reflexivity|]. split; [reflexivity|]. split; [exact (proj1 H)|].
  vm_compute in Eo. inversion Eo. reflexivity.
Defined.

(** ** The methods of the model *)

Lemma names_expansion (m : DataModel) (chosen : list DataField) :
  (forall x, In x chosen -> field m (f_name x) = Some x) ->
  flat_map (item_expansion m) (map SelString (map f_name chosen))
  = map f_name (List.filter many_or_junction chosen).
Proof.
  induction chosen as [|x chosen IH]; intros Hf; simpl; [reflexivity|].
  rewrite (Hf x (or_introl eq_refl)).
  destruct (many_or_junction x); simpl; rewrite IH; auto.
  all: intros y Hy; apply Hf; now right.
Qed.

Lemma names_projection (rt : Runtime) (m : DataModel) (chosen : list DataField) :
  (forall x, In x chosen -> field m (f_name x) = Some x) ->
  forall outs,
    Forall2 (item_projection rt m) (map SelString (map f_name chosen)) outs ->
    Forall2 (projected rt m) (List.filter scalar chosen) (concat outs).
Proof.
  induction chosen as [|x chosen IH]; intros Hf outs H; simpl in *.
  - inversion H; subst. constructor.
  - inversion H as [|? out ? outs' Hx Hrest]; subst. simpl.
    unfold item_projection in Hx. rewrite (Hf x (or_introl eq_refl)) in Hx.
    unfold scalar at 1. destruct (many_or_junction x); simpl.
    + subst out. simpl. apply IH; auto.
    + destruct Hx as (s1 & s2 & qf & Hm & Hq & ->). simpl. constructor.
      * exists s1, s2. now split.
      * apply IH; auto.
Qed.

(** X17.  The methods of the model start a queryable and call its method
    of the same name, with three particulars.  [take] reads a limit of [0]
    as 25.  [orderByDescending] calls [orderBy]: it orders as [orderBy]
    does.  [first] and [all] select every attribute of the model by name
    before they execute, so every collection of the model goes to the
    expand list, whether it is expandable or not, and the other attributes
    are projected. *)
Theorem methods_of_the_model (rt : Runtime) (pkg : QueryOrdering) (m : DataModel) :
  OfModel.take m (Some 0%Z) = OfModel.take m (Some 25%Z)
  /\ OfModel.take m None = OfModel.take m (Some 25%Z)
  /\ (forall attr, OfModel.orderByDescending rt pkg m attr = OfModel.orderBy rt pkg m attr)
  /\ (forall self,
        (forall x, In x (attributes m) -> field m (f_name x) = Some x) ->
        (forall s, OfModel.attributeNames m = [s] -> dataviews rt m s = None) ->
        OfModel.selected rt m = inr self ->
        d_expand self
        = pushed None (map f_name (List.filter many_or_junction (attributes m)))
        /\ (exists proj,
               q_select (query self) = Some proj
               /\ Forall2 (projected rt m) (List.filter scalar (attributes m)) proj)
        /\ OfModel.first rt m = firstInternal rt self
        /\ OfModel.all rt m = allInternal rt self).
Proof.
  split; [reflexivity|]. split; [reflexivity|]. split; [reflexivity|].
  intros self Hnames Hview H.
  assert (Hrun : forall (k : DataQueryable -> Run (Value * DataQueryable)),
             (s <- lift (OfModel.selected rt m) ;; k s) = k self).
  { intros k. rewrite H. simpl. destruct (k self) as [t r]. reflexivity. }
  unfold OfModel.selected, OfModel.attributeNames in H.
  apply select_items in H.
  - destruct H as (outs & Hp & Hsel & He). simpl in Hp, He.
    split; [rewrite He; f_equal; now apply names_expansion|].
    split; [|split; apply Hrun].
    exists (concat outs). split; [exact Hsel|]. now apply names_projection.
  - intros s Hs. simpl. apply Hview. unfold OfModel.attributeNames.
    destruct (attributes m) as [|x [|y l]]; simpl in *; try discriminate Hs.
    now inversion Hs.
Qed.

(** X17 on the people: [tags], which is not expandable, is expanded by
    [all] as [orders] is. *)
Lemma methods_of_the_model_witness :
  exists self,
    OfModel.selected (Sample.runtime []) Sample.Person = inr self
    /\ d_expand self = Some [EString "orders"; EString "tags"]
    /\ OfModel.all (Sample.runtime []) Sample.Person = allInternal (Sample.runtime []) self.
Proof.
  destruct (OfModel.selected (Sample.runtime []) Sample.Person) as [e|self] eqn:E;
    [vm_compute in E; discriminate E|].
  exists self. split; [reflexivity|].
  assert (Hnames : forall x, In x (attributes Sample.Person) ->
                             field Sample.Person (f_name x) = Some x).
  { intros x Hx. simpl in Hx.
    repeat (destruct Hx as [<-|Hx]; [reflexivity|]). destruct Hx. }
  assert (Hview : forall s, OfModel.attributeNames Sample.Person = [s] ->
                            dataviews (Sample.runtime []) Sample.Person s = None).
  { intros s Hs. reflexivity. }
  destruct (proj2 (proj2 (proj2 (methods_of_the_model (Sample.runtime []) Sample.ordering
                                    Sample.Person)))
              self Hnames Hview E) as (Hx & _ & _ & Hall).
  split; [exact Hx|exact Hall].
Defined.

(* ===================================================================== *)
(** ** The attributes of a model *)
(* ===================================================================== *)

Lemma attributes_step (fuel : nat) (ctx : Schema.Context) (self baseModel : Schema.ModelDefinition)
    (baseAttributes : list Schema.FieldDefinition) :
  Schema.base ctx self = Some baseModel ->
  Schema.attributes fuel ctx baseModel = inr baseAttributes ->
  Schema.attributes (S fuel) ctx self
  = inr (Schema.attributes_over ctx self (Some baseAttributes)).
Proof.
  intros Hb Ha. cbn [Schema.attributes]. rewrite Hb.
  cbn [bind ret Monad_Result]. rewrite Ha. reflexivity.
Qed.

Lemma attributes_root (fuel : nat) (ctx : Schema.Context) (self : Schema.ModelDefinition) :
  Schema.base ctx self = None ->
  Schema.attributes (S fuel) ctx self = inr (Schema.attributes_over ctx self None).
Proof.
  intros Hb. cbn [Schema.attributes]. rewrite Hb. reflexivity.
Qed.

Lemma attribute_name (ctx : Schema.Context) (self : Schema.ModelDefinition)
    (baseAttributes : option (list Schema.FieldDefinition)) (x : Schema.FieldDefinition) :
  Schema.fd_name (Schema.attribute ctx self baseAttributes x) = Schema.fd_name x.
Proof.
  unfold Schema.attribute.
  destruct baseAttributes as [attrs|]; [|reflexivity].
  destruct (negb _); [|reflexivity].
  destruct (Schema.field_in _ _); reflexivity.
Qed.

Lemma attribute_names (ctx : Schema.Context) (self : Schema.ModelDefinition)
    (baseAttributes : option (list Schema.FieldDefinition)) (l : list Schema.FieldDefinition) :
  field_names (map (Schema.attribute ctx self baseAttributes) l) = field_names l.
Proof.
  unfold field_names. rewrite map_map. apply map_ext. intros x. apply attribute_name.
Qed.

Lemma overridden_spec (l : list Schema.FieldDefinition) (n : string) :
  existsb (fun y => Schema.fd_name y =? n) l = true <-> In n (field_names l).
Proof.
  unfold field_names. rewrite existsb_exists, in_map_iff. split.
  - intros (y & Hy & E). apply String.eqb_eq in E. exists y. split; assumption.
  - intros (y & E & Hy). exists y. split; [assumption|]. apply String.eqb_eq. exact E.
Qed.

Lemma inherited_spec (self : Schema.ModelDefinition) (l : list Schema.FieldDefinition)
    (x : Schema.FieldDefinition) :
  In x (Schema.inherited self l)
  <-> In x l /\ Schema.is_true (Schema.fd_primary x) = false
      /\ ~ In (Schema.fd_name x) (field_names (Schema.md_fields self)).
Proof.
  unfold Schema.inherited. rewrite filter_In, andb_true_iff, !negb_true_iff.
  rewrite <- overridden_spec.
  destruct (existsb _ _); intuition congruence.
Qed.

Lemma filter_names_unique (p : Schema.FieldDefinition -> bool) (l : list Schema.FieldDefinition) :
  NoDup (field_names l) -> NoDup (field_names (List.filter p l)).
Proof.
  unfold field_names. induction l as [|x r IH]; simpl; intros H; [constructor|].
  inversion H as [|? ? Hn Hr]; subst.
  destruct (p x); simpl; [constructor|]; auto.
  intros Hin. apply Hn. apply in_map_iff in Hin. destruct Hin as (y & E & Hy).
  apply in_map_iff. exists y. split; [exact E|]. apply filter_In in Hy. tauto.
Qed.

(** X18.  The attributes of a model that has a base model are its own
    fields, in their order, followed by the attributes of the base model
    that are not primary and that no own field overrides by name, in their
    order.  So every attribute of the base model that is not primary is
    there by name, an attribute of the base model that is primary is never
    inherited, and names are unique when they are among the own fields and
    among the attributes of the base model. *)
Theorem attributes_of_a_derived_model (fuel : nat) (ctx : Schema.Context)
    (self baseModel : Schema.ModelDefinition) (baseAttributes : list Schema.FieldDefinition) :
  Schema.base ctx self = Some baseModel ->
  Schema.attributes fuel ctx baseModel = inr baseAttributes ->
  exists attrs,
    Schema.attributes (S fuel) ctx self = inr attrs
    /\ field_names attrs
       = (field_names (Schema.md_fields self)
          ++ field_names (Schema.inherited self baseAttributes))%list
    /\ (forall x, In x baseAttributes -> Schema.is_true (Schema.fd_primary x) = false ->
                  In (Schema.fd_name x) (field_names attrs))
    /\ (forall a, In a attrs ->
                  In (Schema.fd_name a) (field_names (Schema.md_fields self))
                  \/ (In a baseAttributes /\ Schema.is_true (Schema.fd_primary a) = false))
    /\ (NoDup (field_names (Schema.md_fields self)) -> NoDup (field_names baseAttributes) ->
        NoDup (field_names attrs)).
Proof.
  intros Hb Ha. eexists. split; [exact (@attributes_step fuel ctx self baseModel baseAttributes Hb Ha)|].
  assert (Hn : field_names (Schema.attributes_over ctx self (Some baseAttributes))
               = (field_names (Schema.md_fields self)
                  ++ field_names (Schema.inherited self baseAttributes))%list).
  { unfold Schema.attributes_over, field_names. rewrite map_app.
    f_equal. apply attribute_names. }
  split; [exact Hn|]. split; [|split].
  - intros x Hx Hp. rewrite Hn. apply in_or_app.
    destruct (existsb (fun y => Schema.fd_name y =? Schema.fd_name x) (Schema.md_fields self))
      eqn:E.
    + left. apply overridden_spec. exact E.
    + right. unfold field_names. apply in_map. apply inherited_spec.
      split; [exact Hx|]. split; [exact Hp|].
      intros Hin. apply overridden_spec in Hin. congruence.
  - intros a Hin. unfold Schema.attributes_over in Hin. apply in_app_or in Hin.
    destruct Hin as [Hin|Hin].
    + left. apply in_map_iff in Hin. destruct Hin as (x & E & Hx). subst a.
      rewrite attribute_name. unfold field_names. apply in_map. exact Hx.
    + right. apply inherited_spec in Hin. tauto.
  - intros Hown Hbase. rewrite Hn.
    assert (Hi : NoDup (field_names (Schema.inherited self baseAttributes)))
      by (apply filter_names_unique; exact Hbase).
    assert (Hd : forall n, In n (field_names (Schema.inherited self baseAttributes)) ->
                           ~ In n (field_names (Schema.md_fields self))).
    { intros n Hin. unfold field_names in Hin. apply in_map_iff in Hin.
      destruct Hin as (x & E & Hx). subst n. apply inherited_spec in Hx. tauto. }
    revert Hd Hown Hi.
    generalize (field_names (Schema.inherited self baseAttributes)) as more.
    generalize (field_names (Schema.md_fields self)) as mine.
    intros mine more. revert more.
    induction mine as [|n r IH]; simpl; intros more Hd Hown Hi; [exact Hi|].
    inversion Hown as [|? ? Hn' Hr]; subst. constructor.
    + intros Hin. apply in_app_or in Hin. destruct Hin as [Hin|Hin]; [tauto|].
      apply (Hd n Hin). left. reflexivity.
    + apply IH; [|exact Hr|exact Hi]. intros k Hk Hin. apply (Hd k Hk). right. exact Hin.
Qed.

(** X18 on [Person], which inherits from [Party], which inherits from
    [Thing]. *)
Lemma attributes_of_a_derived_model_witness :
  exists attrs,
    Schema.attributes 3 Shop.context Shop.Person = inr attrs
    /\ field_names attrs
       = ["id"; "orders"; "favourites"; "employer"; "name"; "address"; "members"; "tags"].
Proof.
  assert (Hb : Schema.base Shop.context Shop.Person = Some Shop.Party) by reflexivity.
  destruct (Schema.attributes 2 Shop.context Shop.Party) as [e|baseAttributes] eqn:Ha.
  - vm_compute in Ha. discriminate Ha.
  - destruct (@attributes_of_a_derived_model 2 Shop.context Shop.Person Shop.Party
                baseAttributes Hb Ha) as (attrs & H1 & H2 & _).
    exists attrs. split; [exact H1|]. rewrite H2.
    vm_compute in Ha. injection Ha as <-. vm_compute. reflexivity.
Defined.

Lemma find_app {A : Type} (p : A -> bool) (a b : list A) :
  find p (a ++ b) = match find p a with
                    | Some x => Some x
                    | None => find p b
                    end.
Proof.
  induction a as [|x r IH]; simpl; [reflexivity|]. destruct (p x); [reflexivity|exact IH].
Qed.

Lemma find_map {A B : Type} (p : B -> bool) (f : A -> B) (l : list A) :
  find p (map f l) = option_map f (find (fun x => p (f x)) l).
Proof.
  induction l as [|x r IH]; simpl; [reflexivity|]. destruct (p (f x)); [reflexivity|exact IH].
Qed.

Lemma find_among {A : Type} (p q : A -> bool) (l : list A) :
  (forall x, In x l -> p x = q x) -> find p l = find q l.
Proof.
  induction l as [|x r IH]; simpl; intros H; [reflexivity|].
  rewrite (H x (or_introl eq_refl)). destruct (q x); [reflexivity|].
  apply IH. intros y Hy. apply H. right. exact Hy.
Qed.

Lemma find_none_all {A : Type} (p : A -> bool) (l : list A) :
  (forall x, In x l -> p x = false) -> find p l = None.
Proof.
  induction l as [|x r IH]; simpl; intros H; [reflexivity|].
  rewrite (H x (or_introl eq_refl)). apply IH. intros y Hy. apply H. right. exact Hy.
Qed.

Lemma attribute_primary (ctx : Schema.Context) (self : Schema.ModelDefinition)
    (baseAttributes : list Schema.FieldDefinition) (x : Schema.FieldDefinition) :
  Schema.is_true (Schema.fd_primary (Schema.attribute ctx self (Some baseAttributes) x))
  = Schema.is_true (Schema.fd_primary x) || takes_key_from baseAttributes x.
Proof.
  unfold Schema.attribute, takes_key_from. destruct x as [n p t m e h [[|]|] mp o c]; simpl;
    try reflexivity;
    destruct (Schema.field_in baseAttributes n); reflexivity.
Qed.

Lemma root_attribute (ctx : Schema.Context) (self : Schema.ModelDefinition)
    (x : Schema.FieldDefinition) :
  Schema.is_true (Schema.fd_primary (Schema.attribute ctx self None x))
  = Schema.is_true (Schema.fd_primary x).
Proof. reflexivity. Qed.

(** X19.  The key of a model is looked up among the attributes that come
    from its own fields: a primary attribute of the base model is never
    inherited.  Without a base model, [key()] is the field that
    [primaryKey] names.  With one, [key()] is the first own field that is
    primary, or that declares again, without saying whether it is primary,
    an attribute that the base model holds as primary; [key()] and
    [primaryKey] agree unless there is such a field. *)
Theorem key_of_a_model (fuel : nat) (ctx : Schema.Context) (self : Schema.ModelDefinition) :
  (Schema.base ctx self = None ->
   exists attrs,
     Schema.attributes (S fuel) ctx self = inr attrs
     /\ option_map Schema.fd_name (Schema.key attrs) = Schema.primaryKey self)
  /\ (forall baseModel baseAttributes,
        Schema.base ctx self = Some baseModel ->
        Schema.attributes fuel ctx baseModel = inr baseAttributes ->
        exists attrs,
          Schema.attributes (S fuel) ctx self = inr attrs
          /\ Schema.key attrs
             = option_map (Schema.attribute ctx self (Some baseAttributes))
                 (find (fun x => Schema.is_true (Schema.fd_primary x)
                                 || takes_key_from baseAttributes x)
                       (Schema.md_fields self))
          /\ (forallb (fun x => negb (takes_key_from baseAttributes x)) (Schema.md_fields self)
              = true ->
              option_map Schema.fd_name (Schema.key attrs) = Schema.primaryKey self)).
Proof.
  split.
  - intros Hb. eexists. split; [exact (@attributes_root fuel ctx self Hb)|].
    unfold Schema.key, Schema.attributes_over, Schema.primaryKey.
    rewrite app_nil_r, find_map.
    destruct (find _ (Schema.md_fields self)) as [p|]; reflexivity.
  - intros baseModel baseAttributes Hb Ha. eexists.
    split; [exact (@attributes_step fuel ctx self baseModel baseAttributes Hb Ha)|].
    assert (Hk : Schema.key (Schema.attributes_over ctx self (Some baseAttributes))
                 = option_map (Schema.attribute ctx self (Some baseAttributes))
                     (find (fun x => Schema.is_true (Schema.fd_primary x)
                                     || takes_key_from baseAttributes x)
                           (Schema.md_fields self))).
    { unfold Schema.key, Schema.attributes_over. rewrite find_app, find_map.
      rewrite (@find_among _ _ (fun x => Schema.is_true (Schema.fd_primary x)
                                         || takes_key_from baseAttributes x)
                           (Schema.md_fields self)
                           (fun x _ => attribute_primary ctx self baseAttributes x)).
      destruct (find _ (Schema.md_fields self)); [reflexivity|]. cbn [option_map].
      apply find_none_all. intros x Hx. apply inherited_spec in Hx. tauto. }
    split; [exact Hk|]. intros Hno. rewrite Hk. clear Hk. unfold Schema.primaryKey.
    rewrite (@find_among _ (fun x => Schema.is_true (Schema.fd_primary x)
                                     || takes_key_from baseAttributes x)
                         (fun x => Schema.is_true (Schema.fd_primary x))).
    + destruct (find _ (Schema.md_fields self)) as [p|]; [|reflexivity].
      cbn [option_map]. rewrite attribute_name. reflexivity.
    + intros x Hx. rewrite forallb_forall in Hno. specialize (Hno x Hx).
      apply negb_true_iff in Hno. rewrite Hno. apply orb_false_r.
Qed.

(** X19 on [Visitor], which declares [id] again without saying that it is
    primary: [key()] is that field, made primary by the base model, while
    [primaryKey] is undefined. *)
Lemma key_of_a_model_witness :
  exists attrs key,
    Schema.attributes 3 Shop.context Shop.Visitor = inr attrs
    /\ Schema.key attrs = Some key
    /\ Schema.fd_name key = "id"
    /\ Schema.primaryKey Shop.Visitor = None.
Proof.
  assert (Hb : Schema.base Shop.context Shop.Visitor = Some Shop.Party) by reflexivity.
  destruct (Schema.attributes 2 Shop.context Shop.Party) as [e|baseAttributes] eqn:Ha.
  - vm_compute in Ha. discriminate Ha.
  - destruct (proj2 (key_of_a_model 2 Shop.context Shop.Visitor) Shop.Party baseAttributes Hb Ha)
      as (attrs & H1 & H2 & _).
    vm_compute in Ha. injection Ha as <-.
    exists attrs. eexists. split; [exact H1|]. split; [rewrite H2; vm_compute; reflexivity|].
    split; reflexivity.
Defined.

(* ===================================================================== *)
(** ** The associations that a model infers *)
(* ===================================================================== *)

Lemma assoc_set_key {A : Type} (k : string) (v : A) (l : list (string * A)) :
  assoc k (Schema.set_key k v l) = Some v.
Proof.
  induction l as [|[k' v'] r IH]; simpl.
  - rewrite String.eqb_refl. reflexivity.
  - destruct (k' =? k) eqn:E; simpl; rewrite E; [reflexivity|exact IH].
Qed.

Lemma assoc_set_other {A : Type} (k k0 : string) (v : A) (l : list (string * A)) :
  k0 <> k -> assoc k0 (Schema.set_key k v l) = assoc k0 l.
Proof.
  intros Hne. induction l as [|[k' v'] r IH]; simpl.
  - destruct (k =? k0) eqn:E; [|reflexivity]. apply String.eqb_eq in E. congruence.
  - destruct (k' =? k) eqn:E; simpl.
    + apply String.eqb_eq in E. subst k'.
      destruct (k =? k0) eqn:E0; [|reflexivity]. apply String.eqb_eq in E0. congruence.
    + destruct (k' =? k0); [reflexivity|exact IH].
Qed.

(** The loop of [getSuperTypes] ends when the getter of the attributes
    returns: both follow the same chain of models. *)
Lemma super_types_end (ctx : Schema.Context) (fuel : nat) :
  forall (self : Schema.ModelDefinition) (attrs : list Schema.FieldDefinition)
         (result : list string),
    Schema.attributes fuel ctx self = inr attrs ->
    exists superTypes,
      Schema.super_types fuel ctx (Schema.base ctx self) result = Some superTypes.
Proof.
  induction fuel as [|fuel IH]; intros self attrs result H; [discriminate H|].
  cbn [Schema.attributes] in H.
  destruct (Schema.base ctx self) as [b|] eqn:Hb.
  - cbn [Schema.super_types].
    destruct (Schema.attributes fuel ctx b) as [e|battrs] eqn:Ha; [discriminate H|].
    exact (IH b battrs _ Ha).
  - exists result. reflexivity.
Qed.

Lemma inferMapping_miss (fuel : nat) (ctx : Schema.Context) (self : Schema.ModelDefinition)
    (conf : Schema.Configuration) (name : string) (f : Schema.FieldDefinition) :
  cached_as conf name = None ->
  Schema.prototype_member name = false ->
  Schema.field fuel ctx self name = inr (Some f) ->
  Schema.inferMapping fuel ctx self (Some conf) name
  = match Schema.fd_mapping f with
    | Some o => Schema.declared fuel ctx self (opened conf) name f o
    | None => Schema.inferred fuel ctx self (opened conf) name f
    end.
Proof.
  unfold cached_as, Schema.inferMapping. intros Hc Hp Hf.
  change (Schema.cached (Schema.mkConfiguration (Schema.conf_fields conf)
                           (Some (Schema.cached conf)))) with (Schema.cached conf).
  rewrite Hc, Hp. cbn [bind Monad_Result]. rewrite Hf. reflexivity.
Qed.

Lemma declared_caches (fuel : nat) (ctx : Schema.Context) (self : Schema.ModelDefinition)
    (conf conf' : Schema.Configuration) (name : string) (f : Schema.FieldDefinition)
    (o : Schema.MappingObject) (m : option DataAssociationMapping) :
  Schema.declared fuel ctx self conf name f o = inr (m, Some conf') ->
  exists r, m = Some r /\ conf' = Schema.cache name r conf.
Proof.
  unfold Schema.declared, Schema.declared_as_it_is. intros H.
  repeat (case_in H; try discriminate H);
    cbn [ret Monad_Result] in H; inversion H; subst; eexists; split; reflexivity.
Qed.

Lemma inferred_caches (fuel : nat) (ctx : Schema.Context) (self : Schema.ModelDefinition)
    (conf conf' : Schema.Configuration) (name : string) (f : Schema.FieldDefinition)
    (m : option DataAssociationMapping) :
  Schema.ctx_model ctx (Schema.fd_type f) <> None ->
  Schema.inferred fuel ctx self conf name f = inr (m, Some conf') ->
  exists r, m = Some r /\ conf' = Schema.cache name r conf.
Proof.
  unfold Schema.inferred. intros Hm H.
  destruct (Schema.ctx_model ctx (Schema.fd_type f)) as [am|]; [|congruence].
  destruct (Schema.attributes fuel ctx am) as [e|aattrs]; [discriminate H|].
  cbn [bind ret Monad_Result] in H.
  repeat (case_in H; try discriminate H);
    inversion H; subst; eexists; split; reflexivity.
Qed.

(** What [inferMapping] makes of a name that the cache does not hold and
    that [Object.prototype] answers to: the mapping that the constructor
    makes of that member, whatever the fields of the model; nothing is
    cached. *)
Lemma inferMapping_member (fuel : nat) (ctx : Schema.Context) (self : Schema.ModelDefinition)
    (conf : Schema.Configuration) (name : string) :
  cached_as conf name = None ->
  Schema.prototype_member name = true ->
  Schema.inferMapping fuel ctx self (Some conf) name
  = inr (Some (Schema.member_mapping ctx name), Some (opened conf)).
Proof.
  unfold cached_as, Schema.inferMapping. intros Hc Hproto.
  change (Schema.cached (Schema.mkConfiguration (Schema.conf_fields conf)
                           (Some (Schema.cached conf)))) with (Schema.cached conf).
  rewrite Hc, Hproto. reflexivity.
Qed.

(** X20.  A call of [inferMapping], for a name that the cache does not hold
    and that is no member of [Object.prototype], that finds a declared
    mapping, or that
    infers an association between two models, leaves the mapping that it
    returns in the cache of the configuration, under the name that was
    asked for, and changes nothing else.  From then on the name is
    answered from the cache, before the model is asked for the field: by
    the same mapping and without any change, whatever the model and the
    context have become. *)
Theorem a_mapping_is_inferred_once (fuel : nat) (ctx : Schema.Context)
    (self : Schema.ModelDefinition) (conf conf' : Schema.Configuration) (name : string)
    (f : Schema.FieldDefinition) (result : option DataAssociationMapping) :
  cached_as conf name = None ->
  Schema.prototype_member name = false ->
  Schema.field fuel ctx self name = inr (Some f) ->
  is_some (Schema.fd_mapping f) || is_some (Schema.ctx_model ctx (Schema.fd_type f)) = true ->
  Schema.inferMapping fuel ctx self (Some conf) name = inr (result, Some conf') ->
  exists m,
    result = Some m
    /\ cached_as conf' name = Some (Schema.Instance m)
    /\ (forall other, other <> name -> cached_as conf' other = cached_as conf other)
    /\ Schema.conf_fields conf' = Schema.conf_fields conf
    /\ forall fuel' ctx' self',
         Schema.inferMapping fuel' ctx' self' (Some conf') name = inr (Some m, Some conf').
Proof.
  intros Hc Hproto Hf Hk H. rewrite (@inferMapping_miss fuel ctx self conf name f Hc Hproto Hf) in H.
  assert (Hr : exists r, result = Some r /\ conf' = Schema.cache name r (opened conf)).
  { destruct (Schema.fd_mapping f) as [o|].
    - apply declared_caches in H. exact H.
    - apply inferred_caches in H; [exact H|].
      cbn [is_some orb] in Hk. destruct (Schema.ctx_model ctx (Schema.fd_type f));
        [discriminate|discriminate Hk]. }
  destruct Hr as (r & -> & ->). exists r. split; [reflexivity|].
  assert (Hnew : cached_as (Schema.cache name r (opened conf)) name = Some (Schema.Instance r))
    by (unfold cached_as; cbn; apply assoc_set_key).
  split; [exact Hnew|]. split; [|split; [reflexivity|]].
  - intros other Hne. unfold cached_as. cbn. apply assoc_set_other. exact Hne.
  - intros fuel' ctx' self'. unfold cached_as in Hnew. unfold Schema.inferMapping.
    change (Schema.cached (Schema.mkConfiguration
                             (Schema.conf_fields (Schema.cache name r (opened conf)))
                             (Some (Schema.cached (Schema.cache name r (opened conf))))))
      with (Schema.cached (Schema.cache name r (opened conf))).
    rewrite Hnew. reflexivity.
Qed.

(** X20 on the customer of an order. *)
Lemma a_mapping_is_inferred_once_witness :
  exists m conf',
    Schema.inferMapping 3 Shop.context Shop.Order (Some (Shop.configuration Shop.Order))
      "customer" = inr (Some m, Some conf')
    /\ cached_as conf' "customer" = Some (Schema.Instance m)
    /\ Schema.inferMapping 0 Shop.context Shop.Thing (Some conf') "customer"
       = inr (Some m, Some conf').
Proof.
  destruct (Schema.inferMapping 3 Shop.context Shop.Order (Some (Shop.configuration Shop.Order))
              "customer") as [e|[result [conf'|]]] eqn:H;
    [vm_compute in H; discriminate H| |vm_compute in H; discriminate H].
  destruct (Schema.field 3 Shop.context Shop.Order "customer") as [e|[f|]] eqn:Hf;
    [vm_compute in Hf; discriminate Hf| |vm_compute in Hf; discriminate Hf].
  assert (Hk : is_some (Schema.fd_mapping f)
               || is_some (Schema.ctx_model Shop.context (Schema.fd_type f)) = true)
    by (vm_compute in Hf; injection Hf as <-; reflexivity).
  destruct (@a_mapping_is_inferred_once 3 Shop.context Shop.Order
              (Shop.configuration Shop.Order) conf' "customer" f result eq_refl eq_refl Hf Hk H)
    as (m & -> & H1 & _ & _ & H2).
  exists m, conf'. split; [reflexivity|]. split; [exact H1|]. apply H2.
Defined.

Lemma honoured (ctx : Schema.Context) (given : DataAssociationMapping) :
  honours ctx ->
  let result := Schema.new_mapping ctx (Some given) in
  Schema.over (associationType given) (associationType result) = associationType result
  /\ Schema.over (associationAdapter given) (associationAdapter result)
     = associationAdapter result
  /\ Schema.over (parentModel given) (parentModel result) = parentModel result
  /\ Schema.over (parentField given) (parentField result) = parentField result
  /\ Schema.over (childModel given) (childModel result) = childModel result
  /\ Schema.over (childField given) (childField result) = childField result
  /\ Schema.over (refersTo given) (refersTo result) = refersTo result.
Proof.
  intros H result. specialize (H given). fold result in H. unfold Schema.assign_mapping in H.
  repeat split.
  - exact (f_equal associationType H).
  - exact (f_equal associationAdapter H).
  - exact (f_equal parentModel H).
  - exact (f_equal parentField H).
  - exact (f_equal childModel H).
  - exact (f_equal childField H).
  - exact (f_equal refersTo H).
Qed.

Lemma involves_parent (name : string) (m : DataAssociationMapping) :
  parentModel m = Some name -> involves name m = true.
Proof. unfold involves. intros ->. cbn [opt_eqb]. rewrite String.eqb_refl. reflexivity. Qed.

Lemma involves_child (name : string) (m : DataAssociationMapping) :
  childModel m = Some name -> involves name m = true.
Proof.
  unfold involves. intros ->. cbn [opt_eqb]. rewrite String.eqb_refl. apply orb_true_r.
Qed.

(** X21.  For a field without a declared mapping whose type is a model,
    under a name that the cache does not hold and that is no member of
    [Object.prototype],
    [inferMapping] always gives a mapping that has the model at one end,
    and it decides by the first attribute of the other model that has
    the model as its type.  If that attribute is a collection, the other
    model is the parent and the field the foreign key; if it is not, the
    model is the parent and that attribute the foreign key; without such
    an attribute the field is a junction when its name is a plural or it
    is a collection, and otherwise the foreign key of the other model. *)
Theorem association_of_an_undeclared_field (fuel : nat) (ctx : Schema.Context)
    (self other : Schema.ModelDefinition) (conf : Schema.Configuration) (name : string)
    (f : Schema.FieldDefinition) (others : list Schema.FieldDefinition) :
  honours ctx ->
  cached_as conf name = None ->
  Schema.prototype_member name = false ->
  Schema.field fuel ctx self name = inr (Some f) ->
  Schema.fd_mapping f = None ->
  Schema.ctx_model ctx (Schema.fd_type f) = Some other ->
  Schema.attributes fuel ctx other = inr others ->
  exists m conf',
    Schema.inferMapping fuel ctx self (Some conf) name = inr (Some m, Some conf')
    /\ involves (Schema.md_name self) m = true
    /\ match find (fun x => opt_eqb (Schema.fd_type x) (Some (Schema.md_name self))) others with
       | Some back =>
           associationType m = Some "association"
           /\ if Schema.is_true (Schema.fd_many back)
              then parentModel m = Some (Schema.md_name other)
                   /\ childModel m = Some (Schema.md_name self)
                   /\ childField m = Some (Schema.fd_name f)
              else parentModel m = Some (Schema.md_name self)
                   /\ childModel m = Some (Schema.md_name other)
                   /\ childField m = Some (Schema.fd_name back)
                   /\ refersTo m = Some (or_else (Schema.fd_property f) (Schema.fd_name f))
       | None =>
           if Schema.pluralExpression ctx (Schema.fd_name f) || Schema.is_true (Schema.fd_many f)
           then associationType m = Some "junction"
                /\ associationAdapter m
                   = Some (Schema.md_name self ++ Schema.upperFirst ctx (Schema.fd_name f))
                /\ parentModel m = Some (Schema.md_name self)
                /\ childModel m = Some (Schema.md_name other)
           else associationType m = Some "association"
                /\ parentModel m = Some (Schema.md_name other)
                /\ childModel m = Some (Schema.md_name self)
                /\ childField m = Some (Schema.fd_name f)
       end.
Proof.
  intros Hh Hc Hproto Hf Hm Ho Ha.
  rewrite (@inferMapping_miss fuel ctx self conf name f Hc Hproto Hf), Hm.
  unfold Schema.inferred. rewrite Ho, Ha. cbn [bind ret Monad_Result].
  destruct (find _ others) as [back|].
  - destruct (Schema.is_true (Schema.fd_many back));
      match goal with
      | |- context [Schema.new_mapping ctx (Some ?g)] =>
          destruct (honoured g Hh) as (H1 & H2 & H3 & H4 & H5 & H6 & H7);
          cbn [Schema.over associationType associationAdapter parentModel parentField
                 childModel childField refersTo] in *
      end;
      do 2 eexists; (split; [reflexivity|]); (split; [|repeat split; congruence]).
    + apply involves_child. congruence.
    + apply involves_parent. congruence.
  - destruct (Schema.pluralExpression ctx (Schema.fd_name f) || Schema.is_true (Schema.fd_many f));
      match goal with
      | |- context [Schema.new_mapping ctx (Some ?g)] =>
          destruct (honoured g Hh) as (H1 & H2 & H3 & H4 & H5 & H6 & H7);
          cbn [Schema.over associationType associationAdapter parentModel parentField
                 childModel childField refersTo] in *
      end;
      do 2 eexists; (split; [reflexivity|]); (split; [|repeat split; congruence]).
    + apply involves_parent. congruence.
    + apply involves_child. congruence.
Qed.

(** X21 on the customer of an order: the people have [orders], a
    collection, so the person is the parent and [customer] the foreign
    key. *)
Lemma association_of_an_undeclared_field_witness :
  exists m conf',
    Schema.inferMapping 3 Shop.context Shop.Order (Some (Shop.configuration Shop.Order))
      "customer" = inr (Some m, Some conf')
    /\ parentModel m = Some "Person"
    /\ childModel m = Some "Order"
    /\ childField m = Some "customer".
Proof.
  assert (Hh : honours Shop.context).
  { intros [a b c d e g h i j k]. unfold Schema.assign_mapping, Schema.over. cbn.
    destruct a, b, c, d, e, g, h, i, j, k; reflexivity. }
  destruct (Schema.field 3 Shop.context Shop.Order "customer") as [e|[f|]] eqn:Hf;
    [vm_compute in Hf; discriminate Hf| |vm_compute in Hf; discriminate Hf].
  destruct (Schema.attributes 3 Shop.context Shop.Person) as [e|others] eqn:Ha;
    [vm_compute in Ha; discriminate Ha|].
  assert (Hm : Schema.fd_mapping f = None)
    by (vm_compute in Hf; injection Hf as <-; reflexivity).
  assert (Ho : Schema.ctx_model Shop.context (Schema.fd_type f) = Some Shop.Person)
    by (vm_compute in Hf; injection Hf as <-; reflexivity).
  destruct (@association_of_an_undeclared_field 3 Shop.context Shop.Order Shop.Person
              (Shop.configuration Shop.Order) "customer" f others Hh eq_refl eq_refl Hf Hm Ho Ha)
    as (m & conf' & H1 & _ & H2).
  exists m, conf'. split; [exact H1|].
  vm_compute in Ha. injection Ha as <-. vm_compute in Hf. injection Hf as <-.
  cbn in H2. destruct H2 as (_ & H2). exact H2.
Defined.

Lemma inferMapping_declared (fuel : nat) (ctx : Schema.Context) (self : Schema.ModelDefinition)
    (conf : Schema.Configuration) (name : string) (f : Schema.FieldDefinition)
    (o : Schema.MappingObject) :
  cached_as conf name = None ->
  Schema.prototype_member name = false ->
  Schema.field fuel ctx self name = inr (Some f) ->
  Schema.fd_mapping f = Some o ->
  Schema.inferMapping fuel ctx self (Some conf) name
  = Schema.declared fuel ctx self (opened conf) name f o.
Proof.
  intros Hc Hproto Hf Hm. rewrite (@inferMapping_miss fuel ctx self conf name f Hc Hproto Hf), Hm.
  reflexivity.
Qed.

Lemma field_attributes (fuel : nat) (ctx : Schema.Context) (self : Schema.ModelDefinition)
    (name : string) (f : option Schema.FieldDefinition) :
  Schema.field fuel ctx self name = inr f ->
  exists attrs, Schema.attributes fuel ctx self = inr attrs /\ Schema.field_in attrs name = f.
Proof.
  unfold Schema.field. destruct (Schema.attributes fuel ctx self) as [e|attrs];
    cbn [bind ret Monad_Result]; intros H; [discriminate H|].
  exists attrs. split; [reflexivity|]. congruence.
Qed.

(** X22.  A declared association that the model inherits, and that names
    the model at neither end, is mapped on the model when one of its ends
    is a super type, and refused otherwise (the name of the field being one
    that the cache does not hold and that is no member of
    [Object.prototype]).  For an association the model
    always takes the place of the child, also when the super type is the
    parent, which stays the parent; for a junction the model takes the
    place of the super type. *)
Theorem association_of_an_inherited_field (fuel : nat) (ctx : Schema.Context)
    (self : Schema.ModelDefinition) (conf : Schema.Configuration) (name : string)
    (f : Schema.FieldDefinition) (o : Schema.MappingObject) :
  cached_as conf name = None ->
  Schema.prototype_member name = false ->
  Schema.field fuel ctx self name = inr (Some f) ->
  Schema.fd_mapping f = Some o ->
  opt_eqb (Schema.fd_model f) (Some (Schema.md_name self)) = false ->
  involves (Schema.md_name self) (Schema.properties o) = false ->
  exists superTypes,
    Schema.getSuperTypes fuel ctx self = Some superTypes
    /\ let declared := Schema.properties o in
       let copy := Schema.new_mapping ctx (Some declared) in
       let call := Schema.inferMapping fuel ctx self (Some conf) name in
       (associationType declared = Some "association" ->
        if Schema.among superTypes (childModel declared)
           || Schema.among superTypes (parentModel declared)
        then exists m conf',
               call = inr (Some m, Some conf')
               /\ childModel m = Some (Schema.md_name self)
               /\ parentModel m = parentModel copy
               /\ cached_as conf' name = Some (Schema.Instance m)
        else call = throw "EMAP: An inherited data association cannot be mapped.")
       /\ (associationType declared = Some "junction" ->
           if Schema.among superTypes (childModel declared)
           then exists m conf',
                  call = inr (Some m, Some conf')
                  /\ childModel m = Some (Schema.md_name self)
                  /\ parentModel m = parentModel copy
                  /\ cached_as conf' name = Some (Schema.Instance m)
           else if Schema.among superTypes (parentModel declared)
           then exists m conf',
                  call = inr (Some m, Some conf')
                  /\ parentModel m = Some (Schema.md_name self)
                  /\ childModel m = childModel copy
                  /\ cached_as conf' name = Some (Schema.Instance m)
           else call = throw "EMAP: An inherited data association cannot be mapped.").
Proof.
  intros Hc Hproto Hf Hm Hmodel Hinv.
  destruct (field_attributes _ _ _ _ Hf) as (attrs & Ha & _).
  destruct (@super_types_end ctx fuel self attrs [] Ha) as (superTypes & Hs).
  exists superTypes. split; [exact Hs|]. cbn zeta.
  rewrite (@inferMapping_declared fuel ctx self conf name f o Hc Hproto Hf Hm).
  unfold Schema.declared. rewrite Hmodel. cbn [negb].
  unfold involves in Hinv. apply orb_false_iff in Hinv. destruct Hinv as (Hp & Hch).
  rewrite Hch, Hp. cbn [orb]. unfold Schema.getSuperTypes in Hs |- *. rewrite Hs.
  split; intros Ht; rewrite Ht; cbn [opt_eqb String.eqb Ascii.eqb Bool.eqb].
  - destruct (Schema.among superTypes (childModel (Schema.properties o)));
      [|destruct (Schema.among superTypes (parentModel (Schema.properties o)))];
      cbn [orb]; try reflexivity;
      do 2 eexists; (split; [reflexivity|]); (split; [reflexivity|]);
      (split; [reflexivity|]); unfold cached_as; cbn; apply assoc_set_key.
  - destruct (Schema.among superTypes (childModel (Schema.properties o)));
      [|destruct (Schema.among superTypes (parentModel (Schema.properties o)))];
      try reflexivity;
      do 2 eexists; (split; [reflexivity|]); (split; [reflexivity|]);
      (split; [reflexivity|]); unfold cached_as; cbn; apply assoc_set_key.
Qed.

(** X22 on the members of a party, of which the party is the parent: for
    a person, the person is the child and the party still the parent. *)
Lemma association_of_an_inherited_field_witness :
  exists m conf',
    Schema.inferMapping 3 Shop.context Shop.Person (Some (Shop.configuration Shop.Person))
      "members" = inr (Some m, Some conf')
    /\ childModel m = Some "Person"
    /\ parentModel m = Some "Party".
Proof.
  destruct (Schema.field 3 Shop.context Shop.Person "members") as [e|[f|]] eqn:Hf;
    [vm_compute in Hf; discriminate Hf| |vm_compute in Hf; discriminate Hf].
  destruct (Schema.fd_mapping f) as [o|] eqn:Hm;
    [|vm_compute in Hf; injection Hf as <-; discriminate Hm].
  assert (Hmodel : opt_eqb (Schema.fd_model f) (Some (Schema.md_name Shop.Person)) = false)
    by (vm_compute in Hf; injection Hf as <-; reflexivity).
  assert (Hinv : involves (Schema.md_name Shop.Person) (Schema.properties o) = false)
    by (vm_compute in Hf; injection Hf as <-; cbn in Hm; injection Hm as <-; reflexivity).
  destruct (@association_of_an_inherited_field 3 Shop.context Shop.Person
              (Shop.configuration Shop.Person) "members" f o eq_refl eq_refl Hf Hm Hmodel Hinv)
    as (superTypes & Hs & H1 & _).
  vm_compute in Hs. injection Hs as <-.
  vm_compute in Hf. injection Hf as <-. cbn in Hm. injection Hm as <-.
  destruct (H1 eq_refl) as (m & conf' & Hcall & Hchild & Hparent & _).
  exists m, conf'. split; [exact Hcall|]. split; [exact Hchild|].
  rewrite Hparent. reflexivity.
Defined.

Lemma define_mapping_find (name : string) (tag : DataAssociationMapping)
    (l : list Schema.FieldDefinition) (x : Schema.FieldDefinition) :
  find (fun y => Schema.fd_name y =? name) l = Some x ->
  exists x',
    find (fun y => Schema.fd_name y =? name) (Schema.define_mapping name tag l) = Some x'
    /\ Schema.fd_mapping x' = Some (Schema.Instance tag)
    /\ Schema.fd_name x' = Schema.fd_name x.
Proof.
  induction l as [|y r IH]; simpl; intros H; [discriminate H|].
  destruct (Schema.fd_name y =? name) eqn:E.
  - inversion H; subst. eexists. simpl. rewrite E. split; [reflexivity|]. split; reflexivity.
  - simpl. rewrite E. apply IH. exact H.
Qed.

(** X23.  For a field without a declared mapping whose type is not a
    model, under a name that the cache does not hold and that is no member
    of [Object.prototype], [inferMapping] gives [null] and caches nothing,
    unless the field is a collection of a primitive type.  For that, the model needs
    a key and the configuration of the model a field of that name: without
    a key, and for a field that the model only inherits, the call ends in
    a [TypeError].  Otherwise the result is a junction named after the
    model and the field; it is not cached under the name but written into
    the field of the configuration. *)
Theorem mapping_of_a_collection_of_values (fuel : nat) (ctx : Schema.Context)
    (self : Schema.ModelDefinition) (conf : Schema.Configuration) (name : string)
    (attrs : list Schema.FieldDefinition) (f : Schema.FieldDefinition) :
  cached_as conf name = None ->
  Schema.prototype_member name = false ->
  Schema.attributes fuel ctx self = inr attrs ->
  Schema.field_in attrs name = Some f ->
  Schema.fd_mapping f = None ->
  Schema.ctx_model ctx (Schema.fd_type f) = None ->
  let call := Schema.inferMapping fuel ctx self (Some conf) name in
  if Schema.is_true (Schema.fd_many f) && Schema.primitive ctx (Schema.fd_type f) then
    match Schema.key attrs with
    | None => call = throw "TypeError: Cannot read property 'name' of undefined"
    | Some primaryKey =>
        match find (fun x => Schema.fd_name x =? Schema.fd_name f) (Schema.conf_fields conf) with
        | None => call = throw "TypeError: Cannot set property 'mapping' of undefined"
        | Some _ =>
            exists m tag conf' definition,
              call = inr (Some m, Some conf')
              /\ Schema.mappings_ conf' = Some (Schema.cached conf)
              /\ find (fun x => Schema.fd_name x =? Schema.fd_name f) (Schema.conf_fields conf')
                 = Some definition
              /\ Schema.fd_mapping definition = Some (Schema.Instance tag)
              /\ m = Schema.new_mapping ctx (Some tag)
              /\ (honours ctx ->
                  associationType m = Some "junction"
                  /\ associationAdapter m
                     = Some (Schema.md_name self ++ Schema.upperFirst ctx (Schema.fd_name f))
                  /\ parentModel m = Some (Schema.md_name self)
                  /\ parentField m = Some (Schema.fd_name primaryKey)
                  /\ refersTo m = Some (Schema.fd_name f))
        end
    end
  else call = inr (None, Some (opened conf)).
Proof.
  intros Hc Hproto Ha Hfield Hm Ho call.
  assert (Hf : Schema.field fuel ctx self name = inr (Some f))
    by (unfold Schema.field; rewrite Ha; cbn [bind ret Monad_Result]; rewrite Hfield;
        reflexivity).
  assert (Hcall : call = Schema.inferred fuel ctx self (opened conf) name f)
    by (unfold call; rewrite (@inferMapping_miss fuel ctx self conf name f Hc Hproto Hf), Hm;
        reflexivity).
  rewrite Hcall. clear Hcall call. unfold Schema.inferred, Schema.inferTagMapping_.
  rewrite Ho. destruct (Schema.is_true (Schema.fd_many f)); cbn [andb negb]; [|reflexivity].
  destruct (Schema.primitive ctx (Schema.fd_type f)); cbn [negb]; [|reflexivity].
  rewrite Ha. cbn [bind ret Monad_Result].
  destruct (Schema.key attrs) as [primaryKey|]; [|reflexivity].
  cbn [opened Schema.conf_fields].
  destruct (find _ (Schema.conf_fields conf)) as [x|] eqn:Hx; [|reflexivity].
  destruct (define_mapping_find _
              (Schema.new_mapping ctx
                 (Some (mkMapping (Some "junction")
                          (Some (Schema.md_name self ++ Schema.upperFirst ctx (Schema.fd_name f)))
                          (Some (Schema.md_name self)) (Some (Schema.fd_name primaryKey))
                          None None (Some "delete") (Some (Schema.fd_name f)) None None)))
              _ Hx) as (x' & Hfind & Hmap & _).
  do 4 eexists. split; [reflexivity|]. split; [reflexivity|].
  split; [exact Hfind|]. split; [exact Hmap|]. split; [reflexivity|].
  intros Hh.
  match goal with
  | |- context [Schema.new_mapping ctx (Some (Schema.new_mapping ctx (Some ?g)))] =>
      destruct (honoured g Hh) as (H1 & H2 & H3 & H4 & _ & _ & H7);
      destruct (honoured (Schema.new_mapping ctx (Some g)) Hh)
        as (K1 & K2 & K3 & K4 & _ & _ & K7)
  end.
  cbn [Schema.over associationType associationAdapter parentModel parentField refersTo] in *.
  rewrite <- H1 in K1. rewrite <- H2 in K2. rewrite <- H3 in K3. rewrite <- H4 in K4.
  rewrite <- H7 in K7. cbn [Schema.over] in *.
  repeat split; congruence.
Qed.

(** X23 on the tags: a thing has them in a junction of its own, and a
    person, who only inherits them, cannot ask for their mapping. *)
Lemma mapping_of_a_collection_of_values_witness :
  Schema.inferMapping 3 Shop.context Shop.Person (Some (Shop.configuration Shop.Person)) "tags"
  = throw "TypeError: Cannot set property 'mapping' of undefined"
  /\ exists m conf',
       Schema.inferMapping 3 Shop.context Shop.Thing (Some (Shop.configuration Shop.Thing))
         "tags" = inr (Some m, Some conf')
       /\ associationAdapter m = Some "ThingTags"
       /\ cached_as conf' "tags" = None.
Proof.
  split.
  - destruct (Schema.attributes 3 Shop.context Shop.Person) as [e|attrs] eqn:Ha;
      [vm_compute in Ha; discriminate Ha|].
    destruct (Schema.field_in attrs "tags") as [f|] eqn:Hf;
      [|vm_compute in Ha; injection Ha as <-; discriminate Hf].
    assert (Hm : Schema.fd_mapping f = None)
      by (vm_compute in Ha; injection Ha as <-; vm_compute in Hf; injection Hf as <-;
          reflexivity).
    assert (Ho : Schema.ctx_model Shop.context (Schema.fd_type f) = None)
      by (vm_compute in Ha; injection Ha as <-; vm_compute in Hf; injection Hf as <-;
          reflexivity).
    pose proof (@mapping_of_a_collection_of_values 3 Shop.context Shop.Person
                  (Shop.configuration Shop.Person) "tags" attrs f eq_refl eq_refl Ha Hf Hm Ho) as H.
    vm_compute in Ha. injection Ha as <-. vm_compute in Hf. injection Hf as <-.
    exact H.
  - destruct (Schema.attributes 3 Shop.context Shop.Thing) as [e|attrs] eqn:Ha;
      [vm_compute in Ha; discriminate Ha|].
    destruct (Schema.field_in attrs "tags") as [f|] eqn:Hf;
      [|vm_compute in Ha; injection Ha as <-; discriminate Hf].
    assert (Hm : Schema.fd_mapping f = None)
      by (vm_compute in Ha; injection Ha as <-; vm_compute in Hf; injection Hf as <-;
          reflexivity).
    assert (Ho : Schema.ctx_model Shop.context (Schema.fd_type f) = None)
      by (vm_compute in Ha; injection Ha as <-; vm_compute in Hf; injection Hf as <-;
          reflexivity).
    pose proof (@mapping_of_a_collection_of_values 3 Shop.context Shop.Thing
                  (Shop.configuration Shop.Thing) "tags" attrs f eq_refl eq_refl Ha Hf Hm Ho) as H.
    vm_compute in Ha. injection Ha as <-. vm_compute in Hf. injection Hf as <-.
    cbn in H. destruct H as (m & tag & conf' & definition & H1 & _).
    exists m, conf'. split; [exact H1|].
    vm_compute in H1. injection H1 as <- <-. split; reflexivity.
Defined.

(* ===================================================================== *)
(** ** Joining a model *)
(* ===================================================================== *)

(** X24.  [join()] of nothing changes nothing.  [join(name)] fails when the
    context has no model of that name, and when the model has no attribute
    whose type is the joined model.  Of several such attributes the first
    decides, and it has to be a foreign key of the model: when the child
    field of its mapping is not an attribute of the model, as for a
    collection of which the model is the parent, the join fails for that
    field. *)
Theorem join_spec (rt : Runtime) (method : JoinMethod) (self : DataQueryable) :
  join rt method None self = inr self
  /\ (forall name,
        context_model rt name = None ->
        join rt method (Some name) self = throw ("The " ++ name ++ " model cannot be found"))
  /\ (forall name joinModel,
        context_model rt name = Some joinModel ->
        (forall x, In x (attributes (model self)) -> (f_type x =? m_name joinModel) = false) ->
        join rt method (Some name) self
        = throw ("An internal error occured. The association between "
                   ++ m_name (model self) ++ " and " ++ name ++ " cannot be found"))
  /\ (forall name joinModel x rest mapping c,
        context_model rt name = Some joinModel ->
        List.filter (fun x => f_type x =? m_name joinModel) (attributes (model self))
        = x :: rest ->
        inferMapping rt (model self) (f_name x) = inr (Some mapping) ->
        childField mapping = Some c ->
        field (model self) c = None ->
        regexp_exec rt "/(count|avg|sum|min|max)\((.*?)\)/i" c = None ->
        regexp_exec rt "/(\w+)\((.*?)\)/i" c = None ->
        regexp_exec rt "/^(\w+)\s+as\s+(.*?)$/i" c = None ->
        join rt method (Some name) self
        = throw ("The specified field " ++ c ++ " cannot be found in target model.")).
Proof.
  split; [reflexivity|]. split; [|split].
  - intros name Hm. unfold join, require. rewrite Hm. reflexivity.
  - intros name joinModel Hm Hno. unfold join, require. rewrite Hm.
    cbn [bind ret Monad_Result].
    assert (E : List.filter (fun x => f_type x =? m_name joinModel) (attributes (model self))
                = []).
    { induction (attributes (model self)) as [|y r IH]; [reflexivity|]. simpl.
      rewrite (Hno y (or_introl eq_refl)). apply IH. intros z Hz. apply Hno. right. exact Hz. }
    rewrite E. reflexivity.
  - intros name joinModel x rest mapping c Hm Hx Hi Hc Hf H1 H2 H3.
    unfold join, require. rewrite Hm. cbn [bind ret Monad_Result]. rewrite Hx, Hi.
    cbn [bind ret Monad_Result]. rewrite Hc. unfold fieldOf_any, fieldOf, require.
    rewrite H1, H2, H3, Hf. reflexivity.
Qed.

(** X24 on the people and the orders: the orders join the people through
    [customer], the first of their two attributes of that type, and the
    people cannot join the orders, of which they are the parent. *)
Lemma join_spec_witness :
  join (Sample.runtime []) Sample.joining (Some "Order") (new_queryable Sample.Person)
  = throw "The specified field customer cannot be found in target model."
  /\ (exists joined,
        join (Sample.runtime []) Sample.joining (Some "Person") (new_queryable Sample.Order)
        = inr joined)
  /\ join (Sample.runtime []) Sample.joining (Some "Group") (new_queryable Sample.Person)
     = throw "An internal error occured. The association between Person and Group cannot be found".
Proof.
  destruct (join_spec (Sample.runtime []) Sample.joining (new_queryable Sample.Person))
    as (_ & _ & H3 & H4).
  split; [|split].
  - exact (H4 "Order" Sample.Order Sample.orders []
              (Sample.association_ "Person" "id" "Order" "customer") "customer"
              eq_refl eq_refl eq_refl eq_refl eq_refl eq_refl eq_refl eq_refl).
  - eexists. vm_compute. reflexivity.
  - apply (H3 "Group" Sample.Group eq_refl). intros x Hx.
    vm_compute in Hx. repeat (destruct Hx as [<-|Hx]; [reflexivity|]). destruct Hx.
Defined.

(** X25.  [and] and [or] resolve their attribute as [where] does: they
    fail where [where] fails, with the same error, and otherwise leave the
    query with the same joins and the queryable with the same expand list,
    provided that the method of the query that is called does not touch
    the joins.  They never remove a join. *)
Theorem and_or_resolve_as_where (rt : Runtime) (method : QueryMethod) (attr : string)
    (self : DataQueryable) :
  (forall f q, q_expand (method f q) = q_expand q) ->
  match filter_with rt method attr self, where_ rt attr self with
  | inr combined, inr filtered =>
      q_expand (query combined) = q_expand (query filtered)
      /\ expansion combined = expansion filtered
      /\ keeps_joins self combined
  | inl e1, inl e2 => e1 = e2
  | _, _ => False
  end.
Proof.
  intros Hm. unfold filter_with.
  destruct (where_ rt attr self) as [e|filtered] eqn:Hw.
  - unfold where_ in Hw. destruct (Str.contains slash attr).
    + destruct (resolveNestedAttribute rt self attr) as [e'|[f s]];
        cbn [bind ret Monad_Result] in *; [congruence|discriminate Hw].
    + destruct (fieldOf rt self attr None) as [e'|[f s]];
        cbn [bind ret Monad_Result] in *; [congruence|discriminate Hw].
  - pose proof (where_keeps _ _ _ Hw) as Hk.
    unfold where_ in Hw. destruct (Str.contains slash attr).
    + destruct (resolveNestedAttribute rt self attr) as [e'|[f s]];
        cbn [bind ret Monad_Result] in *; [discriminate Hw|].
      inversion Hw; subst. split; [simpl; rewrite Hm; reflexivity|].
      split; [reflexivity|].
      destruct Hk as (more & Hk). exists more. unfold joined in *. simpl in *.
      rewrite Hm. exact Hk.
    + destruct (fieldOf rt self attr None) as [e'|[f s]];
        cbn [bind ret Monad_Result] in *; [discriminate Hw|].
      inversion Hw; subst. split; [simpl; rewrite Hm; reflexivity|].
      split; [reflexivity|].
      destruct Hk as (more & Hk). exists more. unfold joined in *. simpl in *.
      rewrite Hm. exact Hk.
Qed.

(** X25 on the orders: [or('customer/givenName')] joins the people as
    [where] does. *)
Lemma and_or_resolve_as_where_witness :
  exists combined filtered,
    or_ (Sample.runtime []) Sample.logic "customer/givenName" (new_queryable Sample.Order)
    = inr combined
    /\ where_ (Sample.runtime []) "customer/givenName" (new_queryable Sample.Order)
       = inr filtered
    /\ q_expand (query combined) = q_expand (query filtered)
    /\ List.length (joined combined) = 1%nat.
Proof.
  assert (Hm : forall f q, q_expand (set_left f q) = q_expand q) by reflexivity.
  pose proof (@and_or_resolve_as_where (Sample.runtime []) set_left "customer/givenName"
                (new_queryable Sample.Order) Hm) as H.
  change (filter_with (Sample.runtime []) set_left "customer/givenName"
            (new_queryable Sample.Order))
    with (or_ (Sample.runtime []) Sample.logic "customer/givenName"
            (new_queryable Sample.Order)) in H.
  destruct (or_ (Sample.runtime []) Sample.logic "customer/givenName"
              (new_queryable Sample.Order)) as [e|o] eqn:Eo;
    [vm_compute in Eo; discriminate Eo|].
  destruct (where_ (Sample.runtime []) "customer/givenName" (new_queryable Sample.Order))
    as [e|w] eqn:Ew; [destruct H|].
  exists o, w. split; [reflexivity|]. split; [reflexivity|]. split; [exact (proj1 H)|].
  vm_compute in Eo. inversion Eo. reflexivity.
Defined.
